(* ===== verification/_CoqProject ===== *)
-Q . S2P
Prelude.v
SbList.v
Atomics.v
Double.v
Options.v
Xoroshiro.v
Rand.v
Counter.v
Timer.v
Histogram.v
AtomicHistogram.v
Barrier.v
Threads.v
Shutdown.v
Reports.v
EventLoop.v
EventGen.v
CrcTable.v
Crc32.v
Fileio.v
FileioRun.v
FileioArgs.v
MemoryTest.v
CpuTest.v
ThreadTests.v
Db.v
Driver.v
Emulation.v
Mysql.v
Pgsql.v
Compare.v
CompareAlloc.v
Lua.v
LuaTest.v
SbInit.v
Logger.v
Startup.v
SbRun.v
Benchmark.v
Modes.v
Main.v
Tests.v
