(* ===== verification/Prelude.v ===== *)
(** * sysbench: a verification library

    sysbench runs benchmarks: it reads options, starts worker threads that execute
    events of a test, counts and times the events, and prints intermediate,
    checkpoint and final reports.  This library models the C code under [src/src]
    by hand-translated Rocq definitions and proves what the code relies on and
    what it promises.  Every definition keeps the name of the C function, type or
    variable it models; the theorems are stated about those definitions.

    ** The program and the files

    The parts, each with the files that model it and the C files they model:

    - data structures: [SbList] (the intrusive list macros of [sb_list.h]);
    - options: [Options] ([sb_options.c], and [parse_option],
      [parse_general_arguments] and [parse_test_arguments] of [sysbench.c]);
    - random numbers: [Double] (the C type [double]), [Xoroshiro]
      ([xoroshiro128plus.h]), [Rand] ([sb_rand.c]);
    - statistics: [Counter] ([sb_counter.c]), [Timer] ([sb_timer.c]), [Histogram]
      ([sb_histogram.c]), [Reports] (the report functions of [sysbench.c]);
    - atomic operations: [Atomics] ([sb_ck_pr.h], for platforms without native
      64-bit atomics), [AtomicHistogram] ([sb_histogram.c] on top of them);
    - threads: [Threads] (their creation, [sb_thread.c] and [run_test]), [Barrier]
      ([sb_barrier.c]), [Startup] ([worker_thread] and [threads_started_callback] of
      [sysbench.c]), [EventLoop] ([sb_more_events], [thread_run], the queue of
      [sysbench.c]), [EventGen] (when [eventgen_thread_proc] generates events),
      [Shutdown] (how [run_test] stops the report threads and prints the histogram);
    - the fileio test: [CrcTable] and [Crc32] ([crc32tbl.h], [crc32.c]), [Fileio],
      [FileioRun] and [FileioArgs] ([sb_fileio.c]);
    - the small tests: [MemoryTest] ([sb_memory.c], [sb_memalign] of [sb_util.c]),
      [CpuTest] ([sb_cpu.c]), [ThreadTests] ([sb_threads.c], [sb_mutex.c]);
    - the database layer: [Db] ([db_driver.c], [db_driver.h]); its drivers: [Driver]
      (statements, and the state monad the drivers are written in), [Emulation] (the
      loops that build the texts of statements), [Mysql] ([drv_mysql.c]), [Pgsql]
      ([drv_pgsql.c]), [Compare] ([drv_compare.c], which sends everything to several
      MySQL servers and compares the answers) and [CompareAlloc] (its arrays of
      statements and results, and its code that nothing calls);
    - scripts: [Lua] (what [sb_lua.c] does with one interpreter), [LuaTest] (the
      interpreters of the program and of its threads);
    - the logger: [Logger] ([sb_logger.c]);
    - the program: [SbInit] ([init] of [sysbench.c], [sb_thread.c]), [SbRun]
      ([run_test], [report_thread_proc] and [checkpoints_thread_proc]), [Benchmark]
      ([run_test] with its workers, step by step), [Modes] (what is printed before a
      test, by its reports and by --help), [Main] ([main]), [Tests] (the compiled-in
      tests as [main] registers them, and the cpu test from end to end).

    They interact as in the code.  [Main] registers and parses options ([Options])
    and calls [init] ([SbInit]), which fills the global variables that [Reports],
    [EventLoop] and [SbRun] read.  [SbRun.run_test] starts the threads, which meet
    at the barrier ([Startup] over [Barrier]); [EventLoop.thread_run] asks for
    events, times them ([Timer]) and counts them ([Counter], [Histogram]); the
    reports merge the per-thread data ([Reports]).  The tests supply the events:
    [Fileio] generates requests and [FileioRun] executes them, [MemoryTest],
    [CpuTest] and [ThreadTests] have both parts in one file; [Db] stands between
    scripts and the drivers, which are records of operations ([Mysql.mysql_ops],
    [Pgsql.pgsql_ops], [Compare.cmp_ops]); the first two promise what the class
    [Db.DriverLaws] asks of them.  [LuaTest] runs the operations of a script, each in
    the interpreter of its thread, by the definitions of [Lua].

    Two files put the parts together.  [Benchmark] gives [SbRun.run_test] workers
    that run the gate, the events and the accounting of [EventLoop], [Timer],
    [Counter] and [Histogram] one step at a time in any order; [Tests] instantiates
    it with the cpu test.  [AtomicHistogram] runs the merge of [Histogram] over the
    retry loops of [Atomics].

    ** How the code is modelled

    Machine integers are [Z] with the wrap-around written out ([u32], [u64], [s32],
    ... below); [double] is exact binary64 arithmetic ([Double]), except for the
    functions of the mathematical library, which are arguments (but [CpuTest.dsqrt],
    the correctly rounded square root, is computed).  Global variables
    are fields of records passed along ([Reports.world], [Options.option_t] lists,
    [FileioRun.os], [Db.db_world]).  Undefined behaviour is an explicit result
    ([None], [Undefined], [PUndefined]); so are failure, [exit] and a thread that
    blocks for ever.  Code that runs concurrently is a step relation or a list of
    atomic steps that may interleave freely ([Barrier.step], [Startup.sstep],
    [EventLoop.qstep], [Histogram.run_step], [Counter.run], [Benchmark.worker_step],
    [Atomics.thread_step], [Shutdown.step],
    [ThreadTests.Threads.tstep], [ThreadTests.Mutex.mstep]).  Code outside
    [src/src] is an argument or a class whose laws state what is documented of it:
    [EventLoop.Ring] (the ring buffer of Concurrency Kit), [FileioRun.Kernel] (the
    system calls), [Mysql.MysqlClient] with [Mysql.MysqlLaws], [Compare.CompareClient] with
    [Compare.StoredRows] and [Pgsql.Libpq] with [Pgsql.LibpqLaws] (the client
    libraries), [Lua.LuaApi] with [Lua.LuaLaws] (LuaJIT); each has an instance in its file, in
    memory, at which the theorems are witnessed.  [Db.DriverLaws] and [Db.QueryLaws]
    are interfaces between components: the layer's theorems are proved against them,
    [Mysql.mysql_laws] and [Pgsql.pgsql_laws] implement the first, the MySQL driver
    for clients that prepare no statements.  Readings of the clock are arguments.

    ** What is proved

    - The whole benchmark: with [--events=N], however the workers and the
      intermediate reports interleave, it ends, executes N events, returns 0 and, without
      checkpoint reports, which reset the counters, reports N; it fails exactly when a
      worker fails ([Benchmark]); for the cpu test this holds from the options on, and
      each event has counted the primes from 3 up to the limit, not included ([Tests]).
    - Ordering and atomicity: nobody passes a barrier early and it does not
      deadlock ([Barrier]); all workers and the main thread start or none does,
      only the event generator can give up alone ([Startup]); [--events] is exact
      under concurrency and the queue of the --rate mode is first-in first-out, through
      its ring of pointers and the array they point into ([EventLoop]); merging the histogram
      loses no concurrent update ([Histogram]), on the portable atomic operations too
      ([AtomicHistogram]), which are linearizable ([Atomics]); every thread is created
      once with its own context ([Threads]) and stopped without blocking the final report,
      unless --histogram prints an empty histogram ([Shutdown]); the event generator keeps to its schedule
      however late it is ([EventGen]).
    - Accounting: intermediate and cumulative reports state what happened since
      the previous one ([Counter], [Reports]), timers summarize the intervals
      recorded ([Timer]), every event is counted ([EventLoop]), warm-up events are
      not ([SbRun]), file operations and bytes are ([FileioRun]).
    - Time: intermediate reports do not drift, checkpoint reports come once, in
      order and on time ([SbRun]).
    - Data: list macros refine list operations and release loops are safe
      ([SbList]); option names stay unique, values are read back, sizes parse to
      their value ([Options]); a configuration that is accepted satisfies what the
      rest assumes ([SbInit], [FileioArgs]); the printed log determines what was
      logged ([Logger]).
    - Random numbers: the state never becomes zero, the jump is 2^64 steps
      ([Xoroshiro]); unique numbers are distinct; the distributions stay in range
      ([Rand]).
    - Files: requests cover the files as planned and stay inside them, written
      blocks validate, the checksum is CRC-32, the asynchronous queue is drained,
      creating files ends ([Fileio], [FileioRun], [Crc32]).
    - Small tests: the threads of the memory test share out [memory-total-size] and
      stay inside their blocks ([MemoryTest]); the cpu test counts exactly the primes
      from 3 up to its limit, not included ([CpuTest]); the threads test neither deadlocks nor runs for ever, the mutex
      test ends ([ThreadTests]).
    - Databases: each result set is released exactly once; a multi-row insert
      delivers every row once and in order within its buffer ([Db]); the drivers
      leak neither results nor connections as long as they are driven through the
      layer ([Mysql.mysql_results_released], [Pgsql.pgsql_connections_and_results]);
      emulated statements are the queries with the values put in, server-side ones
      send their values in order ([Mysql], [Pgsql], over [Emulation]); errors are
      classified as the options say and lost servers reconnected to ([Mysql]);
      connections are spread evenly over the addresses ([Mysql]); the comparing
      driver reports exactly the servers whose result differs from the first one's,
      as long as results fit its buffer ([Compare]).
    - Scripts: no interpreter is used after it has been closed, and those open are
      the ones that threads hold ([LuaTest]); a script finds every option with its
      value, and its functions leave the stack bounded ([Lua]).
    - Where the code does not do what it means to, a theorem says what it does:
      [EventLoop.rate_wait_defects], [EventLoop.slow_worker_misreads],
      [Startup.generator_failure_unnoticed], [Shutdown.checkpoint_before_print_blocks],
      [Db.long_row_overflows],
      [Db.insert_failure_hidden], [Mysql.stale_statement_reached],
      [Pgsql.null_parameter_reached], [Pgsql.long_parameter_overflows],
      [Compare.wide_column_overflows], [Compare.server_statement_undefined],
      [LuaTest.report_init_undefined], [SbInit.init_accepts_negative],
      [SbRun.histogram_of_nothing_blocks], [Rand.sb_rand_uniform_exceeds],
      [Options.written_option_renamed], [Fileio.rnd_request_defects],
      [MemoryTest.seq_write_skips_last], [MemoryTest.hugetlb_size_unaligned],
      [ThreadTests.Mutex.global_var_loses_updates],
      [Shutdown.killed_reporter_blocks], [Shutdown.late_reporter_survives],
      [CompareAlloc.multi_result_lifecycle], [EventGen.no_generator_no_events] and
      others.

    ** Bounds and fuel

    Loops over arrays are [for_upto], loops over lists structural.  The others
    take fuel, with a theorem that enough fuel gives the result ([Benchmark] and
    [Atomics] have schedules instead, and bound their length):
    [EventLoop.thread_run] needs one unit more than the events left,
    [FileioRun.create_files] one per block, [SbRun.catch_up] one more than the
    intervals missed, [CpuTest.cpu_execute_event] as many as the limit,
    [ThreadTests.Mutex.mutex_execute_event] one per round; the texts of statements
    take at most 25 growths of the buffer per character, after which its size wraps
    around ([Emulation.expand_ends]).  The loops that reconnect end when a number of
    attempts that is an argument has failed: that is when [sb_globals.error] is found
    set, and a run in which it never is either connects within some number of
    attempts or goes on for ever.  The rejection loop of [Rand.sb_rand_zipfian] ends at the
    first accepted attempt.  Theorems name the sizes they need: fewer than 2^32
    threads at a barrier, fewer than 2^64 events, blocks of at least 12 bytes.

    ** Not modelled

    What scripts do inside LuaJIT, and to the program through its FFI, is the calls of
    [Lua.LuaApi]; the workers of a custom command are run one after the other.  The
    MySQL drivers are modelled as compiled for a client library of MySQL 8; of the
    comparing driver [mysql_drv_dql_cmp] is empty and [mysql_drv_dml_cmp] ends where it
    reads a pointer that nothing has assigned.  Texts are modelled up to the conversion
    of doubles by printf.  Alarms and the releases at the end of [main] are left out:
    they neither return to the program nor leave state that it reads.  In [Benchmark] the
    --rate mode, the time limit and the warm-up are excluded by hypothesis, and the
    checkpoint reports where the events of the final report are counted; [EventLoop]
    and [SbRun] treat them separately.  A report is one step of [Benchmark]; the
    background threads are followed to the start of their work in [Startup] and from
    the end of the workers in [Shutdown], where cancelling a thread does not fail.  Memory is sequentially consistent: the
    barriers and fences of Concurrency Kit are no steps.  Allocations succeed unless a
    definition has an argument for them.  The vendored libraries and the Lua
    benchmarks are not part of the model. *)

From Stdlib Require Export ZArith Lia Ascii.
From stdpp Require Export base list list_numbers gmap strings relations.
From stdpp Require Import pretty.

#[global] Open Scope Z_scope.

(** ** Machine integers

    A C integer of width [w] is a [Z]; arithmetic is done on [Z] and wrapped
    where the C expression wraps. *)

Definition u8 (x : Z) : Z := x mod 2 ^ 8.
Definition u32 (x : Z) : Z := x mod 2 ^ 32.
Definition u64 (x : Z) : Z := x mod 2 ^ 64.
Definition s32 (x : Z) : Z := (x + 2 ^ 31) mod 2 ^ 32 - 2 ^ 31.
Definition s64 (x : Z) : Z := (x + 2 ^ 63) mod 2 ^ 64 - 2 ^ 63.

Definition is_u8 (x : Z) : Prop := 0 <= x < 2 ^ 8.
Definition is_u32 (x : Z) : Prop := 0 <= x < 2 ^ 32.
Definition is_u64 (x : Z) : Prop := 0 <= x < 2 ^ 64.
Definition is_s32 (x : Z) : Prop := - 2 ^ 31 <= x < 2 ^ 31.
Definition is_s64 (x : Z) : Prop := - 2 ^ 63 <= x < 2 ^ 63.

Definition UINT32_MAX : Z := 4294967295.
Definition UINT64_MAX : Z := 18446744073709551615.
Definition INT_MAX : Z := 2147483647.
Definition INT_MIN : Z := -2147483648.

Create HintDb sb discriminated.
Create Rewrite HintDb sb_sum.
Create Rewrite HintDb uwrap.
#[export] Hint Unfold is_u8 is_u32 is_u64 is_s32 is_s64 : sb.

(** Arithmetic closer: exposes the wrap-around and the ranges, then [lia]. *)
Ltac zify_u :=
  unfold is_u8, is_u32, is_u64, is_s32, is_s64,
    u8, u32, u64, s32, s64, UINT32_MAX, UINT64_MAX, INT_MAX, INT_MIN in *.
Ltac ulia := zify_u; Z.div_mod_to_equations; lia.

Lemma u32_range x : is_u32 (u32 x).
Proof. apply Z.mod_pos_bound; lia. Qed.
Lemma u64_range x : is_u64 (u64 x).
Proof. apply Z.mod_pos_bound; lia. Qed.
Lemma u8_range x : is_u8 (u8 x).
Proof. apply Z.mod_pos_bound; lia. Qed.
Lemma s32_range x : is_s32 (s32 x).
Proof. ulia. Qed.
Lemma s64_range x : is_s64 (s64 x).
Proof. ulia. Qed.

Lemma u8_small x : is_u8 x -> u8 x = x.
Proof. apply Z.mod_small. Qed.
Lemma u32_small x : is_u32 x -> u32 x = x.
Proof. apply Z.mod_small. Qed.
Lemma u64_small x : is_u64 x -> u64 x = x.
Proof. apply Z.mod_small. Qed.
Lemma s32_small x : is_s32 x -> s32 x = x.
Proof. intros. ulia. Qed.
Lemma s64_small x : is_s64 x -> s64 x = x.
Proof. intros. ulia. Qed.

#[export] Hint Resolve u8_range u32_range u64_range s32_range s64_range : sb.
#[export] Hint Resolve u8_small u32_small u64_small : sb.

Lemma u64_add_l x y : u64 (u64 x + y) = u64 (x + y).
Proof. apply Zplus_mod_idemp_l. Qed.
Lemma u64_add_r x y : u64 (x + u64 y) = u64 (x + y).
Proof. apply Zplus_mod_idemp_r. Qed.
Lemma u64_sub_l x y : u64 (u64 x - y) = u64 (x - y).
Proof. apply Zminus_mod_idemp_l. Qed.
Lemma u64_sub_r x y : u64 (x - u64 y) = u64 (x - y).
Proof. apply Zminus_mod_idemp_r. Qed.
Lemma u64_idem x : u64 (u64 x) = u64 x.
Proof. apply Z.mod_mod. lia. Qed.
Lemma u32_add_l x y : u32 (u32 x + y) = u32 (x + y).
Proof. apply Zplus_mod_idemp_l. Qed.
Lemma u32_add_r x y : u32 (x + u32 y) = u32 (x + y).
Proof. apply Zplus_mod_idemp_r. Qed.
Lemma u32_sub_l x y : u32 (u32 x - y) = u32 (x - y).
Proof. apply Zminus_mod_idemp_l. Qed.
Lemma u32_idem x : u32 (u32 x) = u32 x.
Proof. apply Z.mod_mod. lia. Qed.

#[export] Hint Rewrite u64_add_l u64_add_r u64_sub_l u64_sub_r u64_idem
  u32_add_l u32_add_r u32_sub_l u32_idem : uwrap.

(** Two's-complement bit facts shared by the word-level components. *)
Lemma testbit_u64 x i : 0 <= i -> Z.testbit (u64 x) i = (i <? 64) && Z.testbit x i.
Proof.
  intros Hi. unfold u64. destruct (i <? 64) eqn:E; simpl.
  - apply Z.mod_pow2_bits_low. lia.
  - apply Z.mod_pow2_bits_high. lia.
Qed.

Lemma testbit_above n x i : 0 <= x < 2 ^ n -> 0 <= n -> n <= i -> Z.testbit x i = false.
Proof.
  intros [Hx Hx'] Hn Hi. rewrite <- (Z.mod_small x (2 ^ n)) by lia.
  apply Z.mod_pow2_bits_high. lia.
Qed.

Lemma bits_bound n x : 0 <= n -> 0 <= x -> (forall i, n <= i -> Z.testbit x i = false) -> x < 2 ^ n.
Proof.
  intros Hn Hx Hb. destruct (Z.lt_ge_cases x (2 ^ n)) as [?|Hge]; [done|].
  assert (0 < x) by (pose proof (Z.pow_pos_nonneg 2 n); lia).
  pose proof (Z.log2_le_pow2 x n ltac:(lia)) as [Hl _].
  specialize (Hb (Z.log2 x) (Hl Hge)). rewrite Z.bit_log2 in Hb by lia. done.
Qed.

Lemma lxor_bound n x y : 0 <= n -> 0 <= x < 2 ^ n -> 0 <= y < 2 ^ n -> 0 <= Z.lxor x y < 2 ^ n.
Proof.
  intros Hn Hx Hy. split.
  - apply Z.lxor_nonneg. lia.
  - apply bits_bound; [done|apply Z.lxor_nonneg; lia|].
    intros i Hi. rewrite Z.lxor_spec, (testbit_above n x), (testbit_above n y) by lia. done.
Qed.

Lemma land_bound n x y : 0 <= n -> 0 <= x -> 0 <= y < 2 ^ n -> 0 <= Z.land x y < 2 ^ n.
Proof.
  intros Hn Hx Hy. split.
  - apply Z.land_nonneg. lia.
  - apply bits_bound; [done|apply Z.land_nonneg; lia|].
    intros i Hi. rewrite Z.land_spec, (testbit_above n y) by lia. apply andb_false_r.
Qed.

Lemma lor_disjoint n x y : 0 <= n -> 0 <= y < 2 ^ n -> Z.lor (Z.shiftl x n) y = x * 2 ^ n + y.
Proof.
  intros Hn Hy. rewrite Z.shiftl_mul_pow2 by done. symmetry. rewrite Z.add_nocarry_lxor.
  - apply Z.bits_inj'. intros i Hi. rewrite Z.lxor_spec, Z.lor_spec.
    destruct (Z.lt_ge_cases i n).
    + rewrite Z.mul_pow2_bits_low by lia. by destruct (Z.testbit y i).
    + rewrite (testbit_above n y i) by lia. by destruct (Z.testbit _ i).
  - apply Z.bits_inj'. intros i Hi. rewrite Z.land_spec, Z.bits_0.
    destruct (Z.lt_ge_cases i n).
    + by rewrite Z.mul_pow2_bits_low by lia.
    + rewrite (testbit_above n y i) by lia. apply andb_false_r.
Qed.

Lemma land_u64_r x y : is_u64 x -> Z.land x (u64 y) = Z.land x y.
Proof.
  intros Hx. apply Z.bits_inj'. intros i Hi. rewrite !Z.land_spec, testbit_u64 by done.
  destruct (Z.ltb_spec i 64); [done|]. by rewrite (testbit_above 64 x) by (done || lia).
Qed.

(** Clearing the low [k] bits. *)
Lemma land_lnot_ones x k : 0 <= k -> Z.land x (Z.lnot (2 ^ k - 1)) = x - x mod 2 ^ k.
Proof.
  intros Hk. rewrite Z.sub_1_r, <- Z.ones_equiv, <- Z.ldiff_land, Z.ldiff_ones_r by done.
  rewrite Z.shiftl_mul_pow2, Z.shiftr_div_pow2 by done. rewrite Z.mod_eq by (apply Z.pow_nonzero; lia).
  ring.
Qed.

(** ** Lists *)

Definition sumZ (l : list Z) : Z := foldr Z.add 0 l.

Lemma sumZ_cons x l : sumZ (x :: l) = x + sumZ l.
Proof. done. Qed.
Lemma sumZ_app l1 l2 : sumZ (l1 ++ l2) = sumZ l1 + sumZ l2.
Proof. induction l1 as [|x l1 IH]; simpl; [done|]. rewrite IH. lia. Qed.
Lemma sumZ_nonneg l : Forall (fun x => 0 <= x) l -> 0 <= sumZ l.
Proof. induction 1; simpl; lia. Qed.
Lemma sumZ_replicate n x : sumZ (replicate n x) = Z.of_nat n * x.
Proof. induction n as [|n IH]; [done|]. cbn [replicate sumZ foldr]. fold (sumZ (replicate n x)). lia. Qed.
Lemma sumZ_insert l i x y :
  l !! i = Some x -> sumZ (<[i:=y]> l) = sumZ l - x + y.
Proof.
  revert i; induction l as [|z l IH]; intros [|i] H; simplify_eq/=; [lia|].
  rewrite (IH _ H). lia.
Qed.

Lemma sumZ_map_zero {A} (f : A -> Z) l : (forall x, f x = 0) -> sumZ (map f l) = 0.
Proof. intros H. induction l as [|x l IH]; [done|]. cbn [map]. by rewrite sumZ_cons, H, IH. Qed.

(** Changing a summand at one index. *)
Lemma sumZ_map_update (f g : nat -> Z) n i :
  (forall j, j <> i -> g j = f j) ->
  sumZ (map g (seq 0 n)) = sumZ (map f (seq 0 n)) + (if (i <? n)%nat then g i - f i else 0).
Proof.
  intros E. induction n as [|n IH]; [done|].
  rewrite seq_S, !map_app, !sumZ_app, IH. cbn [map]. rewrite !sumZ_cons, !Nat.add_0_l.
  destruct (Nat.ltb_spec i n), (Nat.ltb_spec i (S n)); try lia.
  - rewrite (E n) by lia. lia.
  - assert (n = i) as -> by lia. lia.
  - rewrite (E n) by lia. lia.
Qed.

Lemma sumZ_map_insert {A} (f : A -> Z) l i x y :
  l !! i = Some x -> sumZ (map f (<[i:=y]> l)) = sumZ (map f l) - f x + f y.
Proof.
  intros H. change (map f) with (fmap (M:=list) f). rewrite list_fmap_insert. apply sumZ_insert.
  by rewrite list_lookup_fmap, H.
Qed.

#[export] Hint Rewrite sumZ_cons sumZ_app : sb_sum.

(** [for (i = 0; i < n; i++) s = body(i, s)] *)
Definition for_upto {S : Type} (n : nat) (body : nat -> S -> S) (s : S) : S :=
  foldl (fun s i => body i s) s (seq 0 n).

Lemma for_upto_S {S} n (body : nat -> S -> S) s :
  for_upto (Datatypes.S n) body s = body n (for_upto n body s).
Proof. unfold for_upto. rewrite seq_S, foldl_app. done. Qed.

(** Rule for [for] loops: an invariant indexed by the loop counter. *)
Lemma for_upto_ind {S} (P : nat -> S -> Prop) n body s :
  P 0%nat s ->
  (forall i s', (i < n)%nat -> P i s' -> P (Datatypes.S i) (body i s')) ->
  P n (for_upto n body s).
Proof.
  intros H0 HS. induction n as [|n IH]; [done|].
  rewrite for_upto_S. apply HS; [lia|]. apply IH. intros; apply HS; [lia|done].
Qed.

(** Nested loops visit the pairs of indices row by row. *)
Lemma foldl_flat_map {A B S} (f : S -> B -> S) (g : A -> list B) (l : list A) (s : S) :
  foldl f s (flat_map g l) = foldl (fun s x => foldl f s (g x)) s l.
Proof. revert s. induction l as [|x l IH]; intros s; [done|]. cbn. by rewrite foldl_app, IH. Qed.

Lemma foldl_map {A B S} (f : S -> B -> S) (g : A -> B) (l : list A) (s : S) :
  foldl f s (map g l) = foldl (fun s x => f s (g x)) s l.
Proof. revert s. induction l as [|x l IH]; intros s; [done|]. cbn. by rewrite IH. Qed.

(** ** Strings *)

Lemma str_append_cons c s t : String c s +:+ t = String c (s +:+ t).
Proof. done. Qed.
Lemma str_append_assoc s t u : (s +:+ t) +:+ u = s +:+ (t +:+ u).
Proof. induction s as [|c s IH]; [done|]. by rewrite !str_append_cons, IH. Qed.
Lemma str_append_length s t : String.length (s +:+ t) = (String.length s + String.length t)%nat.
Proof. induction s as [|c s IH]; [done|]. rewrite str_append_cons. simpl. by rewrite IH. Qed.

Lemma str_append_nil_r s : s +:+ EmptyString = s.
Proof. induction s as [|c s IH]; [done|]. by rewrite str_append_cons, IH. Qed.

Definition strlen (s : string) : Z := Z.of_nat (String.length s).

Lemma strlen_app s t : strlen (s +:+ t) = strlen s + strlen t.
Proof. unfold strlen. rewrite str_append_length. lia. Qed.
Lemma strlen_nonneg s : 0 <= strlen s.
Proof. unfold strlen. lia. Qed.

(** Decimal numbers. *)
Lemma pretty_N_go_length x s d : (x < 10 ^ N.of_nat d)%N -> (String.length (pretty_N_go x s) <= d + String.length s)%nat.
Proof.
  revert x s. induction d as [|d IH]; intros x s Hx.
  - rewrite N.lt_1_r in Hx. subst. by rewrite pretty_N_go_0.
  - destruct (decide (x = 0)%N) as [->|Hn]; [rewrite pretty_N_go_0; lia|]. rewrite pretty_N_go_step by lia.
    rewrite Nat2N.inj_succ, N.pow_succ_r' in Hx.
    specialize (IH (x `div` 10)%N (String (pretty_N_char (x `mod` 10)) s)). cbn [String.length] in IH.
    assert (x `div` 10 < 10 ^ N.of_nat d)%N by (by apply N.Div0.div_lt_upper_bound). specialize (IH ltac:(done)). lia.
Qed.

(** A number of at most [d] digits is printed with at most that, and a sign. *)
Lemma pretty_length_pos z d : (0 < d)%nat -> 0 <= z < 10 ^ Z.of_nat d -> strlen (pretty z) <= Z.of_nat d.
Proof.
  intros Hd Hz. assert (Hn : forall n : N, (n < 10 ^ N.of_nat d)%N -> (String.length (pretty n) <= d)%nat).
  { intros n Hn. unfold pretty, pretty_N. destruct (decide (n = 0)%N); [cbn; lia|].
    pose proof (pretty_N_go_length n "" d Hn). cbn in *. lia. }
  destruct z as [|p|p]; [change (strlen (pretty 0)) with 1; lia| |lia].
  assert (Hp : (N.pos p < 10 ^ N.of_nat d)%N) by (apply N2Z.inj_lt; rewrite N2Z.inj_pow, nat_N_Z; apply Hz).
  specialize (Hn (N.pos p) Hp). change (pretty (Z.pos p)) with (pretty (N.pos p)). unfold strlen. lia.
Qed.

Lemma pretty_length z d : (0 < d)%nat -> Z.abs z < 10 ^ Z.of_nat d -> strlen (pretty z) <= Z.of_nat (S d).
Proof.
  intros Hd Hz. destruct z as [|p|p].
  - change (strlen (pretty 0)) with 1. lia.
  - pose proof (pretty_length_pos (Z.pos p) d Hd ltac:(lia)). lia.
  - pose proof (pretty_length_pos (Z.pos p) d Hd ltac:(lia)) as H.
    change (pretty (Z.neg p)) with ("-" +:+ pretty (Z.pos p)). rewrite strlen_app. change (strlen "-") with 1. lia.
Qed.

(** [snprintf] of a text into a buffer: what it holds, [None] when unchanged. *)
Definition snprintf (size : Z) (text : string) : option string :=
  if size =? 0 then None else Some (String.substring 0 (Z.to_nat (size - 1)) text).

Lemma substring_prefix s t : String.substring 0 (String.length s) (s +:+ t) = s.
Proof.
  induction s as [|c s IH]; [by destruct t|].
  rewrite str_append_cons. cbn [String.length String.substring]. by rewrite IH.
Qed.

Lemma substring_all n s : strlen s <= Z.of_nat n -> String.substring 0 n s = s.
Proof.
  revert s. induction n as [|n IH]; intros [|c s] H; try done; unfold strlen in *; cbn in *; try lia.
  by rewrite IH by lia.
Qed.

Lemma substring_length n s : strlen (String.substring 0 n s) = Z.min (Z.of_nat n) (strlen s).
Proof.
  revert s. induction n as [|n IH]; intros [|c s]; unfold strlen in *; cbn [String.substring String.length]; try lia.
  specialize (IH s). lia.
Qed.

(** Array cell update [a[i] = f(a[i])] is stdpp's [alter]; out of range it does
    nothing, so every model that uses it states the bound. *)

Definition b2z (b : bool) : Z := if b then 1 else 0.

(** Case analysis on the boolean comparisons the models branch on. *)
Ltac case_bool :=
  match goal with
  | |- context [if ?b then _ else _] => destruct b eqn:?
  | H : context [if ?b then _ else _] |- _ => destruct b eqn:?
  end.
Ltac bool_to_prop :=
  repeat match goal with
  | H : _ && _ = true |- _ => apply andb_true_iff in H as [? ?]
  | H : _ || _ = false |- _ => apply orb_false_iff in H as [? ?]
  | H : negb _ = true |- _ => apply negb_true_iff in H
  | H : negb _ = false |- _ => apply negb_false_iff in H
  | H : (_ =? _) = true |- _ => apply Z.eqb_eq in H
  | H : (_ =? _) = false |- _ => apply Z.eqb_neq in H
  | H : (_ <? _) = true |- _ => apply Z.ltb_lt in H
  | H : (_ <? _) = false |- _ => apply Z.ltb_ge in H
  | H : (_ <=? _) = true |- _ => apply Z.leb_le in H
  | H : (_ <=? _) = false |- _ => apply Z.leb_gt in H
  end.
Ltac solve_cases := repeat (case_bool; simplify_eq/=); bool_to_prop; try done; try lia.

(** Closes a closed decidable goal by evaluating its decision procedure. *)
Ltac decide_closed := apply (bool_decide_unpack _); vm_compute; exact I.
