(* ===== verification/SbList.v ===== *)
(** * The intrusive circular doubly linked list of [sb_list.h]

    The macros are run on a store of list items; a macro that dereferences a
    pointer outside the store yields [None].  [is_list h head l] says that
    [head] is the anchor of a well-formed list whose items are [l], in order;
    every macro is shown to implement the list operation its name promises. *)

From S2P Require Import Prelude.

(** ** Data and memory *)

Abbreviation addr := positive.

Record sb_list_item_t := Item { next_p : addr; prev_p : addr }.
Abbreviation heap := (gmap positive sb_list_item_t).

Definition load_next (p : addr) (h : heap) : option addr := next_p <$> h !! p.
Definition load_prev (p : addr) (h : heap) : option addr := prev_p <$> h !! p.
Definition store_next (p v : addr) (h : heap) : option heap :=
  n ← h !! p; Some (<[p := Item v (prev_p n)]> h).
Definition store_prev (p v : addr) (h : heap) : option heap :=
  n ← h !! p; Some (<[p := Item (next_p n) v]> h).

(** ** The macros, assignment by assignment *)

Definition SB_LIST_INIT (head : addr) (h : heap) : option heap :=
  h ← store_next head head h;
  store_prev head head h.

Definition SB_LIST_ADD (item head : addr) (h : heap) : option heap :=
  n ← load_next head h;
  h ← store_next item n h;
  h ← store_prev item head h;
  h ← store_next head item h;
  n ← load_next item h;
  store_prev n item h.

Definition SB_LIST_ADD_TAIL (item head : addr) (h : heap) : option heap :=
  p ← load_prev head h;
  h ← store_prev item p h;
  h ← store_next item head h;
  h ← store_prev head item h;
  p ← load_prev item h;
  store_next p item h.

Definition SB_LIST_DELETE (old : addr) (h : heap) : option heap :=
  n ← load_next old h;
  p ← load_prev old h;
  h ← store_prev n p h;
  p ← load_prev old h;
  n ← load_next old h;
  store_next p n h.

Definition SB_LIST_REPLACE (item old : addr) (h : heap) : option heap :=
  n ← load_next old h;
  h ← store_next item n h;
  p ← load_prev old h;
  h ← store_prev item p h;
  n ← load_next item h;
  h ← store_prev n item h;
  p ← load_prev item h;
  store_next p item h.

Definition SB_LIST_IS_EMPTY (head : addr) (h : heap) : option bool :=
  n ← load_next head h; Some (bool_decide (n = head)).
Definition SB_LIST_ITEM_IN_LIST (item : addr) (h : heap) : option bool :=
  n ← load_next item h; Some (bool_decide (n <> item)).
Definition SB_LIST_ITEM_LAST (item head : addr) (h : heap) : option bool :=
  n ← load_next item h; Some (bool_decide (n = head)).

(** [SB_LIST_ENUM_NEXT]: the next item, or a null pointer at the end. *)
Definition SB_LIST_ENUM_NEXT (pos head : addr) (h : heap) : option (option addr) :=
  n ← load_next pos h; Some (if decide (n = head) then None else Some n).

(** [SB_LIST_FOR_EACH]: the cursor starts at [head->next_p] and follows
    [next_p] until it is back at [head]; [body] is run on a read-only list. *)
Fixpoint for_each_from {S : Type} (fuel : nat) (body : addr -> S -> S)
    (pos head : addr) (h : heap) (s : S) : option S :=
  if decide (pos = head) then Some s else
  match fuel with
  | O => None
  | Datatypes.S fuel =>
      let s := body pos s in
      n ← load_next pos h; for_each_from fuel body n head h s
  end.

Definition SB_LIST_FOR_EACH {S : Type} (fuel : nat) (body : addr -> S -> S)
    (head : addr) (h : heap) (s : S) : option S :=
  n ← load_next head h; for_each_from fuel body n head h s.

(** [SB_LIST_FOR_EACH_SAFE]: the successor is read before the body runs, so
    the body may unlink the current item. *)
Fixpoint for_each_safe_from (fuel : nat) (body : addr -> heap -> option heap)
    (pos tmp head : addr) (h : heap) : option heap :=
  if decide (pos = head) then Some h else
  match fuel with
  | O => None
  | Datatypes.S fuel =>
      h ← body pos h;
      n ← load_next tmp h;
      for_each_safe_from fuel body tmp n head h
  end.

Definition SB_LIST_FOR_EACH_SAFE (fuel : nat) (body : addr -> heap -> option heap)
    (head : addr) (h : heap) : option heap :=
  pos ← load_next head h;
  tmp ← load_next pos h;
  for_each_safe_from fuel body pos tmp head h.

(** ** Representation *)

(** The segment from [x] (exclusive) through [l] to [y] (exclusive). *)
Fixpoint seg (h : heap) (x : addr) (l : list addr) (y : addr) : Prop :=
  match l with
  | [] => load_next x h = Some y /\ load_prev y h = Some x
  | z :: l => load_next x h = Some z /\ load_prev z h = Some x /\ seg h z l y
  end.

Definition is_list (h : heap) (head : addr) (l : list addr) : Prop :=
  NoDup (head :: l) /\ seg h head l head.

(** ** Memory lemmas *)

Lemma load_next_dom p h v : load_next p h = Some v -> is_Some (h !! p).
Proof. unfold load_next. destruct (h !! p); naive_solver. Qed.
Lemma load_prev_dom p h v : load_prev p h = Some v -> is_Some (h !! p).
Proof. unfold load_prev. destruct (h !! p); naive_solver. Qed.

Section stores.
Context (p v : addr) (h : heap).

Lemma store_next_spec :
  is_Some (h !! p) ->
  exists h', store_next p v h = Some h' /\
    (forall q, load_next q h' = if decide (q = p) then Some v else load_next q h) /\
    (forall q, load_prev q h' = load_prev q h) /\
    (forall q, is_Some (h' !! q) <-> is_Some (h !! q)).
Proof using Type.
  intros [n Hn]. unfold store_next, load_next, load_prev. rewrite Hn; simpl.
  eexists; split; [done|]. repeat split; intros; destruct (decide (q = p)) as [->|];
    simplify_map_eq; try done; eauto.
Qed.

Lemma store_prev_spec :
  is_Some (h !! p) ->
  exists h', store_prev p v h = Some h' /\
    (forall q, load_next q h' = load_next q h) /\
    (forall q, load_prev q h' = if decide (q = p) then Some v else load_prev q h) /\
    (forall q, is_Some (h' !! q) <-> is_Some (h !! q)).
Proof using Type.
  intros [n Hn]. unfold store_prev, load_next, load_prev. rewrite Hn; simpl.
  eexists; split; [done|]. repeat split; intros; destruct (decide (q = p)) as [->|];
    simplify_map_eq; try done; eauto.
Qed.
End stores.

(** One symbolic step of a macro: loads are rewritten with the known links,
    stores with their specifications. *)
#[local] Set Warnings "-clear-no-such-hyp".

Ltac list_dom :=
  repeat match goal with H : forall q, is_Some (?h !! q) <-> _ |- is_Some (?h !! _) => apply H end;
  eauto using load_next_dom, load_prev_dom.
Ltac list_load :=
  repeat match goal with
  | H : forall q, load_next q ?h = _ |- context [load_next _ ?h] => rewrite H
  | H : forall q, load_prev q ?h = _ |- context [load_prev _ ?h] => rewrite H
  | H : load_next ?p ?h = Some _ |- context [load_next ?p ?h] => rewrite H
  | H : load_prev ?p ?h = Some _ |- context [load_prev ?p ?h] => rewrite H
  | |- context [decide (?x = ?y)] => destruct (decide (x = y)); try congruence
  end; simpl.
Ltac list_step :=
  list_load;
  match goal with
  | |- context [store_next ?p ?v ?h] =>
      let h' := fresh "h" in
      destruct (store_next_spec p v h) as (h' & -> & ? & ? & ?); [list_dom|]; simpl
  | |- context [store_prev ?p ?v ?h] =>
      let h' := fresh "h" in
      destruct (store_prev_spec p v h) as (h' & -> & ? & ? & ?); [list_dom|]; simpl
  end.

(** ** Segments *)

Fixpoint last_of (x : addr) (l : list addr) : addr :=
  match l with [] => x | z :: l => last_of z l end.
Definition first_of (l : list addr) (y : addr) : addr :=
  match l with [] => y | z :: _ => z end.

Lemma seg_app h x l1 z l2 y : seg h x (l1 ++ z :: l2) y <-> seg h x l1 z /\ seg h z l2 y.
Proof. revert x; induction l1 as [|w l1 IH]; intros x; simpl; [tauto|]. rewrite IH. tauto. Qed.

Lemma seg_first h x l y :
  seg h x l y -> load_next x h = Some (first_of l y) /\ load_prev (first_of l y) h = Some x.
Proof. destruct l; simpl; tauto. Qed.

Lemma seg_last h x l y :
  seg h x l y -> load_prev y h = Some (last_of x l) /\ load_next (last_of x l) h = Some y.
Proof. revert x; induction l as [|z l IH]; intros x; simpl; [tauto|]. naive_solver. Qed.

Lemma last_of_elem x l : last_of x l ∈ x :: l.
Proof. revert x; induction l as [|z l IH]; intros x; simpl; set_solver. Qed.

Lemma seg_ext h h' x l y :
  (forall q, q ∈ x :: l -> load_next q h' = load_next q h) ->
  (forall q, q ∈ l ++ [y] -> load_prev q h' = load_prev q h) ->
  seg h x l y -> seg h' x l y.
Proof.
  revert x; induction l as [|z l IH]; intros x Hn Hp; simpl.
  - rewrite Hn, Hp by set_solver. done.
  - intros (Hx & Hz & Hs). rewrite Hn, Hp by set_solver. repeat split; try done.
    apply IH; try done; intros q Hq; [apply Hn | apply Hp]; set_solver.
Qed.

(** Moving the end of a segment from [a] to [y]. *)
Lemma seg_retarget h h' x l a y :
  NoDup (x :: l) -> y ∉ l ->
  load_next (last_of x l) h' = Some y -> load_prev y h' = Some (last_of x l) ->
  (forall q, q ∈ x :: l -> q <> last_of x l -> load_next q h' = load_next q h) ->
  (forall q, q ∈ l -> load_prev q h' = load_prev q h) ->
  seg h x l a -> seg h' x l y.
Proof.
  revert x; induction l as [|z l IH]; intros x Hnd Hy Hl Hp Hn Hq; simpl in *; [done|].
  intros (Hx & Hz & Hs).
  apply NoDup_cons in Hnd as [Hx' Hnd].
  rewrite Hn, Hq by (try apply elem_of_cons; pose proof (last_of_elem z l); set_solver).
  repeat split; try done.
  apply IH; try done; intros; [set_solver | apply Hn | apply Hq]; set_solver.
Qed.

(** [h'] is [h] with [item] linked between the neighbours [p] and [n]. *)
Definition linked_between (h h' : heap) (p item n : addr) : Prop :=
  (forall q, load_next q h' =
     if decide (q = p) then Some item else if decide (q = item) then Some n else load_next q h) /\
  (forall q, load_prev q h' =
     if decide (q = n) then Some item else if decide (q = item) then Some p else load_prev q h) /\
  (forall q, is_Some (h' !! q) <-> is_Some (h !! q)).

(** [h'] is [h] with the neighbours [p] and [n] linked to each other. *)
Definition linked (h h' : heap) (p n : addr) : Prop :=
  (forall q, load_next q h' = if decide (q = p) then Some n else load_next q h) /\
  (forall q, load_prev q h' = if decide (q = n) then Some p else load_prev q h) /\
  (forall q, is_Some (h' !! q) <-> is_Some (h !! q)).

Ltac list_finish :=
  eexists; split; [done|]; repeat split; intros; list_load; try done;
  repeat match goal with
  | H : forall q, is_Some (?h !! q) <-> is_Some (_ !! q) |- _ => setoid_rewrite H || rewrite H in *
  end; try done.

Lemma ADD_effect h item head n :
  is_Some (h !! item) -> load_next head h = Some n -> is_Some (h !! n) ->
  item <> head -> item <> n ->
  exists h', SB_LIST_ADD item head h = Some h' /\ linked_between h h' head item n.
Proof.
  intros Hi Hh Hn Hne Hne'. unfold SB_LIST_ADD, linked_between.
  do 4 list_step. list_finish.
Qed.

Lemma ADD_TAIL_effect h item head p :
  is_Some (h !! item) -> load_prev head h = Some p -> is_Some (h !! p) ->
  item <> head -> item <> p ->
  exists h', SB_LIST_ADD_TAIL item head h = Some h' /\ linked_between h h' p item head.
Proof.
  intros Hi Hh Hn Hne Hne'. unfold SB_LIST_ADD_TAIL, linked_between.
  do 4 list_step. list_finish.
Qed.

Lemma DELETE_effect h old p n :
  load_next old h = Some n -> load_prev old h = Some p ->
  is_Some (h !! n) -> is_Some (h !! p) -> old <> n -> old <> p ->
  exists h', SB_LIST_DELETE old h = Some h' /\ linked h h' p n.
Proof.
  intros Hn Hp Hdn Hdp Hne Hne'. unfold SB_LIST_DELETE, linked.
  do 2 list_step. list_finish.
Qed.

Lemma REPLACE_effect h item old p n :
  is_Some (h !! item) -> load_next old h = Some n -> load_prev old h = Some p ->
  is_Some (h !! n) -> is_Some (h !! p) -> item <> n -> item <> p -> item <> old ->
  exists h', SB_LIST_REPLACE item old h = Some h' /\ linked_between h h' p item n.
Proof.
  intros Hi Hn Hp Hdn Hdp Hne Hne' Hne''. unfold SB_LIST_REPLACE, linked_between.
  do 4 list_step. list_finish.
Qed.

(** ** The list operations *)

Lemma is_list_NoDup h head l : is_list h head l -> NoDup (head :: l).
Proof. by intros []. Qed.

Lemma is_list_split h head l1 z l2 :
  is_list h head (l1 ++ z :: l2) -> seg h head l1 z /\ seg h z l2 head.
Proof. intros [_ Hs]. by apply seg_app. Qed.

(** The two neighbours of a position in a list are the ones the macros read. *)
Lemma is_list_neighbours h head l1 z l2 :
  is_list h head (l1 ++ z :: l2) ->
  load_prev z h = Some (last_of head l1) /\ load_next z h = Some (first_of l2 head) /\
  is_Some (h !! last_of head l1) /\ is_Some (h !! first_of l2 head) /\
  z <> last_of head l1 /\ z <> first_of l2 head.
Proof.
  intros Hl. pose proof (is_list_split _ _ _ _ _ Hl) as [H1 H2].
  apply seg_last in H1 as [Hp Hn']. apply seg_first in H2 as [Hn Hp'].
  pose proof (is_list_NoDup _ _ _ Hl) as Hnd. rewrite app_comm_cons in Hnd.
  apply NoDup_app in Hnd as (Hnd1 & Hd & Hnd2). apply NoDup_cons in Hnd2 as [Hz Hnd2].
  repeat split; eauto using load_next_dom, load_prev_dom.
  - intros ->. eapply Hd; [apply last_of_elem|set_solver].
  - intros ->. destruct l2 as [|w l2]; simpl in *; [|set_solver].
    eapply Hd; [left|left].
Qed.

(** The elements on the two sides of a cut, and the cut itself, are distinct. *)
Lemma NoDup_cut (head : addr) l1 l2 :
  NoDup (head :: l1 ++ l2) ->
  NoDup (head :: l1) /\ NoDup l2 /\ (head ∉ l2) /\ (forall q, q ∈ l1 -> q ∉ l2).
Proof.
  rewrite app_comm_cons, NoDup_app. intros (H1 & Hd & H2).
  repeat split; try done; intros; intro; eapply Hd; eauto; set_solver.
Qed.

Section cuts.
Context (head : addr) (l1 l2 : list addr).

Lemma NoDup_cut_insert item :
  NoDup (head :: l1 ++ l2) -> item ∉ head :: l1 -> item ∉ l2 ->
  NoDup (head :: l1 ++ item :: l2).
Proof using Type.
  intros Hnd Hi1 Hi2. rewrite app_comm_cons in *. apply NoDup_app in Hnd as (? & Hd & ?).
  apply NoDup_app. split_and!; [done| |by apply NoDup_cons].
  intros q Hq [->|Hq2]%elem_of_cons; [done|]. by eapply Hd.
Qed.

Lemma NoDup_cut_remove item :
  NoDup (head :: l1 ++ item :: l2) -> NoDup (head :: l1 ++ l2).
Proof using Type.
  rewrite !app_comm_cons, !NoDup_app. intros (? & Hd & [? ?]%NoDup_cons).
  split_and!; [done| |done]. intros q Hq Hq2. eapply Hd; [done|by right].
Qed.

Lemma first_of_fresh item : item ∉ head :: l1 -> item ∉ l2 -> item <> first_of l2 head.
Proof using Type.
  intros Hi1 Hi2 ->. destruct l2; [apply Hi1|apply Hi2]; left.
Qed.

Lemma cut_first_notin : NoDup (head :: l1 ++ l2) -> first_of l2 head ∉ l1.
Proof using Type.
  intros (Hnd1 & Hnd2 & Hh & Hd)%NoDup_cut. destruct l2; simpl.
  - by apply NoDup_cons in Hnd1 as [? ?].
  - intros Hz. eapply Hd; [done|left].
Qed.

Lemma cut_first_ne q : NoDup (head :: l1 ++ l2) -> q ∈ l1 -> q <> first_of l2 head.
Proof using Type. intros Hnd Hq ->. by apply cut_first_notin in Hnd. Qed.

Lemma cut_last_ne q : NoDup (head :: l1 ++ l2) -> q ∈ l2 -> q <> last_of head l1.
Proof using Type.
  intros (Hnd1 & Hnd2 & Hh & Hd)%NoDup_cut Hq ->.
  pose proof (last_of_elem head l1) as [He|He]%elem_of_cons; [congruence|]. by eapply Hd.
Qed.
End cuts.

Lemma is_list_insert h h' head l1 l2 item :
  is_list h head (l1 ++ l2) -> item ∉ head :: l1 ++ l2 ->
  linked_between h h' (last_of head l1) item (first_of l2 head) ->
  is_list h' head (l1 ++ item :: l2).
Proof.
  intros [Hnd Hs] Hi (Hn & Hp & _).
  pose proof (last_of_elem head l1) as Hlast.
  destruct (NoDup_cut _ _ _ Hnd) as (Hnd1 & Hnd2 & Hh & Hd).
  rewrite app_comm_cons, not_elem_of_app in Hi. destruct Hi as [Hi1 Hi2].
  split; [by apply NoDup_cut_insert|].
  assert (H1 : exists a, seg h head l1 a).
  { destruct l2 as [|z l2]; [rewrite app_nil_r in Hs; eauto|]. apply seg_app in Hs as []; eauto. }
  destruct H1 as [a H1]. apply seg_app. split.
  - eapply (seg_retarget h); [done|by intros ?; apply Hi1; right| | | | |done].
    + by rewrite Hn, decide_True.
    + rewrite Hp, decide_False, decide_True; [done..|]. by eapply first_of_fresh.
    + intros q Hq Hne. rewrite Hn, !decide_False; [done| |done]. by intros ->.
    + intros q Hq. rewrite Hp, !decide_False; [done|intros ->; apply Hi1; by right|].
      by eapply cut_first_ne.
  - assert (Hil : item <> last_of head l1) by (intros ->; done).
    destruct l2 as [|z l2]; simpl in Hp, Hn; simpl.
    + rewrite Hn, Hp, decide_False, !decide_True by done. done.
    + apply seg_app in Hs as [_ Hs]. apply NoDup_cons in Hnd2 as [Hz Hnd2].
      split_and!; [by rewrite Hn, decide_False, decide_True by done|by rewrite Hp, decide_True|].
      apply (seg_ext h); [| |done]; intros q Hq.
      * rewrite Hn, !decide_False; [done|by intros ->|]. by eapply (cut_last_ne head l1 (z :: l2)).
      * assert (Hqi : q <> item /\ q <> z).
        { apply elem_of_app in Hq as [Hq|Hq%list_elem_of_singleton].
          - split; intros ->; [apply Hi2; by right|done].
          - subst q. split; intros ->; [apply Hi1; left|apply Hh; left]. }
        destruct Hqi. by rewrite Hp, !decide_False.
Qed.

Lemma is_list_remove h h' head l1 item l2 :
  is_list h head (l1 ++ item :: l2) ->
  linked h h' (last_of head l1) (first_of l2 head) ->
  is_list h' head (l1 ++ l2).
Proof.
  intros [Hnd Hs] (Hn & Hp & _).
  pose proof (last_of_elem head l1) as Hlast.
  assert (Hnd' : NoDup (head :: l1 ++ l2)) by by eapply NoDup_cut_remove.
  destruct (NoDup_cut _ _ _ Hnd') as (Hnd1 & Hnd2 & Hh & Hd).
  split; [done|].
  apply seg_app in Hs as [H1 H2].
  assert (Hseg : seg h' head l1 (first_of l2 head)).
  { eapply (seg_retarget h); [done| | | | | |done].
    - by eapply cut_first_notin.
    - by rewrite Hn, decide_True.
    - by rewrite Hp, decide_True.
    - intros q Hq Hne. by rewrite Hn, decide_False.
    - intros q Hq. rewrite Hp, decide_False; [done|]. by eapply cut_first_ne. }
  destruct l2 as [|z l2]; simpl in *; [by rewrite app_nil_r|].
  apply seg_app. split; [done|]. destruct H2 as (_ & _ & H2).
  apply NoDup_cons in Hnd2 as [Hz Hnd2].
  apply (seg_ext h); [| |done]; intros q Hq.
  - rewrite Hn, decide_False; [done|]. by eapply (cut_last_ne head l1 (z :: l2)).
  - rewrite Hp, decide_False; [done|].
    apply elem_of_app in Hq as [Hq|Hq%list_elem_of_singleton]; [by intros ->|].
    subst q. intros ->. apply Hh; left.
Qed.

Lemma is_list_replace h h' head l1 old l2 item :
  is_list h head (l1 ++ old :: l2) -> item ∉ head :: l1 ++ old :: l2 ->
  linked_between h h' (last_of head l1) item (first_of l2 head) ->
  is_list h' head (l1 ++ item :: l2).
Proof.
  intros Hl Hi (Hn & Hp & Hdom).
  (* unlink [old] without touching the item, then insert: same final links *)
  destruct (is_list_neighbours _ _ _ _ _ Hl) as (Hpo & Hno & Hdp & Hdn & Hne & Hne').
  destruct (DELETE_effect _ _ _ _ Hno Hpo Hdn Hdp Hne' Hne) as (h1 & _ & Hl1).
  pose proof (is_list_remove _ _ _ _ _ _ Hl Hl1) as Hr.
  destruct Hl1 as (Hn1 & Hp1 & Hdom1).
  apply (is_list_insert h1); [done|set_solver|].
  split_and!; intros q.
  - rewrite Hn, Hn1. repeat case_decide; congruence.
  - rewrite Hp, Hp1. repeat case_decide; congruence.
  - rewrite Hdom, Hdom1. done.
Qed.

(** A list that shares no item with the ones a macro touches is unaffected. *)
Lemma linked_between_frame h h' p item n head l :
  linked_between h h' p item n ->
  p ∉ head :: l -> item ∉ head :: l -> n ∉ head :: l ->
  is_list h head l -> is_list h' head l.
Proof.
  intros (Hn & Hp & _) Hp1 Hi1 Hn1 [Hnd Hs]. split; [done|].
  apply (seg_ext h); [| |done]; intros q Hq.
  - rewrite Hn, !decide_False; [done|by intros ->..].
  - assert (Hq' : q ∈ head :: l).
    { apply elem_of_app in Hq as [?|?%list_elem_of_singleton]; [by right|subst; left]. }
    rewrite Hp, !decide_False; [done|by intros ->..].
Qed.

Lemma is_list_delete_frame h head l p :
  is_list h head l -> p ∉ head :: l -> is_list (delete p h) head l.
Proof.
  intros [Hnd Hs] Hp. split; [done|].
  apply (seg_ext h); [| |done]; intros q Hq.
  - unfold load_next. rewrite lookup_delete_ne; [done|by intros ->].
  - unfold load_prev. rewrite lookup_delete_ne; [done|].
    intros ->. apply elem_of_app in Hq as [?|?%list_elem_of_singleton]; set_solver.
Qed.

Lemma is_list_head_next h head l :
  is_list h head l -> load_next head h = Some (first_of l head).
Proof. intros [_ Hs]. by apply seg_first in Hs as []. Qed.

Lemma is_list_dom h head l p : is_list h head l -> p ∈ head :: l -> is_Some (h !! p).
Proof.
  intros [_ Hs]. revert Hs. generalize head at 1 3; intros x Hs.
  revert x Hs; induction l as [|z l IH]; intros x Hs Hp; simpl in *.
  - destruct Hs as [Hn _]. apply list_elem_of_singleton in Hp as ->. eauto using load_next_dom.
  - destruct Hs as (Hn & _ & Hs). apply elem_of_cons in Hp as [->|Hp]; eauto using load_next_dom.
Qed.

(** The loop of [free_values]: each item is unlinked and its node released. *)
Definition unlink_and_free (cur : addr) (h : heap) : option heap :=
  h ← SB_LIST_DELETE cur h; Some (delete cur h).

Definition free_values_loop (fuel : nat) (values : addr) (h : heap) : option heap :=
  SB_LIST_FOR_EACH_SAFE fuel unlink_and_free values h.

(** The loop of [free_options]: nodes are released without being unlinked. *)
Definition free_options_loop (fuel : nat) (options : addr) (h : heap) : option heap :=
  SB_LIST_FOR_EACH_SAFE fuel (fun cur h => Some (delete cur h)) options h.

Lemma unlink_and_free_spec h head z l :
  is_list h head (z :: l) ->
  exists h', unlink_and_free z h = Some h' /\ is_list h' head l /\ h' !! z = None /\
    (forall q, is_Some (h' !! q) -> is_Some (h !! q)).
Proof.
  intros Hl.
  destruct (is_list_neighbours h head [] z l Hl) as (Hp & Hn & Hdp & Hdn & Hne & Hne').
  destruct (DELETE_effect _ _ _ _ Hn Hp Hdn Hdp Hne' Hne) as (h1 & E & Hl1).
  pose proof (is_list_remove _ _ _ [] _ _ Hl Hl1) as Hr.
  exists (delete z h1). unfold unlink_and_free. rewrite E. split; [done|]. split_and!.
  - apply is_list_delete_frame; [done|].
    apply is_list_NoDup in Hl. apply NoDup_cons in Hl as [H1 [H2 H3]%NoDup_cons].
    intros [->|?]%elem_of_cons; [|done]. apply H1. left.
  - apply lookup_delete_eq.
  - intros q Hq. apply lookup_delete_is_Some in Hq as [_ Hq]. by apply Hl1.
Qed.

Lemma free_values_from_spec fuel h head z l :
  is_list h head (z :: l) -> (length l < fuel)%nat ->
  exists h', for_each_safe_from fuel unlink_and_free z (first_of l head) head h = Some h' /\
    is_list h' head [] /\ (forall p, p ∈ z :: l -> h' !! p = None) /\
    (forall q, is_Some (h' !! q) -> is_Some (h !! q)).
Proof.
  revert h z l; induction fuel as [|fuel IH]; intros h z l Hl Hf; [lia|]. simpl.
  rewrite decide_False by (apply is_list_NoDup, NoDup_cons in Hl as [? ?]; set_solver).
  destruct (unlink_and_free_spec _ _ _ _ Hl) as (h1 & -> & Hl1 & Hz & Hm). simpl.
  destruct l as [|w l]; simpl in *.
  - rewrite (is_list_head_next _ _ _ Hl1). simpl. exists h1.
    split; [by destruct fuel; simpl; rewrite decide_True|].
    split_and!; [done| |done]. by intros p ->%list_elem_of_singleton.
  - pose proof Hl1 as (_ & _ & _ & Hs)%id. simpl in Hs.
    apply seg_first in Hs as [-> _]. simpl.
    destruct (IH h1 w l Hl1 ltac:(lia)) as (h2 & E & Hl2 & Hg & Hm2).
    exists h2. split_and!; [done|done| |auto].
    intros p [->|Hp]%elem_of_cons; [|auto].
    destruct (h2 !! z) eqn:E2; [|done]. exfalso.
    destruct (Hm2 z) as [? ?]; [by eexists|congruence].
Qed.

Lemma free_options_from_spec fuel h head z l :
  NoDup (head :: z :: l) -> seg h z l head -> (length l < fuel)%nat ->
  exists h', for_each_safe_from fuel (fun cur h => Some (delete cur h)) z (first_of l head) head h
      = Some h' /\
    (forall p, p ∈ z :: l -> h' !! p = None) /\ (forall p, p ∉ z :: l -> h' !! p = h !! p).
Proof.
  revert h z l; induction fuel as [|fuel IH]; intros h z l Hnd Hs Hf; [lia|]. simpl.
  pose proof Hnd as [Hh [Hz Hnd']%NoDup_cons]%NoDup_cons.
  rewrite decide_False by (intros ->; apply Hh; left).
  assert (Hdel : forall q, q <> z -> load_next q (delete z h) = load_next q h).
  { intros q Hq. unfold load_next. by rewrite lookup_delete_ne. }
  destruct l as [|w l]; simpl in *.
  - destruct Hs as [Hn Hp]. rewrite Hdel by (intros ->; apply Hh; left).
    destruct (load_next head h) eqn:E.
    2:{ unfold load_next, load_prev in *. by destruct (h !! head). }
    simpl. exists (delete z h). split; [by destruct fuel; simpl; rewrite decide_True|].
    split; [intros q ->%list_elem_of_singleton; apply lookup_delete_eq|].
    intros q Hp'. apply lookup_delete_ne. intros ->. apply Hp'. left.
  - destruct Hs as (Hn & Hp & Hs). pose proof Hs as [Hw _]%seg_first.
    assert (Hwz : w <> z) by (intros ->; apply Hz; left).
    rewrite Hdel, Hw by done. simpl.
    destruct (IH (delete z h) w l) as (h' & E & Hg & Hk).
    { apply NoDup_cons. split; [|done]. intros ?; apply Hh; by right. }
    { apply (seg_ext h); [| |done]; intros q Hq; [apply Hdel; by intros ->|].
      unfold load_prev. rewrite lookup_delete_ne; [done|]. intros <-.
      apply elem_of_app in Hq as [?|?%list_elem_of_singleton]; [apply Hz; by right|].
      subst. apply Hh. left. }
    { lia. }
    exists h'. split_and!; [done| |].
    + intros p [->|?]%elem_of_cons; [|auto]. by rewrite Hk, lookup_delete_eq.
    + intros p Hp'. rewrite Hk by (intros ?; apply Hp'; by right).
      apply lookup_delete_ne. intros ->. apply Hp'. left.
Qed.

(** ** Properties *)

(** [SB_LIST_ADD] and [SB_LIST_ADD_TAIL] implement insertion at the front
    and at the back of the list they are given, whatever its length, and leave
    every list that shares no item with it intact. *)
Theorem sb_list_add_refines h head l item :
  is_list h head l -> is_Some (h !! item) -> item ∉ head :: l ->
  (exists h', SB_LIST_ADD item head h = Some h' /\ is_list h' head (item :: l) /\
     forall head2 l2, (forall q, q ∈ head2 :: l2 -> q ∉ item :: head :: l) ->
       is_list h head2 l2 -> is_list h' head2 l2) /\
  (exists h', SB_LIST_ADD_TAIL item head h = Some h' /\ is_list h' head (l ++ [item]) /\
     forall head2 l2, (forall q, q ∈ head2 :: l2 -> q ∉ item :: head :: l) ->
       is_list h head2 l2 -> is_list h' head2 l2).
Proof.
  intros Hl Hi Hf.
  assert (Hfr : first_of l head ∈ head :: l) by (destruct l; set_solver).
  pose proof (last_of_elem head l) as Hla.
  split.
  - pose proof (is_list_head_next _ _ _ Hl) as Hn.
    destruct (ADD_effect h item head (first_of l head)) as (h' & E & Hb);
      [done|done|by eapply is_list_dom|by set_solver|by intros ->|].
    exists h'. split_and!; [done|by apply (is_list_insert h h' head [] l item)|].
    intros head2 l2 Hd Hl2. eapply linked_between_frame; eauto; intros Hq;
      apply (Hd _ Hq), elem_of_cons; first [by left | by right | right; left].
  - destruct Hl as [Hnd Hs]. pose proof (seg_last _ _ _ _ Hs) as [Hp _].
    destruct (ADD_TAIL_effect h item head (last_of head l)) as (h' & E & Hb);
      [done|done|by eapply is_list_dom|by set_solver|by intros ->|].
    exists h'. split_and!; [done|apply (is_list_insert h h' head l [] item);
      rewrite ?app_nil_r; [done|done|done]|].
    intros head2 l2 Hd Hl2. eapply linked_between_frame; eauto; intros Hq;
      apply (Hd _ Hq), elem_of_cons; first [by left | by right | right; left].
Qed.

(** [SB_LIST_DELETE] removes exactly the given item, wherever it stands in
    the list, and [SB_LIST_REPLACE] puts a fresh item in its place. *)
Theorem sb_list_delete_refines h head l1 old l2 item :
  is_list h head (l1 ++ old :: l2) ->
  is_Some (h !! item) -> item ∉ head :: l1 ++ old :: l2 ->
  (exists h', SB_LIST_DELETE old h = Some h' /\ is_list h' head (l1 ++ l2)) /\
  (exists h', SB_LIST_REPLACE item old h = Some h' /\ is_list h' head (l1 ++ item :: l2)).
Proof.
  intros Hl Hi Hf.
  destruct (is_list_neighbours _ _ _ _ _ Hl) as (Hp & Hn & Hdp & Hdn & Hne & Hne').
  split.
  - destruct (DELETE_effect _ _ _ _ Hn Hp Hdn Hdp Hne' Hne) as (h' & E & Hl1).
    exists h'. split; [done|]. by eapply is_list_remove.
  - assert (Hin : forall q, q ∈ head :: l1 ++ old :: l2 -> item <> q) by (by intros q ? ->).
    destruct (REPLACE_effect h item old (last_of head l1) (first_of l2 head)) as (h' & E & Hb);
      try done; try apply Hin.
    + destruct l2; [left|]. right. apply elem_of_app; right; right; left.
    + rewrite app_comm_cons. apply elem_of_app; left. apply last_of_elem.
    + right. apply elem_of_app; right; left.
    + exists h'. split; [done|]. by eapply is_list_replace.
Qed.

Lemma for_each_from_spec {S} (body : addr -> S -> S) fuel h head x l s :
  seg h x l head -> head ∉ l -> (length l <= fuel)%nat ->
  for_each_from fuel body (first_of l head) head h s = Some (foldl (fun s p => body p s) s l).
Proof.
  revert fuel x s; induction l as [|z l IH]; intros fuel x s; simpl.
  { intros. by destruct fuel; simpl; rewrite decide_True. }
  intros (_ & _ & Hs) Hh Hf. destruct fuel as [|fuel]; [lia|]. simpl.
  rewrite decide_False by (intros ->; apply Hh; left).
  pose proof Hs as [-> _]%seg_first. simpl.
  eapply IH; [done| |lia]. intros ?; apply Hh; by right.
Qed.

(** [SB_LIST_FOR_EACH] terminates on every well-formed list after one body
    run per item and folds the body over the items in list order, and
    [SB_LIST_IS_EMPTY] holds exactly of the empty list. *)
Theorem sb_list_for_each_folds {S} (body : addr -> S -> S) h head l s fuel :
  is_list h head l -> (length l <= fuel)%nat ->
  SB_LIST_FOR_EACH fuel body head h s = Some (foldl (fun s p => body p s) s l) /\
  SB_LIST_IS_EMPTY head h = Some (bool_decide (l = [])).
Proof.
  intros Hl Hf. unfold SB_LIST_FOR_EACH, SB_LIST_IS_EMPTY.
  rewrite (is_list_head_next _ _ _ Hl). simpl. destruct Hl as [[Hh _]%NoDup_cons Hs].
  split; [by eapply for_each_from_spec|].
  destruct l as [|z l]; simpl; [by rewrite bool_decide_true|].
  rewrite (bool_decide_false (z = head)); [done|].
  intros ->. apply Hh. left.
Qed.

(** The release loops of [free_values] and [free_options] visit every item
    once, never read a released node, and release them all; [free_values]
    leaves the empty list behind. *)
Theorem sb_list_free_loops_safe h head l fuel :
  is_list h head l -> (length l <= fuel)%nat ->
  (exists h', free_values_loop fuel head h = Some h' /\ is_list h' head [] /\
     forall p, p ∈ l -> h' !! p = None) /\
  (exists h', free_options_loop fuel head h = Some h' /\
     (forall p, p ∈ l -> h' !! p = None) /\ (forall p, p ∉ l -> h' !! p = h !! p)).
Proof.
  intros Hl Hf.
  unfold free_values_loop, free_options_loop, SB_LIST_FOR_EACH_SAFE.
  rewrite (is_list_head_next _ _ _ Hl). simpl.
  destruct l as [|z l]; simpl.
  { rewrite (is_list_head_next _ _ _ Hl). simpl.
    split; exists h; destruct fuel; simpl; rewrite decide_True by done;
      (split_and!; [done| |]); try done; by intros ? ?%not_elem_of_nil. }
  pose proof Hl as [Hnd (_ & _ & Hs)]. apply seg_first in Hs as [Hz _]. rewrite Hz. simpl.
  destruct fuel as [|fuel]; simpl in Hf; [lia|].
  split.
  - destruct (free_values_from_spec (Datatypes.S fuel) h head z l Hl ltac:(lia))
      as (h' & E & Hl' & Hg & _). exists h'. done.
  - destruct Hl as [_ (_ & _ & Hs)].
    destruct (free_options_from_spec (Datatypes.S fuel) h head z l Hnd Hs ltac:(lia))
      as (h' & E & Hg & Hk). exists h'. done.
Qed.

(** *** Witnesses on concrete stores *)

(** The store of an anchor 1 with items 2 and 3, and two spare nodes 4 and 5. *)
Definition demo_heap : heap :=
  list_to_map [(1, Item 2 3); (2, Item 3 1); (3, Item 1 2); (4, Item 4 4); (5, Item 5 5)]%positive.

Lemma demo_is_list : is_list demo_heap 1%positive [2; 3]%positive.
Proof. split; [decide_closed|]. vm_compute. split_and!; reflexivity. Qed.

Lemma sb_list_add_refines_witness :
  exists h', SB_LIST_ADD_TAIL 4%positive 1%positive demo_heap = Some h' /\
    is_list h' 1%positive [2; 3; 4]%positive.
Proof.
  destruct (sb_list_add_refines demo_heap 1%positive [2; 3]%positive 4%positive demo_is_list)
    as [_ (h' & E & Hl & _)]; [by vm_compute; eexists|decide_closed|].
  by exists h'.
Defined.

Lemma sb_list_delete_refines_witness :
  exists h', SB_LIST_DELETE 2%positive demo_heap = Some h' /\ is_list h' 1%positive [3%positive].
Proof.
  destruct (sb_list_delete_refines demo_heap 1%positive [] 2%positive [3%positive] 4%positive
    demo_is_list) as [(h' & E & Hl) _];
    [by vm_compute; eexists|decide_closed|]. by exists h'.
Defined.

Lemma sb_list_for_each_folds_witness :
  SB_LIST_FOR_EACH 2 (fun p s => s ++ [p]) 1%positive demo_heap [] = Some [2; 3]%positive.
Proof.
  destruct (sb_list_for_each_folds (fun p s => s ++ [p]) demo_heap 1%positive
    [2; 3]%positive [] 2%nat demo_is_list) as [E _]; [simpl; lia|]. exact E.
Defined.

Lemma sb_list_free_loops_safe_witness :
  exists h', free_values_loop 2 1%positive demo_heap = Some h' /\ is_list h' 1%positive [].
Proof.
  destruct (sb_list_free_loops_safe _ _ _ 2%nat demo_is_list) as [(h' & E & Hl & _) _];
    [simpl; lia|]. by exists h'.
Defined.
