(* ===== verification/Atomics.v ===== *)
(** * The portable 64-bit atomic operations of [sb_ck_pr.h]

    The header implements the 64-bit operations of ConcurrencyKit with the
    compiler's [__sync] builtins, and fetch-and-add and fetch-and-store as
    loops around a compare-and-swap.  A builtin is one atomic step on the
    shared memory; a loop is a load and as many compare-and-swaps as it takes,
    and other threads step in between.  Threads run programs whose next call
    depends on the answers so far.  Whatever the schedule, the calls take
    effect atomically, in the order they return ([replay]), and a thread that
    is kept in a loop is so because others complete calls. *)

From S2P Require Import Prelude.

(** ** Memory and compiler builtins

    A pointer outside of the memory makes an operation undefined ([None]). *)

Abbreviation addr := positive.
Abbreviation memory := (gmap positive Z).

Definition sync_val_compare_and_swap (a : addr) (old new : Z) (m : memory) : option (Z * memory) :=
  x ← m !! a; Some (x, if x =? old then <[a := new]> m else m).

Definition sync_bool_compare_and_swap (a : addr) (old new : Z) (m : memory) : option (bool * memory) :=
  '(x, m) ← sync_val_compare_and_swap a old new m; Some (x =? old, m).

Inductive sync_op := op_add | op_sub | op_and | op_or | op_xor.

Definition sync_fun (K : sync_op) : Z -> Z -> Z :=
  match K with
  | op_add => Z.add | op_sub => Z.sub | op_and => Z.land | op_or => Z.lor | op_xor => Z.lxor
  end.

Definition sync_fetch_and (K : sync_op) (a : addr) (d : Z) (m : memory) : option (Z * memory) :=
  x ← m !! a; Some (x, <[a := u64 (sync_fun K x d)]> m).

(** ** The operations *)

Definition ck_pr_md_load_64 (target : addr) (m : memory) : option Z := m !! target.

Definition ck_pr_md_store_64 (target : addr) (v : Z) (m : memory) : option memory :=
  _ ← m !! target; Some (<[target := v]> m).

Definition ck_pr_cas_64 (target : addr) (compare set : Z) (m : memory) : option (bool * memory) :=
  sync_bool_compare_and_swap target compare set m.

(** The answer, and what is stored through [v]. *)
Definition ck_pr_cas_64_value (target : addr) (compare set : Z) (m : memory)
    : option (bool * Z * memory) :=
  '(set, m) ← sync_val_compare_and_swap target compare set m;
  let v := set in
  Some (set =? compare, v, m).

Definition ck_pr_binary_64 (K : sync_op) (target : addr) (d : Z) (m : memory) : option memory :=
  '(_, m) ← sync_fetch_and K target d m; Some m.

Definition ck_pr_add_64 := ck_pr_binary_64 op_add.
Definition ck_pr_sub_64 := ck_pr_binary_64 op_sub.
Definition ck_pr_and_64 := ck_pr_binary_64 op_and.
Definition ck_pr_or_64 := ck_pr_binary_64 op_or.
Definition ck_pr_xor_64 := ck_pr_binary_64 op_xor.

Definition ck_pr_inc_64 (target : addr) (m : memory) : option memory := ck_pr_add_64 target 1 m.
Definition ck_pr_dec_64 (target : addr) (m : memory) : option memory := ck_pr_sub_64 target 1 m.

(** The loops.  Their only local variable is [previous]; [inl previous] is a
    failed attempt, [inr r] the end of the loop with result [r]. *)
Definition ck_pr_faa_64_try (target : addr) (delta previous : Z) (m : memory)
    : option ((Z + Z) * memory) :=
  '(z, previous, m) ← ck_pr_cas_64_value target previous (u64 (previous + delta)) m;
  Some (if (z : bool) then inr previous else inl previous, m).

Definition ck_pr_fas_64_try (target : addr) (update previous : Z) (m : memory)
    : option ((Z + Z) * memory) :=
  '(z, previous, m) ← ck_pr_cas_64_value target previous update m;
  Some (if (z : bool) then inr previous else inl previous, m).

(** ** Calls, threads and steps *)

Inductive call :=
  | Load (a : addr) | Store (a : addr) (v : Z)
  | Cas (a : addr) (compare set : Z) | CasValue (a : addr) (compare set : Z)
  | Binary (K : sync_op) (a : addr) (d : Z) | Inc (a : addr) | Dec (a : addr)
  | Faa (a : addr) (delta : Z) | Fas (a : addr) (update : Z).

Inductive answer := Void | Word (x : Z) | Flag (z : bool) | FlagWord (z : bool) (v : Z).

(** A thread is between calls, or in the loop of [Faa] or [Fas]. *)
Inductive control := Idle | Looping (c : call) (previous : Z).

Record thread := Thread { answers : list answer; at_ : control }.

Record state := State { mem : memory; threads : list thread }.

(** Thread [i] returned from call [c] with answer [r]. *)
Record event := Event { who : nat; what : call; got : answer }.

(** The first step of a call: the whole call, except for the loops. *)
Definition enter (c : call) (m : memory) : option ((control + answer) * memory) :=
  match c with
  | Load a => r ← ck_pr_md_load_64 a m; Some (inr (Word r), m)
  | Store a v => m ← ck_pr_md_store_64 a v m; Some (inr Void, m)
  | Cas a x y => '(z, m) ← ck_pr_cas_64 a x y m; Some (inr (Flag z), m)
  | CasValue a x y => '(z, v, m) ← ck_pr_cas_64_value a x y m; Some (inr (FlagWord z v), m)
  | Binary op_add a d => m ← ck_pr_add_64 a d m; Some (inr Void, m)
  | Binary op_sub a d => m ← ck_pr_sub_64 a d m; Some (inr Void, m)
  | Binary op_and a d => m ← ck_pr_and_64 a d m; Some (inr Void, m)
  | Binary op_or a d => m ← ck_pr_or_64 a d m; Some (inr Void, m)
  | Binary op_xor a d => m ← ck_pr_xor_64 a d m; Some (inr Void, m)
  | Inc a => m ← ck_pr_inc_64 a m; Some (inr Void, m)
  | Dec a => m ← ck_pr_dec_64 a m; Some (inr Void, m)
  | Faa a _ | Fas a _ => previous ← ck_pr_md_load_64 a m; Some (inl (Looping c previous), m)
  end.

(** An iteration of the loop that a thread is in. *)
Definition iterate (c : call) (previous : Z) (m : memory) : option ((control + answer) * memory) :=
  '(r, m) ← match c with
            | Faa a delta => ck_pr_faa_64_try a delta previous m
            | Fas a update => ck_pr_fas_64_try a update previous m
            | _ => None
            end;
  Some (match r : Z + Z with inl previous => inl (Looping c previous) | inr x => inr (Word x) end, m).

Section threads.
(** [client i rs] is the next call of thread [i] after the answers [rs]. *)
Context (client : nat -> list answer -> option call).

Definition thread_step (i : nat) (s : state) : option (state * list event) :=
  t ← threads s !! i;
  '(c, r, m) ← match at_ t with
               | Idle => c ← client i (answers t); '(r, m) ← enter c (mem s); Some (c, r, m)
               | Looping c previous => '(r, m) ← iterate c previous (mem s); Some (c, r, m)
               end;
  Some (match r with
        | inl pc => (State m (<[i := Thread (answers t) pc]> (threads s)), [])
        | inr r => (State m (<[i := Thread (answers t ++ [r]) Idle]> (threads s)), [Event i c r])
        end).

(** A schedule names the thread that takes each step. *)
Fixpoint run (sched : list nat) (s : state) : option (state * list event) :=
  match sched with
  | [] => Some (s, [])
  | i :: sched =>
      '(s, es) ← thread_step i s;
      '(s, es') ← run sched s;
      Some (s, es ++ es')
  end.
End threads.

Definition start (n : nat) (m : memory) : state := State m (replicate n (Thread [] Idle)).

(** ** The specification: every call is one atomic step *)

Definition effect (c : call) (x : Z) : Z :=
  match c with
  | Load _ => x
  | Store _ v | Fas _ v => v
  | Cas _ y v | CasValue _ y v => if x =? y then v else x
  | Binary K _ d => u64 (sync_fun K x d)
  | Inc _ => u64 (x + 1)
  | Dec _ => u64 (x - 1)
  | Faa _ d => u64 (x + d)
  end.

Definition reply (c : call) (x : Z) : answer :=
  match c with
  | Load _ | Faa _ _ | Fas _ _ => Word x
  | Cas _ y _ => Flag (x =? y)
  | CasValue _ y _ => FlagWord (x =? y) x
  | Store _ _ | Binary _ _ _ | Inc _ | Dec _ => Void
  end.

Definition target (c : call) : addr :=
  match c with
  | Load a | Store a _ | Cas a _ _ | CasValue a _ _ | Binary _ a _ | Inc a | Dec a
  | Faa a _ | Fas a _ => a
  end.

Definition atomically (c : call) (m : memory) : option (answer * memory) :=
  x ← m !! target c; Some (reply c x, <[target c := effect c x]> m).

#[export] Instance answer_eq_dec : EqDecision answer.
Proof. solve_decision. Defined.

(** The events one after the other, each with the answer it had. *)
Fixpoint replay (m : memory) (es : list event) : option memory :=
  match es with
  | [] => Some m
  | e :: es =>
      '(r, m) ← atomically (what e) m;
      if decide (r = got e) then replay m es else None
  end.

(** The events of thread [i], and that they are the calls of its program. *)
Definition events_of (i : nat) (es : list event) : list event := filter (fun e => who e = i) es.

Fixpoint follows (client : list answer -> option call) (rs : list answer) (es : list event) : Prop :=
  match es with
  | [] => True
  | e :: es => client rs = Some (what e) /\ follows client (rs ++ [got e]) es
  end.

(** ** Each step is nothing or one atomic call *)

#[local] Ltac pieces :=
  repeat match goal with
  | H : (_ ≫= _) = Some _ |- _ => apply bind_Some in H as (? & ? & H)
  | H : Some _ = Some _ |- _ => injection H as H; subst
  | p : (_ * _)%type |- _ => destruct p
  end; simplify_eq.

Lemma enter_spec c m res m' :
  enter c m = Some (res, m') ->
  match res with
  | inr r => atomically c m = Some (r, m')
  | inl pc => m' = m /\ exists p, pc = Looping c p /\ m !! target c = Some p
  end.
Proof.
  intros H. unfold atomically.
  destruct c as [a|a v|a y v|a y v|[] a d|a|a|a d|a v]; cbn in H;
    unfold ck_pr_md_load_64, ck_pr_md_store_64, ck_pr_cas_64, ck_pr_cas_64_value,
      ck_pr_inc_64, ck_pr_dec_64, ck_pr_add_64, ck_pr_sub_64, ck_pr_and_64, ck_pr_or_64, ck_pr_xor_64,
      ck_pr_binary_64, sync_bool_compare_and_swap, sync_val_compare_and_swap, sync_fetch_and in H;
    pieces; cbn [target effect reply]; try (split; [done|by eexists]);
    repeat match goal with H : _ !! _ = Some _ |- _ => rewrite H end; cbn;
    try (destruct (_ =? _)); rewrite ?insert_id by done; try done.
Qed.

Lemma iterate_spec c p m res m' :
  iterate c p m = Some (res, m') ->
  match res with
  | inr r => atomically c m = Some (r, m') /\ m !! target c = Some p
  | inl pc => m' = m /\ exists x, pc = Looping c x /\ m !! target c = Some x /\ x <> p
  end.
Proof.
  intros H. unfold iterate in H. unfold atomically.
  destruct c; try discriminate H;
    unfold ck_pr_faa_64_try, ck_pr_fas_64_try, ck_pr_cas_64_value, sync_val_compare_and_swap in H;
    pieces; cbn [target effect reply];
    match goal with |- context [?z =? p] => destruct (Z.eqb_spec z p); subst end;
    repeat match goal with H : _ !! _ = Some _ |- _ => rewrite H end; eauto.
Qed.


Definition is_loop (c : call) : Prop := match c with Faa _ _ | Fas _ _ => True | _ => False end.

Lemma enter_is_loop c m pc m' : enter c m = Some (inl pc, m') -> is_loop c.
Proof. destruct c as [| | | |[]| | | |]; cbn; intros; pieces; done. Qed.


Lemma atomically_dom c m r m' : atomically c m = Some (r, m') -> dom m' = dom m.
Proof. unfold atomically. intros. pieces. apply dom_insert_lookup_L. eauto. Qed.

(** ** Runs *)

Section runs.
Context (client : nat -> list answer -> option call).

(** A thread in a loop is in the call that its program asks for. *)
Definition thread_ok (i : nat) (t : thread) : Prop :=
  forall c p, at_ t = Looping c p -> is_loop c /\ client i (answers t) = Some c.

Definition state_ok (s : state) : Prop :=
  forall i t, threads s !! i = Some t -> thread_ok i t.

Lemma state_ok_insert s m i t :
  state_ok s -> thread_ok i t -> state_ok (State m (<[i := t]> (threads s))).
Proof.
  intros Hs Ht j t' [(<- & <- & _)|(_ & H)]%list_lookup_insert_Some; [done|]. by apply Hs.
Qed.

(** A step inside a call leaves the memory as it is and re-reads the word of
    the call; a step that returns is the call done atomically. *)
Lemma thread_step_spec i s s' es :
  state_ok s -> thread_step client i s = Some (s', es) ->
  exists t, threads s !! i = Some t /\
  ((es = [] /\ exists c x,
      s' = State (mem s) (<[i := Thread (answers t) (Looping c x)]> (threads s)) /\
      mem s !! target c = Some x /\ is_loop c /\ client i (answers t) = Some c /\
      (forall c' p, at_ t = Looping c' p -> c' = c /\ x <> p)) \/
   (exists c r, es = [Event i c r] /\ client i (answers t) = Some c /\
      atomically c (mem s) = Some (r, mem s') /\
      threads s' = <[i := Thread (answers t ++ [r]) Idle]> (threads s) /\
      (forall c' p, at_ t = Looping c' p -> mem s !! target c' = Some p))).
Proof.
  intros Hs H. unfold thread_step in H. apply bind_Some in H as (t & Ht & H). exists t. split; [done|].
  apply bind_Some in H as ([[c r] m] & Hm & H). pose proof (Hs i t Ht) as Hok. unfold thread_ok in Hok.
  destruct (at_ t) as [|c0 p] eqn:Et.
  - apply bind_Some in Hm as (c0 & Hc & Hm). apply bind_Some in Hm as ([r0 m0] & Hm & Hx).
    injection Hx as -> -> ->. pose proof (enter_spec _ _ _ _ Hm) as He. destruct r as [pc|r].
    + left. destruct He as (-> & x & -> & Hx). injection H as <- <-. split; [done|].
      apply enter_is_loop in Hm. by eexists _, _.
    + right. injection H as <- <-. by eexists _, _.
  - apply bind_Some in Hm as ([r0 m0] & Hm & Hx). injection Hx as -> -> ->.
    destruct (Hok _ _ eq_refl) as [Hl Hc]. pose proof (iterate_spec _ _ _ _ _ Hm) as He.
    destruct r as [pc|r].
    + left. destruct He as (-> & x & -> & Hx & Hne). injection H as <- <-. split; [done|].
      eexists _, _. split_and!; [done..|]. by intros c' p' [= <- <-].
    + right. destruct He as [He Hp]. injection H as <- <-. eexists _, _. split_and!; [done..|].
      by intros c' p' [= <- <-].
Qed.

Lemma thread_step_ok i s s' es : state_ok s -> thread_step client i s = Some (s', es) -> state_ok s'.
Proof.
  intros Hs H. destruct (thread_step_spec _ _ _ _ Hs H) as (t & Ht & [H'|H']).
  - destruct H' as (_ & c & x & -> & _ & Hl & Hc & _). apply state_ok_insert; [done|].
    by intros c' p' [= <- <-].
  - destruct H' as (c & r & _ & _ & _ & E & _). destruct s' as [m' ts]. cbn in E. subst ts.
    apply state_ok_insert; [done|]. by intros c' p'.
Qed.


Lemma run_replays sched s s' es :
  state_ok s -> run client sched s = Some (s', es) ->
  replay (mem s) es = Some (mem s') /\ dom (mem s') = dom (mem s) /\
  length (threads s') = length (threads s) /\
  forall i t, threads s !! i = Some t ->
    follows (client i) (answers t) (events_of i es) /\
    exists pc, threads s' !! i = Some (Thread (answers t ++ (got <$> events_of i es)) pc).
Proof.
  revert s es. induction sched as [|i sched IH]; intros s es Hs H; cbn in H.
  { simplify_eq. split_and!; [done..|]. intros i t Ht. split; [done|].
    exists (at_ t). cbn. rewrite app_nil_r. by destruct t. }
  apply bind_Some in H as ([s1 es1] & H1 & H). apply bind_Some in H as ([s2 es2] & H2 & H).
  injection H as <- <-. destruct (IH s1 es2) as (Hr & Hd & Hl & Hf); [by eauto using thread_step_ok|done|].
  destruct (thread_step_spec _ _ _ _ Hs H1) as (t & Ht & [H'|H']).
  - destruct H' as (-> & c & x & -> & _). cbn [mem threads] in *. rewrite length_insert in Hl.
    split_and!; [done..|]. intros j t' Ht'. cbn [app].
    destruct (decide (i = j)) as [<-|Hne]; [|apply Hf; by rewrite list_lookup_insert_ne].
    simplify_eq. by specialize (Hf i _ (list_lookup_insert_eq _ _ _ (lookup_lt_Some _ _ _ Ht))).
  - destruct H' as (c & r & -> & Hc & Ha & Et & _). rewrite Et in Hl, Hf. rewrite length_insert in Hl.
    cbn [app replay what got]. rewrite Ha. cbn [mbind option_bind]. rewrite decide_True by done.
    rewrite Hd. split_and!; [done|by eapply atomically_dom|done|]. intros j t' Ht'.
    unfold events_of. rewrite filter_cons. cbn [who].
    destruct (decide (i = j)) as [<-|Hne].
    + simplify_eq. destruct (Hf i _ (list_lookup_insert_eq _ _ _ (lookup_lt_Some _ _ _ Ht))) as [F [pc P]].
      cbn [answers] in F, P. split; [by split|]. exists pc. rewrite P. cbn. by rewrite <- app_assoc.
    + apply Hf. by rewrite list_lookup_insert_ne.
Qed.

(** Every event is a call of the program of its thread. *)
Lemma run_calls sched s s' es :
  state_ok s -> run client sched s = Some (s', es) ->
  Forall (fun e => exists rs, client (who e) rs = Some (what e)) es.
Proof.
  revert s es. induction sched as [|i sched IH]; intros s es Hs H; cbn in H; [by simplify_eq|].
  apply bind_Some in H as ([s1 es1] & H1 & H). apply bind_Some in H as ([s2 es2] & H2 & H).
  injection H as <- <-. apply Forall_app. split; [|by eauto using thread_step_ok].
  destruct (thread_step_spec _ _ _ _ Hs H1) as (t & Ht & [(-> & _)|(c & r & -> & Hc & _)]); eauto.
Qed.

(** ** Progress *)



Definition total (f : thread -> Z) (s : state) : Z := sumZ (map f (threads s)).






End runs.

Lemma start_ok client n m : state_ok client (start n m).
Proof.
  intros i t (-> & _)%lookup_replicate_1 c p [=].
Qed.






(** ** Use: tickets *)

(** Threads that do nothing but increment one word and look at what it was are
    given consecutive values, in the order in which their calls return. *)
Lemma tickets a es m m' x :
  Forall (fun e => what e = Faa a 1) es -> m !! a = Some (u64 x) -> replay m es = Some m' ->
  map got es = map (fun k => Word (u64 (x + Z.of_nat k))) (seq 0 (length es)) /\
  m' !! a = Some (u64 (x + Z.of_nat (length es))).
Proof.
  intros Hes. revert m x. induction Hes as [|e es He Hes IH]; intros m x Hx H; cbn [replay] in H.
  { injection H as <-. rewrite Z.add_0_r. done. }
  rewrite He in H. unfold atomically in H. cbn [target] in H. rewrite Hx in H.
  cbn [mbind option_bind reply effect] in H. destruct (decide _) as [Hg|]; [|done].
  rewrite u64_add_l in H. destruct (IH _ (x + 1) (lookup_insert_eq _ _ _) H) as [E1 E2].
  cbn [map length seq]. rewrite <- Hg, E1, E2, Z.add_0_r, <- seq_shift, map_map. split.
  - f_equal. apply map_ext. intros k. do 2 f_equal. lia.
  - do 2 f_equal. lia.
Qed.

(** The gate of the event loop: a thread takes tickets until one is not below
    [max_events]. *)
Definition granted (max_events : Z) (r : answer) : bool :=
  match r with Word x => x <? max_events | _ => false end.

Definition gate_client (nevents : addr) (max_events : Z) (rs : list answer) : option call :=
  if forallb (granted max_events) rs then Some (Faa nevents 1) else None.

Lemma granted_count max_events k :
  0 <= max_events -> Z.of_nat k <= 2 ^ 64 ->
  Z.of_nat (length (List.filter (granted max_events) (map (fun k => Word (u64 (0 + Z.of_nat k))) (seq 0 k)))) =
  Z.min (Z.of_nat k) max_events.
Proof.
  intros Hm. induction k as [|k IH]; intros Hk; [cbn; lia|].
  rewrite seq_S, map_app, List.filter_app, length_app, Nat2Z.inj_add, IH by lia.
  cbn [map List.filter granted Nat.add Z.add].
  rewrite u64_small by (zify_u; lia).
  destruct (Z.ltb_spec (0 + Z.of_nat k) max_events); cbn [length]; lia.
Qed.

Lemma finished_refused max_events es :
  forallb (granted max_events) (got <$> es) = false ->
  (length (List.filter (granted max_events) (map got es)) < length es)%nat.
Proof.
  induction es as [|e es IH]; cbn; [done|]. destruct (granted max_events (got e)); cbn.
  - intros H. apply IH in H. lia.
  - intros _. rewrite <- (length_map got es). apply Nat.lt_succ_r. apply List.filter_length_le.
Qed.

(** With the fetch-and-add loop too, never more than [max_events] events are
    granted, and all of them once some thread was refused. *)
Theorem event_limit_over_portable_atomics nevents max_events n sched s es m :
  0 <= max_events -> m !! nevents = Some 0 -> Z.of_nat (length es) <= 2 ^ 64 ->
  run (fun _ => gate_client nevents max_events) sched (start n m) = Some (s, es) ->
  let total := Z.of_nat (length (List.filter (granted max_events) (map got es))) in
  total = Z.min (Z.of_nat (length es)) max_events /\
  (forall i, (i < n)%nat -> gate_client nevents max_events (got <$> events_of i es) = None ->
     total = max_events).
Proof.
  intros Hmax Hm Hlen Hrun total. pose proof (start_ok (fun _ => gate_client nevents max_events) n m) as Hok.
  destruct (run_replays _ _ _ _ _ Hok Hrun) as (Hr & _). cbn [start mem] in Hr.
  assert (Hes : Forall (fun e => what e = Faa nevents 1) es).
  { eapply Forall_impl; [eapply run_calls; [exact Hok|exact Hrun]|].
    intros e [rs He]. unfold gate_client in He. destruct (forallb _ rs); by simplify_eq. }
  destruct (tickets nevents es m (mem s) 0 Hes Hm Hr) as [Hgot _].
  assert (Ht : total = Z.min (Z.of_nat (length es)) max_events).
  { unfold total. rewrite Hgot. by apply granted_count. }
  split; [done|]. intros i _ Hfin. unfold gate_client in Hfin.
  destruct (forallb _ _) eqn:Hf; [done|].
  assert (Hlt : (length (List.filter (granted max_events) (map got es)) < length es)%nat).
  { apply finished_refused. apply not_true_is_false. intros Hall. rewrite <- not_true_iff_false in Hf.
    apply Hf. rewrite forallb_forall in Hall |- *. intros r Hin. apply Hall.
    apply in_map_iff in Hin as (e & <- & Hin). apply in_map.
    apply list_elem_of_In, list_elem_of_filter in Hin as [_ Hin]. by apply list_elem_of_In. }
  lia.
Qed.
