(* ===== verification/Double.v ===== *)
(** * IEEE 754 binary64 arithmetic

    The C type [double], as far as sysbench uses it: every finite value is an
    integer multiple of [2^-1074], so it is held as that integer; [+], [*],
    [/] and the integer conversions round to nearest, ties to even, to 53
    significant bits, with gradual underflow and overflow to infinity.  The
    sign of zero is not represented.  Conversions to an integer type are
    partial, as in C: [None] is undefined behaviour. *)

From S2P Require Import Prelude.

(** ** Rounding *)

(** [n / d] rounded to the nearest integer, ties to even ([d > 0]). *)
Definition rne (n d : Z) : Z :=
  let q := n / d in
  let r := n mod d in
  match 2 * r ?= d with
  | Lt => q
  | Gt => q + 1
  | Eq => if Z.even q then q else q + 1
  end.

(** The exponent of the last place of the double nearest to [n / d]. *)
Definition lsb (n d : Z) : Z := Z.max 0 (Z.log2 (n / d) - 52).

(** The magnitude [n / d] rounded to 53 significant bits. *)
Definition rv (n d : Z) : Z := rne n (d * 2 ^ lsb n d) * 2 ^ lsb n d.

(** ** Values and operations *)

Inductive dbl := Fin (v : Z) | Inf (neg : bool) | NaN.

#[export] Instance dbl_eq_dec : EqDecision dbl.
Proof. solve_decision. Defined.

(** The scale: [Fin v] is the real number [v / D1]. *)
Definition D1 : Z := 2 ^ 1074.

Definition rnd (n d : Z) : dbl :=
  let v := rv (Z.abs n) d in
  if 2 ^ 2098 <=? v then Inf (n <? 0) else Fin (Z.sgn n * v).

Definition d_of_Z (z : Z) : dbl := rnd (z * D1) 1.

(** The decimal constant [n / d] of the source, rounded by the compiler. *)
Definition d_const (n d : Z) : dbl := rnd (n * D1) d.

(** The value of a 64-bit pattern, as read through a union. *)
Definition d_of_bits (i : Z) : dbl :=
  let e := Z.land (Z.shiftr i 52) 0x7FF in
  let m := Z.land i (2 ^ 52 - 1) in
  let sg := if Z.testbit i 63 then -1 else 1 in
  if e =? 0x7FF then (if m =? 0 then Inf (Z.testbit i 63) else NaN)
  else if e =? 0 then Fin (sg * m) else Fin (sg * (2 ^ 52 + m) * 2 ^ (e - 1)).

Definition dopp (x : dbl) : dbl :=
  match x with Fin v => Fin (- v) | Inf s => Inf (negb s) | NaN => NaN end.

Definition dadd (x y : dbl) : dbl :=
  match x, y with
  | Fin a, Fin b => rnd (a + b) 1
  | NaN, _ | _, NaN => NaN
  | Inf s, Inf t => if Bool.eqb s t then Inf s else NaN
  | Inf s, Fin _ | Fin _, Inf s => Inf s
  end.

Definition dsub (x y : dbl) : dbl := dadd x (dopp y).

Definition dmul (x y : dbl) : dbl :=
  match x, y with
  | Fin a, Fin b => rnd (a * b) D1
  | NaN, _ | _, NaN => NaN
  | Inf s, Inf t => Inf (xorb s t)
  | Inf s, Fin b | Fin b, Inf s => if b =? 0 then NaN else Inf (xorb s (b <? 0))
  end.

Definition ddiv (x y : dbl) : dbl :=
  match x, y with
  | Fin a, Fin b =>
      if b =? 0 then (if a =? 0 then NaN else Inf (a <? 0))
      else rnd (a * D1 * Z.sgn b) (Z.abs b)
  | NaN, _ | _, NaN => NaN
  | Inf _, Inf _ => NaN
  | Fin _, Inf _ => Fin 0
  | Inf s, Fin b => Inf (xorb s (b <? 0))
  end.

Definition dltb (x y : dbl) : bool :=
  match x, y with
  | Fin a, Fin b => a <? b
  | NaN, _ | _, NaN => false
  | Inf s, Inf t => s && negb t
  | Inf s, Fin _ => s
  | Fin _, Inf t => negb t
  end.

Definition dleb (x y : dbl) : bool :=
  match x, y with
  | Fin a, Fin b => a <=? b
  | NaN, _ | _, NaN => false
  | Inf s, Inf t => s || negb t
  | Inf s, Fin _ => s
  | Fin _, Inf t => negb t
  end.

Definition dabs (x : dbl) : dbl :=
  match x with Fin v => Fin (Z.abs v) | Inf _ => Inf false | NaN => NaN end.

(** [floor(3)] *)
Definition dfloor (x : dbl) : dbl :=
  match x with Fin v => Fin (v / D1 * D1) | _ => x end.

(** Conversion to an integer type with range [lo, hi]: truncation, undefined
    when the truncated value does not fit. *)
Definition d_to_int (lo hi : Z) (x : dbl) : option Z :=
  match x with
  | Fin v =>
      let t := Z.quot v D1 in
      if (lo <=? t) && (t <=? hi) then Some t else None
  | _ => None
  end.

Definition d_to_u32 : dbl -> option Z := d_to_int 0 UINT32_MAX.
Definition d_to_u64 : dbl -> option Z := d_to_int 0 UINT64_MAX.
Definition d_to_s64 : dbl -> option Z := d_to_int (- 2 ^ 63) (2 ^ 63 - 1).
Definition d_to_s32 : dbl -> option Z := d_to_int INT_MIN INT_MAX.

(** ** Rounding lemmas *)

Lemma rne_le n d k : 0 < d -> n <= k * d -> rne n d <= k.
Proof.
  intros Hd Hn. unfold rne. pose proof (Z.div_mod n d ltac:(lia)) as E.
  pose proof (Z.mod_pos_bound n d Hd). set (q := n / d) in *. set (r := n mod d) in *.
  destruct (2 * r ?= d) eqn:C; [apply Z.compare_eq in C|rewrite Z.compare_lt_iff in C|
    rewrite Z.compare_gt_iff in C]; try destruct (Z.even q); nia.
Qed.

Lemma rne_ge n d k : 0 < d -> k * d <= n -> k <= rne n d.
Proof.
  intros Hd Hn. unfold rne. pose proof (Z.div_mod n d ltac:(lia)) as E.
  pose proof (Z.mod_pos_bound n d Hd). set (q := n / d) in *. set (r := n mod d) in *.
  assert (k <= q) by nia.
  destruct (2 * r ?= d); try destruct (Z.even q); lia.
Qed.

Lemma rne_exact k d : 0 < d -> rne (k * d) d = k.
Proof. intros. apply Z.le_antisymm; [apply rne_le|apply rne_ge]; lia. Qed.

Lemma rne_mono n1 n2 d : 0 < d -> n1 <= n2 -> rne n1 d <= rne n2 d.
Proof.
  intros Hd Hn. destruct (Z.eq_dec (n1 / d) (n2 / d)) as [E|E].
  - unfold rne. rewrite E.
    assert (n1 mod d <= n2 mod d) by (rewrite !Z.mod_eq by lia; lia).
    destruct (2 * (n1 mod d) ?= d) eqn:C1, (2 * (n2 mod d) ?= d) eqn:C2;
      rewrite ?Z.compare_eq_iff, ?Z.compare_lt_iff, ?Z.compare_gt_iff in *;
      try destruct (Z.even _); lia.
  - pose proof (Z.div_le_mono n1 n2 d Hd Hn).
    transitivity (n1 / d + 1); [apply rne_le; [done|]|].
    + pose proof (Z.mul_succ_div_gt n1 d Hd). lia.
    + apply rne_ge; [done|]. pose proof (Z.mul_div_le n2 d Hd). nia.
Qed.

Lemma lsb_nonneg n d : 0 <= lsb n d.
Proof. unfold lsb. lia. Qed.

Lemma lsb_pos_pow n d : 0 < 2 ^ lsb n d.
Proof. apply Z.pow_pos_nonneg; [lia|apply lsb_nonneg]. Qed.

#[export] Hint Resolve lsb_nonneg lsb_pos_pow : sb.

Lemma lsb_upper n d : 0 < d -> 0 <= n -> n < d * 2 ^ (53 + lsb n d).
Proof.
  intros Hd Hn. pose proof (lsb_nonneg n d). pose proof (Z.mul_succ_div_gt n d Hd).
  assert (n / d < 2 ^ (53 + lsb n d)).
  { destruct (Z.eq_dec (n / d) 0) as [->|]; [apply Z.pow_pos_nonneg; lia|].
    pose proof (Z.div_pos n d). apply Z.log2_lt_pow2; unfold lsb; lia. }
  nia.
Qed.

Lemma lsb_lower n d : 0 < d -> 0 <= n -> 0 < lsb n d -> d * 2 ^ (52 + lsb n d) <= n.
Proof.
  intros Hd Hn Hl. pose proof (Z.mul_div_le n d Hd).
  assert (2 ^ (52 + lsb n d) <= n / d).
  { destruct (Z.eq_dec (n / d) 0) as [E|]; [unfold lsb in Hl; rewrite E in Hl; simpl in Hl; lia|].
    pose proof (Z.div_pos n d). apply Z.log2_le_pow2; unfold lsb in *; lia. }
  nia.
Qed.

Lemma lsb_mono n1 n2 d : 0 < d -> n1 <= n2 -> lsb n1 d <= lsb n2 d.
Proof.
  intros Hd Hn. pose proof (Z.log2_le_mono _ _ (Z.div_le_mono n1 n2 d Hd Hn)). unfold lsb. lia.
Qed.

Lemma rv_mono n1 n2 d : 0 < d -> 0 <= n1 <= n2 -> rv n1 d <= rv n2 d.
Proof.
  intros Hd [Hn1 Hn]. unfold rv.
  pose proof (lsb_mono n1 n2 d Hd Hn). pose proof (lsb_nonneg n1 d). pose proof (lsb_nonneg n2 d).
  destruct (Z.eq_dec (lsb n1 d) (lsb n2 d)) as [->|Hne].
  - apply Z.mul_le_mono_nonneg_r; [lia|]. apply rne_mono; [|done].
    apply Z.mul_pos_pos; [done|auto with sb].
  - transitivity (2 ^ (53 + lsb n1 d)).
    + rewrite Z.pow_add_r by lia. apply Z.mul_le_mono_nonneg_r; [lia|].
      apply rne_le; [apply Z.mul_pos_pos; auto with sb|].
      pose proof (lsb_upper n1 d Hd Hn1) as Hu. rewrite Z.pow_add_r in Hu by lia. lia.
    + transitivity (2 ^ (52 + lsb n2 d)); [apply Z.pow_le_mono_r; lia|].
      rewrite Z.pow_add_r by lia. apply Z.mul_le_mono_nonneg_r; [lia|].
      apply rne_ge; [apply Z.mul_pos_pos; auto with sb|].
      pose proof (lsb_lower n2 d Hd ltac:(lia) ltac:(lia)) as Hu.
      rewrite Z.pow_add_r in Hu by lia. lia.
Qed.

(** Integers with at most 53 significant bits, in units of the scale. *)
Definition representable (z : Z) : Prop :=
  exists m k, z = m * 2 ^ k /\ 0 <= k /\ Z.abs m < 2 ^ 53.

Lemma rv_exact z d : 0 < d -> 0 <= z -> representable z -> rv (z * d) d = z.
Proof.
  intros Hd Hz (m & k & -> & Hk & Hm). unfold rv.
  set (z := m * 2 ^ k) in *. set (e := lsb (z * d) d).
  assert (He : e <= k \/ e = 0).
  { unfold e, lsb. rewrite Z.div_mul by lia.
    destruct (Z.eq_dec z 0) as [->|]; [right; reflexivity|].
    assert (0 < 2 ^ k) by (apply Z.pow_pos_nonneg; lia). assert (0 < m) by nia.
    assert (Z.log2 z <= 52 + k); [|lia].
    apply Z.lt_succ_r. apply Z.log2_lt_pow2; [lia|].
    replace (Z.succ (52 + k)) with (53 + k) by lia. rewrite Z.pow_add_r by lia. unfold z. nia. }
  assert (He0 : 0 <= e) by apply lsb_nonneg.
  assert (Hdiv : exists w, z = w * 2 ^ e).
  { destruct He as [He| ->]; [|exists z; rewrite Z.pow_0_r; lia].
    exists (m * 2 ^ (k - e)). unfold z.
    rewrite <- Z.mul_assoc, <- Z.pow_add_r by lia. do 2 f_equal. lia. }
  destruct Hdiv as [w Hw].
  replace (z * d) with (w * (d * 2 ^ e)) by (rewrite Hw; ring).
  rewrite rne_exact; [by rewrite Hw|].
  apply Z.mul_pos_pos; [done|]. apply Z.pow_pos_nonneg; lia.
Qed.

Lemma rv_le n d z : 0 < d -> 0 <= n -> representable z -> n <= z * d -> rv n d <= z.
Proof.
  intros Hd Hn Hr Hz. rewrite <- (rv_exact z d) by (done || nia). apply rv_mono; lia.
Qed.

Lemma rv_ge n d z : 0 < d -> 0 <= z -> representable z -> z * d <= n -> z <= rv n d.
Proof.
  intros Hd Hn Hr Hz. rewrite <- (rv_exact z d) at 1 by done. apply rv_mono; nia.
Qed.

Lemma rv_nonneg n d : 0 < d -> 0 <= n -> 0 <= rv n d.
Proof. intros. apply rv_ge; try lia. exists 0, 0. lia. Qed.

(** ** Lifting to doubles *)

Lemma representable_scale m k : 0 <= k -> Z.abs m < 2 ^ 53 -> representable (m * 2 ^ k).
Proof. intros. by exists m, k. Qed.

Lemma representable_int z : Z.abs z < 2 ^ 53 -> representable (z * D1).
Proof. intros. apply representable_scale; [lia|done]. Qed.

Lemma rnd_bounds n d lo hi :
  0 < d -> 0 <= lo -> representable lo -> representable hi -> hi < 2 ^ 2098 ->
  lo * d <= n -> n <= hi * d ->
  exists v, rnd n d = Fin v /\ lo <= v <= hi.
Proof.
  intros Hd Hlo Hrlo Hrhi Hhi Hl Hh. unfold rnd.
  rewrite Z.abs_eq by nia. assert (0 <= n) by nia.
  pose proof (rv_ge n d lo Hd Hlo Hrlo Hl). pose proof (rv_le n d hi Hd ltac:(lia) Hrhi Hh).
  assert (E : (2 ^ 2098 <=? rv n d) = false) by (apply Z.leb_gt; lia).
  rewrite E. eexists; split; [done|].
  destruct (Z.eq_dec n 0) as [->|]; [|rewrite Z.sgn_pos by lia; lia].
  assert (lo = 0) by nia. simpl. assert (0 <= hi) by nia. lia.
Qed.

Lemma rnd_exact z : 0 <= z < 2 ^ 2098 -> representable z -> rnd z 1 = Fin z.
Proof.
  intros Hz Hr. destruct (rnd_bounds z 1 z z) as (v & -> & ?); try done; try lia.
  f_equal. lia.
Qed.

Lemma D1_pos : 0 < D1.
Proof. by apply Z.pow_pos_nonneg. Qed.
#[export] Hint Resolve D1_pos : sb.

Lemma D1_mul_lt z : z < 2 ^ 1024 -> z * D1 < 2 ^ 2098.
Proof.
  intros Hz. replace (2 ^ 2098) with (2 ^ 1024 * D1)
    by (unfold D1; rewrite <- Z.pow_add_r by lia; done).
  apply Z.mul_lt_mono_pos_r; auto with sb.
Qed.

Lemma d_of_Z_exact z : 0 <= z < 2 ^ 53 -> d_of_Z z = Fin (z * D1).
Proof.
  intros Hz. pose proof D1_pos. apply rnd_exact.
  - split; [nia|]. apply D1_mul_lt. eapply Z.lt_trans; [apply Hz|]. by apply Z.pow_lt_mono_r.
  - apply representable_int. lia.
Qed.

Lemma d_to_int_between lo hi v a b :
  a * D1 <= v -> v < (b + 1) * D1 -> 0 <= a -> lo <= a -> b <= hi ->
  exists t, d_to_int lo hi (Fin v) = Some t /\ a <= t <= b.
Proof.
  intros Ha Hb H0 Hlo Hhi. pose proof D1_pos.
  assert (a <= Z.quot v D1 <= b) as [? ?].
  { rewrite Z.quot_div_nonneg by nia. split; [apply Z.div_le_lower_bound; lia|].
    apply Z.lt_succ_r, Z.div_lt_upper_bound; lia. }
  unfold d_to_int.
  assert ((lo <=? Z.quot v D1) = true) as -> by (apply Z.leb_le; lia).
  assert ((Z.quot v D1 <=? hi) = true) as -> by (apply Z.leb_le; lia). eauto.
Qed.

#[global] Opaque D1.
