(* ===== verification/Options.v ===== *)
(** * Command line and configuration options ([sb_options.c], [sb_options.h])

    The global option list is a list of records; a pointer to an option is
    its position in the list (options are appended and never moved while the
    program parses its arguments).  Names and values are NUL-free byte strings.
    Allocation is assumed to succeed. *)

From S2P Require Import Prelude Double.

#[local] Open Scope char_scope.
#[local] Open Scope string_scope.
#[local] Open Scope list_scope.
#[local] Open Scope Z_scope.

(** ** Characters *)

(** [(int) c] for a plain (signed) [char]. *)
Definition char_code (c : ascii) : Z :=
  let n := Z.of_N (Ascii.N_of_ascii c) in if n <? 128 then n else n - 256.

Definition is_digit (c : ascii) : bool := (48 <=? char_code c) && (char_code c <=? 57).

(** [isspace(3)] in the C locale. *)
Definition isspace (c : ascii) : bool :=
  (char_code c =? 32) || ((9 <=? char_code c) && (char_code c <=? 13)).

(** [toupper(3)] in the C locale. *)
Definition toupper (c : ascii) : ascii :=
  if (97 <=? char_code c) && (char_code c <=? 122)
  then Ascii.ascii_of_N (Z.to_N (char_code c - 32)) else c.

Definition is_dash (c : ascii) : bool := Ascii.eqb c "-" || Ascii.eqb c "_".

Definition VALUE_DELIMITER : ascii := "="%char.
Definition VALUE_SEPARATOR : ascii := ","%char.
Definition COMMENT_CHAR : ascii := "#"%char.
Definition newline : ascii := Ascii.ascii_of_nat 10.
Definition quote1 : ascii := Ascii.ascii_of_nat 39.
Definition quote2 : ascii := Ascii.ascii_of_nat 34.
Definition MAXSTRLEN : nat := 256.

(** ** Data *)

Inductive sb_arg_type_t :=
  SB_ARG_TYPE_NULL | SB_ARG_TYPE_BOOL | SB_ARG_TYPE_INT | SB_ARG_TYPE_SIZE
| SB_ARG_TYPE_DOUBLE | SB_ARG_TYPE_STRING | SB_ARG_TYPE_LIST | SB_ARG_TYPE_FILE
| SB_ARG_TYPE_MAX.

#[export] Instance sb_arg_type_eq_dec : EqDecision sb_arg_type_t.
Proof. solve_decision. Defined.

Definition sb_opt_validate_t := string -> option string -> bool.

Record sb_arg_t := SB_OPT {
  arg_name : string;
  arg_desc : string;
  arg_value : option string;
  arg_type : sb_arg_type_t;
  arg_validate : option sb_opt_validate_t
}.

Record value_t := Value { val_data : string; val_ignore : bool }.

Record option_t := Opt {
  opt_name : string;
  opt_type : sb_arg_type_t;
  opt_values : list value_t;
  opt_ignore : bool;
  opt_validate : option sb_opt_validate_t
}.

Definition set_values (v : list value_t) (o : option_t) : option_t :=
  Opt (opt_name o) (opt_type o) v (opt_ignore o) (opt_validate o).
Definition set_type (t : sb_arg_type_t) (o : option_t) : option_t :=
  Opt (opt_name o) t (opt_values o) (opt_ignore o) (opt_validate o).
Definition set_ignore (b : bool) (o : option_t) : option_t :=
  Opt (opt_name o) (opt_type o) (opt_values o) b (opt_validate o).
Definition set_validate (v : option sb_opt_validate_t) (o : option_t) : option_t :=
  Opt (opt_name o) (opt_type o) (opt_values o) (opt_ignore o) v.

(** ** Names *)

Fixpoint convert_dashes (s : string) : string :=
  match s with
  | EmptyString => EmptyString
  | String c s => String (if Ascii.eqb c "-" then "_" else c)%char (convert_dashes s)
  end.

(** The scan stops at the end of [s1] or at the first pair of characters that
    differ and are not both dashes; the result is their difference. *)
Fixpoint opt_name_cmp (s1 s2 : string) : Z :=
  match s1, s2 with
  | EmptyString, EmptyString => 0
  | EmptyString, String c2 _ => 0 - char_code c2
  | String c1 _, EmptyString => char_code c1 - 0
  | String c1 s1, String c2 s2 =>
      if Ascii.eqb c1 c2 then opt_name_cmp s1 s2
      else if negb (is_dash c1) || negb (is_dash c2) then char_code c1 - char_code c2
      else opt_name_cmp s1 s2
  end.

(** ** Value and option lists *)

Definition new_option (name : string) : option_t :=
  Opt name SB_ARG_TYPE_NULL [] false None.

(** Position of the first option whose name compares equal. *)
Fixpoint find_option (options : list option_t) (name : string) : option nat :=
  match options with
  | [] => None
  | o :: options =>
      if opt_name_cmp (opt_name o) name =? 0 then Some O
      else S <$> find_option options name
  end.

Definition add_option (options : list option_t) (name : string) : list option_t * nat :=
  match find_option options name with
  | Some i => (options, i)
  | None => (options ++ [new_option (convert_dashes name)], length options)
  end.

Definition free_values (i : nat) (options : list option_t) : list option_t :=
  alter (set_values []) i options.

(** [SB_LIST_ADD_TAIL(&newval->listitem, values)] *)
Definition add_value (i : nat) (data : string) (options : list option_t) : list option_t :=
  alter (fun o => set_values (opt_values o ++ [Value data false]) o) i options.

Fixpoint find_value (values : list value_t) (data : string) : option nat :=
  match values with
  | [] => None
  | v :: values => if String.eqb (val_data v) data then Some O else S <$> find_value values data
  end.

(** [remove_value]: result code and the remaining values. *)
Definition remove_value (values : list value_t) (data : string) : Z * list value_t :=
  match find_value values data with
  | None => (1, values)
  | Some i => (0, delete i values)
  end.

Definition remove_option (options : list option_t) (name : string) : Z * list option_t :=
  match find_option options name with
  | None => (1, options)
  | Some i => (0, delete i options)
  end.

(** ** Library routines used on values *)

Definition str_of_list := String.string_of_list_ascii.
Definition list_of_str := String.list_ascii_of_string.

(** [strchr(s, c)] used to cut [s]: the text before [c], and after it if found. *)
Fixpoint cut_at (c : ascii) (s : string) : string * option string :=
  match s with
  | EmptyString => (EmptyString, None)
  | String d s' =>
      if Ascii.eqb d c then (EmptyString, Some s')
      else let '(a, b) := cut_at c s' in (String d a, b)
  end.

(** [strtok(s, ",")] called until it returns NULL: the maximal non-empty runs
    without a separator. *)
Fixpoint strtok_aux (sep : ascii) (s : string) (cur : string) : list string :=
  let flush := match cur with EmptyString => [] | _ => [cur] end in
  match s with
  | EmptyString => flush
  | String c s =>
      if Ascii.eqb c sep then flush ++ strtok_aux sep s EmptyString
      else strtok_aux sep s (cur +:+ String c EmptyString)
  end.
Definition strtok_all (sep : ascii) (s : string) : list string := strtok_aux sep s EmptyString.

Definition LONG_MAX : Z := 9223372036854775807.
Definition LONG_MIN : Z := -9223372036854775808.

(** [strtol(s, &endptr, 10)]: the value and the text at [endptr]. *)
Fixpoint scan_digits (s : string) (acc : Z) (some : bool) : Z * bool * string :=
  match s with
  | String c s' =>
      if is_digit c then scan_digits s' (acc * 10 + (char_code c - 48)) true
      else (acc, some, s)
  | EmptyString => (acc, some, s)
  end.
Fixpoint skip_space (s : string) : string :=
  match s with
  | String c s' => if isspace c then skip_space s' else s
  | EmptyString => s
  end.
Definition strtol (s : string) : Z * string :=
  let t := skip_space s in
  let '(neg, t) :=
    match t with
    | String c t' =>
        if Ascii.eqb c "-"%char then (true, t') else if Ascii.eqb c "+"%char then (false, t')
        else (false, t)
    | EmptyString => (false, t)
    end in
  let '(v, some, rest) := scan_digits t 0 false in
  if some then (Z.max LONG_MIN (Z.min LONG_MAX (if neg then - v else v)), rest) else (0, s).

(** ** Typed reads of an option *)

(** [exit(EXIT_FAILURE)] ends the program. *)
Inductive outcome (A : Type) := Ret (a : A) | Exit (code : Z).
Arguments Ret {A} a.
Arguments Exit {A} code.

(** Reading the configuration: a value, a refusal reported to the caller, the end
    of the program, or undefined behaviour. *)
Inductive parsed (A : Type) :=
| POk (a : A)
| PFail
| PExit (code : Z)
| PUndefined.
Arguments POk {A} a.
Arguments PFail {A}.
Arguments PExit {A} code.
Arguments PUndefined {A}.

Definition pbind {A B} (m : parsed A) (k : A -> parsed B) : parsed B :=
  match m with POk a => k a | PFail => PFail | PExit code => PExit code | PUndefined => PUndefined end.
Declare Scope parse_scope.
Notation "x <-p m ; k" := (pbind m (fun x => k)) (at level 100, m at next level, right associativity) : parse_scope.

Definition p_int (o : outcome Z) : parsed Z := match o with Ret v => POk v | Exit code => PExit code end.
Definition check (ok : bool) : parsed unit := if ok then POk tt else PFail.
(** A step with undefined behaviour unless [ok]. *)
Definition defined (ok : bool) : parsed unit := if ok then POk tt else PUndefined.

Definition first_value (o : option_t) : option string := val_data <$> head (opt_values o).

Definition sb_opt_to_flag (o : option_t) : Z := b2z (negb (bool_decide (opt_values o = []))).

Definition sb_opt_to_int (o : option_t) : outcome Z :=
  match first_value o with
  | None => Ret 0
  | Some data =>
      let '(res, endp) := strtol data in
      if negb (String.eqb endp "") || (INT_MAX <? res) || (res <? INT_MIN)
      then Exit 1 else Ret res
  end.

Definition sizemods : list ascii := ["K"; "M"; "G"; "T"]%char.

(** The hand-written [sscanf("%llu%c")] loop: [rc] counts what was read. *)
Fixpoint size_scan (c : string) (rc res : Z) : Z * Z * option ascii :=
  match c with
  | EmptyString => (rc, res, None)
  | String d c' =>
      if (char_code d <? 48) || (57 <? char_code d) then
        if rc =? 1 then (2, res, Some d) else (rc, res, None)
      else size_scan c' 1 (u64 (res * 10 + char_code d - 48))
  end.

Fixpoint sizemod_index (mods : list ascii) (c : ascii) : option nat :=
  match mods with
  | [] => None
  | m :: mods => if Ascii.eqb (toupper c) m then Some O else S <$> sizemod_index mods c
  end.

Definition sb_opt_to_size (o : option_t) : Z :=
  match first_value o with
  | None => 0
  | Some data =>
      let '(rc, res, mult) := size_scan data 0 0 in
      match mult with
      | Some m =>
          match sizemod_index sizemods m with
          | Some n => for_upto (S n) (fun _ res => u64 (res * 1024)) res
          | None => 0
          end
      | None => res
      end
  end.

Definition sb_opt_to_string (o : option_t) : option string := first_value o.
Definition sb_opt_to_list (o : option_t) : list value_t := opt_values o.

Section strtod.
(** [strtod(3)] with a null end pointer. *)
Context (strtod : string -> dbl).

Definition sb_opt_to_double (o : option_t) : dbl :=
  foldl (fun _ v => strtod (val_data v)) (Fin 0) (opt_values o).

Definition sb_get_value_double (options : list option_t) (name : string) : dbl :=
  match find_option options name ≫= (options !!.) with
  | None => Fin 0
  | Some o => sb_opt_to_double o
  end.
End strtod.

Definition get_opt (options : list option_t) (name : string) : option option_t :=
  find_option options name ≫= (options !!.).

Definition sb_get_value_flag (options : list option_t) (name : string) : Z :=
  match get_opt options name with None => 0 | Some o => sb_opt_to_flag o end.
Definition sb_get_value_int (options : list option_t) (name : string) : outcome Z :=
  match get_opt options name with None => Ret 0 | Some o => sb_opt_to_int o end.
Definition sb_get_value_size (options : list option_t) (name : string) : Z :=
  match get_opt options name with None => 0 | Some o => sb_opt_to_size o end.
Definition sb_get_value_string (options : list option_t) (name : string) : option string :=
  get_opt options name ≫= sb_opt_to_string.
Definition sb_get_value_list (options : list option_t) (name : string) : option (list value_t) :=
  sb_opt_to_list <$> get_opt options name.

(** ** Configuration files *)

(** [fgets(buf, MAXSTRLEN, fp)]: at most [room] bytes, up to and including a
    newline; the rest of a long line is left for the next call. *)
Fixpoint fgets (room : nat) (s : string) : string * string :=
  match room, s with
  | O, _ | _, EmptyString => (EmptyString, s)
  | S room, String c s =>
      if Ascii.eqb c newline then (String c EmptyString, s)
      else let '(l, r) := fgets room s in (String c l, r)
  end.

Fixpoint fgets_all (fuel : nat) (s : string) : list string :=
  match fuel, s with
  | O, _ | _, EmptyString => []
  | S fuel, _ => let '(l, r) := fgets (MAXSTRLEN - 1) s in l :: fgets_all fuel r
  end.

(** Token of an unquoted value: it ends at a separator or at white space, and
    that one character is consumed. *)
Fixpoint plain_token (s : string) : string * string :=
  match s with
  | EmptyString => (EmptyString, EmptyString)
  | String c s' =>
      if Ascii.eqb c VALUE_SEPARATOR || isspace c then (EmptyString, s')
      else let '(a, b) := plain_token s' in (String c a, b)
  end.

(** After a quoted value: skip through the next separator. *)
Fixpoint skip_separator (s : string) : string :=
  match s with
  | EmptyString => EmptyString
  | String c s' => if Ascii.eqb c VALUE_SEPARATOR then s' else skip_separator s'
  end.

(** The value loop of [read_config] on the text after the delimiter: the values
    added, and whether the line was accepted (a missing closing quote ends
    [read_config] with an error, keeping the values added so far). *)
Fixpoint read_values (fuel : nat) (tmp : string) : list string * bool :=
  match fuel, tmp with
  | O, _ | _, EmptyString => ([], true)
  | S fuel, String c s =>
      if isspace c then read_values fuel s
      else if Ascii.eqb c COMMENT_CHAR then ([], true)
      else if Ascii.eqb c quote1 || Ascii.eqb c quote2 then
        match cut_at c s with
        | (_, None) => ([], false)
        | (v, Some rest) =>
            let '(vs, ok) := read_values fuel (skip_separator rest) in (v :: vs, ok)
        end
      else
        let '(v, rest) := plain_token tmp in
        let '(vs, ok) := read_values fuel rest in (v :: vs, ok)
  end.

Definition add_values (i : nat) (vs : list string) (options : list option_t) : list option_t :=
  foldl (fun os v => add_value i v os) options vs.

Definition read_config_line (options : list option_t) (line : string) : list option_t * bool :=
  match cut_at VALUE_DELIMITER line with
  | (_, None) => (options, true)
  | (name, Some tmp) =>
      let '(options, i) := add_option options name in
      let options := free_values i options in
      let '(vs, ok) := read_values (S (String.length tmp)) tmp in
      (add_values i vs options, ok)
  end.

(** [read_config]: the option list, and [false] for a NULL result. *)
Fixpoint read_config_lines (lines : list string) (options : list option_t)
    : list option_t * bool :=
  match lines with
  | [] => (options, true)
  | l :: lines =>
      match read_config_line options l with
      | (options, true) => read_config_lines lines options
      | (options, false) => (options, false)
      end
  end.

Definition read_config (text : string) (options : list option_t) : list option_t * bool :=
  read_config_lines (fgets_all (String.length text) text) options.

(** [write_config]: the text written; every option written is marked. *)
Fixpoint write_values (vs : list value_t) : string :=
  match vs with
  | [] => ""
  | v :: vs =>
      (if val_ignore v then "" else val_data v) +:+
      match vs with [] => "" | _ => ", " +:+ write_values vs end
  end.

Fixpoint write_config (options : list option_t) : string * list option_t :=
  match options with
  | [] => ("", [])
  | o :: options =>
      let '(out, os) := write_config options in
      if opt_ignore o then (out, o :: os)
      else (opt_name o +:+ " = " +:+ write_values (opt_values o) +:+
              String newline out, set_ignore true o :: os)
  end.

(** ** Setting options *)

Definition is_empty_value (value : option string) : bool :=
  match value with None => true | Some v => String.eqb v "" end.

Definition in_words (ws : list string) (v : string) : bool := existsb (String.eqb v) ws.

Section set_option.
(** The contents of the files that can be opened. *)
Context (fopen : string -> option string).

Definition read_config_file (filename : string) (options : list option_t) : list option_t :=
  match fopen filename with
  | None => options
  | Some text => fst (read_config text options)
  end.

(** The [switch] on the option type: the new list, and whether [set_option]
    returns the option (rather than NULL). *)
Definition store_value (i : nat) (value : option string) (ty : sb_arg_type_t)
    (options : list option_t) : list option_t * bool :=
  match ty with
  | SB_ARG_TYPE_BOOL =>
      match value with
      | None => (add_value i "on" options, true)
      | Some v =>
          if in_words ["on"; "true"; "1"] v then (add_value i "on" options, true)
          else (options, in_words ["off"; "false"; "0"] v)
      end
  | SB_ARG_TYPE_INT | SB_ARG_TYPE_SIZE | SB_ARG_TYPE_DOUBLE | SB_ARG_TYPE_STRING =>
      (from_option (fun v => add_value i v options) options value, true)
  | SB_ARG_TYPE_LIST =>
      (from_option (fun v => add_values i (strtok_all VALUE_SEPARATOR v) options) options value,
       true)
  | SB_ARG_TYPE_FILE =>
      (from_option (fun v => read_config_file v options) options value, true)
  | SB_ARG_TYPE_NULL | SB_ARG_TYPE_MAX => (options, false)
  end.

Definition set_option (options : list option_t) (name : string) (value : option string)
    (ty : sb_arg_type_t) : list option_t * option nat :=
  let '(options, i) := add_option options name in
  let options := alter (set_type ty) i (free_values i options) in
  let refused :=
    match options !! i ≫= opt_validate with
    | Some f => negb (f name value)
    | None => false
    end in
  if refused then (options, None)
  else if negb (bool_decide (ty = SB_ARG_TYPE_BOOL)) && is_empty_value value
  then (options, Some i)
  else
    let '(options, ok) := store_value i value ty options in
    (options, if ok then Some i else None).

(** [sb_register_arg_set]: [set->validate] is the validator of the first entry
    of the array, whatever entry the loop is at. *)
Fixpoint register_args (first : option sb_opt_validate_t) (args : list sb_arg_t)
    (options : list option_t) : list option_t * Z :=
  match args with
  | [] => (options, 0)
  | a :: args =>
      match set_option options (arg_name a) (arg_value a) (arg_type a) with
      | (options, None) => (options, 1)
      | (options, Some i) => register_args first args (alter (set_validate first) i options)
      end
  end.

Definition sb_register_arg_set (args : list sb_arg_t) (options : list option_t)
    : list option_t * Z :=
  register_args (head args ≫= arg_validate) args options.

Definition sb_opt_copy (options : list option_t) (to from : string) : list option_t * bool :=
  match get_opt options from with
  | None => (options, false)
  | Some o => (fst (set_option options to (sb_opt_to_string o) (opt_type o)), true)
  end.

(** ** Command line arguments ([parse_option], [parse_general_arguments] and
    [parse_test_arguments] of [sysbench.c]) *)

Definition parse_option (options : list option_t) (arg : string) (ignore_unknown : bool)
    : list option_t * Z :=
  let '(name, value) := cut_at VALUE_DELIMITER arg in
  let opt := get_opt options name in
  if bool_decide (is_Some opt) || ignore_unknown then
    let ty := match opt with Some o => opt_type o | None => SB_ARG_TYPE_STRING end in
    match set_option options name value ty with
    | (options, Some _) => (options, 0)
    | (options, None) => (options, 1)
    end
  else (options, 1).

(** [strncmp(arg, "--", 2) == 0], and [arg + 2]. *)
Definition strip_dashes (arg : string) : option string :=
  match arg with
  | String c1 (String c2 rest) =>
      if Ascii.eqb c1 "-"%char && Ascii.eqb c2 "-"%char then Some rest else None
  | _ => None
  end.

Record cmdline := CmdLine { testname : option string; cmdname : option string }.

(** One pass over [argv[1..]]; a recognised option is replaced by NULL. *)
Fixpoint general_args_loop (argv : list (option string)) (options : list option_t)
    (cl : cmdline) : list option_t * list (option string) * cmdline * Z :=
  match argv with
  | [] => (options, [], cl, 0)
  | None :: argv =>
      let '(options, rest, cl, rc) := general_args_loop argv options cl in
      (options, None :: rest, cl, rc)
  | Some arg :: argv =>
      match strip_dashes arg with
      | None =>
          match testname cl, cmdname cl with
          | None, c =>
              let '(options, rest, cl, rc) :=
                general_args_loop argv options (CmdLine (Some arg) c) in
              (options, Some arg :: rest, cl, rc)
          | Some t, None =>
              let '(options, rest, cl, rc) :=
                general_args_loop argv options (CmdLine (Some t) (Some arg)) in
              (options, Some arg :: rest, cl, rc)
          | Some _, Some _ => (options, Some arg :: argv, cl, 1)
          end
      | Some o =>
          match parse_option options o false with
          | (options, 0) =>
              let '(options, rest, cl, rc) := general_args_loop argv options cl in
              (options, None :: rest, cl, rc)
          | (options, _) =>
              let '(options, rest, cl, rc) := general_args_loop argv options cl in
              (options, Some arg :: rest, cl, rc)
          end
      end
  end.

Definition parse_general_arguments (general_args : list sb_arg_t) (argv : list (option string))
    (options : list option_t) : list option_t * list (option string) * cmdline * Z :=
  match sb_register_arg_set general_args options with
  | (options, 0) => general_args_loop argv options (CmdLine None None)
  | (options, _) => (options, argv, CmdLine None None, 1)
  end.

Fixpoint test_args_loop (argv : list (option string)) (options : list option_t)
    : list option_t * list (option string) * Z :=
  match argv with
  | [] => (options, [], 0)
  | a :: argv' =>
      match a ≫= strip_dashes with
      | None =>
          let '(options, rest, rc) := test_args_loop argv' options in (options, a :: rest, rc)
      | Some o =>
          match parse_option options o false with
          | (options, 0) =>
              let '(options, rest, rc) := test_args_loop argv' options in
              (options, None :: rest, rc)
          | (options, _) => (options, a :: argv', 1)
          end
      end
  end.

Definition parse_test_arguments (test_args : option (list sb_arg_t)) (argv : list (option string))
    (options : list option_t) : list option_t * list (option string) * Z :=
  match test_args with
  | None => test_args_loop argv options
  | Some args =>
      match sb_register_arg_set args options with
      | (options, 0) => test_args_loop argv options
      | (options, _) => (options, argv, 1)
      end
  end.
End set_option.

(** ** Help output *)

Definition opt_format (ty : sb_arg_type_t) : string :=
  match ty with
  | SB_ARG_TYPE_NULL => ""
  | SB_ARG_TYPE_BOOL => "[=on|off]"
  | SB_ARG_TYPE_INT => "=N"
  | SB_ARG_TYPE_SIZE => "=SIZE"
  | SB_ARG_TYPE_DOUBLE => "=N"
  | SB_ARG_TYPE_STRING => "=STRING"
  | SB_ARG_TYPE_LIST => "=[LIST,...]"
  | SB_ARG_TYPE_FILE => "=FILENAME"
  | SB_ARG_TYPE_MAX => "=UNKNOWN"
  end.

Fixpoint spaces (n : nat) : string :=
  match n with O => "" | S n => String " "%char (spaces n) end.

(** [printf("%-*s", width, s)] for a non-negative width. *)
Definition pad_right (width : nat) (s : string) : string :=
  s +:+ spaces (width - String.length s).

Definition opt_width (a : sb_arg_t) : nat :=
  (String.length (arg_name a) + String.length (opt_format (arg_type a)))%nat.

Definition max_opt_width (args : list sb_arg_t) : nat :=
  foldl (fun maxlen a => if (maxlen <? opt_width a)%nat then opt_width a else maxlen) O args.

(** The part of a line of [sb_print_options] before the description. *)
Definition option_column (maxlen : nat) (a : sb_arg_t) : string :=
  "  --" +:+ arg_name a +:+
  pad_right (maxlen - String.length (arg_name a) + 1) (opt_format (arg_type a)).

Definition sb_print_options (args : list sb_arg_t) : list string :=
  let maxlen := max_opt_width args in
  map (fun a => option_column maxlen a +:+ arg_desc a +:+
         match arg_value a with Some v => " [" +:+ v +:+ "]" | None => "" end) args ++ [""].

(** [sb_print_value_size]: the number printed with [%.5g] and the character
    printed with [%c] before "i", if any ([sizemods[4]] is the terminating NUL). *)
Fixpoint scale_1024 (fuel : nat) (i : nat) (value : dbl) : nat * dbl :=
  match fuel with
  | O => (i, value)
  | S fuel =>
      if dleb (d_of_Z 1024) value then scale_1024 fuel (S i) (ddiv value (d_of_Z 1024))
      else (i, value)
  end.
Definition sb_print_value_size (value : dbl) : dbl * option ascii :=
  let '(i, v) := scale_1024 (length sizemods + 1) O value in
  match i with
  | O => (v, None)
  | S j => (v, Some (nth j (sizemods ++ [Ascii.zero]) Ascii.zero))
  end.

#[local] Set Warnings "-clear-no-such-hyp".

(** ** Names: lemmas *)

(** A C string holds no NUL byte. *)
Definition c_string (s : string) : Prop := Forall (fun c => c <> Ascii.zero) (list_of_str s).

(** ** Successful runs of the configuration monad *)

Lemma pbind_ok {A B} (m : parsed A) (k : A -> parsed B) b :
  pbind m k = POk b -> exists a, m = POk a /\ k a = POk b.
Proof. destruct m; cbn; eauto; discriminate. Qed.

Lemma check_ok b x : check b = POk x -> b = true.
Proof. by destruct b. Qed.
Lemma defined_ok b x : defined b = POk x -> b = true.
Proof. by destruct b. Qed.
Lemma opt_to_int_range options name v : sb_get_value_int options name = Ret v -> is_s32 v.
Proof.
  unfold sb_get_value_int, sb_opt_to_int. destruct (get_opt options name) as [o|]; [|intros [= <-]; unfold is_s32; lia].
  destruct (first_value o) as [data|]; [|intros [= <-]; unfold is_s32; lia].
  destruct (strtol data) as [res endp]. destruct (negb _ || _ || _) eqn:E; [discriminate|].
  intros [= <-]. bool_to_prop. unfold INT_MAX, INT_MIN, is_s32 in *. lia.
Qed.

Lemma p_int_ok o v : p_int o = POk v -> o = Ret v.
Proof. destruct o; cbn; congruence. Qed.

Ltac parse_inv :=
  repeat match goal with
  | H : pbind _ _ = POk _ |- _ => let a := fresh "a" in let E := fresh "E" in apply pbind_ok in H as (a & E & H)
  | H : check _ = POk _ |- _ => apply check_ok in H
  | H : defined _ = POk _ |- _ => apply defined_ok in H
  | H : p_int _ = POk _ |- _ => apply p_int_ok in H
  end; bool_to_prop.

(** Opens the next step of a successful run. *)
Tactic Notation "next_step" hyp(H) ident(x) ident(E) :=
  apply pbind_ok in H as (x & E & H); cbn beta in H.

Lemma c_string_cons c s : c_string (String c s) <-> c <> Ascii.zero /\ c_string s.
Proof. apply (Forall_cons (fun c => c <> Ascii.zero)). Qed.

Lemma char_code_inj c1 c2 : char_code c1 = char_code c2 -> c1 = c2.
Proof.
  unfold char_code. intros H.
  pose proof (Ascii.N_ascii_bounded c1). pose proof (Ascii.N_ascii_bounded c2).
  rewrite <- (Ascii.ascii_N_embedding c1), <- (Ascii.ascii_N_embedding c2). f_equal.
  repeat case_match; lia.
Qed.

Lemma char_code_nonzero c : c <> Ascii.zero -> char_code c <> 0.
Proof. intros H E. apply H. by apply char_code_inj. Qed.

Lemma convert_dashes_cons c s :
  convert_dashes (String c s) = String (if Ascii.eqb c "-" then "_" else c)%char (convert_dashes s).
Proof. done. Qed.

(** Two characters agree after [convert_dashes] when equal or both dashes. *)
Lemma dash_eq c1 c2 :
  (if Ascii.eqb c1 "-" then "_" else c1)%char = (if Ascii.eqb c2 "-" then "_" else c2)%char <->
  c1 = c2 \/ is_dash c1 && is_dash c2 = true.
Proof.
  unfold is_dash.
  destruct (Ascii.eqb_spec c1 "-"%char), (Ascii.eqb_spec c2 "-"%char),
    (Ascii.eqb_spec c1 "_"%char), (Ascii.eqb_spec c2 "_"%char); simpl; naive_solver.
Qed.

Lemma opt_name_cmp_canon s1 s2 :
  c_string s1 -> c_string s2 ->
  opt_name_cmp s1 s2 = 0 <-> convert_dashes s1 = convert_dashes s2.
Proof.
  revert s2; induction s1 as [|c1 s1 IH]; intros [|c2 s2] H1 H2; [done| | |].
  - apply c_string_cons in H2 as [Hc _]. pose proof (char_code_nonzero _ Hc).
    simpl opt_name_cmp. split; [lia|done].
  - apply c_string_cons in H1 as [Hc _]. pose proof (char_code_nonzero _ Hc).
    simpl opt_name_cmp. split; [lia|done].
  - apply c_string_cons in H1 as [Hc1 H1], H2 as [Hc2 H2]. cbn [opt_name_cmp].
    rewrite !convert_dashes_cons. specialize (IH s2 H1 H2).
    pose proof (dash_eq c1 c2) as Hd.
    destruct (Ascii.eqb_spec c1 c2) as [->|Hne]; [rewrite IH; split; [by intros ->|congruence]|].
    destruct (negb (is_dash c1) || negb (is_dash c2)) eqn:E.
    + assert (E' : is_dash c1 && is_dash c2 = false)
        by (by rewrite <- negb_andb in E; apply negb_true_iff in E).
      split; [intros; exfalso; apply Hne, char_code_inj; lia|].
      intros [= Hc _]. apply Hd in Hc as [?|?]; congruence.
    + rewrite <- negb_andb in E. apply negb_false_iff in E. rewrite IH.
      split; [intros ->; f_equal; apply Hd; auto|congruence].
Qed.

Lemma convert_dashes_idem s : convert_dashes (convert_dashes s) = convert_dashes s.
Proof.
  induction s as [|c s IH]; [done|]. rewrite !convert_dashes_cons, IH.
  destruct (Ascii.eqb_spec c "-"%char); simpl; [done|].
  destruct (Ascii.eqb_spec c "-"%char); simpl; congruence.
Qed.

Lemma c_string_convert s : c_string s -> c_string (convert_dashes s).
Proof.
  induction s as [|c s IH]; [done|]. rewrite convert_dashes_cons, !c_string_cons.
  intros [Hc Hs]. split; [|auto]. by destruct (Ascii.eqb c "-"%char).
Qed.

(** [a] and [b] name the same option. *)
Definition same_name (a b : string) : Prop := convert_dashes a = convert_dashes b.
#[export] Instance same_name_equiv : Equivalence same_name.
Proof. unfold same_name. split; [done| |]; repeat intro; congruence. Qed.
#[export] Instance same_name_dec a b : Decision (same_name a b).
Proof. unfold same_name. apply _. Defined.

Definition opt_names (options : list option_t) : list string := opt_name <$> options.

Definition names_ok (options : list option_t) : Prop := Forall c_string (opt_names options).

(** The invariant of the global list: names are NUL-free, stored with
    underscores, and no two entries have the same name. *)
Definition wf_options (options : list option_t) : Prop :=
  Forall (fun n => c_string n /\ convert_dashes n = n) (opt_names options) /\
  NoDup (opt_names options).

Lemma wf_names_ok options : wf_options options -> names_ok options.
Proof. intros [H _]. eapply Forall_impl; [done|]. by intros ? []. Qed.

Lemma find_option_names options options' name :
  opt_names options = opt_names options' -> find_option options name = find_option options' name.
Proof.
  revert options'; induction options as [|o os IH]; intros [|o' os'] H; try done.
  injection H as Ho Hos. simpl. by rewrite Ho, (IH os').
Qed.

Lemma find_option_Some options name i :
  names_ok options -> c_string name -> find_option options name = Some i ->
  exists o, options !! i = Some o /\ same_name (opt_name o) name.
Proof.
  intros Hok Hn. revert i; induction options as [|o os IH]; intros i Hf; simpl in *; [done|].
  apply Forall_cons in Hok as [Ho Hok]. destruct (Z.eqb_spec (opt_name_cmp (opt_name o) name) 0).
  - simplify_eq. exists o. split; [done|]. by apply opt_name_cmp_canon.
  - apply fmap_Some in Hf as (j & Hf & ->). by apply IH.
Qed.

Lemma find_option_None options name :
  names_ok options -> c_string name ->
  find_option options name = None <-> Forall (fun n => ~ same_name n name) (opt_names options).
Proof.
  intros Hok Hn. induction options as [|o os IH]; simpl; [by split|].
  apply Forall_cons in Hok as [Ho Hok]. rewrite Forall_cons, <- IH by done.
  pose proof (opt_name_cmp_canon _ _ Ho Hn) as Hc. unfold same_name at 1.
  destruct (Z.eqb_spec (opt_name_cmp (opt_name o) name) 0) as [E|E].
  - split; [done|]. intros [H _]. by apply Hc in E.
  - rewrite fmap_None. tauto.
Qed.

(** An option that is found is found under every spelling of its name. *)
Lemma find_option_same options a b :
  names_ok options -> c_string a -> c_string b -> same_name a b ->
  find_option options a = find_option options b.
Proof.
  intros Hok Ha Hb Hs. induction options as [|o os IH]; simpl; [done|].
  apply Forall_cons in Hok as [Ho Hok]. rewrite IH by done.
  pose proof (opt_name_cmp_canon _ _ Ho Ha) as Hca. pose proof (opt_name_cmp_canon _ _ Ho Hb) as Hcb.
  unfold same_name in Hs. rewrite Hs in Hca.
  destruct (Z.eqb_spec (opt_name_cmp (opt_name o) a) 0),
    (Z.eqb_spec (opt_name_cmp (opt_name o) b) 0); try done; tauto.
Qed.

Lemma find_option_app_None options o name :
  find_option (options ++ [o]) name =
  match find_option options name with
  | Some i => Some i
  | None => if opt_name_cmp (opt_name o) name =? 0 then Some (length options) else None
  end.
Proof.
  induction options as [|o' os IH]; simpl; [by destruct (_ =? 0)|].
  destruct (opt_name_cmp (opt_name o') name =? 0); [done|]. rewrite IH.
  destruct (find_option os name); simpl; [done|]. by destruct (_ =? 0).
Qed.

(** ** Updates at one position *)

(** [os'] is [os] with changes confined to the contents of entry [i]. *)
Definition touches (i : nat) (os os' : list option_t) : Prop :=
  opt_names os' = opt_names os /\ forall j, j <> i -> os' !! j = os !! j.

#[export] Instance touches_preorder i : PreOrder (touches i).
Proof.
  split; [by intros os|]. intros a b c [H1 H2] [H3 H4].
  split; [congruence|]. intros j Hj. by rewrite H4, H2.
Qed.

Lemma touches_alter i f os : (forall o, opt_name (f o) = opt_name o) -> touches i os (alter f i os).
Proof.
  intros Hf. split.
  - revert i; induction os as [|o os IH]; intros [|i]; try done; unfold opt_names in *; cbn.
    + by rewrite Hf.
    + f_equal. apply IH.
  - intros j Hj. by rewrite list_lookup_alter_ne.
Qed.

Lemma touches_add_values i vs os : touches i os (add_values i vs os).
Proof.
  revert os; induction vs as [|v vs IH]; intros os; [done|]. cbn.
  etransitivity; [|apply IH]. by apply touches_alter.
Qed.

Lemma touches_free_values i os : touches i os (free_values i os).
Proof. by apply touches_alter. Qed.

#[export] Hint Resolve touches_add_values touches_free_values : sb.
#[export] Hint Extern 1 (touches _ _ (alter _ _ _)) => by apply touches_alter : sb.
#[export] Hint Extern 1 (touches _ _ (add_value _ _ _)) => by apply touches_alter : sb.
#[export] Hint Extern 0 (touches _ ?x ?x) => reflexivity : sb.

Lemma touches_find i os os' n : touches i os os' -> find_option os' n = find_option os n.
Proof. intros [H _]. by apply find_option_names. Qed.

Lemma touches_names_ok i os os' : touches i os os' -> names_ok os -> names_ok os'.
Proof. intros [H _]. unfold names_ok. by rewrite H. Qed.

Lemma touches_wf i os os' : touches i os os' -> wf_options os -> wf_options os'.
Proof. intros [H _]. unfold wf_options. by rewrite H. Qed.

Lemma touches_get_other i os os' name n :
  names_ok os -> c_string name -> c_string n ->
  find_option os name = Some i -> touches i os os' -> ~ same_name n name ->
  get_opt os' n = get_opt os n.
Proof.
  intros Hok Hn Hn' Hi Ht Hne. unfold get_opt. rewrite (touches_find _ _ _ _ Ht).
  destruct (find_option os n) as [j|] eqn:Hj; [|done]. simpl. apply Ht. intros ->.
  destruct (find_option_Some _ _ _ Hok Hn Hi) as (o & E & Hs).
  destruct (find_option_Some _ _ _ Hok Hn' Hj) as (o' & E' & Hs'). simplify_eq.
  apply Hne. by rewrite <- Hs', Hs.
Qed.

Lemma add_values_lookup i vs os o :
  os !! i = Some o ->
  add_values i vs os !! i =
    Some (set_values (opt_values o ++ map (fun v => Value v false) vs) o).
Proof.
  revert os o; induction vs as [|v vs IH]; intros os o Ho.
  - simpl. rewrite app_nil_r. unfold add_values; simpl. rewrite Ho. by destruct o.
  - change (add_values i (v :: vs) os) with (add_values i vs (add_value i v os)).
    erewrite IH by (unfold add_value; by rewrite list_lookup_alter_eq, Ho).
    destruct o; simpl. unfold set_values; simpl. by rewrite <- app_assoc.
Qed.

Lemma add_option_spec os name os' i :
  names_ok os -> c_string name -> add_option os name = (os', i) ->
  names_ok os' /\ find_option os' name = Some i /\ (exists o, os' !! i = Some o) /\
  (forall n, c_string n -> ~ same_name n name -> get_opt os' n = get_opt os n) /\
  (wf_options os -> wf_options os').
Proof.
  intros Hok Hn. unfold add_option. destruct (find_option os name) as [j|] eqn:Hj; intros [= <- <-].
  - destruct (find_option_Some _ _ _ Hok Hn Hj) as (o & E & _). split_and!; eauto.
  - set (o := new_option (convert_dashes name)).
    assert (Hc : c_string (convert_dashes name)) by by apply c_string_convert.
    split_and!.
    + unfold names_ok, opt_names. rewrite fmap_app. apply Forall_app. split; [done|].
      by apply Forall_singleton.
    + rewrite find_option_app_None, Hj.
      replace (opt_name_cmp (opt_name o) name =? 0) with true; [done|].
      symmetry. apply Z.eqb_eq, opt_name_cmp_canon; [done..|]. apply convert_dashes_idem.
    + exists o. apply list_lookup_middle. done.
    + intros n Hcn Hne. unfold get_opt. rewrite find_option_app_None.
      destruct (find_option os n) as [k|] eqn:Hk; simpl.
      * destruct (find_option_Some _ _ _ Hok Hcn Hk) as (? & ? & _).
        by apply lookup_app_l, (lookup_lt_Some _ _ _ H).
      * assert (E : (opt_name_cmp (convert_dashes name) n =? 0) = false); [|by rewrite E].
        apply Z.eqb_neq. rewrite opt_name_cmp_canon, convert_dashes_idem by done.
        intros ?. by apply Hne.
    + intros [Hf Hnd]. apply (find_option_None _ _ Hok Hn) in Hj. split.
      * unfold opt_names. rewrite fmap_app. apply Forall_app. split; [done|].
        apply Forall_singleton. split; [done|]. apply convert_dashes_idem.
      * unfold opt_names. rewrite fmap_app. apply NoDup_app. split_and!; [done| |by apply NoDup_singleton].
        intros n Hin ->%list_elem_of_singleton. rewrite Forall_forall in Hj.
        eapply Hj; [done|]. apply convert_dashes_idem.
Qed.

(** ** What an accepted assignment stores *)

Definition stored_values (ty : sb_arg_type_t) (value : option string) : list string :=
  match ty, value with
  | SB_ARG_TYPE_BOOL, None => ["on"]
  | SB_ARG_TYPE_BOOL, Some v => if in_words ["on"; "true"; "1"] v then ["on"] else []
  | SB_ARG_TYPE_LIST, Some v => strtok_all VALUE_SEPARATOR v
  | (SB_ARG_TYPE_INT | SB_ARG_TYPE_SIZE | SB_ARG_TYPE_DOUBLE | SB_ARG_TYPE_STRING), Some v =>
      if String.eqb v "" then [] else [v]
  | _, _ => []
  end.

Section set_option_facts.
Context (fopen : string -> option string).

Lemma store_value_spec i value ty os os' ok o :
  ty <> SB_ARG_TYPE_FILE -> store_value fopen i value ty os = (os', ok) ->
  (ty = SB_ARG_TYPE_BOOL \/ is_empty_value value = false) ->
  os !! i = Some o -> opt_values o = [] -> ok = true ->
  touches i os os' /\
  os' !! i = Some (set_values (map (fun v => Value v false) (stored_values ty value)) o).
Proof using Type.
  intros Hty Hst Hv Ho He Hok.
  assert (Hadd : forall vs, touches i os (add_values i vs os) /\
    add_values i vs os !! i = Some (set_values (map (fun v => Value v false) vs) o)).
  { intros vs. split; [auto with sb|]. by rewrite (add_values_lookup _ _ _ _ Ho), He. }
  assert (Hnil : set_values [] o = o) by (destruct o; simpl in *; by subst).
  destruct ty, value as [v|]; simpl in Hst, Hv |- *; try (by destruct Hv);
    repeat case_match; simplify_eq/=; try discriminate; try (destruct Hv; congruence);
    try apply (Hadd [_]); try apply Hadd; rewrite ?Hnil; try (split; [done|by rewrite Ho]).
Qed.
End set_option_facts.

(** ** Configuration files preserve the invariant *)

Lemma c_string_cut c s a b :
  cut_at c s = (a, b) -> c_string s -> c_string a /\ from_option c_string True b.
Proof.
  revert a b; induction s as [|d s IH]; intros a b; simpl.
  - intros [= <- <-]. by split.
  - destruct (Ascii.eqb d c).
    + intros [= <- <-]. rewrite c_string_cons. intros [_ ?]. split; [by apply Forall_nil|done].
    + destruct (cut_at c s) as [a' b'] eqn:E. intros [= <- <-]. rewrite !c_string_cons.
      intros [? Hs]. destruct (IH _ _ eq_refl Hs). by split_and!.
Qed.

Lemma c_string_fgets n s l r : fgets n s = (l, r) -> c_string s -> c_string l /\ c_string r.
Proof.
  revert n l r; induction s as [|c s IH]; intros [|n] l r; simpl; try (by intros [= <- <-]).
  - intros [= <- <-] ?. split; [by apply Forall_nil|done].
  - destruct (Ascii.eqb c newline).
    + intros [= <- <-]. rewrite !c_string_cons. intros [? ?]. split_and!; try done; by apply Forall_nil.
    + destruct (fgets n s) as [l' r'] eqn:E. intros [= <- <-]. rewrite !c_string_cons.
      intros [? Hs]. by destruct (IH _ _ _ E Hs).
Qed.

Lemma c_string_lines fuel s : c_string s -> Forall c_string (fgets_all fuel s).
Proof.
  revert s; induction fuel as [|fuel IH]; intros s Hs; [by destruct s|].
  destruct s as [|c s]; [done|]. cbn [fgets_all].
  destruct (fgets (MAXSTRLEN - 1) (String c s)) as [l r] eqn:E.
  destruct (c_string_fgets _ _ _ _ E Hs). constructor; auto.
Qed.

Lemma read_config_wf text os :
  wf_options os -> c_string text -> wf_options (fst (read_config text os)).
Proof.
  intros Hwf Ht. unfold read_config. apply (c_string_lines (String.length text)) in Ht.
  revert os Hwf; induction Ht as [|l ls Hl Hls IH]; intros os Hwf; [done|]. simpl.
  assert (Hline : wf_options (fst (read_config_line os l))).
  { unfold read_config_line. destruct (cut_at VALUE_DELIMITER l) as [name [tmp|]] eqn:E; [|done].
    destruct (c_string_cut _ _ _ _ E Hl) as [Hn _].
    destruct (add_option os name) as [os1 i] eqn:Ea.
    destruct (add_option_spec _ _ _ _ (wf_names_ok _ Hwf) Hn Ea) as (_ & _ & _ & _ & Hw).
    destruct (read_values _ tmp) as [vs ok]. simpl.
    eapply touches_wf; [|by apply Hw]. etransitivity; auto with sb. }
  destruct (read_config_line os l) as [os1 [|]]; simpl in *; [by apply IH|done].
Qed.

Section set_option_theorems.
Context (fopen : string -> option string).
Context (fopen_text : forall f text, fopen f = Some text -> c_string text).

Lemma store_value_wf i value ty os :
  wf_options os -> wf_options (fst (store_value fopen i value ty os)).
Proof using fopen_text.
  intros Hwf.
  assert (Hadd : forall vs, wf_options (add_values i vs os)).
  { intros. eapply touches_wf; [apply touches_add_values|done]. }
  assert (Hadd1 : forall v, wf_options (add_value i v os)) by (intros v; apply (Hadd [v])).
  destruct ty, value as [v|]; cbn [store_value from_option fst]; try done;
    try (by apply Hadd); try (by apply Hadd1);
    try (case_bool; [apply Hadd1|exact Hwf]).
  unfold read_config_file. destruct (fopen v) as [t|] eqn:E; [|done].
  apply read_config_wf; eauto.
Qed.

Lemma set_option_wf os name value ty :
  wf_options os -> c_string name -> wf_options (fst (set_option fopen os name value ty)).
Proof using fopen_text.
  intros Hwf Hn. unfold set_option. destruct (add_option os name) as [os1 i] eqn:Ea.
  destruct (add_option_spec _ _ _ _ (wf_names_ok _ Hwf) Hn Ea) as (_ & _ & _ & _ & Hw).
  set (os2 := alter (set_type ty) i (free_values i os1)).
  assert (Hw2 : wf_options os2).
  { eapply touches_wf; [|by apply Hw]. unfold os2. etransitivity; auto with sb. }
  do 2 (case_bool; [done|]).
  pose proof (store_value_wf i value ty os2 Hw2). by destruct (store_value _ _ _ _ _).
Qed.

Lemma register_args_wf first args os :
  wf_options os -> Forall (fun a => c_string (arg_name a)) args ->
  wf_options (fst (register_args fopen first args os)).
Proof using fopen_text.
  intros Hwf Ha; revert os Hwf; induction Ha as [|a args Hn Ha IH]; intros os Hwf; [done|]. simpl.
  pose proof (set_option_wf os (arg_name a) (arg_value a) (arg_type a) Hwf Hn) as Hw.
  destruct (set_option _ _ _ _ _) as [os1 [i|]]; simpl in *; [|done].
  apply IH. eapply touches_wf; [|done]. auto with sb.
Qed.

Lemma set_option_stored os name value ty os' i n :
  wf_options os -> c_string name -> c_string n -> ty <> SB_ARG_TYPE_FILE ->
  set_option fopen os name value ty = (os', Some i) ->
  if decide (same_name n name) then
    exists o, get_opt os' n = Some o /\ opt_type o = ty /\
      map val_data (opt_values o) = stored_values ty value
  else get_opt os' n = get_opt os n.
Proof using Type.
  intros Hwf Hn Hcn Hty. unfold set_option. destruct (add_option os name) as [os1 k] eqn:Ea.
  destruct (add_option_spec _ _ _ _ (wf_names_ok _ Hwf) Hn Ea) as (Hok1 & Hf & [o Ho] & Hoth & _).
  set (os2 := alter (set_type ty) k (free_values k os1)).
  assert (Ht2 : touches k os1 os2) by (unfold os2; etransitivity; auto with sb).
  assert (Ho2 : os2 !! k = Some (set_type ty (set_values [] o))).
  { unfold os2, free_values. by rewrite !list_lookup_alter_eq, Ho. }
  (* both accepted exits leave the same kind of list *)
  assert (Hfin : forall os3, touches k os2 os3 ->
    os3 !! k = Some (set_values (map (fun v => Value v false) (stored_values ty value))
                       (set_type ty (set_values [] o))) ->
    if decide (same_name n name) then
      exists o, get_opt os3 n = Some o /\ opt_type o = ty /\
        map val_data (opt_values o) = stored_values ty value
    else get_opt os3 n = get_opt os n).
  { intros os3 Ht3 Ho3. assert (Ht : touches k os1 os3) by by etransitivity.
    case_decide as Hs.
    - unfold get_opt. rewrite (touches_find _ _ _ _ Ht), (find_option_same _ _ name) by done.
      rewrite Hf. simpl. rewrite Ho3. eexists; split; [done|]. simpl. split; [done|].
      rewrite map_map. apply map_id.
    - rewrite <- (Hoth n) by done. by apply (touches_get_other k os1 os3 name). }
  case_bool; [done|]. case_bool.
  - intros [= <- <-]. apply Hfin; [done|]. rewrite Ho2. bool_to_prop.
    apply bool_decide_eq_false in H. do 2 f_equal.
    destruct value as [v|]; [apply String.eqb_eq in H0 as ->|]; by destruct ty.
  - destruct (store_value fopen k value ty os2) as [os3 ok] eqn:Es.
    destruct ok; intros [= <- <-].
    destruct (store_value_spec fopen k value ty os2 os3 true (set_type ty (set_values [] o)) Hty Es)
      as [? ?]; try done; [|by apply Hfin].
    apply andb_false_iff in Heqb0 as [Hb|]; [|by right].
    apply negb_false_iff, bool_decide_eq_true in Hb. by left.
Qed.
End set_option_theorems.

(** ** Sizes *)

Definition digit_char (d : Z) : ascii := Ascii.ascii_of_N (Z.to_N (48 + d)).
Definition digits_str (ds : list Z) (rest : string) : string :=
  foldr (fun d s => String (digit_char d) s) rest ds.
(** The number a list of decimal digits denotes, most significant first. *)
Definition decimal (ds : list Z) : Z := foldl (fun acc d => acc * 10 + d) 0 ds.

Lemma char_code_digit d : 0 <= d < 10 -> char_code (digit_char d) = 48 + d.
Proof.
  intros Hd. unfold char_code, digit_char. rewrite Ascii.N_ascii_embedding by lia.
  rewrite Z2N.id by lia. case_match; lia.
Qed.

Lemma size_scan_digits ds rest res :
  Forall (fun d => 0 <= d < 10) ds -> ds <> [] ->
  size_scan (digits_str ds rest) 0 res =
  size_scan rest 1 (u64 (foldl (fun acc d => acc * 10 + d) res ds)).
Proof.
  intros Hds Hne.
  assert (Hgen : forall rc res', u64 res' = u64 res ->
    size_scan (digits_str ds rest) rc res' =
    size_scan rest 1 (u64 (foldl (fun acc d => acc * 10 + d) res ds))); [|by apply Hgen].
  revert res Hne; induction Hds as [|d ds Hd Hds IH]; intros res Hne rc res' Hr; [done|].
  cbn [digits_str foldr size_scan foldl]. rewrite char_code_digit by done.
  assert ((48 + d <? 48) || (57 <? 48 + d) = false) as -> by lia.
  assert (Hr' : u64 (res' * 10 + (48 + d) - 48) = u64 (res * 10 + d)).
  { revert Hr. clear. unfold u64. intros Hr.
    replace (res' * 10 + (48 + d) - 48) with (res' * 10 + d) by lia.
    rewrite <- Zplus_mod_idemp_l, <- Zmult_mod_idemp_l, Hr.
    rewrite Zmult_mod_idemp_l, Zplus_mod_idemp_l. done. }
  destruct ds as [|d2 ds].
  - cbn. by rewrite Hr'.
  - apply IH; [done|]. by rewrite u64_idem.
Qed.

Lemma for_upto_1024 n res :
  for_upto n (fun _ r => u64 (r * 1024)) (u64 res) = u64 (res * 1024 ^ Z.of_nat n).
Proof.
  induction n as [|n IH]; [by rewrite Z.mul_1_r|].
  rewrite for_upto_S, IH. unfold u64. rewrite Zmult_mod_idemp_l. f_equal.
  rewrite Nat2Z.inj_succ, Z.pow_succ_r by lia. ring.
Qed.

(** ** Values written and read back *)

(** A value that needs no quoting: not empty, no white space or separator, and
    not starting like a comment or a quoted value. *)
Definition plain_char (c : ascii) : bool := negb (Ascii.eqb c VALUE_SEPARATOR || isspace c).
Fixpoint all_plain (s : string) : bool :=
  match s with EmptyString => true | String c s => plain_char c && all_plain s end.
Definition plain_value (s : string) : bool :=
  match s with
  | EmptyString => false
  | String c _ =>
      negb (Ascii.eqb c COMMENT_CHAR || Ascii.eqb c quote1 || Ascii.eqb c quote2) && all_plain s
  end.

Lemma plain_token_plain s c rest :
  all_plain s = true -> plain_char c = false ->
  plain_token (s +:+ String c rest) = (s, rest).
Proof.
  intros Hs Hc. unfold plain_char in Hc. apply negb_false_iff in Hc.
  induction s as [|d s IH].
  - change ("" +:+ String c rest) with (String c rest). cbn [plain_token]. by rewrite Hc.
  - simpl in Hs. apply andb_true_iff in Hs as [Hd Hs]. apply negb_true_iff in Hd.
    change (String d s +:+ String c rest) with (String d (s +:+ String c rest)).
    cbn [plain_token]. by rewrite Hd, (IH Hs).
Qed.

Lemma read_values_plain fuel v c rest :
  plain_value v = true -> plain_char c = false ->
  read_values (S fuel) (v +:+ String c rest) =
    let '(vs, ok) := read_values fuel rest in (v :: vs, ok).
Proof.
  intros Hv Hc. destruct v as [|d v]; [done|]. simpl in Hv.
  apply andb_true_iff in Hv as [Hd Hv]. apply negb_true_iff, orb_false_iff in Hd as [Hd Hq2].
  apply orb_false_iff in Hd as [Hcom Hq1].
  assert (Hs : isspace d = false).
  { apply andb_true_iff in Hv as [Hp _]. apply negb_true_iff, orb_false_iff in Hp as [_ ?]. done. }
  change (String d v +:+ String c rest) with (String d (v +:+ String c rest)).
  cbn [read_values]. rewrite Hs, Hcom, Hq1, Hq2. cbn [orb].
  change (String d (v +:+ String c rest)) with (String d v +:+ String c rest).
  by rewrite (plain_token_plain (String d v)).
Qed.

Lemma read_values_space fuel c s :
  isspace c = true -> read_values (S fuel) (String c s) = read_values fuel s.
Proof. intros Hc. cbn [read_values]. by rewrite Hc. Qed.

Lemma read_written_values fuel vs :
  Forall (fun v => plain_value (val_data v) = true /\ val_ignore v = false) vs ->
  (2 * length vs < fuel)%nat ->
  read_values fuel (write_values vs +:+ String newline EmptyString) = (map val_data vs, true).
Proof.
  intros Hvs; revert fuel; induction Hvs as [|v vs [Hv Hi] Hvs IH]; intros fuel Hf.
  - destruct fuel as [|[|fuel]]; simpl in Hf; done || lia.
  - cbn [write_values map]. rewrite Hi, str_append_assoc.
    destruct fuel as [|[|fuel]]; simpl in Hf; try lia.
    destruct vs as [|w vs].
    + change ("" +:+ String newline "") with (String newline "").
      rewrite read_values_plain by done. by destruct fuel.
    + rewrite str_append_assoc.
      change (", " +:+ (write_values (w :: vs) +:+ String newline ""))
        with (String "," (String " " (write_values (w :: vs) +:+ String newline ""))).
      rewrite read_values_plain by done.
      by rewrite read_values_space, IH by (first [done | simpl in *; lia]).
Qed.

(** ** Growth: what every operation keeps *)

(** Every entry keeps its position, name and validator. *)
Definition extends (os os' : list option_t) : Prop :=
  forall j o, os !! j = Some o ->
    exists o', os' !! j = Some o' /\ opt_name o' = opt_name o /\ opt_validate o' = opt_validate o.

#[export] Instance extends_preorder : PreOrder extends.
Proof.
  split; [by intros os j o Ho; exists o|]. intros a b c H1 H2 j o Ho.
  destruct (H1 _ _ Ho) as (o1 & Ho1 & ? & ?). destruct (H2 _ _ Ho1) as (o2 & Ho2 & ? & ?).
  exists o2. split_and!; congruence.
Qed.

Lemma extends_alter i f os :
  (forall o, opt_name (f o) = opt_name o /\ opt_validate (f o) = opt_validate o) ->
  extends os (alter f i os).
Proof.
  intros Hf j o Ho. destruct (decide (j = i)) as [->|Hne].
  - rewrite list_lookup_alter_eq, Ho. exists (f o). by split; [|apply Hf].
  - rewrite list_lookup_alter_ne by done. by exists o.
Qed.

Lemma extends_app os o : extends os (os ++ [o]).
Proof. intros j o' Ho. exists o'. by rewrite lookup_app_l by by eapply lookup_lt_Some. Qed.

Lemma extends_add_values i vs os : extends os (add_values i vs os).
Proof.
  revert os; induction vs as [|v vs IH]; intros os; [done|].
  change (add_values i (v :: vs) os) with (add_values i vs (add_value i v os)).
  etransitivity; [|apply IH]. by apply extends_alter.
Qed.

Lemma extends_add_option os name : extends os (fst (add_option os name)).
Proof. unfold add_option. destruct (find_option os name); [done|]. apply extends_app. Qed.

Lemma extends_read_config text os : extends os (fst (read_config text os)).
Proof.
  unfold read_config. revert os. induction (fgets_all _ _) as [|l ls IH]; intros os; [done|].
  simpl. assert (Hl : extends os (fst (read_config_line os l))).
  { unfold read_config_line. destruct (cut_at _ _) as [name [tmp|]]; [|done].
    pose proof (extends_add_option os name) as Ha. destruct (add_option os name) as [os1 i].
    destruct (read_values _ tmp) as [vs ok]. simpl in *. etransitivity; [done|].
    etransitivity; [|apply extends_add_values]. by apply extends_alter. }
  destruct (read_config_line os l) as [os1 [|]]; simpl in *; [|done]. by etransitivity.
Qed.

Lemma extends_set_option fopen os name value ty :
  extends os (fst (set_option fopen os name value ty)).
Proof.
  unfold set_option. pose proof (extends_add_option os name) as Ha.
  destruct (add_option os name) as [os1 i]. simpl in Ha.
  set (os2 := alter (set_type ty) i (free_values i os1)).
  assert (H2 : extends os os2).
  { etransitivity; [exact Ha|]. unfold os2, free_values.
    etransitivity; by apply extends_alter. }
  do 2 (case_bool; [done|]). etransitivity; [exact H2|].
  assert (Hadd : forall vs, extends os2 (add_values i vs os2)) by (intros; apply extends_add_values).
  destruct ty, value as [v|]; cbn [store_value from_option fst]; try done;
    try (apply (Hadd [_])); try apply Hadd; try (case_bool; [apply (Hadd [_])|reflexivity]).
  unfold read_config_file. destruct (fopen v); [apply extends_read_config|done].
Qed.

Lemma extends_find os os' n i : extends os os' -> find_option os n = Some i -> find_option os' n = Some i.
Proof.
  revert os' i; induction os as [|o os IH]; intros os' i He Hf; [done|].
  destruct (He O o eq_refl) as (o' & Ho' & Hn & _). destruct os' as [|o2 os']; simplify_eq/=.
  rewrite Hn. destruct (opt_name_cmp (opt_name o) n =? 0); [done|].
  apply fmap_Some in Hf as (j & Hf & ->). rewrite (IH os' j); [done| |done].
  intros k x Hx. apply (He (S k) x Hx).
Qed.

(** The option registered for [n] carries validator [f]. *)
Definition has_validator (os : list option_t) (n : string) (f : option sb_opt_validate_t) : Prop :=
  exists o, get_opt os n = Some o /\ opt_validate o = f.

Lemma has_validator_extends os os' n f :
  extends os os' -> has_validator os n f -> has_validator os' n f.
Proof.
  intros He (o & Hg & Hv). unfold get_opt in Hg.
  destruct (find_option os n) as [i|] eqn:Hf; [|done]. simpl in Hg.
  destruct (He _ _ Hg) as (o' & Ho' & _ & Hv'). exists o'. split; [|congruence].
  unfold get_opt. by rewrite (extends_find _ _ _ _ He Hf).
Qed.

Lemma set_option_position fopen os name value ty os' i :
  names_ok os -> c_string name -> set_option fopen os name value ty = (os', Some i) ->
  find_option os' name = Some i /\ is_Some (os' !! i).
Proof.
  intros Hok Hn. unfold set_option. destruct (add_option os name) as [os1 k] eqn:Ea.
  destruct (add_option_spec _ _ _ _ Hok Hn Ea) as (Hok1 & Hf & [o Ho] & _).
  set (os2 := alter (set_type ty) k (free_values k os1)).
  assert (H2 : extends os1 os2).
  { unfold os2, free_values. etransitivity; by apply extends_alter. }
  assert (Hfin : forall os3, extends os2 os3 -> find_option os3 name = Some k /\ is_Some (os3 !! k)).
  { intros os3 H3. assert (H13 : extends os1 os3) by by etransitivity.
    destruct (H13 _ _ Ho) as (o' & Ho' & _). split; [by eapply extends_find|by eexists]. }
  case_bool; [done|]. case_bool; [intros [= <- <-]; by apply Hfin|].
  destruct (store_value fopen k value ty os2) as [os3 [|]] eqn:Es; [|done].
  intros [= <- <-]. apply Hfin.
  assert (Hadd : forall vs, extends os2 (add_values k vs os2)) by (intros; apply extends_add_values).
  revert Es. destruct ty, value as [v|]; cbn [store_value from_option]; try done;
    try (case_bool); intros [= <-]; try done; try (apply (Hadd [_])); try apply Hadd.
  unfold read_config_file. destruct (fopen v); [apply extends_read_config|done].
Qed.

Lemma extends_names_ok_set fopen os name value ty :
  (forall f text, fopen f = Some text -> c_string text) ->
  wf_options os -> c_string name -> wf_options (fst (set_option fopen os name value ty)).
Proof. intros. by apply set_option_wf. Qed.

Lemma register_args_validators fopen first args os os' :
  (forall f text, fopen f = Some text -> c_string text) ->
  wf_options os -> Forall (fun a => c_string (arg_name a)) args ->
  register_args fopen first args os = (os', 0) ->
  forall n, (has_validator os n first -> has_validator os' n first) /\
    (n ∈ map arg_name args -> has_validator os' n first).
Proof.
  intros Hft Hwf Ha; revert os Hwf; induction Ha as [|a args Hn Ha IH]; intros os Hwf Hr n; simpl in *.
  { simplify_eq. split; [done|]. by intros ?%not_elem_of_nil. }
  pose proof (set_option_wf fopen Hft os (arg_name a) (arg_value a) (arg_type a) Hwf Hn) as Hw1.
  pose proof (extends_set_option fopen os (arg_name a) (arg_value a) (arg_type a)) as He1.
  destruct (set_option fopen os _ _ _) as [os1 [i|]] eqn:Es; simpl in *; [|done].
  destruct (set_option_position _ _ _ _ _ _ _ (wf_names_ok _ Hwf) Hn Es) as [Hf [o Ho]].
  set (os2 := alter (set_validate first) i os1) in *.
  assert (Hf2 : forall m, find_option os2 m = find_option os1 m).
  { intros m. eapply touches_find. unfold os2. auto with sb. }
  assert (Hw2 : wf_options os2) by (eapply touches_wf; [|done]; unfold os2; auto with sb).
  (* a name that already had the validator keeps it, the new one gets it *)
  assert (Hkeep : forall m, has_validator os1 m first -> has_validator os2 m first).
  { intros m (o' & Hg & Hv). unfold get_opt in Hg.
    destruct (find_option os1 m) as [j|] eqn:Hj; [|done]; simpl in Hg.
    unfold has_validator, get_opt. rewrite Hf2, Hj. simpl. unfold os2.
    destruct (decide (j = i)) as [->|Hne].
    - rewrite list_lookup_alter_eq, Hg. by eexists.
    - rewrite list_lookup_alter_ne by done. by exists o'. }
  assert (Hnew : has_validator os2 (arg_name a) first).
  { unfold has_validator, get_opt. rewrite Hf2, Hf. simpl. unfold os2.
    rewrite list_lookup_alter_eq, Ho. by eexists. }
  destruct (IH os2 Hw2 Hr n) as [IH1 IH2]. split.
  - intros Hv. apply IH1, Hkeep. by eapply has_validator_extends.
  - intros [->|Hin]%elem_of_cons; [by apply IH1|by apply IH2].
Qed.

Lemma convert_dashes_length s : String.length (convert_dashes s) = String.length s.
Proof. induction s as [|c s IH]; [done|]. rewrite convert_dashes_cons. simpl. by rewrite IH. Qed.

Lemma c_string_app s t : c_string s -> c_string t -> c_string (s +:+ t).
Proof.
  induction s as [|c s IH]; [done|]. rewrite str_append_cons, !c_string_cons.
  intros [? ?] ?. auto.
Qed.

Lemma cut_at_app_none c s t : snd (cut_at c s) = None -> snd (cut_at c t) = None ->
  snd (cut_at c (s +:+ t)) = None.
Proof.
  induction s as [|d s IH]; [done|]. rewrite str_append_cons. cbn [cut_at].
  destruct (Ascii.eqb d c); [done|].
  destruct (cut_at c s), (cut_at c (s +:+ t)); simpl in *. auto.
Qed.

Lemma cut_at_app c s t : snd (cut_at c s) = None -> cut_at c (s +:+ String c t) = (s, Some t).
Proof.
  induction s as [|d s IH].
  - intros _. change ("" +:+ String c t) with (String c t). cbn [cut_at]. by rewrite Ascii.eqb_refl.
  - rewrite str_append_cons. cbn [cut_at]. destruct (Ascii.eqb d c); [done|].
    destruct (cut_at c s) eqn:E. simpl. intros ->. by rewrite IH.
Qed.

Lemma plain_value_length v : plain_value v = true -> (1 <= String.length v)%nat.
Proof. destruct v; simpl; [done|lia]. Qed.

Lemma write_values_length vs rest :
  Forall (fun v => plain_value (val_data v) = true /\ val_ignore v = false) vs ->
  (2 * length vs < S (String.length (write_values vs +:+ String rest EmptyString)))%nat.
Proof.
  intros Hvs. rewrite str_append_length. simpl.
  enough (2 * length vs <= S (String.length (write_values vs)))%nat by lia.
  induction Hvs as [|v vs [Hv Hi] Hvs IH]; [simpl; lia|].
  cbn [write_values]. rewrite Hi. pose proof (plain_value_length _ Hv).
  destruct vs as [|w vs]; rewrite !str_append_length; simpl in *; [lia|].
  rewrite str_append_length in *. simpl in *. lia.
Qed.

Lemma spaces_length n : String.length (spaces n) = n.
Proof. induction n; simpl; congruence. Qed.

Lemma max_opt_width_ge args a : a ∈ args -> (opt_width a <= max_opt_width args)%nat.
Proof.
  unfold max_opt_width. generalize O as m.
  assert (Hmono : forall l m, (m <= foldl (fun m a => if (m <? opt_width a)%nat then opt_width a
    else m) m l)%nat).
  { induction l as [|b l IH]; intros m; simpl; [done|].
    etransitivity; [|apply IH]. destruct (Nat.ltb_spec m (opt_width b)); lia. }
  induction args as [|b args IH]; intros m; [by intros ?%not_elem_of_nil|].
  intros [->|Hin]%elem_of_cons; simpl; [|by apply IH].
  etransitivity; [|apply Hmono]. destruct (Nat.ltb_spec m (opt_width b)); lia.
Qed.

(** ** Properties *)

(** Two NUL-free names compare equal under [opt_name_cmp] exactly when they
    are the same up to writing each dash as an underscore. *)
Theorem opt_names_match s1 s2 :
  c_string s1 -> c_string s2 ->
  opt_name_cmp s1 s2 = 0 <-> convert_dashes s1 = convert_dashes s2.
Proof. apply opt_name_cmp_canon. Qed.

(** The option list stays well formed (NUL-free canonical names, no two
    entries for one name) under [set_option], registration of an argument set
    and reading a configuration text, whatever they return. *)
Theorem options_invariant fopen os :
  (forall f text, fopen f = Some text -> c_string text) -> wf_options os ->
  (forall name value ty, c_string name -> wf_options (fst (set_option fopen os name value ty))) /\
  (forall args, Forall (fun a => c_string (arg_name a)) args ->
     wf_options (fst (sb_register_arg_set fopen args os))) /\
  (forall text, c_string text -> wf_options (fst (read_config text os))).
Proof.
  intros Hf Hwf. split_and!; intros.
  - by apply set_option_wf.
  - by apply register_args_wf.
  - by apply read_config_wf.
Qed.

(** After an accepted [set_option] every spelling of the name reads back the
    given type and exactly the values its type prescribes ("on" or nothing for
    a flag, the comma-separated tokens of a list, the text itself otherwise),
    and every other option reads as before. *)
Theorem set_option_get fopen os name value ty os' i n :
  wf_options os -> c_string name -> c_string n -> ty <> SB_ARG_TYPE_FILE ->
  set_option fopen os name value ty = (os', Some i) ->
  if decide (same_name n name) then
    exists o, get_opt os' n = Some o /\ opt_type o = ty /\
      map val_data (opt_values o) = stored_values ty value
  else get_opt os' n = get_opt os n.
Proof. apply set_option_stored. Qed.

(** A size option reads as its decimal number modulo 2^64, times 1024 once
    per step of the K/M/G/T suffix (either case, trailing text ignored); any
    other suffix reads as 0. *)
Theorem sb_opt_to_size_spec o ds suffix :
  Forall (fun d => 0 <= d < 10) ds -> ds <> [] ->
  first_value o = Some (digits_str ds suffix) ->
  (forall m rest, suffix = String m rest -> is_digit m = false) ->
  sb_opt_to_size o =
  match suffix with
  | EmptyString => u64 (decimal ds)
  | String m _ =>
      match sizemod_index sizemods m with
      | Some n => u64 (decimal ds * 1024 ^ Z.of_nat (S n))
      | None => 0
      end
  end.
Proof.
  intros Hds Hne Ho Hsuf. destruct suffix as [|m rest]; [|pose proof (Hsuf _ _ eq_refl) as Hm];
    unfold sb_opt_to_size; rewrite Ho, size_scan_digits by done; cbn [size_scan]; [done|].
  unfold is_digit in Hm. apply andb_false_iff in Hm.
  assert ((char_code m <? 48) || (57 <? char_code m) = true) as ->
    by (apply orb_true_iff; rewrite !Z.ltb_lt; rewrite !Z.leb_gt in Hm; lia).
  change (1 =? 1) with true. cbn iota. destruct (sizemod_index sizemods m) as [n|]; [|done].
  apply for_upto_1024.
Qed.

(** What [write_config] writes for an option reads back with the same plain
    values, but under the name followed by a space: the option that was written
    is not restored. *)
Theorem written_option_renamed os o :
  wf_options os -> c_string (opt_name o) -> opt_ignore o = false ->
  snd (cut_at VALUE_DELIMITER (opt_name o)) = None ->
  Forall (fun v => plain_value (val_data v) = true /\ val_ignore v = false) (opt_values o) ->
  exists os', read_config_line os (fst (write_config [o])) = (os', true) /\
    get_opt os' (opt_name o) = get_opt os (opt_name o) /\
    exists o', get_opt os' (opt_name o +:+ " ") = Some o' /\
      map val_data (opt_values o') = map val_data (opt_values o).
Proof.
  intros Hwf Hn Hi Hcut Hvs.
  assert (Hname : ~ same_name (opt_name o) (opt_name o +:+ " ")).
  { unfold same_name. intros E. apply (f_equal String.length) in E.
    rewrite !convert_dashes_length, str_append_length in E. simpl in E. lia. }
  assert (Hns : c_string (opt_name o +:+ " ")).
  { apply c_string_app; [done|]. apply c_string_cons. split; [done|apply List.Forall_nil]. }
  assert (E : fst (write_config [o]) = (opt_name o +:+ " ") +:+
    String VALUE_DELIMITER (String " " (write_values (opt_values o) +:+ String newline ""))).
  { cbn [write_config]. rewrite Hi. cbn [fst]. by rewrite str_append_assoc. }
  rewrite E. unfold read_config_line. rewrite cut_at_app by (by apply cut_at_app_none).
  destruct (add_option os (opt_name o +:+ " ")) as [os1 i] eqn:Ea.
  destruct (add_option_spec _ _ _ _ (wf_names_ok _ Hwf) Hns Ea) as (Hok1 & Hf & [p Hp] & Hoth & _).
  cbn [String.length]. rewrite read_values_space by done.
  rewrite read_written_values by (done || by apply write_values_length).
  eexists. split; [done|]. split.
  - rewrite <- Hoth by done. eapply touches_get_other; [done|exact Hns|done|done| |done].
    etransitivity; auto with sb.
  - assert (Hp' : free_values i os1 !! i = Some (set_values [] p)).
    { unfold free_values. by rewrite list_lookup_alter_eq, Hp. }
    eexists. split.
    + unfold get_opt. erewrite (touches_find i os1), Hf by (etransitivity; auto with sb). simpl.
      by rewrite (add_values_lookup _ _ _ _ Hp').
    + simpl. rewrite !map_map. by apply map_ext.
Qed.

(** After a successful registration every option of the set carries the
    validator of the FIRST entry of the set: the validators declared by the
    other entries are dropped. *)
Theorem registration_keeps_first_validator fopen args os os' a :
  (forall f text, fopen f = Some text -> c_string text) ->
  wf_options os -> Forall (fun a => c_string (arg_name a)) args ->
  sb_register_arg_set fopen args os = (os', 0) -> a ∈ args ->
  has_validator os' (arg_name a) (head args ≫= arg_validate).
Proof.
  intros Hft Hwf Ha Hr Hin. eapply register_args_validators; [done..|].
  apply list_elem_of_fmap. by exists a.
Qed.

(** [sb_print_options] aligns the descriptions: before its description
    every line of a set has the same width. *)
Theorem print_options_aligned args a :
  a ∈ args -> String.length (option_column (max_opt_width args) a) = (max_opt_width args + 5)%nat.
Proof.
  intros Hin. assert (Hle : (opt_width a <= max_opt_width args)%nat) by by apply max_opt_width_ge.
  unfold option_column, pad_right, opt_width in *.
  rewrite !str_append_length, spaces_length. simpl. lia.
Qed.

(** *** Witnesses *)

Definition no_files (_ : string) : option string := None.

Definition demo_args : list sb_arg_t :=
  [SB_OPT "threads" "number of threads" (Some "1") SB_ARG_TYPE_INT None;
   SB_OPT "rand-type" "distribution" (Some "uniform") SB_ARG_TYPE_STRING
     (Some (fun _ v => bool_decide (v = Some "uniform")))].

Definition demo_options : list option_t := fst (sb_register_arg_set no_files demo_args []).

Lemma no_files_text f text : no_files f = Some text -> c_string text.
Proof. done. Qed.

Ltac c_string_closed := repeat (constructor; try done).

Lemma demo_args_names : Forall (fun a => c_string (arg_name a)) demo_args.
Proof. c_string_closed. Qed.

Lemma demo_options_wf : wf_options demo_options.
Proof.
  apply register_args_wf; [apply no_files_text| |apply demo_args_names].
  split; [constructor|apply NoDup_nil_2].
Qed.

Lemma opt_names_match_witness : opt_name_cmp "rand_type" "rand-type" = 0.
Proof. apply (opt_names_match "rand_type" "rand-type"); [c_string_closed..|reflexivity]. Defined.

Lemma options_invariant_witness :
  wf_options (fst (set_option no_files demo_options "rand-type" (Some "pareto") SB_ARG_TYPE_STRING)).
Proof.
  destruct (options_invariant no_files demo_options no_files_text demo_options_wf) as [H _].
  apply H. c_string_closed.
Defined.

Lemma set_option_get_witness :
  exists os', set_option no_files demo_options "threads" (Some "8") SB_ARG_TYPE_INT = (os', Some 0%nat) /\
    sb_get_value_int os' "threads" = Ret 8.
Proof.
  destruct (set_option no_files demo_options "threads" (Some "8") SB_ARG_TYPE_INT) as [os' r] eqn:E.
  assert (Hr : r = Some 0%nat) by (revert E; vm_compute; congruence). subst r.
  exists os'. split; [done|].
  pose proof (set_option_get no_files demo_options "threads" (Some "8") SB_ARG_TYPE_INT os' 0%nat
    "threads" demo_options_wf ltac:(c_string_closed) ltac:(c_string_closed) ltac:(discriminate) E) as H.
  destruct (decide (same_name "threads" "threads")) as [_|n]; [|by destruct n].
  destruct H as (o & Hg & _ & Hv). unfold sb_get_value_int. rewrite Hg.
  destruct o as [nm ty [|[d ig] vs] ig' va]; simplify_eq/=. reflexivity.
Defined.

Lemma sb_opt_to_size_spec_witness :
  sb_opt_to_size (Opt "file_total_size" SB_ARG_TYPE_SIZE [Value "16G" false] false None) =
  16 * 1024 * 1024 * 1024.
Proof.
  rewrite (sb_opt_to_size_spec _ [1; 6] "G"); [reflexivity|repeat constructor; lia|done|done|].
  intros m rest [= <- _]. reflexivity.
Defined.

Lemma written_option_renamed_witness :
  let o := Opt "threads" SB_ARG_TYPE_LIST [Value "4" false; Value "8" false] false None in
  exists os', read_config_line demo_options (fst (write_config [o])) = (os', true) /\
    get_opt os' "threads" = get_opt demo_options "threads".
Proof.
  intros o.
  destruct (written_option_renamed demo_options o) as (os' & E & H & _);
    [apply demo_options_wf|c_string_closed|done|reflexivity|repeat constructor|].
  by exists os'.
Defined.

Lemma registration_keeps_first_validator_witness :
  has_validator demo_options "rand-type" None.
Proof.
  apply (registration_keeps_first_validator no_files demo_args [] demo_options
    (SB_OPT "rand-type" "distribution" (Some "uniform") SB_ARG_TYPE_STRING
      (Some (fun _ v => bool_decide (v = Some "uniform")))) no_files_text).
  - split; [constructor|apply NoDup_nil_2].
  - apply demo_args_names.
  - reflexivity.
  - right. left.
Defined.

Lemma print_options_aligned_witness :
  String.length (option_column (max_opt_width demo_args)
    (SB_OPT "threads" "number of threads" (Some "1") SB_ARG_TYPE_INT None)) = 21%nat.
Proof.
  rewrite (print_options_aligned demo_args); [reflexivity|left].
Defined.
