(* ===== verification/Xoroshiro.v ===== *)
(** * The xoroshiro128+ generator ([xoroshiro128plus.h])

    The generator's transition is shown to be invertible (so the all-zero state
    is unreachable from any other state), and its jump function is shown to be
    exactly 2^64 transitions: the transition is linear over the two-element
    field and annihilated by its characteristic polynomial, so its 2^64-th power
    is the polynomial obtained by 64 squarings of x modulo that polynomial,
    which is compared with the one whose coefficients are the bits of [JUMP]. *)

From S2P Require Import Prelude.

Definition state := (Z * Z)%type.

(** ** The generator *)

Definition xoroshiro_rotl (x k : Z) : Z :=
  Z.lor (u64 (Z.shiftl x k)) (Z.shiftr x (64 - k)).

Definition xoroshiro_next (s : state) : Z * state :=
  let '(s0, s1) := s in
  let result := u64 (s0 + s1) in
  let s1 := Z.lxor s1 s0 in
  (result,
   (Z.lxor (Z.lxor (xoroshiro_rotl s0 55) s1) (u64 (Z.shiftl s1 14)), xoroshiro_rotl s1 36)).

Definition next_state (s : state) : state := snd (xoroshiro_next s).

Definition JUMP : list Z := [0xbeac0467eba5facb; 0xd86b048b86aa9922].

Definition xor_state (s t : state) : state := (Z.lxor s.1 t.1, Z.lxor s.2 t.2).

(** The loops of [xoroshiro_jump]: the accumulator and the running state. *)
Definition jump_step (word : Z) (b : nat) (acc : state * state) : state * state :=
  let '(sum, s) := acc in
  (if Z.testbit word (Z.of_nat b) then xor_state sum s else sum, next_state s).

Definition xoroshiro_jump (s : state) : state :=
  fst (foldl (fun acc word => for_upto 64 (jump_step word) acc) ((0, 0), s) JUMP).

(** ** Words *)

Definition is_st (s : state) : Prop := is_u64 s.1 /\ is_u64 s.2.

Lemma rotl_spec x k i :
  is_u64 x -> 0 < k < 64 -> 0 <= i < 64 ->
  Z.testbit (xoroshiro_rotl x k) i = Z.testbit x ((i - k) mod 64).
Proof.
  intros Hx Hk Hi. unfold xoroshiro_rotl.
  rewrite Z.lor_spec, testbit_u64, Z.shiftl_spec, Z.shiftr_spec by lia.
  rewrite (proj2 (Z.ltb_lt i 64)) by lia. simpl.
  destruct (Z.lt_ge_cases i k).
  - rewrite (Z.testbit_neg_r x (i - k)) by lia. simpl. f_equal.
    replace (i - k) with (i + (64 - k) + (-1) * 64) by ring.
    rewrite Z.mod_add, Z.mod_small by lia. done.
  - rewrite (testbit_above 64 x (i + (64 - k))) by (done || lia).
    rewrite orb_false_r. by rewrite Z.mod_small by lia.
Qed.

Lemma rotl_range x k : is_u64 x -> 0 < k < 64 -> is_u64 (xoroshiro_rotl x k).
Proof.
  intros Hx Hk. unfold xoroshiro_rotl.
  assert (Hn : 0 <= Z.lor (u64 (Z.shiftl x k)) (Z.shiftr x (64 - k))).
  { apply Z.lor_nonneg. split; [apply u64_range|]. apply Z.shiftr_nonneg. apply Hx. }
  split; [done|]. apply bits_bound; [lia|done|]. intros i Hi.
  rewrite Z.lor_spec, testbit_u64, Z.shiftr_spec by lia.
  rewrite (proj2 (Z.ltb_ge i 64)) by lia. simpl. apply (testbit_above 64); [done|lia|lia].
Qed.

Lemma u64_bits_inj x y :
  is_u64 x -> is_u64 y -> (forall i, 0 <= i < 64 -> Z.testbit x i = Z.testbit y i) -> x = y.
Proof.
  intros Hx Hy H. apply Z.bits_inj'. intros i Hi. destruct (Z.lt_ge_cases i 64); [by apply H|].
  by rewrite (testbit_above 64 x), (testbit_above 64 y) by (done || lia).
Qed.

Lemma lxor_u64 x y : is_u64 x -> is_u64 y -> is_u64 (Z.lxor x y).
Proof. intros. by apply lxor_bound. Qed.

#[export] Hint Resolve lxor_u64 rotl_range : sb.

Lemma rotl_rotl x k : is_u64 x -> 0 < k < 64 -> xoroshiro_rotl (xoroshiro_rotl x k) (64 - k) = x.
Proof.
  intros Hx Hk. apply u64_bits_inj; [apply rotl_range; [by apply rotl_range|lia]|done|].
  intros i Hi.
  pose proof (Z.mod_pos_bound (i - (64 - k)) 64 ltac:(lia)).
  rewrite rotl_spec by (auto with sb lia || lia || by apply rotl_range).
  rewrite rotl_spec by (done || lia). f_equal.
  rewrite Zminus_mod_idemp_l. replace (i - (64 - k) - k) with (i + (-1) * 64) by ring.
  rewrite Z.mod_add, Z.mod_small by lia. done.
Qed.

Lemma next_state_range s : is_st s -> is_st (next_state s).
Proof.
  destruct s as [s0 s1]. intros [H0 H1]. unfold next_state, is_st; simpl in *.
  split; repeat first [apply lxor_u64 | apply rotl_range | apply u64_range | lia | done].
Qed.

(** ** The inverse transition *)

Definition prev_state (t : state) : state :=
  let '(t0, t1) := t in
  let s1 := xoroshiro_rotl t1 28 in
  let s0 := xoroshiro_rotl (Z.lxor (Z.lxor t0 s1) (u64 (Z.shiftl s1 14))) 9 in
  (s0, Z.lxor s1 s0).

Lemma prev_next s : is_st s -> prev_state (next_state s) = s.
Proof.
  destruct s as [s0 s1]. intros [H0 H1]; simpl in *. unfold next_state, prev_state; simpl.
  assert (Hx : is_u64 (Z.lxor s1 s0)) by auto with sb.
  pose proof (rotl_rotl (Z.lxor s1 s0) 36 Hx ltac:(lia)) as Hr. change (64 - 36) with 28 in Hr.
  rewrite Hr. set (a := Z.lxor s1 s0) in *. set (w := u64 (Z.shiftl a 14)).
  replace (Z.lxor (Z.lxor (Z.lxor (Z.lxor (xoroshiro_rotl s0 55) a) w) a) w)
    with (xoroshiro_rotl s0 55).
  - pose proof (rotl_rotl s0 55 H0 ltac:(lia)) as Hr0. change (64 - 55) with 9 in Hr0.
    rewrite Hr0. f_equal. unfold a. by rewrite Z.lxor_assoc, Z.lxor_nilpotent, Z.lxor_0_r.
  - apply Z.bits_inj'. intros i _. rewrite !Z.lxor_spec.
    by destruct (Z.testbit _ i), (Z.testbit a i), (Z.testbit w i).
Qed.

(** ** Linearity *)

Definition additive (f : state -> state) : Prop :=
  (forall s, is_st s -> is_st (f s)) /\
  (forall s t, is_st s -> is_st t -> f (xor_state s t) = xor_state (f s) (f t)).

Lemma xor_state_range s t : is_st s -> is_st t -> is_st (xor_state s t).
Proof. intros [] []. split; simpl; auto with sb. Qed.
#[export] Hint Resolve xor_state_range : sb.

Lemma is_st_0 : is_st (0, 0).
Proof. split; simpl; zify_u; lia. Qed.
#[export] Hint Resolve is_st_0 : sb.

Lemma xor_state_assoc s t u : xor_state (xor_state s t) u = xor_state s (xor_state t u).
Proof. unfold xor_state; simpl. by rewrite !Z.lxor_assoc. Qed.
Lemma xor_state_comm s t : xor_state s t = xor_state t s.
Proof. unfold xor_state. by rewrite (Z.lxor_comm s.1), (Z.lxor_comm s.2). Qed.
Lemma xor_state_0_l s : xor_state (0, 0) s = s.
Proof. unfold xor_state; simpl. rewrite !Z.lxor_0_l. by destruct s. Qed.
Lemma xor_state_nilpotent s : xor_state s s = (0, 0).
Proof. unfold xor_state. by rewrite !Z.lxor_nilpotent. Qed.

Lemma additive_0 f : additive f -> f (0, 0) = (0, 0).
Proof.
  intros [_ H]. pose proof (H (0, 0) (0, 0) is_st_0 is_st_0) as E.
  by rewrite !xor_state_nilpotent in E.
Qed.

Lemma additive_compose f g : additive f -> additive g -> additive (fun s => f (g s)).
Proof. intros [Hf Hf'] [Hg Hg']. split; [auto|]. intros s t Hs Ht. rewrite Hg', Hf'; auto. Qed.

Lemma additive_xor f g : additive f -> additive g -> additive (fun s => xor_state (f s) (g s)).
Proof.
  intros [Hf Hf'] [Hg Hg']. split; [auto with sb|]. intros s t Hs Ht. rewrite Hf', Hg' by done.
  unfold xor_state; simpl. f_equal; apply Z.bits_inj'; intros i _; rewrite !Z.lxor_spec;
    by destruct (Z.testbit _ i), (Z.testbit _ i), (Z.testbit _ i), (Z.testbit _ i).
Qed.

Lemma additive_zero : additive (fun _ => (0, 0)).
Proof. split; auto with sb. Qed.

Lemma additive_id : additive (fun s => s).
Proof. by split. Qed.

Lemma rotl_lxor x y k :
  is_u64 x -> is_u64 y -> 0 < k < 64 ->
  xoroshiro_rotl (Z.lxor x y) k = Z.lxor (xoroshiro_rotl x k) (xoroshiro_rotl y k).
Proof.
  intros Hx Hy Hk. apply u64_bits_inj; [auto with sb..|]. intros i Hi.
  rewrite Z.lxor_spec, !rotl_spec by auto with sb. by rewrite Z.lxor_spec.
Qed.

Lemma u64_shiftl_lxor x y k :
  0 <= k -> u64 (Z.shiftl (Z.lxor x y) k) = Z.lxor (u64 (Z.shiftl x k)) (u64 (Z.shiftl y k)).
Proof.
  intros Hk. apply u64_bits_inj; [auto with sb..|]. intros i Hi.
  rewrite Z.lxor_spec, !testbit_u64, !Z.shiftl_spec, Z.lxor_spec by lia.
  by destruct (i <? 64).
Qed.

Lemma next_state_additive : additive next_state.
Proof.
  split; [apply next_state_range|]. intros [s0 s1] [t0 t1] [H0 H1] [H2 H3]; simpl in *.
  unfold next_state, xor_state; simpl.
  replace (Z.lxor (Z.lxor s1 t1) (Z.lxor s0 t0)) with (Z.lxor (Z.lxor s1 s0) (Z.lxor t1 t0))
    by (apply Z.bits_inj'; intros i _; rewrite !Z.lxor_spec;
        by destruct (Z.testbit s1 i), (Z.testbit s0 i), (Z.testbit t1 i), (Z.testbit t0 i)).
  rewrite !rotl_lxor, u64_shiftl_lxor by (auto with sb || lia). f_equal.
  apply Z.bits_inj'; intros i _; rewrite !Z.lxor_spec.
  generalize (Z.testbit (xoroshiro_rotl s0 55) i), (Z.testbit (xoroshiro_rotl t0 55) i),
    (Z.testbit s1 i), (Z.testbit s0 i), (Z.testbit t1 i), (Z.testbit t0 i),
    (Z.testbit (u64 (Z.shiftl (Z.lxor s1 s0) 14)) i), (Z.testbit (u64 (Z.shiftl (Z.lxor t1 t0) 14)) i).
  by intros [] [] [] [] [] [] [] [].
Qed.

(** ** Iterating the transition *)

Definition iter_next (n : N) (s : state) : state := N.iter n next_state s.

Lemma iter_next_additive n : additive (iter_next n).
Proof.
  induction n as [|n IH] using N.peano_ind; [apply additive_id|].
  destruct (additive_compose next_state (iter_next n) next_state_additive IH) as [H1 H2].
  unfold iter_next in *. split; intros; rewrite !N.iter_succ; auto.
Qed.

Lemma iter_next_double n s : iter_next (n + n) s = iter_next n (iter_next n s).
Proof. apply N.iter_add. Qed.

(** ** Linear maps as the images of a basis *)

(** The sum of the vectors selected by the bits of a word. *)
Fixpoint select (x : Z) (i : Z) (vs : list state) (acc : state) : state :=
  match vs with
  | [] => acc
  | v :: vs => select x (i + 1) vs (if Z.testbit x i then xor_state v acc else acc)
  end.

Definition mat_apply (m : list state * list state) (s : state) : state :=
  xor_state (select s.1 0 m.1 (0, 0)) (select s.2 0 m.2 (0, 0)).

Definition mat_map (f : state -> state) (m : list state * list state) : list state * list state :=
  (map f m.1, map f m.2).

Definition units (inj : Z -> state) (i n : nat) : list state :=
  map (fun k => inj (2 ^ Z.of_nat k)) (seq i n).
Definition mat_id : list state * list state :=
  (units (fun x => (x, 0)) 0 64, units (fun x => (0, x)) 0 64).

Lemma select_map f x i vs acc :
  additive f -> Forall is_st vs -> is_st acc ->
  f (select x i vs acc) = select x i (map f vs) (f acc).
Proof.
  intros Hf Hvs. revert i acc. induction Hvs as [|v vs Hv _ IH]; intros i acc Ha; [done|].
  cbn [select map]. rewrite IH by (case_match; auto with sb). f_equal.
  case_match; [|done]. by apply Hf.
Qed.

Lemma select_range x i vs acc : Forall is_st vs -> is_st acc -> is_st (select x i vs acc).
Proof.
  intros Hvs. revert i acc. induction Hvs as [|v vs Hv _ IH]; intros i acc Ha; [done|].
  cbn [select]. apply IH. case_match; auto with sb.
Qed.

Lemma mat_apply_map f m s :
  additive f -> Forall is_st m.1 -> Forall is_st m.2 ->
  mat_apply (mat_map f m) s = f (mat_apply m s).
Proof.
  intros Hf H1 H2. unfold mat_apply. destruct (Hf) as [_ Hadd].
  rewrite Hadd by (apply select_range; auto with sb).
  rewrite !(select_map f) by auto with sb. rewrite (additive_0 f) by done. done.
Qed.

(** The bits of [x] from position [i] on, as a sum of powers of two. *)
Lemma select_units_1 n i x a b :
  select x (Z.of_nat i) (units (fun x => (x, 0)) i n) (a, b) =
  (Z.lxor (Z.shiftl (Z.shiftr x (Z.of_nat i) mod 2 ^ Z.of_nat n) (Z.of_nat i)) a, b).
Proof.
  revert i a. induction n as [|n IH]; intros i a.
  - simpl. by rewrite Z.mod_1_r, Z.shiftl_0_l.
  - unfold units in *. cbn [seq map select]. replace (Z.of_nat i + 1) with (Z.of_nat (S i)) by lia.
    assert (E : Z.shiftl (Z.shiftr x (Z.of_nat i) mod 2 ^ Z.of_nat (S n)) (Z.of_nat i)
      = Z.lxor (Z.shiftl (Z.shiftr x (Z.of_nat (S i)) mod 2 ^ Z.of_nat n) (Z.of_nat (S i)))
          (if Z.testbit x (Z.of_nat i) then 2 ^ Z.of_nat i else 0)).
    { apply Z.bits_inj'. intros j Hj. rewrite Z.lxor_spec, !Z.shiftl_spec by lia.
      destruct (Z.lt_trichotomy j (Z.of_nat i)) as [Hlt|[->|Hgt]].
      - rewrite !Z.testbit_neg_r by lia.
        case_match; [rewrite Z.pow2_bits_false by lia|rewrite Z.bits_0]; done.
      - rewrite Z.sub_diag, (Z.testbit_neg_r _ (_ - _)) by lia.
        rewrite Z.mod_pow2_bits_low, Z.shiftr_spec by lia. rewrite Z.add_0_l.
        case_match eqn:Hb; [by rewrite Z.pow2_bits_true by lia|by rewrite Z.bits_0].
      - replace (Z.testbit (if Z.testbit x (Z.of_nat i) then 2 ^ Z.of_nat i else 0) j) with false
          by (case_match; [by rewrite Z.pow2_bits_false by lia|by rewrite Z.bits_0]).
        rewrite xorb_false_r.
        destruct (Z.lt_ge_cases (j - Z.of_nat i) (Z.of_nat (S n))).
        + rewrite !Z.mod_pow2_bits_low, !Z.shiftr_spec by lia. f_equal; lia.
        + by rewrite !Z.mod_pow2_bits_high by lia. }
    rewrite E. case_match.
    + unfold xor_state; simpl fst; simpl snd. rewrite Z.lxor_0_l, IH. by rewrite Z.lxor_assoc.
    + rewrite IH, Z.lxor_0_r. done.
Qed.

Definition swap (s : state) : state := (s.2, s.1).

Lemma select_swap x i vs acc : select x i (map swap vs) (swap acc) = swap (select x i vs acc).
Proof.
  revert i acc. induction vs as [|v vs IH]; intros i acc; [done|]. cbn [select map].
  rewrite <- IH. by case_match.
Qed.

Lemma mat_apply_id s : is_st s -> mat_apply mat_id s = s.
Proof.
  destruct s as [s0 s1]. intros [H0 H1]. simpl in H0, H1. unfold mat_apply, mat_id.
  assert (E : forall x, is_u64 x -> select x 0 (units (fun x => (x, 0)) 0 64) (0, 0) = (x, 0)).
  { intros x Hx. rewrite (select_units_1 64 0 x 0 0 : select x 0 _ _ = _).
    rewrite Z.shiftr_0_r, Z.shiftl_0_r, Z.lxor_0_r. by rewrite Z.mod_small by done. }
  cbn [fst snd]. rewrite E by done.
  replace (units (fun x => (0, x)) 0 64) with (map swap (units (fun x => (x, 0)) 0 64)) by done.
  rewrite (select_swap s1 0 _ (0, 0) : select s1 0 _ (0, 0) = _), E by done.
  unfold xor_state, swap. cbn [fst snd]. by rewrite Z.lxor_0_r, Z.lxor_0_l.
Qed.

Lemma mat_id_range : Forall is_st mat_id.1 /\ Forall is_st mat_id.2.
Proof. split; decide_closed. Qed.

Lemma mat_map_ext f g m : (forall s, f s = g s) -> mat_map f m = mat_map g m.
Proof. intros E. unfold mat_map. f_equal; by apply map_ext. Qed.

(** Two linear maps that agree on the unit vectors are equal. *)
Lemma additive_ext f g s :
  additive f -> additive g -> is_st s -> mat_map f mat_id = mat_map g mat_id -> f s = g s.
Proof.
  intros Hf Hg Hs E. pose proof mat_id_range as [H1 H2].
  rewrite <- (mat_apply_id s Hs), <- (mat_apply_map f), <- (mat_apply_map g), E by done. done.
Qed.

(** ** Polynomials in the transition

    A polynomial over the two-element field is the list of its coefficients,
    lowest first; [ev p s] applies [p(T)] to [s], [T] the transition. *)

Fixpoint ev (p : list bool) (s : state) : state :=
  match p with
  | [] => (0, 0)
  | b :: p => xor_state (if b then s else (0, 0)) (ev p (next_state s))
  end.

Lemma scale_additive (b : bool) f : additive f -> additive (fun s => if b then f s else (0, 0)).
Proof. intros Hf. destruct b; [done|apply additive_zero]. Qed.

Lemma ev_additive p : additive (ev p).
Proof.
  induction p as [|b p IH]; [apply additive_zero|].
  apply (additive_xor (fun s => if b then s else (0, 0)) (fun s => ev p (next_state s))).
  - apply (scale_additive b), additive_id.
  - apply (additive_compose (ev p)), next_state_additive. done.
Qed.

Lemma ev_range p s : is_st s -> is_st (ev p s).
Proof. apply ev_additive. Qed.
#[export] Hint Resolve ev_range next_state_range : sb.

Lemma next_state_0 : next_state (0, 0) = (0, 0).
Proof. done. Qed.

Lemma next_ev p s : is_st s -> next_state (ev p s) = ev p (next_state s).
Proof.
  revert s. induction p as [|b p IH]; intros s Hs; [done|]. cbn [ev].
  destruct next_state_additive as [_ Hadd]. rewrite Hadd, IH by (try case_match; auto with sb).
  f_equal. by case_match.
Qed.

Definition iter_nat (n : nat) (s : state) : state := iter_next (N.of_nat n) s.

Lemma iter_nat_S n s : iter_nat (S n) s = iter_nat n (next_state s).
Proof. unfold iter_nat, iter_next. by rewrite Nat2N.inj_succ, N.iter_succ_r. Qed.

Lemma ev_app p q s : ev (p ++ q) s = xor_state (ev p s) (ev q (iter_nat (length p) s)).
Proof.
  revert s. induction p as [|b p IH]; intros s.
  - cbn [app ev length]. by rewrite xor_state_0_l.
  - cbn [app ev length]. by rewrite IH, iter_nat_S, xor_state_assoc.
Qed.

Fixpoint poly_xor (p q : list bool) : list bool :=
  match p, q with
  | b :: p, c :: q => xorb b c :: poly_xor p q
  | _, _ => []
  end.

Lemma ev_poly_xor p q s :
  length p = length q -> is_st s -> ev (poly_xor p q) s = xor_state (ev p s) (ev q s).
Proof.
  revert q s. induction p as [|b p IH]; intros [|c q] s Hl Hs; try discriminate Hl.
  - by rewrite xor_state_0_l.
  - cbn [poly_xor ev]. rewrite IH by (injection Hl; auto with sb).
    rewrite <- !xor_state_assoc. f_equal.
    rewrite (xor_state_assoc _ (ev p _)), (xor_state_comm (ev p _)), <- xor_state_assoc. f_equal.
    destruct b, c; simpl xorb; cbn iota; by rewrite ?xor_state_nilpotent, ?xor_state_0_l,
      ?(xor_state_comm s), ?xor_state_0_l.
Qed.

Lemma poly_xor_length p q : length p = length q -> length (poly_xor p q) = length p.
Proof. revert q. induction p as [|b p IH]; intros [|c q] H; simplify_eq/=; auto. Qed.

(** The low 128 coefficients of the transition's characteristic polynomial,
    x^128 being the remaining one. *)
Definition poly_of (n : nat) (x : Z) : list bool := map (fun i => Z.testbit x (Z.of_nat i)) (seq 0 n).
Definition char_low : list bool := Eval vm_compute in poly_of 128 0x00653ced7f29f88a5fd66762f0e1c001.

(** [next_state] with the masks written as [Z.land], cheap to evaluate. *)
Definition MASK : Z := Eval vm_compute in 2 ^ 64 - 1.
Definition rotl_fast (x k k' : Z) : Z := Z.lor (Z.land (Z.shiftl x k) MASK) (Z.shiftr x k').
Definition next_fast (s : state) : state :=
  let s1 := Z.lxor s.2 s.1 in
  (Z.lxor (Z.lxor (rotl_fast s.1 55 9) s1) (Z.land (Z.shiftl s1 14) MASK), rotl_fast s1 36 28).
Fixpoint ev_fast (p : list bool) (s acc : state) : state :=
  match p with
  | [] => acc
  | b :: p => ev_fast p (next_fast s) (if b then xor_state acc s else acc)
  end.

Lemma land_MASK x : Z.land x MASK = u64 x.
Proof. exact (Z.land_ones x 64 ltac:(lia)). Qed.

Lemma next_fast_eq s : next_fast s = next_state s.
Proof.
  destruct s as [s0 s1]. unfold next_fast, rotl_fast, next_state; simpl.
  by rewrite !land_MASK.
Qed.

Lemma ev_fast_eq p s acc : ev_fast p s acc = xor_state acc (ev p s).
Proof.
  revert s acc. induction p as [|b p IH]; intros s acc.
  - by rewrite xor_state_comm, xor_state_0_l.
  - cbn [ev_fast ev]. rewrite IH, next_fast_eq. destruct b.
    + by rewrite xor_state_assoc.
    + by rewrite xor_state_0_l.
Qed.

(** The characteristic polynomial annihilates the transition: it does so on
    every unit vector. *)
Lemma char_annihilates_units :
  mat_map (fun s => ev_fast (char_low ++ [true]) s (0, 0)) mat_id = mat_map (fun _ => (0, 0)) mat_id.
Proof. vm_compute. reflexivity. Qed.

Lemma char_annihilates s : is_st s -> iter_nat 128 s = ev char_low s.
Proof.
  intros Hs.
  assert (E : ev (char_low ++ [true]) s = (0, 0)).
  { apply (additive_ext _ (fun _ => (0, 0)) s (ev_additive _) additive_zero Hs).
    etransitivity; [|exact char_annihilates_units]. apply mat_map_ext. intros t.
    rewrite ev_fast_eq, xor_state_0_l. reflexivity. }
  rewrite ev_app in E. cbn [ev] in E. change (length char_low) with 128%nat in E.
  rewrite (xor_state_comm (iter_nat _ _)), xor_state_0_l in E.
  rewrite <- (xor_state_0_l (iter_nat 128 s)), <- (xor_state_nilpotent (ev char_low s)).
  by rewrite xor_state_assoc, E, xor_state_comm, xor_state_0_l.
Qed.

(** Multiplication by [x]: shift, returning the coefficient shifted out. *)
Fixpoint shift_in (b : bool) (p : list bool) : list bool * bool :=
  match p with
  | [] => ([], b)
  | c :: p => let '(q, o) := shift_in c p in (b :: q, o)
  end.

Definition x_times (p : list bool) : list bool :=
  let '(q, o) := shift_in false p in if o then poly_xor q char_low else q.

Definition poly_mul (p q : list bool) : list bool :=
  foldr (fun (b : bool) acc => if b then poly_xor p (x_times acc) else x_times acc)
    (replicate 128 false) q.

Lemma shift_in_length b p : length (shift_in b p).1 = length p.
Proof.
  revert b. induction p as [|c p IH]; intros b; [done|]. cbn [shift_in].
  specialize (IH c). destruct (shift_in c p). simpl in *. lia.
Qed.

Lemma shift_in_ev b p s :
  ev (b :: p) s = xor_state (ev (shift_in b p).1 s)
                            (if (shift_in b p).2 then iter_nat (length p) s else (0, 0)).
Proof.
  revert b s. induction p as [|c p IH]; intros b s.
  - cbn [shift_in fst snd ev length]. by rewrite xor_state_comm.
  - cbn [shift_in]. change (ev (b :: c :: p) s)
      with (xor_state (if b then s else (0, 0)) (ev (c :: p) (next_state s))).
    rewrite IH. destruct (shift_in c p) as [q o]. cbn [fst snd ev length].
    by rewrite xor_state_assoc, iter_nat_S.
Qed.

Lemma x_times_length p : length p = 128%nat -> length (x_times p) = 128%nat.
Proof.
  intros Hp. unfold x_times. pose proof (shift_in_length false p) as Hl.
  destruct (shift_in false p) as [q []]; simpl in Hl; [|lia].
  rewrite poly_xor_length; [lia|]. rewrite Hl, Hp. done.
Qed.

Lemma x_times_ev p s : length p = 128%nat -> is_st s -> ev (x_times p) s = next_state (ev p s).
Proof.
  intros Hp Hs. rewrite next_ev by done.
  transitivity (ev (false :: p) s); [|cbn [ev]; by rewrite xor_state_0_l].
  rewrite shift_in_ev. unfold x_times. pose proof (shift_in_length false p) as Hl.
  destruct (shift_in false p) as [q []]; cbn [fst snd] in *.
  - rewrite ev_poly_xor, Hp, char_annihilates by (done || rewrite Hl, Hp; done). done.
  - by rewrite xor_state_comm, xor_state_0_l.
Qed.

Lemma ev_zeros n s : ev (replicate n false) s = (0, 0).
Proof. revert s. induction n as [|n IH]; intros s; [done|]. cbn [replicate ev]. by rewrite IH. Qed.

Lemma poly_mul_spec p q s :
  length p = 128%nat -> is_st s ->
  length (poly_mul p q) = 128%nat /\ ev (poly_mul p q) s = ev p (ev q s).
Proof.
  intros Hp. revert s. induction q as [|b q IH]; intros s Hs.
  - split; [apply length_replicate|]. unfold poly_mul. cbn [foldr ev].
    rewrite ev_zeros. by rewrite (additive_0 _ (ev_additive p)).
  - destruct (IH s Hs) as [Hl E]. change (poly_mul p (b :: q))
      with (if b then poly_xor p (x_times (poly_mul p q)) else x_times (poly_mul p q)).
    pose proof (x_times_length _ Hl) as Hl'.
    assert (Ex : ev (x_times (poly_mul p q)) s = ev p (ev q (next_state s)))
      by (rewrite x_times_ev, E, !next_ev by auto with sb; done).
    cbn [ev]. destruct b.
    + rewrite poly_xor_length by congruence. split; [done|].
      rewrite ev_poly_xor, Ex by (done || congruence).
      destruct (ev_additive p) as [_ Hadd]. by rewrite Hadd by auto with sb.
    + split; [done|]. by rewrite Ex, xor_state_0_l.
Qed.

(** Repeated squaring: [pow_poly k] is x^(2^k). *)
Fixpoint pow_poly (k : nat) : list bool :=
  match k with
  | O => false :: true :: replicate 126 false
  | S k => let p := pow_poly k in poly_mul p p
  end.

Lemma pow_poly_spec k s :
  is_st s -> length (pow_poly k) = 128%nat /\ ev (pow_poly k) s = iter_next (2 ^ N.of_nat k) s.
Proof.
  revert s. induction k as [|k IH]; intros s Hs.
  - split; [done|]. cbn [pow_poly ev]. rewrite ev_zeros, xor_state_0_l.
    by rewrite xor_state_comm, xor_state_0_l.
  - destruct (IH s Hs) as [Hl E]. cbn [pow_poly].
    destruct (poly_mul_spec _ (pow_poly k) s Hl Hs) as [Hl' E']. split; [done|].
    rewrite E', E. destruct (IH (iter_next (2 ^ N.of_nat k) s)) as [_ E2];
      [by apply iter_next_additive|].
    rewrite E2, <- iter_next_double. f_equal. rewrite Nat2N.inj_succ, N.pow_succ_r'. lia.
Qed.

(** The jump applies the polynomial whose coefficients are the bits of [JUMP]. *)
Lemma poly_of_S n x : poly_of (S n) x = poly_of n x ++ [Z.testbit x (Z.of_nat n)].
Proof. unfold poly_of. by rewrite seq_S, map_app. Qed.

Lemma jump_word_ev word n sum s :
  for_upto n (jump_step word) (sum, s) = (xor_state sum (ev (poly_of n word) s), iter_nat n s).
Proof.
  induction n as [|n IH].
  - cbn. by rewrite xor_state_comm, xor_state_0_l.
  - rewrite for_upto_S, IH, poly_of_S, ev_app. unfold poly_of at 3. rewrite length_map, length_seq.
    unfold jump_step. f_equal.
    + cbn [ev]. rewrite (xor_state_comm _ (0, 0)), xor_state_0_l.
      case_match; [by rewrite xor_state_assoc|by rewrite (xor_state_comm _ (0, 0)), xor_state_0_l].
    + unfold iter_nat, iter_next. by rewrite Nat2N.inj_succ, N.iter_succ.
Qed.

Definition jump_poly : list bool := Eval vm_compute in poly_of 64 (nth 0 JUMP 0) ++ poly_of 64 (nth 1 JUMP 0).

Lemma jump_poly_eq : jump_poly = poly_of 64 0xbeac0467eba5facb ++ poly_of 64 0xd86b048b86aa9922.
Proof. reflexivity. Qed.

#[local] Opaque for_upto poly_of.

Lemma xoroshiro_jump_ev s : xoroshiro_jump s = ev jump_poly s.
Proof.
  rewrite jump_poly_eq, ev_app.
  pose proof (jump_word_ev 0xbeac0467eba5facb 64 (0, 0) s) as E1.
  pose proof (jump_word_ev 0xd86b048b86aa9922 64
    (ev (poly_of 64 0xbeac0467eba5facb) s) (iter_nat 64 s)) as E2.
  rewrite xor_state_0_l in E1. unfold xoroshiro_jump, JUMP. cbn [foldl].
  etransitivity; [|exact (f_equal fst E2)]. f_equal. f_equal. exact E1.
Qed.

Lemma jump_poly_pow : jump_poly = pow_poly 64.
Proof. vm_compute. reflexivity. Qed.

#[local] Opaque pow_poly xoroshiro_jump ev N.iter.

(** ** Properties *)

(** C32: [xoroshiro_jump] is equivalent to 2^64 calls of [xoroshiro_next], from
    every state, which is what makes the per-thread subsequences disjoint. *)
Theorem xoroshiro_jump_is_2_64_steps (s : state) :
  is_st s -> xoroshiro_jump s = N.iter (2 ^ 64) next_state s.
Proof.
  intros Hs. rewrite xoroshiro_jump_ev, jump_poly_pow. exact (proj2 (pow_poly_spec 64 s Hs)).
Qed.

Lemma xoroshiro_jump_is_2_64_steps_witness :
  xoroshiro_jump (1, 2) = N.iter (2 ^ 64) next_state (1, 2).
Proof. apply xoroshiro_jump_is_2_64_steps. split; simpl; zify_u; lia. Defined.

(** The transition is a bijection of the 128-bit states, inverted by
    [prev_state], so a generator that is not seeded with zeros never reaches the
    all-zero state (where it would stay) in any number of calls. *)
Theorem xoroshiro_never_zero (s : state) (n : N) :
  is_st s -> s <> (0, 0) ->
  prev_state (next_state s) = s /\ is_st (N.iter n next_state s) /\
  N.iter n next_state s <> (0, 0) /\ next_state (0, 0) = (0, 0).
Proof.
  intros Hs Hnz. split_and!; [by apply prev_next|by apply (iter_next_additive n)| |done].
  intros E. apply Hnz. revert s Hs Hnz E. induction n as [|n IH] using N.peano_ind; [done|].
  intros s Hs Hnz E. rewrite N.iter_succ in E. apply (IH s Hs Hnz).
  rewrite <- (prev_next (N.iter n next_state s)), E; [done|by apply (iter_next_additive n)].
Qed.

Lemma xoroshiro_never_zero_witness :
  prev_state (next_state (1, 2)) = (1, 2) /\ is_st (N.iter 5 next_state (1, 2)) /\
  N.iter 5 next_state (1, 2) <> (0, 0) /\ next_state (0, 0) = (0, 0).
Proof. apply xoroshiro_never_zero; [split; simpl; zify_u; lia|done]. Defined.
