(* ===== verification/Rand.v ===== *)
(** * Pseudo-random numbers ([sb_rand.c], [sb_rand.h])

    The generators draw from the thread-local xoroshiro128+ state, which the
    model passes explicitly; [None] is undefined behaviour (a double-to-integer
    conversion whose value does not fit).  The C mathematical library is a
    parameter.  [sb_rand_unique] is the counter-based unique sequence: the
    permutation it applies is shown to be a bijection of the 32-bit integers,
    from the primality of 4294967291 and Fermat's little theorem. *)

From Stdlib Require Import Znumtheory ZmodInv.
From S2P Require Import Prelude Double Options Xoroshiro.

(** ** The generator monad *)

Definition rand (A : Type) : Type := Xoroshiro.state -> option (A * Xoroshiro.state).

Definition rret {A} (a : A) : rand A := fun s => Some (a, s).
Definition rbind {A B} (m : rand A) (f : A -> rand B) : rand B :=
  fun s => match m s with Some (a, s') => f a s' | None => None end.
(** A conversion that may be undefined. *)
Definition rcast {A} (o : option A) : rand A := fun s => match o with Some a => Some (a, s) | None => None end.

Declare Scope rand_scope.
Delimit Scope rand_scope with rand.
Notation "x <-r m ; k" := (rbind m (fun x => k)) (at level 100, m at next level, right associativity)
  : rand_scope.
#[local] Open Scope rand_scope.

(** ** Uniform numbers *)

Definition sb_rand_uniform_uint64 : rand Z := fun s => Some (xoroshiro_next s).

Definition sb_rand_uniform_double : rand dbl :=
  x <-r sb_rand_uniform_uint64;
  rret (dsub (d_of_bits (Z.lor (Z.shiftl 0x3FF 52) (Z.shiftr x 12))) (d_of_Z 1)).

Definition sb_rand_uniform (a b : Z) : rand Z :=
  u <-r sb_rand_uniform_double;
  rcast (d_to_u32 (dadd (d_of_Z a) (dmul u (d_of_Z (u32 (u32 (b - a) + 1)))))).

(** ** Configuration *)

Inductive rand_dist_t := DIST_TYPE_UNIFORM | DIST_TYPE_GAUSSIAN | DIST_TYPE_PARETO | DIST_TYPE_ZIPFIAN.

Definition rand_args : list sb_arg_t :=
  [SB_OPT "rand-type" ("random numbers distribution {uniform, gaussian, pareto, zipfian} "
     +:+ "to use by default")%string (Some "uniform") SB_ARG_TYPE_STRING None;
   SB_OPT "rand-seed" ("seed for random number generator. When 0, the current time is "
     +:+ "used as an RNG seed.")%string (Some "0") SB_ARG_TYPE_INT None;
   SB_OPT "rand-pareto-h" "shape parameter for the Pareto distribution"
     (Some "0.2") SB_ARG_TYPE_DOUBLE None;
   SB_OPT "rand-zipfian-exp" "shape parameter (exponent, theta) for the Zipfian distribution"
     (Some "0.8") SB_ARG_TYPE_DOUBLE None].

(** The file-scope variables set by [sb_rand_init]. *)
Record rand_conf := RandConf {
  sb_rand_seed : Z;
  rand_type : rand_dist_t;
  rand_iter : Z;
  rand_pct : Z;
  rand_res : Z;
  rand_iter_mult : dbl;
  rand_pct_mult : dbl;
  rand_pct_2_mult : dbl;
  rand_res_mult : dbl;
  pareto_h : dbl;
  pareto_power : dbl;
  zipf_exp : dbl;
  zipf_s : dbl;
  zipf_hIntegralX1 : dbl
}.

Definition sb_rand_register (fopen : string -> option string) (options : list option_t)
    : list option_t * Z :=
  (fst (sb_register_arg_set fopen rand_args options), 0).

(** ** Strings *)

Definition char_of (z : Z) : ascii := Ascii.ascii_of_N (Z.to_N (u8 z)).

Fixpoint sb_rand_str (fmt : string) : rand string :=
  match fmt with
  | EmptyString => rret EmptyString
  | String f fmt =>
      c <-r (if Ascii.eqb f "#" then x <-r sb_rand_uniform 48 57; rret (char_of x)
             else if Ascii.eqb f "@" then x <-r sb_rand_uniform 97 122; rret (char_of x)
             else rret f);
      rest <-r sb_rand_str fmt;
      rret (String c rest)
  end.

Fixpoint varstr_fill (n : nat) : rand (list ascii) :=
  match n with
  | O => rret []
  | S n => x <-r sb_rand_uniform 48 122; rest <-r varstr_fill n; rret (char_of x :: rest)
  end.

(** Returns the characters written into the buffer. *)
Definition sb_rand_varstr (min_len max_len : Z) : rand (list ascii) :=
  if max_len =? 0 then rret []
  else
    let min_len := if max_len <? min_len then 1 else min_len in
    num_chars <-r sb_rand_uniform min_len max_len;
    varstr_fill (Z.to_nat num_chars).

(** ** The other distributions *)

Fixpoint gaussian_sum (n : nat) (t sum : dbl) : rand dbl :=
  match n with
  | O => rret sum
  | S n => u <-r sb_rand_uniform_double; gaussian_sum n t (dadd sum (dmul u t))
  end.

Definition sb_rand_gaussian (g : rand_conf) (a b : Z) : rand Z :=
  let t := d_of_Z (u32 (u32 (b - a) + 1)) in
  sum <-r gaussian_sum (Z.to_nat (rand_iter g)) t (Fin 0);
  k <-r rcast (d_to_u32 (dmul sum (rand_iter_mult g)));
  rret (u32 (a + k)).

Section libm.
(** The functions of [math.h]. *)
Context (log exp log1p expm1 : dbl -> dbl) (pow : dbl -> dbl -> dbl).

Definition sb_rand_pareto (g : rand_conf) (a b : Z) : rand Z :=
  u <-r sb_rand_uniform_double;
  k <-r rcast (d_to_u32 (dmul (d_of_Z (u32 (u32 (b - a) + 1))) (pow u (pareto_power g))));
  rret (u32 (a + k)).

Definition D_1 : dbl := d_of_Z 1.

Definition helper1 (x : dbl) : dbl :=
  if dltb (d_const 1 100000000) (dabs x) then ddiv (log1p x) x
  else dsub D_1 (dmul x (dsub (d_const 5 10)
         (dmul x (dsub (d_const 33333333333333333 100000000000000000) (dmul (d_const 25 100) x))))).

Definition helper2 (x : dbl) : dbl :=
  if dltb (d_const 1 100000000) (dabs x) then ddiv (expm1 x) x
  else dadd D_1 (dmul (dmul x (d_const 5 10))
         (dadd D_1 (dmul (dmul x (d_const 33333333333333333 100000000000000000))
                         (dadd D_1 (dmul (d_const 25 100) x))))).

Definition hIntegral (x e : dbl) : dbl :=
  let logX := log x in dmul (helper2 (dmul (dsub D_1 e) logX)) logX.

Definition h (x e : dbl) : dbl := exp (dmul (dopp e) (log x)).

Definition hIntegralInverse (x e : dbl) : dbl :=
  let t := dmul x (dsub D_1 e) in
  let t := if dltb t (dopp D_1) then dopp D_1 else t in
  exp (dmul (helper1 t) x).

(** One iteration of the rejection loop: [inl k] accepts, [inr tt] retries. *)
Definition zipfian_attempt (n : Z) (e s hIntegralX1 hIntegralNumberOfElements : dbl) : rand (Z + unit) :=
  r <-r sb_rand_uniform_double;
  let u := dadd hIntegralNumberOfElements (dmul r (dsub hIntegralX1 hIntegralNumberOfElements)) in
  let x := hIntegralInverse u e in
  k <-r rcast (d_to_u32 (dadd x (d_const 5 10)));
  let k := if k <? 1 then 1 else if n <? k then n else k in
  rret (if dleb (dsub (d_of_Z k) x) s
           || dleb (dsub (hIntegral (dadd (d_of_Z k) (d_const 5 10)) e) (h (d_of_Z k) e)) u
        then inl k else inr tt).

(** The [for (;;)] loop, limited to [fuel] iterations; [inr tt]: still running. *)
Fixpoint zipfian_loop (fuel : nat) (n : Z) (e s x1 hn : dbl) : rand (Z + unit) :=
  match fuel with
  | O => rret (inr tt)
  | S fuel =>
      r <-r zipfian_attempt n e s x1 hn;
      match r with inl k => rret (inl k) | inr _ => zipfian_loop fuel n e s x1 hn end
  end.

Definition sb_rand_zipfian_int (fuel : nat) (n : Z) (e s hIntegralX1 : dbl) : rand (Z + unit) :=
  zipfian_loop fuel n e s hIntegralX1 (hIntegral (dadd (d_of_Z n) (d_const 5 10)) e).

Definition sb_rand_zipfian (fuel : nat) (g : rand_conf) (a b : Z) : rand (Z + unit) :=
  r <-r sb_rand_zipfian_int fuel (u32 (u32 (b - a) + 1)) (zipf_exp g) (zipf_s g) (zipf_hIntegralX1 g);
  rret (match r with inl k => inl (u32 (u32 (a + k) - 1)) | inr _ => inr tt end).

(** [rand_func], the function selected by --rand-type. *)
Definition sb_rand_default (fuel : nat) (g : rand_conf) (a b : Z) : rand (Z + unit) :=
  match rand_type g with
  | DIST_TYPE_UNIFORM => k <-r sb_rand_uniform a b; rret (inl k)
  | DIST_TYPE_GAUSSIAN => k <-r sb_rand_gaussian g a b; rret (inl k)
  | DIST_TYPE_PARETO => k <-r sb_rand_pareto g a b; rret (inl k)
  | DIST_TYPE_ZIPFIAN => sb_rand_zipfian fuel g a b
  end.
End libm.

(** ** The unique sequence *)

Definition prime : Z := 4294967291.

Definition rand_unique_permute (x : Z) : Z :=
  if prime <=? x then x
  else
    let residue := u64 (x * x) mod prime in
    if x <=? prime / 2 then residue else u32 (prime - residue).

Record unique_state := Unique { rand_unique_index : Z; rand_unique_offset : Z }.

Definition rand_unique_seed (index offset : Z) : unique_state :=
  Unique (rand_unique_permute (u32 (rand_unique_permute index + 0x682f0161)))
         (rand_unique_permute (u32 (rand_unique_permute offset + 0x46790905))).

(** One call: the fetch-and-add is atomic, so calls of several threads are
    serialised in the order of their fetch-and-adds. *)
Definition sb_rand_unique (u : unique_state) : Z * unique_state :=
  let index := rand_unique_index u in
  (rand_unique_permute (Z.lxor (u32 (rand_unique_permute index + rand_unique_offset u)) 0x5bf03635),
   Unique (u32 (index + 1)) (rand_unique_offset u)).

(** The results of [n] successive calls. *)
Fixpoint unique_run (n : nat) (u : unique_state) : list Z :=
  match n with
  | O => []
  | S n => let '(x, u') := sb_rand_unique u in x :: unique_run n u'
  end.

(** ** Initialization *)

(** The values of four calls of [random(3)], 31-bit integers. *)
Definition sb_rand_thread_init (r0 r1 r2 r3 : Z) : Xoroshiro.state :=
  (Z.lor (u64 (Z.shiftl r0 32)) (Z.land r1 UINT32_MAX),
   Z.lor (u64 (Z.shiftl r2 32)) (Z.land r3 UINT32_MAX)).

(** What [sb_rand_init] ends with: success, failure, [exit] or the undefined
    [strcmp] of a null pointer (an option without a value). *)
Inductive init_result :=
| InitOk (g : rand_conf) (s : Xoroshiro.state) (u : unique_state)
| InitFail
| InitExit (code : Z)
| InitUndefined.

Definition rand_type_of (s : string) : option rand_dist_t :=
  if String.eqb s "uniform" then Some DIST_TYPE_UNIFORM
  else if String.eqb s "gaussian" then Some DIST_TYPE_GAUSSIAN
  else if String.eqb s "pareto" then Some DIST_TYPE_PARETO
  else if String.eqb s "zipfian" then Some DIST_TYPE_ZIPFIAN
  else None.

Definition with_int (options : list option_t) (name : string) (k : Z -> init_result) : init_result :=
  match sb_get_value_int options name with Ret v => k v | Exit c => InitExit c end.

Section init.
Context (log exp log1p expm1 : dbl -> dbl) (strtod : string -> dbl).
(** The successive values of [random(3)]. *)
Context (random : nat -> Z).

Definition sb_rand_init (options : list option_t) : init_result :=
  with_int options "rand-seed" (fun seed =>
  match sb_get_value_string options "rand-type" with
  | None => InitUndefined
  | Some s =>
  match rand_type_of s with
  | None => InitFail
  | Some ty =>
  with_int options "rand-spec-iter" (fun iter =>
  with_int options "rand-spec-pct" (fun pct =>
  with_int options "rand-spec-res" (fun res =>
  let iter := u32 iter in let pct := u32 pct in let res := u32 res in
  let ph := sb_get_value_double strtod options "rand-pareto-h" in
  let ze := sb_get_value_double strtod options "rand-zipfian-exp" in
  if dltb ze (Fin 0) then InitFail
  else
    InitOk
      (RandConf seed ty iter pct res
         (ddiv D_1 (d_of_Z iter))
         (ddiv (d_of_Z pct) (d_of_Z 100))
         (ddiv (d_of_Z pct) (d_of_Z 200))
         (ddiv (d_of_Z 100) (dsub (d_of_Z 100) (d_of_Z res)))
         ph
         (ddiv (log ph) (log (dsub D_1 ph)))
         ze
         (dsub (d_of_Z 2)
            (hIntegralInverse exp log1p
               (dsub (hIntegral log expm1 (d_const 25 10) ze) (h log exp (d_of_Z 2) ze)) ze))
         (dsub (hIntegral log expm1 (d_const 15 10) ze) D_1))
      (sb_rand_thread_init (random 0%nat) (random 1%nat) (random 2%nat) (random 3%nat))
      (rand_unique_seed (u32 (random 4%nat)) (u32 (random 5%nat))))))
  end end).
End init.

(** ** Uniform doubles are exact *)

(** The fraction [k / 2^52] that the 52 high bits of the word select. *)
Definition unit52 (k : Z) : dbl := Fin (k * 2 ^ 1022).

Lemma rshift12_range x : is_u64 x -> 0 <= Z.shiftr x 12 < 2 ^ 52.
Proof. intros Hx. rewrite Z.shiftr_div_pow2 by lia. zify_u. Z.div_mod_to_equations. lia. Qed.

Lemma uniform_bits k :
  0 <= k < 2 ^ 52 -> d_of_bits (Z.lor (Z.shiftl 0x3FF 52) k) = Fin ((2 ^ 52 + k) * 2 ^ 1022).
Proof.
  intros Hk. rewrite (lor_disjoint 52) by lia. unfold d_of_bits.
  assert (E1 : Z.land (Z.shiftr (0x3FF * 2 ^ 52 + k) 52) 0x7FF = 0x3FF).
  { rewrite Z.shiftr_div_pow2, (Z.add_comm _ k), Z.div_add by lia.
    by rewrite (Z.div_small k) by lia. }
  assert (E2 : Z.land (0x3FF * 2 ^ 52 + k) (2 ^ 52 - 1) = k).
  { change (2 ^ 52 - 1) with (Z.ones 52). rewrite Z.land_ones, (Z.add_comm _ k), Z.mod_add by lia.
    by apply Z.mod_small. }
  assert (E3 : Z.testbit (0x3FF * 2 ^ 52 + k) 63 = false) by (apply (testbit_above 63); lia).
  rewrite E1, E2, E3. change (0x3FF =? 0x7FF) with false. change (0x3FF =? 0) with false.
  cbv zeta iota. f_equal. rewrite Z.mul_1_l. reflexivity.
Qed.

Lemma D1_split : D1 = 2 ^ 52 * 2 ^ 1022.
Proof. with_strategy transparent [D1] (unfold D1). by rewrite <- Z.pow_add_r by lia. Qed.

Lemma unit52_sub k :
  0 <= k < 2 ^ 52 -> dsub (Fin ((2 ^ 52 + k) * 2 ^ 1022)) (d_of_Z 1) = unit52 k.
Proof.
  intros Hk. rewrite d_of_Z_exact by lia. unfold dsub, dopp, dadd, unit52.
  rewrite D1_split. replace (_ + _) with (k * 2 ^ 1022) by ring.
  assert (0 < 2 ^ 1022) by by apply Z.pow_pos_nonneg.
  apply rnd_exact; [|apply representable_scale; lia].
  split; [nia|]. transitivity (2 ^ 52 * 2 ^ 1022); [apply Z.mul_lt_mono_pos_r; lia|].
  rewrite <- Z.pow_add_r by lia. by apply Z.pow_lt_mono_r.
Qed.

Lemma next_output_range s : is_u64 (xoroshiro_next s).1.
Proof. destruct s. apply u64_range. Qed.

Lemma uniform_double_spec s :
  exists k, 0 <= k < 2 ^ 52 /\ k = Z.shiftr (xoroshiro_next s).1 12 /\
    sb_rand_uniform_double s = Some (unit52 k, next_state s).
Proof.
  pose proof (rshift12_range _ (next_output_range s)) as Hk.
  exists (Z.shiftr (xoroshiro_next s).1 12). split_and!; [lia..|done|].
  unfold sb_rand_uniform_double, sb_rand_uniform_uint64, rbind, rret, next_state.
  destruct (xoroshiro_next s) as [x s'] eqn:E. cbn [fst snd] in *.
  by rewrite uniform_bits, unit52_sub.
Qed.

(** ** The range of [sb_rand_uniform] *)

Lemma pow1022_pos : 0 < 2 ^ 1022.
Proof. by apply Z.pow_pos_nonneg. Qed.

(** [u * n] rounds to at most the largest double below [n], in units of
    [2^(j-53)] where [2^j] is the power of two above [n]. *)
Lemma unit_mul_bound k n j :
  0 <= k < 2 ^ 52 -> 0 < n -> 0 <= j <= 52 -> 2 ^ (j - 1) < n -> n <= 2 ^ j ->
  exists v, dmul (unit52 k) (d_of_Z n) = Fin v /\ 0 <= v <= n * D1 - 2 ^ (j + 1021).
Proof.
  intros Hk Hn Hj Hlo Hhi. pose proof D1_pos as HD. pose proof pow1022_pos.
  assert (Hn53 : n < 2 ^ 53).
  { eapply Z.le_lt_trans; [apply Hhi|]. apply Z.pow_lt_mono_r; lia. }
  assert (Ej : D1 = 2 ^ (53 - j) * 2 ^ (j + 1021))
    by (rewrite D1_split, <- !Z.pow_add_r by lia; f_equal; lia).
  assert (Hp : 0 < 2 ^ (j + 1021)) by (apply Z.pow_pos_nonneg; lia).
  rewrite d_of_Z_exact by lia. unfold unit52, dmul.
  apply rnd_bounds; try lia.
  - exists 0, 0. lia.
  - exists (n * 2 ^ (53 - j) - 1), (j + 1021). split_and!; [|lia|].
    + rewrite Ej. ring.
    + assert (n * 2 ^ (53 - j) <= 2 ^ 53); [|].
      * replace 53 with (j + (53 - j)) at 2 by lia. rewrite Z.pow_add_r by lia.
        apply Z.mul_le_mono_nonneg_r; [apply Z.pow_nonneg; lia|lia].
      * assert (0 < 2 ^ (53 - j)) by (apply Z.pow_pos_nonneg; lia). nia.
  - apply Z.lt_le_trans with (n * D1); [lia|]. apply Z.lt_le_incl, D1_mul_lt.
    eapply Z.lt_trans; [apply Hn53|]. by apply Z.pow_lt_mono_r.
  - replace (k * 2 ^ 1022 * (n * D1)) with (k * n * 2 ^ 1022 * D1) by ring.
    apply Z.mul_le_mono_nonneg_r; [lia|].
    assert (Hq : 2 ^ (j + 1021) <= n * 2 ^ 1022).
    { destruct (Z.eq_dec j 0) as [->|].
      { transitivity (1 * 2 ^ 1022); [|apply Z.mul_le_mono_nonneg_r; lia].
        rewrite Z.mul_1_l. by apply Z.pow_le_mono_r. }
      replace (j + 1021) with ((j - 1) + 1022) by lia. rewrite Z.pow_add_r by lia.
      apply Z.mul_le_mono_nonneg_r; lia. }
    rewrite D1_split. assert ((k + 1) * n <= 2 ^ 52 * n) by nia. nia.
Qed.

Lemma log_bracket n : 0 < n -> exists j, 0 <= j /\ 2 ^ (j - 1) < n /\ n <= 2 ^ j.
Proof.
  intros Hn. destruct (Z.eq_dec n 1) as [->|]; [by exists 0|].
  exists (Z.log2_up n). pose proof (Z.log2_up_spec n ltac:(lia)).
  pose proof (Z.log2_up_nonneg n). rewrite Z.sub_1_r. lia.
Qed.

Lemma bracket_le n j k : 0 < n -> 0 <= j -> 0 <= k -> 2 ^ (j - 1) < n -> n <= 2 ^ k -> j <= k.
Proof.
  intros Hn Hj Hk H1 H2. destruct (Z.le_gt_cases j k) as [?|Hlt]; [done|].
  assert (2 ^ k <= 2 ^ (j - 1)) by (apply Z.pow_le_mono_r; lia). lia.
Qed.

(** The exact sum [a + p] is at least [a] and below [a + n]; the rounded sum is
    at most [a + n], and below it when [a + n] has as many bits as [n]. *)
Lemma uniform_sum_bound a n v :
  0 <= a -> 0 < n -> a + n < 2 ^ 33 -> 0 <= v <= n * D1 ->
  exists w, dadd (d_of_Z a) (Fin v) = Fin w /\ a * D1 <= w <= (a + n) * D1.
Proof.
  intros Ha Hn Hs Hv. pose proof D1_pos.
  rewrite d_of_Z_exact by lia. unfold dadd.
  apply rnd_bounds; try lia; try (apply representable_int; lia).
  apply D1_mul_lt. eapply Z.lt_trans; [apply Hs|]. by apply Z.pow_lt_mono_r.
Qed.

Lemma uniform_sum_bound_tight a n v j :
  0 <= a -> 0 < n -> 0 <= j <= 32 -> a + n <= 2 ^ j -> 0 <= v <= n * D1 - 2 ^ (j + 1021) ->
  exists w, dadd (d_of_Z a) (Fin v) = Fin w /\ a * D1 <= w /\ w < (a + n) * D1.
Proof.
  intros Ha Hn Hj Hs Hv. pose proof D1_pos.
  assert (2 ^ j <= 2 ^ 32) by (apply Z.pow_le_mono_r; lia).
  assert (Ej : D1 = 2 ^ (53 - j) * 2 ^ (j + 1021))
    by (rewrite D1_split, <- !Z.pow_add_r by lia; f_equal; lia).
  assert (Hp : 0 < 2 ^ (j + 1021)) by (apply Z.pow_pos_nonneg; lia).
  assert (Hq : 0 < 2 ^ (53 - j)) by (apply Z.pow_pos_nonneg; lia).
  rewrite d_of_Z_exact by lia. unfold dadd.
  destruct (rnd_bounds (a * D1 + v) 1 (a * D1) ((a + n) * D1 - 2 ^ (j + 1021)))
    as (w & -> & Hw); try lia; try (apply representable_int; lia); try nia.
  - exists ((a + n) * 2 ^ (53 - j) - 1), (j + 1021). split_and!; [rewrite Ej; ring|lia|].
    assert ((a + n) * 2 ^ (53 - j) <= 2 ^ 53); [|nia].
    replace 53 with (j + (53 - j)) at 2 by lia. rewrite Z.pow_add_r by lia. nia.
  - apply Z.lt_trans with ((a + n) * D1); [lia|]. apply D1_mul_lt.
    apply Z.le_lt_trans with (2 ^ 32); [lia|]. by apply Z.pow_lt_mono_r.
  - eexists; split; [done|]. lia.
Qed.

(** The computation of [sb_rand_uniform], up to its final conversion. *)
Lemma uniform_unfold a b s :
  0 <= a <= b -> b <= UINT32_MAX ->
  exists k, 0 <= k < 2 ^ 52 /\ k = Z.shiftr (xoroshiro_next s).1 12 /\
    sb_rand_uniform a b s =
      match d_to_u32 (dadd (d_of_Z a) (dmul (unit52 k) (d_of_Z (u32 (b - a + 1))))) with
      | Some r => Some (r, next_state s)
      | None => None
      end.
Proof.
  intros Ha Hb. destruct (uniform_double_spec s) as (k & Hk & Ek & E). exists k. split_and!; [lia..|done|].
  unfold sb_rand_uniform, rbind, rcast. rewrite E, u32_add_l. done.
Qed.

Lemma uniform_product a b k :
  0 <= k < 2 ^ 52 -> 0 <= a <= b -> b < UINT32_MAX ->
  exists v j, dmul (unit52 k) (d_of_Z (u32 (b - a + 1))) = Fin v /\
    0 <= j <= 32 /\ 2 ^ (j - 1) < b - a + 1 <= 2 ^ j /\
    0 <= v <= (b - a + 1) * D1 - 2 ^ (j + 1021).
Proof.
  intros Hk Ha Hb. rewrite u32_small by (zify_u; lia).
  destruct (log_bracket (b - a + 1)) as (j & Hj & Hlo & Hhi); [lia|].
  assert (j <= 32) by (apply (bracket_le (b - a + 1)); zify_u; lia).
  destruct (unit_mul_bound k (b - a + 1) j) as (v & E & Hv); try lia.
  exists v, j. done.
Qed.

(** No rounding reaches the end of the range when [b + 1] needs no more bits than
    the size of the range. *)
Lemma uniform_within a b j s :
  0 <= a <= b -> b < UINT32_MAX -> 0 <= j -> 2 ^ (j - 1) < b - a + 1 -> b + 1 <= 2 ^ j ->
  exists r, sb_rand_uniform a b s = Some (r, next_state s) /\ a <= r <= b.
Proof.
  intros Ha Hb Hj Hlo Hhi. destruct (uniform_unfold a b s) as (k & Hk & _ & E); [lia..|].
  destruct (uniform_product a b k) as (v & j' & Ev & Hj' & Hbr & Hv); [lia..|].
  rewrite E, Ev. clear E Ev. pose proof D1_pos.
  assert (0 < 2 ^ (j' + 1021)) by (apply Z.pow_pos_nonneg; lia).
  assert (j = j') as -> by (apply Z.le_antisymm; apply (bracket_le (b - a + 1)); lia).
  destruct (uniform_sum_bound_tight a (b - a + 1) v j') as (w & -> & Hw1 & Hw2); try lia.
  destruct (d_to_int_between 0 UINT32_MAX w a b) as (r & Er & Hr); try (zify_u; lia).
  unfold d_to_u32. rewrite Er. by exists r.
Qed.

(** The full range always yields 0, because its size wraps to 0. *)
Lemma uniform_full s : sb_rand_uniform 0 UINT32_MAX s = Some (0, next_state s).
Proof.
  destruct (uniform_unfold 0 UINT32_MAX s) as (k & Hk & _ & E); [zify_u; lia..|].
  rewrite E. change (u32 (UINT32_MAX - 0 + 1)) with 0. rewrite d_of_Z_exact by lia.
  unfold unit52, dmul, dadd, rnd, rv. rewrite Z.mul_0_l, Z.mul_0_r. reflexivity.
Qed.

Lemma uniform_from_zero b s :
  is_u32 b -> exists r, sb_rand_uniform 0 b s = Some (r, next_state s) /\ 0 <= r <= b.
Proof.
  intros Hb. destruct (Z.eq_dec b UINT32_MAX) as [->|Hne].
  - exists 0. split; [apply uniform_full|zify_u; lia].
  - destruct (log_bracket (b + 1)) as (j & Hj & Hlo & Hhi); [zify_u; lia|].
    apply (uniform_within 0 b j s); zify_u; lia.
Qed.

(** ** The permutation of the unique sequence *)

Fixpoint no_odd_divisor (n d : Z) (fuel : nat) : bool :=
  match fuel with
  | O => true
  | S fuel => if n mod d =? 0 then false else no_odd_divisor n (d + 2) fuel
  end.

Lemma no_odd_divisor_spec n d fuel i :
  no_odd_divisor n d fuel = true -> 0 <= i < Z.of_nat fuel -> n mod (d + 2 * i) <> 0.
Proof.
  revert d i. induction fuel as [|fuel IH]; intros d i H Hi; [lia|]. cbn [no_odd_divisor] in H.
  destruct (n mod d =? 0) eqn:E; [done|]. apply Z.eqb_neq in E.
  destruct (Z.eq_dec i 0) as [->|]; [by rewrite Z.mul_0_r, Z.add_0_r|].
  replace (d + 2 * i) with (d + 2 + 2 * (i - 1)) by ring. apply IH; [done|lia].
Qed.

Lemma prime_no_divisor : no_odd_divisor prime 3 (Z.to_nat 32768) = true.
Proof. vm_compute. reflexivity. Qed.

Lemma prime_small_factor m : 1 < m <= 65536 -> prime mod m <> 0.
Proof.
  intros Hm Hmod. destruct (Z.Even_or_Odd m) as [[i ->]|[i ->]].
  - apply Z.mod_divide in Hmod as [q Hq]; [|lia]. unfold prime in Hq. lia.
  - assert (1 <= i) by lia.
    apply (no_odd_divisor_spec _ _ _ (i - 1) prime_no_divisor); [rewrite Z2Nat.id by lia; lia|].
    replace (3 + 2 * (i - 1)) with (2 * i + 1) by ring. done.
Qed.

Lemma prime_prime : Z.prime prime.
Proof.
  split; [done|]. intros m Hm [q Hq].
  assert (Hq1 : 1 < q) by (unfold prime in *; nia).
  assert (Hmin : m <= 65536 \/ q <= 65536) by (unfold prime in *; nia).
  destruct Hmin.
  - apply (prime_small_factor m); [lia|]. rewrite Hq. apply Z.mod_mul. lia.
  - apply (prime_small_factor q); [lia|]. rewrite Hq, Z.mul_comm. apply Z.mod_mul. lia.
Qed.

(** -1 is not a square modulo [prime], which is 3 modulo 4. *)
Definition half : Z := 2147483645.

Lemma prime_half : prime = 2 * half + 1.
Proof. done. Qed.

Lemma half_odd : Z.Odd half.
Proof. by exists 1073741822. Qed.

Lemma square_half x : x mod prime <> 0 -> (x * x) ^ half mod prime = 1.
Proof.
  intros Hx. rewrite <- Z.pow_2_r, <- Z.pow_mul_r by (unfold half; lia).
  replace (2 * half) with (prime - 1) by done. by apply Z.fermat_nz; [apply prime_prime|].
Qed.

Lemma half_nonneg : 0 <= half.
Proof. done. Qed.
Lemma prime_pos : 0 < prime.
Proof. done. Qed.

Lemma opp_pow_odd w : (- w) ^ half = - w ^ half.
Proof. apply Z.pow_opp_odd, half_odd. Qed.

#[local] Opaque half.

Lemma sum_of_squares x y : (x * x + y * y) mod prime = 0 -> x mod prime = 0.
Proof.
  intros H. destruct (Z.eq_dec (x mod prime) 0) as [?|Hx]; [done|exfalso].
  pose proof prime_pos as HP.
  assert (E : (y * y) mod prime = (- (x * x)) mod prime).
  { replace (- (x * x)) with (y * y - (x * x + y * y)) by ring.
    rewrite Zminus_mod, H, Z.sub_0_r. symmetry. apply Z.mod_mod. lia. }
  assert (Hy : y mod prime <> 0).
  { intros Hy. apply Hx.
    assert (Hd : (prime | x * x)).
    { apply Z.mod_divide in H; [|lia]. apply Z.mod_divide in Hy; [|lia].
      replace (x * x) with (x * x + y * y - y * y) by ring.
      apply Z.divide_sub_r; [done|by apply Z.divide_mul_l]. }
    apply Z.divide_prime_mul in Hd; [|apply prime_prime].
    apply Z.mod_divide; [lia|tauto]. }
  pose proof (square_half x Hx) as E1. pose proof (square_half y Hy) as E2.
  rewrite <- Z.mod_pow_l, E, Z.mod_pow_l, opp_pow_odd in E2.
  assert (E3 : ((x * x) ^ half + - (x * x) ^ half) mod prime = (1 + 1) mod prime)
    by (rewrite Zplus_mod, E1, E2; done).
  rewrite Z.add_opp_diag_r in E3. done.
Qed.

Lemma square_eq x y : (x * x) mod prime = (y * y) mod prime -> (prime | x - y) \/ (prime | x + y).
Proof.
  intros E. apply Z.divide_prime_mul; [apply prime_prime|].
  apply Z.mod_divide; [done|]. replace ((x - y) * (x + y)) with (x * x - y * y) by ring.
  rewrite Zminus_mod, E, Z.sub_diag. done.
Qed.

Lemma square_nonzero x : 0 < x < prime -> 0 < (x * x) mod prime.
Proof.
  intros Hx. pose proof (Z.mod_pos_bound (x * x) prime prime_pos).
  destruct (Z.eq_dec ((x * x) mod prime) 0) as [E|]; [exfalso|lia].
  apply Z.mod_divide in E; [|done]. apply Z.divide_prime_mul in E; [|apply prime_prime].
  assert (Hd : (prime | x)) by tauto. apply Z.divide_pos_le in Hd; lia.
Qed.

Lemma permute_cases x :
  is_u32 x ->
  (prime <= x /\ rand_unique_permute x = x) \/
  (0 <= x <= half /\ rand_unique_permute x = (x * x) mod prime) \/
  (half < x < prime /\ rand_unique_permute x = prime - (x * x) mod prime /\
   0 < (x * x) mod prime < prime).
Proof.
  intros Hx. unfold rand_unique_permute.
  assert (Eh : prime / 2 = half) by done. rewrite Eh.
  destruct (prime <=? x) eqn:E1; bool_to_prop; [by left|right].
  assert (Hsq : is_u64 (x * x)) by (zify_u; unfold prime in *; nia).
  rewrite u64_small by done. pose proof prime_half.
  pose proof (Z.mod_pos_bound (x * x) prime prime_pos).
  destruct (x <=? half) eqn:E2; bool_to_prop; [left|right]; (split; [zify_u; lia|]); [done|].
  pose proof (square_nonzero x ltac:(pose proof half_nonneg; lia)).
  rewrite u32_small by (zify_u; unfold prime in *; lia). lia.
Qed.

Lemma permute_range x : is_u32 x -> is_u32 (rand_unique_permute x).
Proof.
  intros Hx. pose proof (Z.mod_pos_bound (x * x) prime prime_pos) as Hm.
  destruct (permute_cases x Hx) as [[_ ->]|[[_ ->]|(_ & -> & ?)]]; [done|..];
    zify_u; unfold prime in *; lia.
Qed.

Lemma divide_small d z : (d | z) -> - d < z < d -> z = 0.
Proof. intros [q ->] H. assert (q = 0) by nia. lia. Qed.

Lemma permute_inj x y :
  is_u32 x -> is_u32 y -> rand_unique_permute x = rand_unique_permute y -> x = y.
Proof.
  intros Hx Hy. pose proof (Z.mod_pos_bound (x * x) prime prime_pos).
  pose proof (Z.mod_pos_bound (y * y) prime prime_pos). pose proof prime_half. pose proof half_nonneg.
  assert (Hcross : forall a b, 0 <= a -> half < b < prime ->
    (a * a) mod prime <> prime - (b * b) mod prime).
  { intros a b Ha Hb E. assert (Hs : (b * b + a * a) mod prime = 0).
    { rewrite Zplus_mod, E. replace (_ + _) with prime by lia. done. }
    apply sum_of_squares in Hs. rewrite Z.mod_small in Hs by lia. lia. }
  destruct (permute_cases x Hx) as [[? ->]|[[? ->]|(? & -> & ?)]],
    (permute_cases y Hy) as [[? ->]|[[? ->]|(? & -> & ?)]]; intros E; try lia.
  - destruct (square_eq x y E) as [Hd|Hd]; apply divide_small in Hd; lia.
  - exfalso. apply (Hcross x y); lia.
  - exfalso. apply (Hcross y x); lia.
  - destruct (square_eq x y ltac:(lia)) as [Hd|Hd]; [apply divide_small in Hd; lia|].
    pose proof (Z.divide_sub_r _ _ prime Hd (Z.divide_refl prime)) as Hd'.
    apply divide_small in Hd'; lia.
Qed.

(** ** The unique sequence *)

Definition unique_nth (u : unique_state) (k : Z) : Z :=
  rand_unique_permute
    (Z.lxor (u32 (rand_unique_permute (u32 (rand_unique_index u + k)) + rand_unique_offset u))
            0x5bf03635).

Lemma unique_run_nth n u :
  is_u32 (rand_unique_index u) ->
  unique_run n u = map (fun i => unique_nth u (Z.of_nat i)) (seq 0 n).
Proof.
  revert u. induction n as [|n IH]; intros [i o] Hi; [done|].
  cbn [unique_run seq map]. unfold sb_rand_unique. cbn [rand_unique_index rand_unique_offset] in *.
  rewrite IH by apply u32_range. f_equal.
  - unfold unique_nth. cbn [rand_unique_index rand_unique_offset].
    change (Z.of_nat 0) with 0. rewrite Z.add_0_r. by rewrite (u32_small i).
  - rewrite <- seq_shift, map_map. apply map_ext. intros k. unfold unique_nth.
    cbn [rand_unique_index rand_unique_offset]. rewrite u32_add_l. do 6 f_equal. lia.
Qed.

Lemma lxor_u32 x y : is_u32 x -> is_u32 y -> is_u32 (Z.lxor x y).
Proof. intros. by apply (lxor_bound 32). Qed.

Lemma unique_nth_range u k : is_u32 (unique_nth u k).
Proof. apply permute_range, lxor_u32; [apply u32_range|done]. Qed.

Lemma unique_nth_inj u i j :
  is_u32 (rand_unique_index u) -> 0 <= i < 2 ^ 32 -> 0 <= j < 2 ^ 32 ->
  unique_nth u i = unique_nth u j -> i = j.
Proof.
  intros Hu Hi Hj E. unfold unique_nth in E.
  apply permute_inj in E; [|apply lxor_u32; [apply u32_range|done]..].
  apply (f_equal (fun z => Z.lxor z 0x5bf03635)) in E.
  rewrite !Z.lxor_assoc, Z.lxor_nilpotent, !Z.lxor_0_r in E.
  assert (E' : rand_unique_permute (u32 (rand_unique_index u + i))
               = rand_unique_permute (u32 (rand_unique_index u + j))).
  { pose proof (permute_range _ (u32_range (rand_unique_index u + i))).
    pose proof (permute_range _ (u32_range (rand_unique_index u + j))). ulia. }
  apply permute_inj in E'; [|apply u32_range..]. ulia.
Qed.

(** ** The rejection loop *)

Section zipfian_facts.
Context (log exp log1p expm1 : dbl -> dbl).

Lemma zipfian_attempt_range n e sp x1 hn s k s' :
  1 <= n -> zipfian_attempt log exp log1p expm1 n e sp x1 hn s = Some (inl k, s') -> 1 <= k <= n.
Proof.
  intros Hn H. unfold zipfian_attempt, rbind, rcast, rret in H.
  destruct (sb_rand_uniform_double s) as [[r s1]|]; [|done]. cbv zeta in H.
  destruct (d_to_u32 _) as [k0|]; [|done].
  match type of H with context [if ?a || ?b then _ else _] => destruct (a || b) end; [|done].
  injection H as <- _. destruct (k0 <? 1) eqn:E1; [lia|].
  destruct (n <? k0) eqn:E2; bool_to_prop; lia.
Qed.

Lemma zipfian_loop_range fuel n e sp x1 hn s k s' :
  1 <= n -> zipfian_loop log exp log1p expm1 fuel n e sp x1 hn s = Some (inl k, s') -> 1 <= k <= n.
Proof.
  intros Hn. revert s. induction fuel as [|fuel IH]; intros s; [done|].
  cbn [zipfian_loop]. unfold rbind.
  destruct (zipfian_attempt _ _ _ _ _ _ _ _ _ s) as [[[k'|] t]|] eqn:E; [|apply IH|done].
  intros [= <- <-]. by eapply zipfian_attempt_range.
Qed.

(** Once the loop has returned, more iterations change nothing; and it returns
    in the iteration whose attempt accepts. *)
Lemma zipfian_loop_mono fuel fuel' n e sp x1 hn s k s' :
  (fuel <= fuel')%nat ->
  zipfian_loop log exp log1p expm1 fuel n e sp x1 hn s = Some (inl k, s') ->
  zipfian_loop log exp log1p expm1 fuel' n e sp x1 hn s = Some (inl k, s').
Proof.
  revert fuel' s. induction fuel as [|fuel IH]; intros [|fuel'] s Hf; try done; [lia|].
  cbn [zipfian_loop]. unfold rbind.
  destruct (zipfian_attempt _ _ _ _ _ _ _ _ _ s) as [[[k'|] t]|]; [done| |done].
  apply IH. lia.
Qed.

Lemma zipfian_loop_next fuel n e sp x1 hn s t r :
  zipfian_loop log exp log1p expm1 fuel n e sp x1 hn s = Some (inr tt, t) ->
  zipfian_attempt log exp log1p expm1 n e sp x1 hn t = r ->
  zipfian_loop log exp log1p expm1 (S fuel) n e sp x1 hn s = r.
Proof.
  revert s. induction fuel as [|fuel IH]; intros s H E.
  - injection H as ->. cbn [zipfian_loop]. unfold rbind. rewrite E.
    by destruct r as [[[k|[]] t']|].
  - cbn [zipfian_loop] in H. unfold rbind in H.
    change (zipfian_loop log exp log1p expm1 (S (S fuel)) n e sp x1 hn s)
      with (rbind (zipfian_attempt log exp log1p expm1 n e sp x1 hn)
        (fun r => match r with inl k => rret (inl k)
                  | inr _ => zipfian_loop log exp log1p expm1 (S fuel) n e sp x1 hn end) s).
    unfold rbind.
    destruct (zipfian_attempt _ _ _ _ _ _ _ _ _ s) as [[[k'|] t']|]; [done| |done].
    by apply IH.
Qed.
End zipfian_facts.

(** ** Properties *)

(** [sb_rand_uniform(a, b)] is always defined below UINT32_MAX, advances the
    generator by one step and returns a number of [a .. b + 1]; it is at most
    [b] as the header promises when [b + 1] needs no more bits than the size of
    the range, in particular when [a] is 0. *)
Theorem sb_rand_uniform_range (a b : Z) (s : Xoroshiro.state) :
  0 <= a <= b -> b < UINT32_MAX ->
  exists r, sb_rand_uniform a b s = Some (r, next_state s) /\ a <= r <= b + 1 /\
    (a = 0 -> r <= b) /\
    (forall j, 0 <= j -> 2 ^ (j - 1) < b - a + 1 -> b + 1 <= 2 ^ j -> r <= b).
Proof.
  intros Ha Hb. destruct (log_bracket (b - a + 1)) as (j & Hj & Hlo & Hhi); [lia|].
  assert (Htight : forall j', 0 <= j' -> 2 ^ (j' - 1) < b - a + 1 -> b + 1 <= 2 ^ j' -> j' = j).
  { intros j' Hj' H1 H2. apply Z.le_antisymm; apply (bracket_le (b - a + 1)); lia. }
  destruct (Z.le_gt_cases (b + 1) (2 ^ j)) as [Hle|Hgt].
  - destruct (uniform_within a b j s) as (r & E & Hr); [done..|]. exists r. split_and!; try done; intros; lia.
  - destruct (uniform_unfold a b s) as (k & Hk & _ & E); [lia..|].
    destruct (uniform_product a b k) as (v & i & Ev & _ & Hbr & Hv); [lia..|].
    rewrite E, Ev. clear E Ev. pose proof D1_pos.
    assert (0 <= 2 ^ (i + 1021)) by (apply Z.pow_nonneg; lia).
    destruct (uniform_sum_bound a (b - a + 1) v) as (w & -> & Hw); try (zify_u; lia).
    destruct (d_to_int_between 0 UINT32_MAX w a (b + 1)) as (r & Er & Hr); try (zify_u; lia).
    unfold d_to_u32. rewrite Er. exists r. split_and!; try done; try lia.
    intros j' Hj' H1 H2. rewrite (Htight j' Hj' H1 H2) in H2. lia.
Qed.

Lemma sb_rand_uniform_range_witness :
  exists r, sb_rand_uniform 48 57 (1, 2) = Some (r, next_state (1, 2)) /\ 48 <= r <= 57 + 1 /\
    (48 = 0 -> r <= 57) /\
    (forall j, 0 <= j -> 2 ^ (j - 1) < 57 - 48 + 1 -> 57 + 1 <= 2 ^ j -> r <= 57).
Proof. apply sb_rand_uniform_range; [lia|zify_u; lia]. Defined.

(** The bound [b + 1] is reached: a draw of 'a'..'z', as [sb_rand_str] makes
    for '@', can return the character after 'z', and the full range 0..UINT32_MAX
    always returns 0, because the size of the range wraps to 0. *)
Theorem sb_rand_uniform_exceeds :
  (exists s, sb_rand_uniform 97 122 s = Some (123, next_state s)) /\
  (exists s s', sb_rand_str "@" s = Some ("{"%string, s')) /\
  (forall s, sb_rand_uniform 0 UINT32_MAX s = Some (0, next_state s)).
Proof.
  split_and!.
  - exists (2 ^ 64 - 1, 0). vm_compute. reflexivity.
  - exists (2 ^ 64 - 1, 0). eexists. vm_compute. reflexivity.
  - apply uniform_full.
Qed.

(** C33: any 2^32 successive results of [sb_rand_unique], from any seeds and
    whichever threads make the calls, are pairwise different 32-bit numbers. *)
Theorem sb_rand_unique_distinct (index offset : Z) (n : nat) :
  is_u32 index -> is_u32 offset -> Z.of_nat n <= 2 ^ 32 ->
  NoDup (unique_run n (rand_unique_seed index offset)) /\
  Forall is_u32 (unique_run n (rand_unique_seed index offset)) /\
  length (unique_run n (rand_unique_seed index offset)) = n.
Proof.
  intros Hi Ho Hn.
  assert (Hu : is_u32 (rand_unique_index (rand_unique_seed index offset)))
    by apply permute_range, u32_range.
  rewrite unique_run_nth by done. split_and!.
  - apply NoDup_fmap_2_strong; [|apply NoDup_seq]. intros i j Hi' Hj' E.
    apply elem_of_seq in Hi', Hj'. apply unique_nth_inj in E; lia || done.
  - apply Forall_map, Forall_forall. intros. apply unique_nth_range.
  - by rewrite length_map, length_seq.
Qed.

Lemma sb_rand_unique_distinct_witness :
  NoDup (unique_run 4 (rand_unique_seed 7 9)) /\
  Forall is_u32 (unique_run 4 (rand_unique_seed 7 9)) /\
  length (unique_run 4 (rand_unique_seed 7 9)) = 4%nat.
Proof. apply sb_rand_unique_distinct; zify_u; lia. Defined.

(** --rand-type=gaussian cannot work: the iteration count is read from
    "rand-spec-iter", an option that no component registers, so [rand_iter] is 0
    and every draw converts 0 * infinity, a NaN, to an integer. *)
Theorem sb_rand_gaussian_undefined (log exp log1p expm1 : dbl -> dbl) (strtod : string -> dbl)
    (random : nat -> Z) (options : list option_t) (g : rand_conf) (s s' : Xoroshiro.state)
    (u : unique_state) (a b : Z) :
  find_option options "rand-spec-iter" = None ->
  sb_rand_init log exp log1p expm1 strtod random options = InitOk g s u ->
  rand_iter g = 0 /\ sb_rand_gaussian g a b s' = None.
Proof.
  intros Hfind H. unfold sb_rand_init, with_int in H.
  assert (E : sb_get_value_int options "rand-spec-iter" = Ret 0)
    by (unfold sb_get_value_int, get_opt; by rewrite Hfind).
  rewrite E in H. repeat (case_match; try discriminate H). simplify_eq/=.
  split; [done|]. unfold sb_rand_gaussian, rbind, rcast. cbn [rand_iter rand_iter_mult].
  by vm_compute.
Qed.

(** The program's own options, as [sb_rand_register] leaves them. *)
Definition registered_options : list option_t := fst (sb_rand_register (fun _ => None) []).

Lemma sb_rand_gaussian_undefined_witness :
  exists g s u,
    sb_rand_init (fun _ => Fin 0) (fun _ => Fin 0) (fun _ => Fin 0) (fun _ => Fin 0)
      (fun _ => Fin 0) (fun _ => 5) registered_options = InitOk g s u /\
    rand_iter g = 0 /\ sb_rand_gaussian g 1 100 (1, 2) = None.
Proof.
  eexists _, _, _. split; [vm_compute; reflexivity|].
  eapply (sb_rand_gaussian_undefined (fun _ => Fin 0) (fun _ => Fin 0) (fun _ => Fin 0)
    (fun _ => Fin 0) (fun _ => Fin 0) (fun _ => 5) registered_options); vm_compute; reflexivity.
Defined.

(** A number drawn with the Zipfian distribution is in [a .. b], whatever
    the mathematical library returns; the result does not depend on the number
    of iterations allowed once it is enough, and it is enough as soon as one
    attempt accepts. *)
Theorem sb_rand_zipfian_range (log exp log1p expm1 : dbl -> dbl) (g : rand_conf) (a b : Z) :
  0 <= a <= b -> b <= UINT32_MAX -> b - a < UINT32_MAX ->
  (forall fuel s r s', sb_rand_zipfian log exp log1p expm1 fuel g a b s = Some (inl r, s') ->
     a <= r <= b /\
     forall fuel', (fuel <= fuel')%nat ->
       sb_rand_zipfian log exp log1p expm1 fuel' g a b s = Some (inl r, s')) /\
  (forall fuel s t k s', sb_rand_zipfian log exp log1p expm1 fuel g a b s = Some (inr tt, t) ->
     zipfian_attempt log exp log1p expm1 (b - a + 1) (zipf_exp g) (zipf_s g) (zipf_hIntegralX1 g)
       (hIntegral log expm1 (dadd (d_of_Z (b - a + 1)) (d_const 5 10)) (zipf_exp g)) t
       = Some (inl k, s') ->
     sb_rand_zipfian log exp log1p expm1 (S fuel) g a b s = Some (inl (a + k - 1), s')).
Proof.
  intros Ha Hb Hn. unfold sb_rand_zipfian, sb_rand_zipfian_int, rbind, rret.
  rewrite (u32_add_l (b - a) 1), (u32_small (b - a + 1)) by (zify_u; lia).
  assert (Hr : forall k, 1 <= k <= b - a + 1 -> u32 (u32 (a + k) - 1) = a + k - 1)
    by (intros; rewrite u32_sub_l, u32_small by (zify_u; lia); lia).
  split.
  - intros fuel s r s' H.
    destruct (zipfian_loop _ _ _ _ fuel _ _ _ _ _ s) as [[[k|] t]|] eqn:E; [|done..].
    injection H as <- <-. assert (1 <= k <= b - a + 1) by (eapply zipfian_loop_range; [|exact E]; lia).
    rewrite Hr by lia. split; [lia|]. intros fuel' Hf.
    rewrite (zipfian_loop_mono _ _ _ _ _ _ _ _ _ _ _ _ _ _ Hf E). by rewrite Hr by lia.
  - intros fuel s t k s' H E.
    destruct (zipfian_loop _ _ _ _ fuel _ _ _ _ _ s) as [[[k'|[]] t']|] eqn:El; [done| |done].
    injection H as ->. rewrite (zipfian_loop_next _ _ _ _ _ _ _ _ _ _ _ _ _ El E).
    rewrite Hr by (eapply zipfian_attempt_range; [|exact E]; lia). done.
Qed.

Definition example_conf : rand_conf :=
  RandConf 0 DIST_TYPE_ZIPFIAN 0 0 0 (Fin 0) (Fin 0) (Fin 0) (Fin 0) (Fin 0) (Fin 0) (Fin 0) (Fin 0) (Fin 0).

Lemma sb_rand_zipfian_range_witness :
  exists r s', sb_rand_zipfian (fun _ => Fin 0) (fun _ => d_of_Z 3) (fun _ => Fin 0) (fun _ => Fin 0)
     1 example_conf 10 20 (1, 2) = Some (inl r, s') /\ 10 <= r <= 20.
Proof.
  eexists _, _. split; [vm_compute; reflexivity|].
  eapply (sb_rand_zipfian_range (fun _ => Fin 0) (fun _ => d_of_Z 3) (fun _ => Fin 0) (fun _ => Fin 0)
    example_conf 10 20 ltac:(lia) ltac:(zify_u; lia) ltac:(zify_u; lia)) with (fuel := 1%nat) (s := (1, 2)).
  vm_compute; reflexivity.
Defined.
