(* ===== verification/Counter.v ===== *)
(** * Event counters ([sb_counter.c], [sb_counter.h]) and alignment macros
    ([sb_util.h])

    Each thread owns one row of 64-bit counters, so an update (a load and a
    store of the thread's own row) is one step here.  The intermediate and the
    cumulative reports are differences against two separate snapshots; the
    theorem is that each of them returns, modulo 2^64, what the worker threads
    added since the previous report of the same kind. *)

From S2P Require Import Prelude.

#[local] Set Warnings "-clear-no-such-hyp".

(** ** Alignment *)

Definition SB_ALIGN (n m : Z) : Z := Z.land (u64 (n + (m - 1))) (u64 (Z.lnot (m - 1))).
Definition SB_PAD (n m : Z) : Z := u64 (SB_ALIGN n m - n).

(** ** State *)

Inductive sb_counter_type_t :=
| SB_CNT_OTHER | SB_CNT_READ | SB_CNT_WRITE | SB_CNT_EVENT | SB_CNT_ERROR | SB_CNT_RECONNECT
| SB_CNT_BYTES_READ | SB_CNT_BYTES_WRITTEN.

Definition SB_CNT_MAX : nat := 8.

Definition cnt_index (t : sb_counter_type_t) : nat :=
  match t with
  | SB_CNT_OTHER => 0 | SB_CNT_READ => 1 | SB_CNT_WRITE => 2 | SB_CNT_EVENT => 3
  | SB_CNT_ERROR => 4 | SB_CNT_RECONNECT => 5 | SB_CNT_BYTES_READ => 6 | SB_CNT_BYTES_WRITTEN => 7
  end.

Definition CK_MD_CACHELINE : Z := 64.

(** The number of cells of a [sb_counters_t]. *)
Definition COUNTERS_SIZE : nat := Z.to_nat (SB_ALIGN (Z.of_nat SB_CNT_MAX * 8) CK_MD_CACHELINE / 8).

Definition zero_counters : list Z := replicate COUNTERS_SIZE 0.

Record counters := Counters {
  sb_counters : list (list Z);
  last_intermediate_counters : list Z;
  last_cumulative_counters : list Z
}.

(** [rows] is the number of rows allocated: the threads and the background
    thread's extra row. *)
Definition sb_counters_init (rows : nat) : counters :=
  Counters (replicate rows zero_counters) zero_counters zero_counters.

(** A cell; reading outside the allocated rows is undefined in C, and not done
    by the operations below when [threads] rows exist. *)
Definition cell (row : list Z) (t : nat) : Z := nth t row 0.

Definition sb_counter_val (c : counters) (thread_id t : nat) : Z :=
  cell (nth thread_id (sb_counters c) []) t.

Definition set_cells (c : counters) (m : list (list Z)) : counters :=
  Counters m (last_intermediate_counters c) (last_cumulative_counters c).

Definition sb_counter_add (c : counters) (thread_id : nat) (t : sb_counter_type_t) (val : Z)
    : counters :=
  set_cells c (alter (fun row => <[cnt_index t := u64 (sb_counter_val c thread_id (cnt_index t) + val)]> row)
                     thread_id (sb_counters c)).

Definition sb_counter_inc (c : counters) (thread_id : nat) (t : sb_counter_type_t) : counters :=
  sb_counter_add c thread_id t 1.

(** ** Reports *)

Definition sb_counters_merge (threads : nat) (c : counters) (dst : list Z) : list Z :=
  for_upto SB_CNT_MAX (fun t dst =>
    for_upto threads (fun i dst => alter (fun x => u64 (x + sb_counter_val c i t)) t dst) dst) dst.

Definition sb_counters_checkpoint (dst cp : list Z) : list Z * list Z :=
  for_upto SB_CNT_MAX (fun i '(dst, cp) =>
    let tmp := cell cp i in
    let cp := <[i := cell dst i]> cp in
    (<[i := u64 (cell dst i - tmp)]> dst, cp)) (dst, cp).

(** Both return the values written to [val]. *)
Definition sb_counters_agg_intermediate (threads : nat) (c : counters) : list Z * counters :=
  let val := sb_counters_merge threads c zero_counters in
  let '(val, cp) := sb_counters_checkpoint val (last_intermediate_counters c) in
  (val, Counters (sb_counters c) cp (last_cumulative_counters c)).

Definition sb_counters_agg_cumulative (threads : nat) (c : counters) : list Z * counters :=
  let val := sb_counters_merge threads c zero_counters in
  let '(val, cp) := sb_counters_checkpoint val (last_cumulative_counters c) in
  (val, Counters (sb_counters c) (last_intermediate_counters c) cp).

(** ** Executions: the updates of all threads interleaved with the reports *)

Inductive action :=
| Add (thread_id : nat) (t : sb_counter_type_t) (val : Z)
| Intermediate
| Cumulative.

Definition run_action (threads : nat) (c : counters) (a : action) : counters :=
  match a with
  | Add i t v => sb_counter_add c i t v
  | Intermediate => snd (sb_counters_agg_intermediate threads c)
  | Cumulative => snd (sb_counters_agg_cumulative threads c)
  end.

Definition run (threads : nat) (c : counters) (l : list action) : counters :=
  foldl (run_action threads) c l.

#[export] Instance sb_counter_type_eq_dec : EqDecision sb_counter_type_t.
Proof. solve_decision. Defined.

(** Specification: what the worker threads added to [t]. *)
Definition added (threads : nat) (t : sb_counter_type_t) (l : list action) : Z :=
  sumZ (map (fun a => match a with
                      | Add i t' v => if bool_decide ((i < threads)%nat /\ t' = t) then v else 0
                      | _ => 0
                      end) l).

(** The actions after the last one that satisfies [stop]. *)
Fixpoint since (stop : action -> bool) (l : list action) : list action :=
  match l with
  | [] => []
  | a :: l => if existsb stop l then since stop l
              else if stop a then l else a :: l
  end.

Definition is_intermediate (a : action) : bool := match a with Intermediate => true | _ => false end.
Definition is_cumulative (a : action) : bool := match a with Cumulative => true | _ => false end.

(** ** Lemmas *)

Lemma COUNTERS_SIZE_eq : COUNTERS_SIZE = 8%nat.
Proof. reflexivity. Qed.

Lemma cell_insert row i j x : (i < length row)%nat -> cell (<[i:=x]> row) j = if decide (i = j) then x else cell row j.
Proof.
  intros Hi. unfold cell. rewrite !nth_lookup.
  destruct (decide (i = j)) as [->|Hne].
  - by rewrite list_lookup_insert_eq.
  - by rewrite list_lookup_insert_ne.
Qed.

Lemma cnt_index_lt t : (cnt_index t < SB_CNT_MAX)%nat.
Proof. destruct t; cbn; unfold SB_CNT_MAX; lia. Qed.

Lemma cnt_index_inj t t' : cnt_index t = cnt_index t' -> t = t'.
Proof. by destruct t, t'. Qed.

Definition total (threads : nat) (c : counters) (t : nat) : Z :=
  sumZ (map (fun i => sb_counter_val c i t) (seq 0 threads)).

Lemma total_S n c t : total (S n) c t = total n c t + sb_counter_val c n t.
Proof. unfold total. rewrite seq_S, map_app, sumZ_app. cbn. lia. Qed.

Lemma merge_inner threads c t dst :
  (t < length dst)%nat -> is_u64 (cell dst t) ->
  for_upto threads (fun i dst => alter (fun x => u64 (x + sb_counter_val c i t)) t dst) dst
  = <[t := u64 (cell dst t + total threads c t)]> dst.
Proof.
  intros Ht Hu. induction threads as [|n IH].
  - unfold total. cbn [seq map sumZ foldr]. rewrite Z.add_0_r, u64_small by done.
    unfold for_upto. cbn. symmetry. apply list_insert_id.
    unfold cell. rewrite nth_lookup. destruct (lookup_lt_is_Some_2 dst t Ht) as [x ->]. done.
  - rewrite for_upto_S, IH, total_S.
    rewrite !list_insert_alter, list_alter_alter_eq, <- !list_insert_alter. unfold compose.
    rewrite list_insert_alter. apply list_alter_ext; [|done]. intros _ _.
    rewrite u64_add_l. f_equal. lia.
Qed.

Lemma merge_prefix threads c k :
  (k <= 8)%nat ->
  let dst := for_upto k (fun t dst =>
    for_upto threads (fun i dst => alter (fun x => u64 (x + sb_counter_val c i t)) t dst) dst)
    zero_counters in
  length dst = 8%nat /\
  forall t, (t < 8)%nat -> cell dst t = if (t <? k)%nat then u64 (total threads c t) else 0.
Proof.
  induction k as [|k IH]; intros Hk dst; subst dst.
  - split; [done|]. intros t Ht. do 8 (destruct t as [|t]; [done|]). lia.
  - rewrite for_upto_S. destruct (IH ltac:(lia)) as [Hl Hc]. clear IH.
    pose proof (Hc k ltac:(lia)) as Hck. rewrite Nat.ltb_irrefl in Hck.
    rewrite merge_inner by (rewrite ?Hl, ?Hck; lia || (zify_u; lia)).
    split; [by rewrite length_insert|]. intros t Ht. rewrite cell_insert by lia.
    rewrite Hck, Z.add_0_l. destruct (decide (k = t)) as [->|].
    + by rewrite (proj2 (Nat.ltb_lt t (S t))) by lia.
    + rewrite Hc by done. destruct (Nat.ltb_spec t k), (Nat.ltb_spec t (S k)); done || lia.
Qed.

Lemma merge_spec threads c :
  length (sb_counters_merge threads c zero_counters) = 8%nat /\
  forall t, (t < 8)%nat ->
    cell (sb_counters_merge threads c zero_counters) t = u64 (total threads c t).
Proof.
  destruct (merge_prefix threads c 8 (le_n _)) as [Hl Hc]. split; [exact Hl|].
  intros t Ht. transitivity (if (t <? 8)%nat then u64 (total threads c t) else 0).
  - exact (Hc t Ht).
  - by rewrite (proj2 (Nat.ltb_lt t 8) Ht).
Qed.

Lemma checkpoint_prefix dst cp k :
  length dst = 8%nat -> length cp = 8%nat -> (k <= 8)%nat ->
  let r := for_upto k (fun i '(dst, cp) =>
    let tmp := cell cp i in
    let cp := <[i := cell dst i]> cp in
    (<[i := u64 (cell dst i - tmp)]> dst, cp)) (dst, cp) in
  length r.1 = 8%nat /\ length r.2 = 8%nat /\
  forall t, (t < 8)%nat -> (cell r.1 t, cell r.2 t) =
    if (t <? k)%nat then (u64 (cell dst t - cell cp t), cell dst t) else (cell dst t, cell cp t).
Proof.
  intros Hd Hc. induction k as [|k IH]; intros Hk r; subst r.
  - split_and!; [done..|]. intros t Ht. done.
  - rewrite for_upto_S. specialize (IH ltac:(lia)). cbv zeta in IH.
    destruct (for_upto k _ _) as [d p]. cbv zeta beta iota. cbn [fst snd] in *. destruct IH as (Hld & Hlp & IH).
    split_and!; [by rewrite length_insert..|]. intros t Ht.
    pose proof (IH k Hk) as Hik. rewrite Nat.ltb_irrefl in Hik. injection Hik as Ek1 Ek2.
    rewrite !cell_insert by lia. rewrite Ek1, Ek2. destruct (decide (k = t)) as [->|].
    + by rewrite (proj2 (Nat.ltb_lt t (S t))) by lia.
    + rewrite (IH t Ht). destruct (Nat.ltb_spec t k), (Nat.ltb_spec t (S k)); done || lia.
Qed.

Lemma checkpoint_spec dst cp dst' cp' :
  length dst = 8%nat -> length cp = 8%nat -> sb_counters_checkpoint dst cp = (dst', cp') ->
  length dst' = 8%nat /\ length cp' = 8%nat /\
  forall t, (t < 8)%nat -> cell dst' t = u64 (cell dst t - cell cp t) /\ cell cp' t = cell dst t.
Proof.
  intros Hd Hc E. pose proof (checkpoint_prefix dst cp 8 Hd Hc (le_n _)) as H.
  change (let r := sb_counters_checkpoint dst cp in length r.1 = 8%nat /\ length r.2 = 8%nat /\
    forall t, (t < 8)%nat -> (cell r.1 t, cell r.2 t) =
      if (t <? 8)%nat then (u64 (cell dst t - cell cp t), cell dst t) else (cell dst t, cell cp t)) in H.
  rewrite E in H. destruct H as (H1 & H2 & H). cbn [fst snd] in *.
  split_and!; [done..|]. intros t Ht. specialize (H t Ht).
  rewrite (proj2 (Nat.ltb_lt t 8) Ht) in H. by simplify_eq.
Qed.

(** Well-formed state: full rows of 64-bit cells, one for each worker at least. *)
Definition wf (threads : nat) (c : counters) : Prop :=
  (threads <= length (sb_counters c))%nat /\
  Forall (fun row => length row = 8%nat) (sb_counters c) /\
  length (last_intermediate_counters c) = 8%nat /\ length (last_cumulative_counters c) = 8%nat.

Lemma wf_row threads c i row : wf threads c -> sb_counters c !! i = Some row -> length row = 8%nat.
Proof. intros (_ & Hr & _) H. exact (Forall_lookup_1 _ _ _ _ Hr H). Qed.

Lemma add_val threads c i t v j t' :
  wf threads c -> (i < length (sb_counters c))%nat ->
  sb_counter_val (sb_counter_add c i t v) j t' =
  if decide (j = i /\ t' = cnt_index t) then u64 (sb_counter_val c i t' + v) else sb_counter_val c j t'.
Proof.
  intros Hwf Hi. unfold sb_counter_add, sb_counter_val at 1, set_cells. cbn [sb_counters].
  rewrite (nth_lookup _ j). destruct (decide (j = i)) as [->|Hne].
  - rewrite list_lookup_alter_eq. destruct (lookup_lt_is_Some_2 _ _ Hi) as [row Hrow].
    rewrite Hrow. cbn [from_option fmap option_fmap option_map default id].
    assert (Hv : nth i (sb_counters c) [] = row) by (rewrite nth_lookup, Hrow; done).
    pose proof (cnt_index_lt t). unfold SB_CNT_MAX in *.
    rewrite cell_insert by (rewrite (wf_row _ _ _ _ Hwf Hrow); done).
    unfold sb_counter_val. rewrite Hv.
    destruct (decide (cnt_index t = t')) as [<-|], (decide _); try done; naive_solver.
  - rewrite list_lookup_alter_ne by done. rewrite decide_False by tauto.
    unfold sb_counter_val. by rewrite nth_lookup.
Qed.

Lemma add_wf threads c i t v : wf threads c -> wf threads (sb_counter_add c i t v).
Proof.
  intros (H1 & H2 & H3). unfold wf, sb_counter_add, set_cells. cbn.
  split_and!; [by rewrite length_alter| |apply H3..].
  apply Forall_alter; [done|]. intros row _ Hr. by rewrite length_insert.
Qed.

Lemma add_total threads c i t v t' :
  wf threads c -> (i < length (sb_counters c))%nat ->
  u64 (total threads (sb_counter_add c i t v) t') =
  u64 (total threads c t' + if bool_decide ((i < threads)%nat /\ cnt_index t = t') then v else 0).
Proof.
  intros Hwf Hi. unfold total.
  rewrite (sumZ_map_update (fun j => sb_counter_val c j t') _ threads i).
  - rewrite (add_val threads) by done.
    destruct (Nat.ltb_spec i threads); [|rewrite bool_decide_eq_false_2 by lia; done].
    destruct (decide (cnt_index t = t')) as [E|Hne].
    + rewrite decide_True, bool_decide_eq_true_2 by done.
      rewrite <- u64_add_r, u64_sub_l, u64_add_r. f_equal. lia.
    + rewrite decide_False, bool_decide_eq_false_2 by naive_solver. f_equal. lia.
  - intros j Hj. rewrite (add_val threads) by done. rewrite decide_False by tauto. done.
Qed.

(** ** The reports as differences *)

Lemma agg_intermediate_spec threads c :
  wf threads c ->
  let '(val, c') := sb_counters_agg_intermediate threads c in
  wf threads c' /\ sb_counters c' = sb_counters c /\
  last_cumulative_counters c' = last_cumulative_counters c /\
  forall t, (t < 8)%nat ->
    cell val t = u64 (total threads c t - cell (last_intermediate_counters c) t) /\
    cell (last_intermediate_counters c') t = u64 (total threads c t).
Proof.
  intros (H1 & H2 & H3 & H4). unfold sb_counters_agg_intermediate.
  destruct (sb_counters_checkpoint _ _) as [val cp] eqn:E.
  destruct (merge_spec threads c) as [Hl Hm].
  destruct (checkpoint_spec _ _ _ _ Hl H3 E) as (? & ? & Hc).
  split_and!; [done..|]. intros t Ht.
  cbn [last_intermediate_counters last_cumulative_counters]. destruct (Hc t Ht) as [-> ->].
  rewrite Hm, u64_sub_l by done. done.
Qed.

Lemma agg_cumulative_spec threads c :
  wf threads c ->
  let '(val, c') := sb_counters_agg_cumulative threads c in
  wf threads c' /\ sb_counters c' = sb_counters c /\
  last_intermediate_counters c' = last_intermediate_counters c /\
  forall t, (t < 8)%nat ->
    cell val t = u64 (total threads c t - cell (last_cumulative_counters c) t) /\
    cell (last_cumulative_counters c') t = u64 (total threads c t).
Proof.
  intros (H1 & H2 & H3 & H4). unfold sb_counters_agg_cumulative.
  destruct (sb_counters_checkpoint _ _) as [val cp] eqn:E.
  destruct (merge_spec threads c) as [Hl Hm].
  destruct (checkpoint_spec _ _ _ _ Hl H4 E) as (? & ? & Hc).
  split_and!; [done..|]. intros t Ht.
  cbn [last_intermediate_counters last_cumulative_counters]. destruct (Hc t Ht) as [-> ->].
  rewrite Hm, u64_sub_l by done. done.
Qed.

Lemma since_snoc stop l a : since stop (l ++ [a]) = if stop a then [] else since stop l ++ [a].
Proof.
  induction l as [|b l IH]; cbn [app since existsb].
  - by destruct (stop a).
  - rewrite IH, existsb_app. cbn [existsb]. rewrite orb_false_r.
    destruct (stop a), (existsb stop l), (stop b); done.
Qed.

Lemma added_snoc threads t l a : added threads t (l ++ [a]) = added threads t l + added threads t [a].
Proof. unfold added. by rewrite map_app, sumZ_app. Qed.

(** The invariant of every execution. *)
Definition accounts (threads : nat) (l : list action) (c : counters) : Prop :=
  wf threads c /\ forall t,
    u64 (total threads c (cnt_index t)) = u64 (added threads t l) /\
    cell (last_intermediate_counters c) (cnt_index t)
      = u64 (added threads t l - added threads t (since is_intermediate l)) /\
    cell (last_cumulative_counters c) (cnt_index t)
      = u64 (added threads t l - added threads t (since is_cumulative l)).

Definition in_rows (rows : nat) (a : action) : Prop :=
  match a with Add i _ _ => (i < rows)%nat | _ => True end.

Lemma total_cells n c c' t : sb_counters c' = sb_counters c -> total n c' t = total n c t.
Proof. intros E. unfold total, sb_counter_val. by rewrite E. Qed.

Lemma init_accounts threads rows : (threads <= rows)%nat -> accounts threads [] (sb_counters_init rows).
Proof.
  intros Hr. split.
  - split_and!; [|by apply Forall_replicate|done..]. cbn [sb_counters sb_counters_init].
    by rewrite length_replicate.
  - intros t. cbn [since added map sumZ foldr]. split_and!; [|by destruct t..].
    f_equal. unfold total.
    induction threads as [|n IH]; [done|]. rewrite seq_S, map_app, sumZ_app, IH by lia.
    cbn [map]. rewrite sumZ_cons. unfold sb_counter_val, sb_counters_init. cbn [sb_counters].
    rewrite nth_lookup, lookup_replicate_2 by lia. by destruct t.
Qed.

Lemma rows_preserved threads c a : length (sb_counters (run_action threads c a)) = length (sb_counters c).
Proof.
  destruct a; cbn [run_action].
  - apply length_alter.
  - unfold sb_counters_agg_intermediate. by destruct (sb_counters_checkpoint _ _).
  - unfold sb_counters_agg_cumulative. by destruct (sb_counters_checkpoint _ _).
Qed.

Lemma action_accounts threads l c a :
  in_rows (length (sb_counters c)) a -> accounts threads l c ->
  accounts threads (l ++ [a]) (run_action threads c a).
Proof.
  intros Hin [Hwf H]. destruct a as [i t v| |]; cbn [run_action in_rows] in *.
  - split; [by apply add_wf|]. intros t'. destruct (H t') as (Ht & Hi & Hc).
    rewrite add_total, <- u64_add_l, Ht, u64_add_l by done.
    rewrite !since_snoc, !added_snoc. cbn [is_intermediate is_cumulative].
    assert (E : added threads t' [Add i t v] =
      if bool_decide ((i < threads)%nat /\ cnt_index t = cnt_index t') then v else 0).
    { unfold added. cbn [map]. rewrite sumZ_cons, Z.add_0_r.
      erewrite bool_decide_ext; [done|]. split; intros [? E]; split; try done;
        [by rewrite E|by apply cnt_index_inj]. }
    rewrite E. split_and!; [done|..]; cbn [sb_counter_add set_cells last_intermediate_counters
      last_cumulative_counters]; rewrite ?Hi, ?Hc, added_snoc, E; f_equal; lia.
  - pose proof (agg_intermediate_spec threads c Hwf) as Hs.
    destruct (sb_counters_agg_intermediate threads c) as [val c']. cbn [snd].
    destruct Hs as (Hwf' & Ec & El & Hs). split; [done|]. intros t.
    destruct (H t) as (Ht & Hi & Hc). destruct (Hs (cnt_index t) (cnt_index_lt t)) as [_ Hl].
    rewrite (total_cells _ _ _ _ Ec), El, Hl, !since_snoc, !added_snoc, Hc, Ht.
    cbn [is_intermediate is_cumulative]. rewrite added_snoc.
    assert (E0 : added threads t [Intermediate] = 0) by done.
    assert (E1 : added threads t [] = 0) by done.
    rewrite E0, E1. split_and!; f_equal; lia.
  - pose proof (agg_cumulative_spec threads c Hwf) as Hs.
    destruct (sb_counters_agg_cumulative threads c) as [val c']. cbn [snd].
    destruct Hs as (Hwf' & Ec & El & Hs). split; [done|]. intros t.
    destruct (H t) as (Ht & Hi & Hc). destruct (Hs (cnt_index t) (cnt_index_lt t)) as [_ Hl].
    rewrite (total_cells _ _ _ _ Ec), El, Hl, !since_snoc, !added_snoc, Hi, Ht.
    cbn [is_intermediate is_cumulative]. rewrite added_snoc.
    assert (E0 : added threads t [Cumulative] = 0) by done.
    assert (E1 : added threads t [] = 0) by done.
    rewrite E0, E1. split_and!; f_equal; lia.
Qed.

Lemma run_accounts threads rows l :
  (threads <= rows)%nat -> Forall (in_rows rows) l ->
  accounts threads l (run threads (sb_counters_init rows) l) /\
  length (sb_counters (run threads (sb_counters_init rows) l)) = rows.
Proof.
  intros Hr. induction l as [|a l IH] using rev_ind; intros Hl.
  - split; [by apply init_accounts|apply length_replicate].
  - apply Forall_app in Hl as [Hl Ha]. destruct (IH Hl) as [Hacc Hlen].
    apply Forall_cons in Ha as [Ha _]. unfold run in *. rewrite foldl_app. cbn [foldl].
    split; [apply action_accounts; [rewrite Hlen; exact Ha|done]|by rewrite rows_preserved].
Qed.

(** ** Properties *)

(** C10: whatever updates and reports the threads interleave, an intermediate
    report returns for every counter what the worker threads added to it since
    the previous intermediate report, and a cumulative report what they added
    since the previous cumulative one, modulo 2^64: no update is lost or counted
    twice, the two kinds of report do not disturb each other, and the background
    thread's row is not counted. *)
Theorem sb_counters_reports_exact (threads rows : nat) (l : list action) (t : sb_counter_type_t) :
  (threads <= rows)%nat -> Forall (in_rows rows) l ->
  let c := run threads (sb_counters_init rows) l in
  cell (fst (sb_counters_agg_intermediate threads c)) (cnt_index t)
    = u64 (added threads t (since is_intermediate l)) /\
  cell (fst (sb_counters_agg_cumulative threads c)) (cnt_index t)
    = u64 (added threads t (since is_cumulative l)).
Proof.
  intros Hr Hl c. destruct (run_accounts threads rows l Hr Hl) as [[Hwf H] _]. fold c in Hwf, H.
  destruct (H t) as (Ht & Hi & Hc).
  pose proof (agg_intermediate_spec threads c Hwf) as Hsi.
  pose proof (agg_cumulative_spec threads c Hwf) as Hsc.
  destruct (sb_counters_agg_intermediate threads c), (sb_counters_agg_cumulative threads c).
  destruct Hsi as (_ & _ & _ & Hsi), Hsc as (_ & _ & _ & Hsc). cbn [fst].
  destruct (Hsi _ (cnt_index_lt t)) as [-> _], (Hsc _ (cnt_index_lt t)) as [-> _].
  rewrite Hi, Hc, !u64_sub_r.
  split; rewrite <- u64_sub_l, Ht, u64_sub_l; f_equal; lia.
Qed.

Definition example_trace : list action :=
  [Add 0 SB_CNT_EVENT 5; Intermediate; Add 1 SB_CNT_EVENT 7; Cumulative; Add 2 SB_CNT_EVENT 100;
   Add 0 SB_CNT_EVENT 1].

Lemma sb_counters_reports_exact_witness :
  let c := run 2 (sb_counters_init 3) example_trace in
  cell (fst (sb_counters_agg_intermediate 2 c)) 3 = 8 /\
  cell (fst (sb_counters_agg_cumulative 2 c)) 3 = 1.
Proof.
  apply (sb_counters_reports_exact 2 3 example_trace SB_CNT_EVENT); [lia|].
  repeat constructor; cbn; lia.
Defined.

(** [SB_ALIGN] rounds up to the smallest multiple of a power of two and
    [SB_PAD] is the distance to it, as long as the rounding does not overflow;
    so the size of a row of counters is a multiple of the cache line. *)
Theorem sb_align_spec (n k : Z) :
  0 <= n -> 0 <= k < 64 -> n + (2 ^ k - 1) < 2 ^ 64 ->
  (2 ^ k | SB_ALIGN n (2 ^ k)) /\ n <= SB_ALIGN n (2 ^ k) < n + 2 ^ k /\
  (forall z, (2 ^ k | z) -> n <= z -> SB_ALIGN n (2 ^ k) <= z) /\
  n + SB_PAD n (2 ^ k) = SB_ALIGN n (2 ^ k).
Proof.
  intros Hn Hk Hov. assert (Hp : 0 < 2 ^ k) by (apply Z.pow_pos_nonneg; lia).
  assert (Hu : is_u64 (n + (2 ^ k - 1))) by (zify_u; lia).
  assert (E : SB_ALIGN n (2 ^ k) = n + (2 ^ k - 1) - (n + (2 ^ k - 1)) mod 2 ^ k).
  { unfold SB_ALIGN. rewrite (u64_small (n + _)), land_u64_r by done. apply land_lnot_ones. lia. }
  pose proof (Z.div_mod (n + (2 ^ k - 1)) (2 ^ k) ltac:(lia)) as Hdm.
  pose proof (Z.mod_pos_bound (n + (2 ^ k - 1)) (2 ^ k) Hp) as Hmb.
  unfold SB_PAD. rewrite !E. split_and!; [|lia|lia| |].
  - exists ((n + (2 ^ k - 1)) / 2 ^ k). lia.
  - intros z [q ->] Hz. assert ((n + (2 ^ k - 1)) / 2 ^ k < q + 1) by (apply Z.div_lt_upper_bound; lia). nia.
  - rewrite u64_small by (zify_u; lia). lia.
Qed.

Lemma sb_align_spec_witness :
  (2 ^ 6 | SB_ALIGN 65 (2 ^ 6)) /\ 65 <= SB_ALIGN 65 (2 ^ 6) < 65 + 2 ^ 6 /\
  (forall z, (2 ^ 6 | z) -> 65 <= z -> SB_ALIGN 65 (2 ^ 6) <= z) /\
  65 + SB_PAD 65 (2 ^ 6) = SB_ALIGN 65 (2 ^ 6).
Proof. apply sb_align_spec; lia. Defined.
