(* ===== verification/Timer.v ===== *)
(** * Timers ([sb_timer.c], [sb_timer.h])

    A timer measures intervals and keeps the number, the sum, the minimum and
    the maximum of them.  Its abstract specification is the list of the
    intervals recorded since the last reset ([recorded]): every operation is
    shown to implement its counterpart on that list, merging being
    concatenation.  The clock is an argument of the operations that read it. *)

From S2P Require Import Prelude Double.

Definition NS_PER_SEC : Z := 1000000000.
Definition MS_PER_SEC : Z := 1000.
Definition NS_PER_MS : Z := NS_PER_SEC / MS_PER_SEC.

(** ** Time values *)

Record timespec := Timespec { tv_sec : Z; tv_nsec : Z }.

Definition SEC2NS (sec : Z) : Z := u64 (u64 sec * NS_PER_SEC).
Definition NS2SEC (nsec : Z) : dbl := ddiv (d_of_Z nsec) (d_of_Z NS_PER_SEC).
Definition NS2MS (nsec : Z) : dbl := ddiv (d_of_Z nsec) (d_of_Z NS_PER_MS).
Definition MS2NS (sec : Z) : Z := u64 (sec * NS_PER_MS).
Definition TIMESPEC_DIFF (a b : timespec) : Z :=
  u64 (SEC2NS (tv_sec a - tv_sec b) + (tv_nsec a - tv_nsec b)).

Definition sb_nanosleep (ns : Z) : timespec := Timespec (ns / NS_PER_SEC) (ns mod NS_PER_SEC).

(** ** The timer *)

Record sb_timer_t := Timer {
  time_start : timespec;
  time_end : timespec;
  events : Z;
  queue_time : Z;
  min_time : Z;
  max_time : Z;
  sum_time : Z
}.

Definition zero_time : timespec := Timespec 0 0.

Definition sb_timer_reset (t : sb_timer_t) : sb_timer_t :=
  Timer (time_start t) (time_end t) 0 0 UINT64_MAX 0 0.

Definition sb_timer_init (t : sb_timer_t) : sb_timer_t :=
  sb_timer_reset (Timer zero_time zero_time (events t) (queue_time t) (min_time t) (max_time t) (sum_time t)).

Definition sb_timer_start (now : timespec) (t : sb_timer_t) : sb_timer_t :=
  Timer now (time_end t) (events t) (queue_time t) (min_time t) (max_time t) (sum_time t).

(** Returns the elapsed time and the updated timer. *)
Definition sb_timer_stop (now : timespec) (t : sb_timer_t) : Z * sb_timer_t :=
  let elapsed := u64 (TIMESPEC_DIFF now (time_start t) + queue_time t) in
  (elapsed,
   Timer (time_start t) now (u64 (events t + 1)) (queue_time t)
     (if elapsed <? min_time t then elapsed else min_time t)
     (if max_time t <? elapsed then elapsed else max_time t)
     (u64 (sum_time t + elapsed))).

Definition sb_timer_value (now : timespec) (t : sb_timer_t) : Z :=
  u64 (TIMESPEC_DIFF now (time_start t) + queue_time t).

Definition sb_timer_copy (from : sb_timer_t) : sb_timer_t := from.

Definition sb_timer_running (t : sb_timer_t) : bool := 0 <? TIMESPEC_DIFF (time_start t) (time_end t).

Definition sb_timer_current (now : timespec) (t : sb_timer_t) : Z * sb_timer_t :=
  (TIMESPEC_DIFF now (time_start t),
   Timer now (time_end t) (events t) (queue_time t) (min_time t) (max_time t) (sum_time t)).

(** Returns the copy stored in [old] and the reset timer. *)
Definition sb_timer_checkpoint (t : sb_timer_t) : sb_timer_t * sb_timer_t := (t, sb_timer_reset t).

Definition sb_timer_avg (t : sb_timer_t) : Z := if events t =? 0 then 0 else sum_time t / events t.
Definition sb_timer_sum (t : sb_timer_t) : Z := sum_time t.
Definition sb_timer_min (t : sb_timer_t) : Z := if events t =? 0 then 0 else min_time t.
Definition sb_timer_max (t : sb_timer_t) : Z := max_time t.

Definition sb_timer_merge (t1 t2 : sb_timer_t) : sb_timer_t :=
  Timer zero_time zero_time
    (u64 (events t1 + events t2)) 0
    (if min_time t1 <? min_time t2 then min_time t1 else min_time t2)
    (if max_time t2 <? max_time t1 then max_time t1 else max_time t2)
    (u64 (sum_time t1 + sum_time t2)).

(** ** Specification: the recorded intervals *)

Definition list_min (l : list Z) : Z := foldr Z.min UINT64_MAX l.
Definition list_max (l : list Z) : Z := foldr Z.max 0 l.

Definition recorded (t : sb_timer_t) (l : list Z) : Prop :=
  Forall is_u64 l /\
  events t = u64 (Z.of_nat (length l)) /\ sum_time t = u64 (sumZ l) /\
  min_time t = list_min l /\ max_time t = list_max l.

Lemma list_min_app l1 l2 : list_min (l1 ++ l2) = Z.min (list_min l1) (list_min l2).
Proof.
  induction l1 as [|x l1 IH]; [|simpl; fold (list_min (l1 ++ l2)); rewrite IH; cbn; lia].
  cbn. induction l2; cbn; lia.
Qed.

Lemma list_max_app l1 l2 : list_max (l1 ++ l2) = Z.max (list_max l1) (list_max l2).
Proof.
  induction l1 as [|x l1 IH]; [|simpl; fold (list_max (l1 ++ l2)); rewrite IH; cbn; lia].
  cbn. induction l2; cbn; lia.
Qed.

Lemma list_min_le l x : In x l -> list_min l <= x.
Proof.
  induction l as [|y l IH]; [done|]. cbn. fold (list_min l). intros [->|H]; [lia|].
  specialize (IH H). lia.
Qed.

Lemma list_max_ge l x : In x l -> x <= list_max l.
Proof.
  induction l as [|y l IH]; [done|]. cbn. fold (list_max l). intros [->|H]; [lia|].
  specialize (IH H). lia.
Qed.

Lemma sum_min_max l m M :
  (forall x, In x l -> m <= x <= M) -> m * Z.of_nat (length l) <= sumZ l <= M * Z.of_nat (length l).
Proof.
  induction l as [|x l IH]; intros H; [cbn; lia|]. cbn [length]. rewrite sumZ_cons.
  pose proof (H x (or_introl eq_refl)). destruct IH; [intros; apply H; by right|]. lia.
Qed.

Lemma recorded_app t t1 t2 l1 l2 :
  recorded t1 l1 -> recorded t2 l2 ->
  events t = u64 (events t1 + events t2) -> sum_time t = u64 (sum_time t1 + sum_time t2) ->
  min_time t = Z.min (min_time t1) (min_time t2) -> max_time t = Z.max (max_time t1) (max_time t2) ->
  recorded t (l1 ++ l2).
Proof.
  intros (F1 & E1 & S1 & m1 & M1) (F2 & E2 & S2 & m2 & M2) E S m M. split_and!.
  - by apply Forall_app.
  - rewrite E, E1, E2, u64_add_l, u64_add_r, length_app. f_equal. lia.
  - by rewrite S, S1, S2, u64_add_l, u64_add_r, sumZ_app.
  - by rewrite m, m1, m2, list_min_app.
  - by rewrite M, M1, M2, list_max_app.
Qed.

Lemma recorded_reset t : recorded (sb_timer_reset t) [].
Proof. by split_and!. Qed.

Lemma recorded_init t : recorded (sb_timer_init t) [].
Proof. by split_and!. Qed.

Lemma recorded_start now t l : recorded t l -> recorded (sb_timer_start now t) l.
Proof. done. Qed.

(** A timer that recorded one interval. *)
Lemma recorded_one e : is_u64 e -> recorded (Timer zero_time zero_time 1 0 e e e) [e].
Proof.
  intros He. split_and!; cbn; [by constructor|done|..];
    try (symmetry; rewrite ?Z.add_0_r; by apply u64_small); zify_u; lia.
Qed.

Lemma recorded_stop now t l :
  recorded t l -> recorded (sb_timer_stop now t).2 (l ++ [(sb_timer_stop now t).1]).
Proof.
  intros H. apply (recorded_app _ t _ l [_] H (recorded_one _ (u64_range _))); cbn; try done.
  - destruct (_ <? _) eqn:E; bool_to_prop; lia.
  - destruct (_ <? _) eqn:E; bool_to_prop; lia.
Qed.

Lemma recorded_merge t1 t2 l1 l2 :
  recorded t1 l1 -> recorded t2 l2 -> recorded (sb_timer_merge t1 t2) (l1 ++ l2).
Proof.
  intros H1 H2. apply (recorded_app _ t1 t2 l1 l2 H1 H2); cbn; try done.
  - destruct (_ <? _) eqn:E; bool_to_prop; lia.
  - destruct (_ <? _) eqn:E; bool_to_prop; lia.
Qed.

(** ** Executions of one timer *)

Inductive timer_op :=
| Start (now : timespec)
| Stop (now : timespec)
| SetQueueTime (q : Z)
| Checkpoint.

Definition set_queue_time (q : Z) (t : sb_timer_t) : sb_timer_t :=
  Timer (time_start t) (time_end t) (events t) q (min_time t) (max_time t) (sum_time t).

(** The timer, and the intervals recorded since the last checkpoint. *)
Definition timer_step (s : sb_timer_t * list Z) (o : timer_op) : sb_timer_t * list Z :=
  let '(t, l) := s in
  match o with
  | Start now => (sb_timer_start now t, l)
  | Stop now => let '(e, t') := sb_timer_stop now t in (t', l ++ [e])
  | SetQueueTime q => (set_queue_time q t, l)
  | Checkpoint => (snd (sb_timer_checkpoint t), [])
  end.

Definition timer_run (t : sb_timer_t) (ops : list timer_op) : sb_timer_t * list Z :=
  foldl timer_step (sb_timer_init t, []) ops.

Lemma timer_run_recorded t ops : recorded (timer_run t ops).1 (timer_run t ops).2.
Proof.
  unfold timer_run. assert (H : recorded (sb_timer_init t, @nil Z).1 (sb_timer_init t, @nil Z).2)
    by apply recorded_init.
  revert H. generalize (sb_timer_init t, @nil Z). induction ops as [|o ops IH]; intros s H; [done|].
  cbn [foldl]. apply IH. destruct s as [t' l], o; cbn [timer_step fst snd] in *; try done.
  pose proof (recorded_stop now t' l H) as Hs. by destruct (sb_timer_stop now t').
Qed.

(** ** Properties *)

Definition ns (x : timespec) : Z := tv_sec x * NS_PER_SEC + tv_nsec x.

Lemma timespec_diff_mod a b : TIMESPEC_DIFF a b = u64 (ns a - ns b).
Proof.
  unfold TIMESPEC_DIFF, SEC2NS. rewrite u64_add_l.
  unfold u64. rewrite <- Zplus_mod_idemp_l, Zmult_mod_idemp_l, Zplus_mod_idemp_l.
  f_equal. unfold ns. ring.
Qed.

(** The difference of two times of a monotonic clock is their distance in
    nanoseconds. *)
Theorem timespec_diff_exact (a b : timespec) :
  0 <= ns a - ns b < 2 ^ 64 ->
  TIMESPEC_DIFF a b = ns a - ns b /\
  (forall t, time_start t = b -> queue_time t = 0 ->
     fst (sb_timer_stop a t) = ns a - ns b /\ sb_timer_value a t = ns a - ns b).
Proof.
  intros H. assert (E : TIMESPEC_DIFF a b = ns a - ns b)
    by (rewrite timespec_diff_mod; by apply u64_small).
  split; [done|]. intros t Ht Hq. unfold sb_timer_stop, sb_timer_value. cbn [fst].
  rewrite Ht, Hq, E, Z.add_0_r, u64_small by done. done.
Qed.

Lemma timespec_diff_exact_witness :
  TIMESPEC_DIFF (Timespec 5 100) (Timespec 3 999999999) = 1000000101.
Proof. apply (timespec_diff_exact (Timespec 5 100) (Timespec 3 999999999)); unfold ns, NS_PER_SEC; cbn [tv_sec tv_nsec]; lia. Defined.

(** After any sequence of starts, stops and checkpoints the timer holds the
    number, the sum (both modulo 2^64), the minimum and the maximum of exactly
    the intervals stopped since the last checkpoint; merging two timers gives
    the statistics of all their intervals; and as long as the sum fits 64 bits,
    minimum <= average <= maximum. *)
Theorem timer_statistics (t t' : sb_timer_t) (ops ops' : list timer_op) :
  let s := timer_run t ops in let s' := timer_run t' ops' in
  recorded (fst s) (snd s) /\
  recorded (sb_timer_merge (fst s) (fst s')) (snd s ++ snd s') /\
  (snd s <> [] -> sumZ (snd s) < 2 ^ 64 -> Z.of_nat (length (snd s)) < 2 ^ 64 ->
   sb_timer_min (fst s) <= sb_timer_avg (fst s) <= sb_timer_max (fst s)).
Proof.
  intros s s'. pose proof (timer_run_recorded t ops) as H. pose proof (timer_run_recorded t' ops') as H'.
  fold s in H. fold s' in H'. split_and!; [done|by apply recorded_merge|].
  intros Hne Hsum Hlen. destruct H as (F & E & S & m & M). destruct s as [x l]; cbn [fst snd] in *.
  assert (Hl : 0 < Z.of_nat (length l)) by (destruct l; cbn; [done|lia]).
  assert (Hs0 : 0 <= sumZ l) by (apply sumZ_nonneg; eapply Forall_impl; [exact F|intros z [? _]; done]).
  unfold sb_timer_min, sb_timer_avg, sb_timer_max.
  rewrite u64_small in E, S by (zify_u; lia). rewrite E, S, m, M.
  rewrite (proj2 (Z.eqb_neq _ 0)) by lia.
  destruct (sum_min_max l (list_min l) (list_max l)) as [Hlo Hhi].
  { intros y Hy. split; [by apply list_min_le|by apply list_max_ge]. }
  split; [apply Z.div_le_lower_bound; lia|].
  apply Z.lt_succ_r, Z.div_lt_upper_bound; lia.
Qed.

Definition example_timer : sb_timer_t := Timer zero_time zero_time 0 0 0 0 0.
Definition example_ops : list timer_op :=
  [Start (Timespec 1 0); Stop (Timespec 1 500); Start (Timespec 2 0); Stop (Timespec 4 0)].

Lemma timer_statistics_witness :
  let s := timer_run example_timer example_ops in
  sb_timer_min (fst s) <= sb_timer_avg (fst s) <= sb_timer_max (fst s).
Proof.
  apply (timer_statistics example_timer example_timer example_ops []); [discriminate|..];
    vm_compute; reflexivity.
Defined.

(** [sb_timer_running] compares an unsigned difference with 0, so it answers
    yes for a stopped timer too, whenever the measured interval is not empty:
    the answer only tells whether the start and the end time differ. *)
Theorem timer_running_after_stop (t : sb_timer_t) (start stop : timespec) :
  0 < TIMESPEC_DIFF stop start ->
  sb_timer_running (snd (sb_timer_stop stop (sb_timer_start start t))) = true.
Proof.
  intros H. unfold sb_timer_running. cbn. apply Z.ltb_lt.
  rewrite timespec_diff_mod in *. ulia.
Qed.

Lemma timer_running_after_stop_witness :
  sb_timer_running (snd (sb_timer_stop (Timespec 7 0) (sb_timer_start (Timespec 5 0) example_timer))) = true.
Proof. apply timer_running_after_stop. vm_compute. reflexivity. Defined.
