(* ===== verification/Histogram.v ===== *)
(** * Latency histogram ([sb_histogram.c], [sb_histogram.h])

    Updates increment a bucket of one of 128 intermediate slot arrays; the
    readers move the slots into an accumulating array under the lock, cell by
    cell with atomic fetch-and-store, while updates go on.  The lock is a flag:
    an operation that needs it while it is held is [Blocked].  [log] and [exp]
    are parameters. *)

From S2P Require Import Prelude Double Xoroshiro Rand.

Definition SB_HISTOGRAM_NSLOTS : nat := 128.

Record sb_histogram_t := Histogram {
  cumulative_array : list Z;
  cumulative_nevents : Z;
  temp_array : list Z;
  interm_slots : list (list Z);
  array_size : nat;
  range_min : dbl;
  range_max : dbl;
  range_deduct : dbl;
  range_mult : dbl;
  locked : bool
}.

Inductive result (A : Type) := Done (a : A) (h : sb_histogram_t) | Blocked | Undefined.
Arguments Done {A} a h.
Arguments Blocked {A}.
Arguments Undefined {A}.

Definition cell (a : list Z) (i : nat) : Z := nth i a 0.
Definition slot_cell (slots : list (list Z)) (s i : nat) : Z := cell (nth s slots []) i.

Definition set_lock (b : bool) (h : sb_histogram_t) : sb_histogram_t :=
  Histogram (cumulative_array h) (cumulative_nevents h) (temp_array h) (interm_slots h)
    (array_size h) (range_min h) (range_max h) (range_deduct h) (range_mult h) b.
Definition set_slots (slots : list (list Z)) (h : sb_histogram_t) : sb_histogram_t :=
  Histogram (cumulative_array h) (cumulative_nevents h) (temp_array h) slots
    (array_size h) (range_min h) (range_max h) (range_deduct h) (range_mult h) (locked h).
Definition set_temp (a : list Z) (h : sb_histogram_t) : sb_histogram_t :=
  Histogram (cumulative_array h) (cumulative_nevents h) a (interm_slots h)
    (array_size h) (range_min h) (range_max h) (range_deduct h) (range_mult h) (locked h).
Definition set_cumulative (a : list Z) (n : Z) (h : sb_histogram_t) : sb_histogram_t :=
  Histogram a n (temp_array h) (interm_slots h)
    (array_size h) (range_min h) (range_max h) (range_deduct h) (range_mult h) (locked h).

(** ** Atomic cell operations *)

Definition ck_pr_inc_64 (s i : nat) (slots : list (list Z)) : list (list Z) :=
  alter (alter (fun x => u64 (x + 1)) i) s slots.

Definition ck_pr_fas_64 (s i : nat) (v : Z) (slots : list (list Z)) : Z * list (list Z) :=
  (slot_cell slots s i, alter (alter (fun _ => v) i) s slots).

(** ** Percentiles *)

(** The loop that looks for the bucket of the percentile. *)
Fixpoint pct_index (array : list Z) (nmax ncur : Z) (i : nat) : nat :=
  match array with
  | [] => i
  | x :: array =>
      let ncur := u64 (ncur + x) in
      if nmax <=? ncur then i else pct_index array nmax ncur (S i)
  end.

Definition pct_nmax (nevents : Z) (percentile : dbl) : option Z :=
  d_to_u64 (dfloor (dadd (ddiv (dmul (d_of_Z nevents) percentile) (d_of_Z 100)) (d_const 5 10))).

(** What a merge accumulates: the slots, the array and the event count. *)
Definition merge_state := (list (list Z) * list Z * Z)%type.

Definition fas_add (s i : nat) (st : merge_state) : merge_state :=
  let '(slots, array, nevents) := st in
  let '(t, slots) := ck_pr_fas_64 s i 0 slots in
  (slots, alter (fun x => u64 (x + t)) i array, u64 (nevents + t)).

Definition fas_set (s i : nat) (st : merge_state) : merge_state :=
  let '(slots, array, nevents) := st in
  let '(t, slots) := ck_pr_fas_64 s i 0 slots in
  (slots, <[i := t]> array, u64 (nevents + t)).

Section libm.
Context (log exp : dbl -> dbl).

(** [h] is the object as it was before: [sb_histogram_init] does not write
    [cumulative_nevents]. [calloc_ok] tells whether both allocations succeed. *)
Definition sb_histogram_init (calloc_ok : bool) (h : sb_histogram_t) (size : nat) (rmin rmax : dbl)
    : Z * sb_histogram_t :=
  if calloc_ok then
    let deduct := log rmin in
    (0, Histogram (replicate size 0) (cumulative_nevents h) (replicate size 0)
          (replicate SB_HISTOGRAM_NSLOTS (replicate size 0)) size rmin rmax deduct
          (ddiv (d_of_Z (u64 (Z.of_nat size - 1))) (dsub (log rmax) deduct)) false)
  else (1, h).

(** [garbage]: what [malloc] returns, when it succeeds. *)
Definition sb_histogram_new (garbage : option sb_histogram_t) (calloc_ok : bool) (size : nat)
    (rmin rmax : dbl) : option sb_histogram_t :=
  match garbage with
  | None => None
  | Some h =>
      let '(rc, h) := sb_histogram_init calloc_ok h size rmin rmax in
      if rc =? 0 then Some h else None
  end.

(** The bucket of a value, [None] when the conversion is undefined. *)
Definition bucket (h : sb_histogram_t) (value : dbl) : option nat :=
  match d_to_s64 (dfloor (dadd (dmul (dsub (log value) (range_deduct h)) (range_mult h)) (d_const 5 10))) with
  | None => None
  | Some i =>
      Some (if i <? 0 then 0%nat
            else if Z.of_nat (array_size h) <=? i then (array_size h - 1)%nat else Z.to_nat i)
  end.

Definition sb_histogram_update (h : sb_histogram_t) (value : dbl) : rand sb_histogram_t :=
  fun rng =>
    let '(x, rng) := xoroshiro_next rng in
    let slot := Z.to_nat (x mod Z.of_nat SB_HISTOGRAM_NSLOTS) in
    match bucket h value with
    | None => None
    | Some i => Some (set_slots (ck_pr_inc_64 slot i (interm_slots h)) h, rng)
    end.

Definition pct_value (h : sb_histogram_t) (i : nat) : dbl :=
  exp (dadd (ddiv (d_of_Z (Z.of_nat i)) (range_mult h)) (range_deduct h)).

Definition sb_histogram_get_pct_intermediate (h : sb_histogram_t) (percentile : dbl) : result dbl :=
  if locked h then Blocked
  else
    let size := array_size h in
    let st := for_upto size (fas_set 0) (interm_slots h, temp_array h, 0) in
    let '(slots, array, nevents) :=
      for_upto (SB_HISTOGRAM_NSLOTS - 1) (fun s st => for_upto size (fas_add (S s)) st) st in
    match pct_nmax nevents percentile with
    | None => Undefined
    | Some nmax =>
        let res := pct_value h (pct_index array nmax 0 0) in
        let cum := for_upto size (fun i a => alter (fun x => u64 (x + cell array i)) i a)
                     (cumulative_array h) in
        Done res (set_cumulative cum (u64 (cumulative_nevents h + nevents))
                   (set_temp array (set_slots slots h)))
    end.

Definition merge_intermediate_into_cumulative (h : sb_histogram_t) : sb_histogram_t :=
  let '(slots, array, nevents) :=
    for_upto SB_HISTOGRAM_NSLOTS (fun s st => for_upto (array_size h) (fas_add s) st)
      (interm_slots h, cumulative_array h, cumulative_nevents h) in
  set_cumulative array nevents (set_slots slots h).

Definition get_pct_cumulative (h : sb_histogram_t) (percentile : dbl) : option dbl :=
  match pct_nmax (cumulative_nevents h) percentile with
  | None => None
  | Some nmax => Some (pct_value h (pct_index (cumulative_array h) nmax 0 0))
  end.

Definition sb_histogram_get_pct_cumulative (h : sb_histogram_t) (percentile : dbl) : result dbl :=
  if locked h then Blocked
  else
    let h := merge_intermediate_into_cumulative h in
    match get_pct_cumulative h percentile with None => Undefined | Some r => Done r h end.

Definition sb_histogram_get_pct_checkpoint (h : sb_histogram_t) (percentile : dbl) : result dbl :=
  if locked h then Blocked
  else
    let h := merge_intermediate_into_cumulative h in
    match get_pct_cumulative h percentile with
    | None => Undefined
    | Some r => Done r (set_cumulative (replicate (array_size h) 0) 0 h)
    end.

(** One printed line: the value, the width of the bar and the count. *)
Definition print_row (h : sb_histogram_t) (maxcnt : Z) (i : nat) : list (dbl * option Z * Z) :=
  let c := cell (cumulative_array h) i in
  if c =? 0 then []
  else [(pct_value h i,
         d_to_s32 (dfloor (dadd (ddiv (dmul (d_of_Z c) (d_of_Z 40)) (d_of_Z maxcnt)) (d_const 5 10))),
         c)].

(** Returns what is printed after the heading line, [None] for nothing; the early
    return leaves the lock held. *)
Definition sb_histogram_print (h : sb_histogram_t) : result (option (list (dbl * option Z * Z))) :=
  if locked h then Blocked
  else
    let h := merge_intermediate_into_cumulative (set_lock true h) in
    let maxcnt := for_upto (array_size h)
      (fun i m => if m <? cell (cumulative_array h) i then cell (cumulative_array h) i else m) 0 in
    if maxcnt =? 0 then Done None h
    else Done (Some (flat_map (print_row h maxcnt) (seq 0 (array_size h)))) (set_lock false h).
End libm.

(** ** Interleavings of a merge with concurrent updates *)

Inductive step := Inc (s i : nat) | Fas (s i : nat).

Definition run_step (st : merge_state) (e : step) : merge_state :=
  match e with
  | Inc s i => let '(slots, array, nevents) := st in (ck_pr_inc_64 s i slots, array, nevents)
  | Fas s i => fas_add s i st
  end.

Definition is_fas (e : step) : bool := match e with Fas _ _ => true | _ => false end.

(** The cells in the order the merge visits them. *)
Definition merge_cells (size : nat) : list step :=
  flat_map (fun s => map (Fas s) (seq 0 size)) (seq 0 SB_HISTOGRAM_NSLOTS).

Definition count_inc (i : nat) (l : list step) : Z :=
  sumZ (map (fun e => match e with Inc _ j => b2z (j =? i)%nat | _ => 0 end) l).

(** The events of bucket [i] that are still in the slots. *)
Definition pending (slots : list (list Z)) (i : nat) : Z := sumZ (map (fun row => cell row i) slots).

(** ** Cells *)

Lemma cell_alter f i a j :
  (i < length a)%nat -> cell (alter f i a) j = if decide (i = j) then f (cell a i) else cell a j.
Proof.
  intros Hi. unfold cell. rewrite !nth_lookup.
  destruct (decide (i = j)) as [<-|Hne].
  - rewrite list_lookup_alter_eq. by destruct (lookup_lt_is_Some_2 a i Hi) as [x ->].
  - by rewrite list_lookup_alter_ne.
Qed.

Lemma sumZ_alter f i a :
  (i < length a)%nat -> sumZ (alter f i a) = sumZ a + (f (cell a i) - cell a i).
Proof.
  revert i. induction a as [|x a IH]; intros [|i] Hi; cbn in Hi; try lia.
  - cbn. lia.
  - change (alter f (S i) (x :: a)) with (x :: alter f i a). rewrite !sumZ_cons, IH by lia.
    unfold cell. cbn [nth]. lia.
Qed.

(** Slot arrays: 128 rows of [n] cells. *)
Definition slots_ok (n : nat) (slots : list (list Z)) : Prop :=
  length slots = SB_HISTOGRAM_NSLOTS /\ Forall (fun row => length row = n) slots.

Lemma slots_ok_row n slots s : slots_ok n slots -> (s < SB_HISTOGRAM_NSLOTS)%nat -> length (nth s slots []) = n.
Proof.
  intros [Hl Hf] Hs. rewrite nth_lookup.
  destruct (lookup_lt_is_Some_2 slots s) as [row E]; [lia|]. rewrite E.
  exact (Forall_lookup_1 _ _ _ _ Hf E).
Qed.

Lemma slots_ok_alter n slots s i f : slots_ok n slots -> slots_ok n (alter (alter f i) s slots).
Proof.
  intros [Hl Hf]. split; [by rewrite length_alter|]. apply Forall_alter; [done|].
  intros row _ Hr. by rewrite length_alter.
Qed.

Lemma slot_cell_alter n slots s i f s' j :
  slots_ok n slots -> (s < SB_HISTOGRAM_NSLOTS)%nat -> (i < n)%nat ->
  slot_cell (alter (alter f i) s slots) s' j =
  if decide (s = s' /\ i = j) then f (slot_cell slots s i) else slot_cell slots s' j.
Proof.
  intros Hok Hs Hi. pose proof (slots_ok_row n slots s Hok Hs) as Hr. unfold slot_cell.
  destruct (decide (s = s')) as [<-|Hne].
  - assert (E : nth s (alter (alter f i) s slots) [] = alter f i (nth s slots [])).
    { rewrite !nth_lookup, list_lookup_alter_eq.
      destruct (lookup_lt_is_Some_2 slots s) as [row ->]; [destruct Hok; lia|done]. }
    rewrite E, cell_alter by lia.
    destruct (decide (i = j)), (decide (s = s /\ i = j)); tauto.
  - rewrite decide_False by tauto. f_equal.
    rewrite !nth_lookup. by rewrite list_lookup_alter_ne.
Qed.

Lemma pending_alter n slots s i f j :
  slots_ok n slots -> (s < SB_HISTOGRAM_NSLOTS)%nat -> (i < n)%nat ->
  pending (alter (alter f i) s slots) j =
  pending slots j + (if decide (i = j) then f (slot_cell slots s i) - slot_cell slots s i else 0).
Proof.
  intros [Hl Hf] Hs Hi. rewrite <- Hl in Hs. clear Hl. revert s Hs.
  induction Hf as [|row slots Hr Hf IH]; intros [|s] Hs; cbn [length] in Hs; try lia.
  - change (alter (alter f i) 0%nat (row :: slots)) with (alter f i row :: slots).
    unfold pending, slot_cell. cbn [map nth]. rewrite !sumZ_cons, cell_alter by lia.
    destruct (decide (i = j)) as [->|]; lia.
  - change (alter (alter f i) (S s) (row :: slots)) with (row :: alter (alter f i) s slots).
    specialize (IH s ltac:(lia)). unfold pending, slot_cell in *. cbn [map nth].
    rewrite !sumZ_cons, IH. lia.
Qed.

(** ** Conservation of events *)

Definition state_ok (n : nat) (st : merge_state) : Prop :=
  slots_ok n st.1.1 /\ length st.1.2 = n.

Definition step_ok (n : nat) (e : step) : Prop :=
  match e with Inc s i | Fas s i => (s < SB_HISTOGRAM_NSLOTS)%nat /\ (i < n)%nat end.

Definition step_incs (i : nat) (e : step) : Z :=
  match e with Inc _ j => b2z (j =? i)%nat | Fas _ _ => 0 end.

Lemma step_conserves n st e i :
  state_ok n st -> step_ok n e ->
  state_ok n (run_step st e) /\
  u64 (cell (run_step st e).1.2 i + pending (run_step st e).1.1 i)
  = u64 (cell st.1.2 i + pending st.1.1 i + step_incs i e) /\
  u64 ((run_step st e).2 - sumZ (run_step st e).1.2) = u64 (st.2 - sumZ st.1.2).
Proof.
  destruct st as [[slots array] nev]. intros [Hok Hlen] He. cbn [fst snd] in *.
  destruct e as [s k|s k]; destruct He as [Hs Hk]; cbn [run_step fas_add ck_pr_fas_64 fst snd step_incs].
  - split; [by split; [apply slots_ok_alter|]|]. split; [|done].
    unfold ck_pr_inc_64. rewrite (pending_alter n) by done.
    destruct (decide (k = i)) as [->|Hne].
    + rewrite Nat.eqb_refl. cbn [b2z].
      replace (cell array i + (pending slots i + (u64 (slot_cell slots s i + 1) - slot_cell slots s i)))
        with (u64 (slot_cell slots s i + 1) + (cell array i + pending slots i - slot_cell slots s i)) by lia.
      rewrite u64_add_l. f_equal. lia.
    + rewrite (proj2 (Nat.eqb_neq k i)) by done. cbn [b2z]. f_equal. lia.
  - split; [split; [by apply slots_ok_alter|rewrite <- Hlen; apply length_alter]|].
    rewrite (pending_alter n), cell_alter, sumZ_alter by (done || lia).
    split.
    + destruct (decide (k = i)) as [->|]; [|f_equal; lia].
      rewrite u64_add_l. f_equal. lia.
    + rewrite u64_sub_l.
      replace (nev + slot_cell slots s k -
        (sumZ array + (u64 (cell array k + slot_cell slots s k) - cell array k)))
        with (nev + slot_cell slots s k - sumZ array + cell array k - u64 (cell array k + slot_cell slots s k)) by lia.
      rewrite u64_sub_r. f_equal. lia.
Qed.

Lemma run_conserves n l st i :
  state_ok n st -> Forall (step_ok n) l ->
  state_ok n (foldl run_step st l) /\
  u64 (cell (foldl run_step st l).1.2 i + pending (foldl run_step st l).1.1 i)
  = u64 (cell st.1.2 i + pending st.1.1 i + count_inc i l) /\
  u64 ((foldl run_step st l).2 - sumZ (foldl run_step st l).1.2) = u64 (st.2 - sumZ st.1.2).
Proof.
  intros Hst Hl. revert st Hst. induction Hl as [|e l He Hl IH]; intros st Hst.
  - split; [done|]. split; [|done]. unfold count_inc. cbn. by rewrite Z.add_0_r.
  - cbn [foldl]. destruct (step_conserves n st e i Hst He) as (H1 & H2 & H3).
    destruct (IH _ H1) as (I1 & I2 & I3). split; [done|]. rewrite I2, I3, H3. split; [|done].
    rewrite <- u64_add_l, H2, u64_add_l. unfold count_inc. cbn [map]. rewrite sumZ_cons. f_equal.
    fold (step_incs i e). destruct e; cbn [step_incs]; lia.
Qed.

(** What is left in a cell the merge has visited came after the visit. *)
Definition count_inc_at (s i : nat) (l : list step) : Z :=
  sumZ (map (fun e => match e with Inc s' j => b2z ((s' =? s) && (j =? i))%nat | _ => 0 end) l).

Lemma fas_residue n l st s i :
  state_ok n st -> Forall (step_ok n) l -> In (Fas s i) l ->
  0 <= slot_cell (foldl run_step st l).1.1 s i <= count_inc_at s i l.
Proof.
  intros Hst. induction l as [|e l IH] using rev_ind; intros Hl Hin; [done|].
  apply Forall_app in Hl as [Hl He]. apply Forall_cons in He as [He _].
  rewrite foldl_app. cbn [foldl].
  destruct (run_conserves n l st i Hst Hl) as ([Hok _] & _ & _).
  unfold count_inc_at. rewrite map_app, sumZ_app. cbn [map]. rewrite sumZ_cons, Z.add_0_r.
  fold (count_inc_at s i l).
  assert (Hpos : 0 <= count_inc_at s i l).
  { apply sumZ_nonneg, Forall_map, Forall_forall. intros [s' j|s' j] _; [|done].
    cbn. by destruct (_ && _). }
  destruct (foldl run_step st l) as [[slots array] nev]. cbn [fst snd] in *.
  destruct e as [s' j|s' j]; destruct He as [Hs Hj]; cbn [run_step fas_add ck_pr_fas_64 fst];
    unfold ck_pr_inc_64; rewrite (slot_cell_alter n) by done.
  - assert (Hin' : In (Fas s i) l)
      by (apply in_app_or in Hin as [?|[?|[]]]; [done|discriminate]).
    specialize (IH Hl Hin'). destruct (decide (s' = s /\ j = i)) as [[-> ->]|Hne].
    + rewrite !Nat.eqb_refl. cbn. pose proof (u64_range (slot_cell slots s i + 1)).
      pose proof (Z.mod_le (slot_cell slots s i + 1) (2 ^ 64)). zify_u. lia.
    + assert (b2z ((s' =? s) && (j =? i))%nat = 0) as ->; [|lia].
      destruct (Nat.eqb_spec s' s), (Nat.eqb_spec j i); try done. tauto.
  - destruct (decide _); [lia|]. rewrite Z.add_0_r. apply IH; [done|].
    apply in_app_or in Hin as [?|[E|[]]]; [done|]. injection E as -> ->. tauto.
Qed.

(** The nested loops of a merge with no concurrent update are the steps of
    [merge_cells]. *)
Lemma merge_as_steps size st :
  for_upto SB_HISTOGRAM_NSLOTS (fun s st => for_upto size (fas_add s) st) st
  = foldl run_step st (merge_cells size).
Proof.
  unfold merge_cells, for_upto. rewrite foldl_flat_map.
  generalize (seq 0 SB_HISTOGRAM_NSLOTS) as ss. intros ss. revert st.
  induction ss as [|s ss IH]; intros st; [done|]. cbn [foldl]. by rewrite foldl_map, <- IH.
Qed.

Lemma merge_cells_in size s i :
  (s < SB_HISTOGRAM_NSLOTS)%nat -> (i < size)%nat -> In (Fas s i) (merge_cells size).
Proof.
  intros Hs Hi. apply in_flat_map. exists s. split; [apply in_seq; lia|].
  apply in_map, in_seq. lia.
Qed.

Lemma merge_cells_ok size : Forall (step_ok size) (merge_cells size).
Proof.
  apply List.Forall_forall. intros e He. apply in_flat_map in He as (s & Hs & He).
  apply in_map_iff in He as (i & <- & Hi). apply in_seq in Hs, Hi. cbn. lia.
Qed.

Lemma count_inc_merge_cells size i : count_inc i (merge_cells size) = 0.
Proof.
  unfold count_inc, merge_cells. generalize (seq 0 SB_HISTOGRAM_NSLOTS) as ss.
  induction ss as [|s ss IH]; [done|]. cbn [flat_map]. rewrite map_app, sumZ_app, IH, map_map.
  by rewrite sumZ_map_zero.
Qed.

(** ** The percentile search *)

Definition prefix_sum (array : list Z) (k : nat) : Z := sumZ (take k array).

Lemma pct_index_spec array nmax ncur i0 :
  Forall (fun x => 0 <= x) array -> 0 <= ncur -> ncur + sumZ array < 2 ^ 64 ->
  nmax <= ncur + sumZ array -> array <> [] ->
  exists k, pct_index array nmax ncur i0 = (i0 + k)%nat /\ (k < length array)%nat /\
    nmax <= ncur + prefix_sum array (S k) /\
    forall j, (j < k)%nat -> ncur + prefix_sum array (S j) < nmax.
Proof.
  intros Hf. revert ncur i0. induction Hf as [|x array Hx Hf IH]; intros ncur i0 Hn Hov Hmax Hne; [done|].
  rewrite sumZ_cons in Hov, Hmax. pose proof (sumZ_nonneg _ Hf). cbn [pct_index].
  rewrite u64_small by (zify_u; lia). unfold prefix_sum in *.
  destruct (nmax <=? ncur + x) eqn:E; bool_to_prop.
  - exists 0%nat. split_and!; [lia|cbn; lia| |intros; lia].
    change (take 1 (x :: array)) with [x]. rewrite sumZ_cons. change (sumZ []) with 0. lia.
  - destruct array as [|y array']; [cbn in Hmax; lia|].
    destruct (IH (ncur + x) (S i0)) as (k & E1 & Hk & Hle & Hlt); [lia..|done|].
    exists (S k). split_and!; [rewrite E1; lia|cbn [length] in *; lia| |].
    + change (take (S (S k)) (x :: y :: array')) with (x :: take (S k) (y :: array')).
      rewrite sumZ_cons. lia.
    + intros [|j] Hj; [cbn; lia|].
      change (take (S (S j)) (x :: y :: array')) with (x :: take (S j) (y :: array')).
      rewrite sumZ_cons. specialize (Hlt j ltac:(lia)). lia.
Qed.

Definition D1_half : Z := 2 ^ 1073.
Lemma D1_half_eq : D1 = 2 * D1_half.
Proof. with_strategy transparent [D1] reflexivity. Qed.
Lemma D1_half_pos : 0 < D1_half.
Proof. by apply Z.pow_pos_nonneg. Qed.
Lemma half_const : d_const 5 10 = Fin D1_half.
Proof. vm_compute. reflexivity. Qed.
#[local] Opaque D1_half.

Lemma representable_half z : Z.abs z < 2 ^ 53 -> representable (z * D1_half).
Proof. with_strategy transparent [D1_half] (intros; by exists z, 1073). Qed.

(** The number of events of the percentile is at most the number of events. *)
Lemma pct_nmax_bound n p :
  0 <= n < 2 ^ 46 -> 0 <= p <= 100 * D1 ->
  exists m, pct_nmax n (Fin p) = Some m /\ 0 <= m <= n.
Proof.
  intros Hn Hp. pose proof D1_pos as HD. pose proof D1_half_pos. pose proof D1_half_eq as HE.
  unfold pct_nmax. rewrite !d_of_Z_exact by lia. unfold dmul.
  destruct (rnd_bounds (n * D1 * p) D1 0 (n * 100 * D1)) as (v & -> & Hv); try lia.
  { exists 0, 0. lia. } { apply representable_int. lia. }
  { apply D1_mul_lt. apply Z.lt_trans with (2 ^ 53); [lia|by apply Z.pow_lt_mono_r]. }
  { replace (n * 100 * D1 * D1) with (n * D1 * (100 * D1)) by ring.
    apply Z.mul_le_mono_nonneg_l; [|lia]. apply Z.mul_nonneg_nonneg; lia. }
  unfold ddiv. rewrite (proj2 (Z.eqb_neq (100 * D1) 0)) by lia.
  rewrite Z.sgn_pos, Z.abs_eq, Z.mul_1_r by lia.
  destruct (rnd_bounds (v * D1) (100 * D1) 0 (n * D1)) as (w & -> & Hw); try lia; try nia.
  { exists 0, 0. lia. } { apply representable_int. lia. }
  { apply D1_mul_lt. apply Z.lt_trans with (2 ^ 53); [lia|by apply Z.pow_lt_mono_r]. }
  rewrite half_const. unfold dadd.
  destruct (rnd_bounds (w + D1_half) 1 0 ((2 * n + 1) * D1_half)) as (x & -> & Hx); try lia.
  { exists 0, 0. lia. } { apply representable_half. lia. }
  { apply Z.lt_trans with ((2 * n + 2) * D1); [nia|].
    apply D1_mul_lt. apply Z.lt_trans with (2 ^ 53); [lia|by apply Z.pow_lt_mono_r]. }
  unfold dfloor.
  assert (Hq : 0 <= x / D1 <= n).
  { split; [apply Z.div_pos; lia|]. apply Z.lt_succ_r, Z.div_lt_upper_bound; nia. }
  destruct (d_to_int_between 0 UINT64_MAX (x / D1 * D1) (x / D1) (x / D1)) as (t & Et & Ht);
    try (zify_u; nia).
  exists t. split; [exact Et|]. lia.
Qed.

(** ** Merging keeps the rest of the object *)

Lemma merge_keeps h :
  array_size (merge_intermediate_into_cumulative h) = array_size h /\
  locked (merge_intermediate_into_cumulative h) = locked h.
Proof.
  unfold merge_intermediate_into_cumulative.
  by destruct (for_upto SB_HISTOGRAM_NSLOTS (fun s st => for_upto (array_size h) (fas_add s) st) _)
    as [[? ?] ?].
Qed.

Lemma merge_empty n a b c d :
  cumulative_array (merge_intermediate_into_cumulative
    (Histogram [0; 0] n [0; 0] (replicate SB_HISTOGRAM_NSLOTS [0; 0]) 2 a b c d true)) = [0; 0].
Proof. vm_compute. reflexivity. Qed.

(** ** Properties *)

(** C9: no concurrent update is lost: however the updates of the workers are
    interleaved with the cell by cell merge of the slots, in the end every
    bucket holds, in the accumulated array and the slots together, what it held
    plus the concurrent updates; an event that is still in a slot was added
    after the merge visited the cell; and the event counter moves with the sum
    of the array.  Without concurrent updates the merge leaves empty slots. *)
Theorem merge_loses_no_update (h : sb_histogram_t) (l : list step) :
  slots_ok (array_size h) (interm_slots h) -> length (cumulative_array h) = array_size h ->
  Forall (step_ok (array_size h)) l -> List.filter is_fas l = merge_cells (array_size h) ->
  let st := (interm_slots h, cumulative_array h, cumulative_nevents h) in
  let st' := foldl run_step st l in
  let h' := merge_intermediate_into_cumulative h in
  (forall i, u64 (cell st'.1.2 i + pending st'.1.1 i)
             = u64 (cell (cumulative_array h) i + pending (interm_slots h) i + count_inc i l)) /\
  (forall s i, (s < SB_HISTOGRAM_NSLOTS)%nat -> (i < array_size h)%nat ->
     0 <= slot_cell st'.1.1 s i <= count_inc_at s i l) /\
  u64 (st'.2 - sumZ st'.1.2) = u64 (cumulative_nevents h - sumZ (cumulative_array h)) /\
  (forall i, u64 (cell (cumulative_array h') i + pending (interm_slots h') i)
             = u64 (cell (cumulative_array h) i + pending (interm_slots h) i)) /\
  (forall s i, (s < SB_HISTOGRAM_NSLOTS)%nat -> (i < array_size h)%nat ->
     slot_cell (interm_slots h') s i = 0).
Proof.
  intros Hok Hlen Hl Hfas st st' h'.
  assert (Hst : state_ok (array_size h) st) by done.
  assert (Eh : (interm_slots h', cumulative_array h', cumulative_nevents h')
               = foldl run_step st (merge_cells (array_size h))).
  { rewrite <- merge_as_steps. unfold h', merge_intermediate_into_cumulative. fold st.
    by destruct (for_upto SB_HISTOGRAM_NSLOTS (fun s st0 => for_upto (array_size h) (fas_add s) st0) st)
      as [[? ?] ?]. }
  split_and!.
  - intros i. exact (proj1 (proj2 (run_conserves _ l st i Hst Hl))).
  - intros s i Hs Hi. apply (fas_residue (array_size h)); [done..|].
    eapply (proj1 (List.filter_In is_fas _ l)). rewrite Hfas. by apply merge_cells_in.
  - exact (proj2 (proj2 (run_conserves _ l st 0%nat Hst Hl))).
  - intros i. pose proof (run_conserves _ _ st i Hst (merge_cells_ok _)) as (_ & H & _).
    rewrite <- Eh in H. by rewrite count_inc_merge_cells, Z.add_0_r in H.
  - intros s i Hs Hi.
    pose proof (fas_residue _ _ st s i Hst (merge_cells_ok _) (merge_cells_in _ s i Hs Hi)) as H.
    rewrite <- Eh in H. cbn [fst snd] in H.
    assert (E0 : count_inc_at s i (merge_cells (array_size h)) = 0); [|lia].
    unfold count_inc_at, merge_cells. generalize (seq 0 SB_HISTOGRAM_NSLOTS) as ss.
    induction ss as [|s' ss IH]; [done|]. cbn [flat_map]. rewrite map_app, sumZ_app, IH, map_map.
    by rewrite sumZ_map_zero.
Qed.

Definition example_histogram : sb_histogram_t :=
  Histogram [3; 4] 7 [0; 0] (replicate SB_HISTOGRAM_NSLOTS [1; 0]) 2 (Fin 0) (Fin 0) (Fin 0) (Fin 1) false.

Lemma merge_loses_no_update_witness :
  cell (foldl run_step (interm_slots example_histogram, [3; 4], 7)
    (Inc 0 1 :: merge_cells 2 ++ [Inc 5 0])).1.2 1 = 5 /\
  forall s i, (s < SB_HISTOGRAM_NSLOTS)%nat -> (i < 2)%nat ->
    slot_cell (interm_slots (merge_intermediate_into_cumulative example_histogram)) s i = 0.
Proof.
  split; [vm_compute; reflexivity|].
  apply (merge_loses_no_update example_histogram (Inc 0 1 :: merge_cells 2 ++ [Inc 5 0])).
  - split; [reflexivity|]. apply Forall_replicate. reflexivity.
  - reflexivity.
  - constructor; [cbn; unfold SB_HISTOGRAM_NSLOTS; lia|]. apply Forall_app. split; [apply merge_cells_ok|].
    constructor; [cbn; unfold SB_HISTOGRAM_NSLOTS; lia|constructor].
  - vm_compute. reflexivity.
Defined.

(** An update adds one event to one bucket of one of the 128 slots and
    touches nothing else, whatever the latency: the bucket is inside the array. *)
Theorem histogram_update_adds_one (log : dbl -> dbl) (h h' : sb_histogram_t) (value : dbl)
    (rng rng' : Xoroshiro.state) :
  slots_ok (array_size h) (interm_slots h) -> (0 < array_size h)%nat ->
  sb_histogram_update log h value rng = Some (h', rng') ->
  exists s i, (s < SB_HISTOGRAM_NSLOTS)%nat /\ (i < array_size h)%nat /\ bucket log h value = Some i /\
    h' = set_slots (ck_pr_inc_64 s i (interm_slots h)) h /\
    slots_ok (array_size h) (interm_slots h') /\
    forall j, u64 (pending (interm_slots h') j) = u64 (pending (interm_slots h) j + b2z (i =? j)%nat).
Proof.
  intros Hok Hpos H. unfold sb_histogram_update in H.
  destruct (xoroshiro_next rng) as [x rng1].
  destruct (bucket log h value) as [i|] eqn:Eb; [|done]. injection H as <- <-.
  exists (Z.to_nat (x mod Z.of_nat SB_HISTOGRAM_NSLOTS)), i.
  assert (Hs : (Z.to_nat (x mod Z.of_nat SB_HISTOGRAM_NSLOTS) < SB_HISTOGRAM_NSLOTS)%nat).
  { pose proof (Z.mod_pos_bound x (Z.of_nat SB_HISTOGRAM_NSLOTS)).
    unfold SB_HISTOGRAM_NSLOTS in *. lia. }
  assert (Hi : (i < array_size h)%nat).
  { unfold bucket in Eb. destruct (d_to_s64 _) as [z|]; [|done]. injection Eb as <-.
    destruct (z <? 0) eqn:E1; [lia|]. destruct (_ <=? z) eqn:E2; bool_to_prop; lia. }
  split_and!; try done; [by apply slots_ok_alter|].
  intros j. cbn [set_slots interm_slots]. unfold ck_pr_inc_64.
  rewrite (pending_alter (array_size h)) by done.
  destruct (decide (i = j)) as [->|Hne].
  - rewrite Nat.eqb_refl. cbn [b2z].
    set (c := slot_cell (interm_slots h) _ j).
    replace (pending (interm_slots h) j + (u64 (c + 1) - c)) with (u64 (c + 1) + (pending (interm_slots h) j - c)) by lia.
    rewrite u64_add_l. f_equal. lia.
  - rewrite (proj2 (Nat.eqb_neq i j)) by done. done.
Qed.

Lemma histogram_update_adds_one_witness :
  exists h' rng' s i, sb_histogram_update (fun x => x) example_histogram (Fin 0) (1, 2) = Some (h', rng') /\
    (s < SB_HISTOGRAM_NSLOTS)%nat /\ (i < 2)%nat /\
    h' = set_slots (ck_pr_inc_64 s i (interm_slots example_histogram)) example_histogram.
Proof.
  assert (E : exists h' rng', sb_histogram_update (fun x => x) example_histogram (Fin 0) (1, 2) = Some (h', rng'))
    by (eexists _, _; vm_compute; reflexivity).
  destruct E as (h' & rng' & E).
  destruct (histogram_update_adds_one (fun x => x) example_histogram h' (Fin 0) (1, 2) rng')
    as (s & i & H1 & H2 & _ & H3 & _).
  - split; [reflexivity|]. apply Forall_replicate. reflexivity.
  - cbn. lia.
  - exact E.
  - exists h', rng', s, i. split; [exact E|]. split; [exact H1|]. split; [exact H2|exact H3].
Defined.

(** For a percentile between 0 and 100 the cumulative percentile is the value
    of an existing bucket: the first one whose events, with those of the buckets
    before it, reach the requested share, which is at most the number of
    events.  (Below 2^46 events, so that the double arithmetic is faithful.) *)
Theorem percentile_first_bucket (exp : dbl -> dbl) (h : sb_histogram_t) (p : Z) :
  Forall (fun x => 0 <= x) (cumulative_array h) -> cumulative_array h <> [] ->
  sumZ (cumulative_array h) = cumulative_nevents h -> cumulative_nevents h < 2 ^ 46 ->
  0 <= p <= 100 * D1 ->
  exists nmax i, pct_nmax (cumulative_nevents h) (Fin p) = Some nmax /\ 0 <= nmax <= cumulative_nevents h /\
    get_pct_cumulative exp h (Fin p) = Some (pct_value exp h i) /\
    (i < length (cumulative_array h))%nat /\
    nmax <= prefix_sum (cumulative_array h) (S i) /\
    forall j, (j < i)%nat -> prefix_sum (cumulative_array h) (S j) < nmax.
Proof.
  intros Hf Hne Hsum Hlt Hp. pose proof (sumZ_nonneg _ Hf).
  destruct (pct_nmax_bound (cumulative_nevents h) p) as (m & Em & Hm); [lia|done|].
  destruct (pct_index_spec (cumulative_array h) m 0 0 Hf) as (k & Ek & Hk & Hle & Hbefore);
    [lia|lia|lia|done|].
  exists m, k. unfold get_pct_cumulative. rewrite Em, Ek. split_and!; try done; lia.
Qed.

Lemma percentile_first_bucket_witness :
  exists nmax i, pct_nmax 7 (Fin (50 * D1)) = Some nmax /\
    get_pct_cumulative (fun x => x) example_histogram (Fin (50 * D1))
      = Some (pct_value (fun x => x) example_histogram i) /\ (i < 2)%nat.
Proof.
  destruct (percentile_first_bucket (fun x => x) example_histogram (50 * D1))
    as (m & i & H1 & _ & H2 & H3 & _).
  - cbn [example_histogram cumulative_array]. repeat constructor; lia.
  - discriminate.
  - reflexivity.
  - reflexivity.
  - pose proof D1_pos. lia.
  - exists m, i. split; [exact H1|]. split; [exact H2|exact H3].
Defined.

(** Printing an empty histogram returns without releasing the lock, so every
    later percentile or print request blocks for ever. *)
Theorem empty_histogram_print_keeps_lock (log exp : dbl -> dbl) (h0 : sb_histogram_t) (rmin rmax : dbl) :
  exists h', sb_histogram_print exp (snd (sb_histogram_init log true h0 2 rmin rmax)) = Done None h' /\
    locked h' = true /\
    (forall p, sb_histogram_get_pct_intermediate exp h' p = Blocked) /\
    (forall p, sb_histogram_get_pct_cumulative exp h' p = Blocked) /\
    (forall p, sb_histogram_get_pct_checkpoint exp h' p = Blocked) /\
    sb_histogram_print exp h' = Blocked.
Proof.
  set (h := snd (sb_histogram_init log true h0 2 rmin rmax)).
  exists (merge_intermediate_into_cumulative (set_lock true h)).
  destruct (merge_keeps (set_lock true h)) as [Es El].
  assert (Ea : cumulative_array (merge_intermediate_into_cumulative (set_lock true h)) = [0; 0])
    by apply merge_empty.
  assert (Hp : sb_histogram_print exp h = Done None (merge_intermediate_into_cumulative (set_lock true h))).
  { unfold sb_histogram_print. change (locked h) with false. cbv iota zeta.
    rewrite Es, Ea. reflexivity. }
  set (h' := merge_intermediate_into_cumulative (set_lock true h)) in *.
  change (locked h' = true) in El.
  split; [exact Hp|]. split; [exact El|]. clear Hp Ea. clearbody h'.
  unfold sb_histogram_print, sb_histogram_get_pct_intermediate, sb_histogram_get_pct_cumulative,
    sb_histogram_get_pct_checkpoint.
  rewrite El. split_and!; intros; reflexivity.
Qed.
