(* ===== verification/AtomicHistogram.v ===== *)
(** * The latency histogram on the portable atomic operations

    [sb_histogram.c] keeps the cells of its slots in shared memory, updates
    them with [ck_pr_inc_64] and moves them with [ck_pr_fas_64], which on a
    platform without native 64-bit atomics is a loop ([Atomics]).  Here the
    cells are words of that memory, the merging thread and the workers are
    programs over it, and their steps interleave inside the loops; the atomic
    steps of [Histogram] are shown to be what remains of such a run. *)

From S2P Require Import Prelude Double Xoroshiro Rand.
From S2P Require Import Atomics.
From S2P Require Histogram.

Import Histogram (slots_ok, slot_cell, cell, pending, merge_cells, run_step, SB_HISTOGRAM_NSLOTS,
  merge_state, slots_ok_alter, slot_cell_alter, run_conserves, count_inc, step_ok).

Section histogram.
Context (size : nat).

(** The address of [h->interm_slots[s][i]]: the rows are one block. *)
Definition cell_addr (s i : nat) : addr := Pos.of_succ_nat (s * size + i).

Definition cell_of (a : addr) : nat * nat :=
  (Nat.pred (Pos.to_nat a) / size, Nat.pred (Pos.to_nat a) mod size)%nat.

Definition in_slots (s i : nat) : Prop := (s < SB_HISTOGRAM_NSLOTS)%nat /\ (i < size)%nat.

Definition holds (m : memory) (slots : list (list Z)) : Prop :=
  slots_ok size slots /\
  forall s i, in_slots s i -> m !! cell_addr s i = Some (slot_cell slots s i).

(** ** The programs *)

(** The merge: a fetch-and-store of every cell, in order. *)
Definition merging (rs : list answer) : option call :=
  match merge_cells size !! length rs with
  | Some (Histogram.Fas s i) => Some (Fas (cell_addr s i) 0)
  | _ => None
  end.

(** What the merge does with the answer: [array[i] += t; nevents += t]. *)
Definition absorb (st : list Z * Z) (p : Histogram.step * answer) : list Z * Z :=
  match p with
  | (Histogram.Fas s i, Word t) => (alter (fun x => u64 (x + t)) i st.1, u64 (st.2 + t))
  | _ => st
  end.

(** Workers only update cells; which ones, and how often, is up to them. *)
Definition updating (client : list answer -> option call) : Prop :=
  forall rs c, client rs = Some c -> exists s i, in_slots s i /\ c = Inc (cell_addr s i).

(** The step of [Histogram] that an event is. *)
Definition step_of (e : event) : Histogram.step :=
  let '(s, i) := cell_of (target (what e)) in
  match what e with Fas _ _ => Histogram.Fas s i | _ => Histogram.Inc s i end.

Lemma cell_of_addr s i : (i < size)%nat -> cell_of (cell_addr s i) = (s, i).
Proof.
  intros Hi. unfold cell_of, cell_addr. rewrite SuccNat2Pos.pred_id.
  rewrite Nat.div_add_l, Nat.div_small, Nat.add_0_r by lia.
  by rewrite Nat.add_comm, Nat.Div0.mod_add, Nat.mod_small by lia.
Qed.

Lemma cell_addr_inj s i s' i' :
  (i < size)%nat -> (i' < size)%nat -> cell_addr s i = cell_addr s' i' -> s = s' /\ i = i'.
Proof.
  intros Hi Hi' E. apply (f_equal cell_of) in E. rewrite !cell_of_addr in E by done. by simplify_eq.
Qed.

Lemma step_of_call e s i :
  (i < size)%nat ->
  (what e = Inc (cell_addr s i) -> step_of e = Histogram.Inc s i) /\
  (forall v, what e = Fas (cell_addr s i) v -> step_of e = Histogram.Fas s i).
Proof. intros Hi. unfold step_of. split; intros; by rewrite H; cbn [target]; rewrite cell_of_addr. Qed.

(** ** Runs are interleavings of atomic steps *)

Lemma holds_alter m slots s i f :
  holds m slots -> in_slots s i ->
  holds (<[cell_addr s i := f (slot_cell slots s i)]> m) (alter (alter f i) s slots).
Proof.
  intros [Hok Hm] [Hs Hi]. split; [by apply slots_ok_alter|]. intros s' i' [Hs' Hi'].
  rewrite (slot_cell_alter size) by done. destruct (decide (s = s' /\ i = i')) as [[<- <-]|Hne].
  - by rewrite lookup_insert_eq.
  - rewrite lookup_insert_ne; [by apply Hm|]. intros E. apply cell_addr_inj in E; tauto.
Qed.

Definition is_step (e : event) : Prop :=
  exists s i, in_slots s i /\ (what e = Inc (cell_addr s i) \/ what e = Fas (cell_addr s i) 0).

Lemma replay_steps es m m' slots array nev :
  Forall is_step es -> holds m slots -> replay m es = Some m' ->
  let st' := foldl run_step (slots, array, nev) (map step_of es) in
  Forall (step_ok size) (map step_of es) /\ holds m' st'.1.1 /\
  (st'.1.2, st'.2) = foldl absorb (array, nev) (map (fun e => (step_of e, got e)) es).
Proof.
  intros Hes. revert m slots array nev.
  induction Hes as [|e es (s & i & Hin & He) Hes IH]; intros m slots array nev Hm H; cbn [replay] in H.
  { injection H as <-. done. }
  apply bind_Some in H as ([r m1] & Ha & H). destruct (decide _) as [->|]; [|done].
  unfold atomically in Ha. apply bind_Some in Ha as (x & Hx & [= Hr <-]).
  cbn [map foldl]. destruct (step_of_call e s i (proj2 Hin)) as [Hinc Hfas]. destruct Hin as [Hs Hi].
  destruct He as [He|He];
    [rewrite (Hinc He)|rewrite (Hfas _ He)]; rewrite He in Hx, Hr, H; cbn [target effect reply] in Hx, Hr, H;
    rewrite (proj2 Hm) in Hx by done; injection Hx as <-; rewrite <- Hr;
    cbn [run_step absorb fst snd Histogram.fas_add Histogram.ck_pr_fas_64].
  - edestruct IH as (F & Hm' & E); [|exact H|split_and!; [by constructor|exact Hm'|exact E]].
    by apply (holds_alter _ _ _ _ (fun x => u64 (x + 1))).
  - edestruct IH as (F & Hm' & E); [|exact H|split_and!; [by constructor|exact Hm'|exact E]].
    by apply (holds_alter _ _ _ _ (fun _ => 0)).
Qed.

(** ** The merge and the workers together *)

Section client.
Context (workers : nat -> list answer -> option call).

(** Thread 0 merges, the others update. *)
Definition histogram_client (j : nat) : list answer -> option call :=
  match j with 0%nat => merging | S j => workers j end.

Lemma merge_cells_lookup k e :
  merge_cells size !! k = Some e -> exists s i, in_slots s i /\ e = Histogram.Fas s i.
Proof.
  intros He%list_elem_of_lookup_2%list_elem_of_In. apply in_flat_map in He as (s & Hs & He).
  apply in_map_iff in He as (i & <- & Hi). apply in_seq in Hs, Hi. exists s, i. unfold in_slots. split; [lia|done].
Qed.

Lemma merging_call rs c :
  merging rs = Some c -> exists s i, in_slots s i /\ c = Fas (cell_addr s i) 0 /\
    merge_cells size !! length rs = Some (Histogram.Fas s i).
Proof.
  unfold merging. destruct (_ !! _) as [e|] eqn:E; [|done].
  destruct (merge_cells_lookup _ _ E) as (s & i & Hin & ->). intros [= <-]. eauto.
Qed.

Lemma merging_done rs : merging rs = None -> (length (merge_cells size) <= length rs)%nat.
Proof.
  unfold merging. destruct (_ !! _) as [e|] eqn:E; [|by apply lookup_ge_None in E].
  by destruct (merge_cells_lookup _ _ E) as (s & i & _ & ->).
Qed.

(** A run of the merge is a prefix of its cells. *)
Lemma merging_follows rs es :
  follows merging rs es -> map step_of es = take (length es) (drop (length rs) (merge_cells size)).
Proof.
  revert rs. induction es as [|e es IH]; intros rs H; [done|]. destruct H as [Hc H].
  apply IH in H. rewrite length_app in H. cbn [length] in H.
  destruct (merging_call _ _ Hc) as (s & i & Hin & He & Hk). cbn [map length].
  rewrite (drop_S _ _ _ Hk), H, (proj2 (step_of_call e s i (proj2 Hin)) _ He). cbn [take].
  by rewrite Nat.add_1_r.
Qed.

(** The events of the workers do not concern the array of the merge. *)
Lemma absorb_own st es :
  (forall j, updating (workers j)) ->
  Forall (fun e => exists rs, histogram_client (who e) rs = Some (what e)) es ->
  foldl absorb st (map (fun e => (step_of e, got e)) es) =
  foldl absorb st (map (fun e => (step_of e, got e)) (events_of 0 es)).
Proof.
  intros Hw Hes. revert st. induction Hes as [|e es [rs He] Hes IH]; intros st; [done|].
  unfold events_of. rewrite filter_cons. destruct (decide (who e = 0%nat)) as [E|E]; [apply IH|].
  cbn [map foldl]. destruct (who e) as [|j]; [done|]. destruct (Hw j rs _ He) as (s & i & Hin & Hc).
  rewrite (proj1 (step_of_call e s i (proj2 Hin)) Hc). apply IH.
Qed.

Lemma zip_map {A B C} (f : A -> B) (g : A -> C) l :
  zip (map f l) (map g l) = map (fun x => (f x, g x)) l.
Proof. induction l as [|x l IH]; [done|]. cbn. by rewrite IH. Qed.

(** C6: With the portable atomics the merge of the latency histogram loses no
    sample either: one thread moves the 128 slots of every bucket with
    fetch-and-store loops while any number of workers increment cells, the
    steps of all of them interleaved in any way.  Once the merge is through its
    cells, every bucket holds, in the merged array and in the memory of the
    slots together, what it held before plus the increments that returned, and
    the merged event count has moved with the sum of the array. *)
Theorem merge_over_portable_atomics n m0 sched s es slots array nev :
  (0 < n)%nat -> (forall j, updating (workers j)) -> holds m0 slots -> length array = size ->
  run histogram_client sched (start n m0) = Some (s, es) ->
  histogram_client 0 (got <$> events_of 0 es) = None ->
  let '(array', nev') := foldl absorb (array, nev) (zip (merge_cells size) (got <$> events_of 0 es)) in
  exists slots', holds (mem s) slots' /\
    (forall i, u64 (cell array' i + pending slots' i) =
               u64 (cell array i + pending slots i + count_inc i (map step_of es))) /\
    u64 (nev' - sumZ array') = u64 (nev - sumZ array).
Proof.
  intros Hn Hw Hm Hlen Hrun Hdone. pose proof (start_ok histogram_client n m0) as Hok.
  pose proof (run_calls _ _ _ _ _ Hok Hrun) as Hcalls.
  destruct (run_replays _ _ _ _ _ Hok Hrun) as (Hr & _ & _ & Hf). cbn [start mem threads] in Hr, Hf.
  destruct (Hf 0%nat (Thread [] Idle)) as [Hfol _]; [by apply lookup_replicate_2|]. cbn in Hfol.
  assert (Hsteps : Forall is_step es).
  { eapply Forall_impl; [exact Hcalls|]. intros e [rs He]. destruct (who e) as [|j]; cbn in He.
    - apply merging_call in He as (s' & i & Hin & He & _). exists s', i. auto.
    - apply Hw in He as (s' & i & Hin & He). exists s', i. auto. }
  destruct (replay_steps es m0 (mem s) slots array nev Hsteps Hm Hr) as (Hso & Hm' & E).
  assert (Hzip : zip (merge_cells size) (got <$> events_of 0 es) =
                 map (fun e => (step_of e, got e)) (events_of 0 es)).
  { rewrite <- zip_map. f_equal. rewrite (merging_follows [] _ Hfol), drop_0, take_ge; [done|].
    apply merging_done in Hdone. by rewrite length_fmap in Hdone. }
  rewrite Hzip, <- absorb_own, <- E by done.
  destruct (run_conserves size (map step_of es) (slots, array, nev) 0%nat) as (_ & _ & Hnev);
    [by split; [apply Hm|]|done|].
  eexists. split; [exact Hm'|]. split; [|exact Hnev].
  intros i. destruct (run_conserves size (map step_of es) (slots, array, nev) i) as (_ & Hc & _);
    [by split; [apply Hm|]|done|]. exact Hc.
Qed.
End client.
End histogram.

(** 128 slots with one bucket of one event; a worker increments the cell that
    the merge has just loaded, and later one that is still to come. *)
Definition example_memory : memory :=
  list_to_map (map (fun s => (cell_addr 1 s 0, 1)) (seq 0 SB_HISTOGRAM_NSLOTS)).

Definition example_worker (j : nat) (rs : list answer) : option call :=
  match length rs with
  | 0%nat => Some (Inc (cell_addr 1 0 0))
  | 1%nat => Some (Inc (cell_addr 1 3 0))
  | _ => None
  end.

Definition example_sched : list nat := [0; 1; 0; 0; 1]%nat ++ replicate 254 0%nat.

Lemma merge_over_portable_atomics_witness :
  exists s es slots',
    run (histogram_client 1 example_worker) example_sched (start 2 example_memory) = Some (s, es) /\
    foldl absorb ([5], 5) (zip (merge_cells 1) (got <$> events_of 0 es)) = ([135], 135) /\
    holds 1 (mem s) slots' /\ u64 (135 + pending slots' 0) = 135.
Proof.
  destruct (run (histogram_client 1 example_worker) example_sched (start 2 example_memory))
    as [[s es]|] eqn:E; [|vm_compute in E; discriminate E].
  assert (Hw : forall j, updating 1 (example_worker j)).
  { intros j [|r [|r' rs]] c [= <-];
      [exists 0%nat, 0%nat|exists 3%nat, 0%nat]; (split; [split; vm_compute; lia|done]). }
  assert (Hm : holds 1 example_memory (replicate SB_HISTOGRAM_NSLOTS [1])).
  { split; [split; [done|by apply Forall_replicate]|]. intros s' i [Hs Hi].
    assert (i = 0%nat) as -> by lia.
    assert (H : forallb (fun s => bool_decide (example_memory !! cell_addr 1 s 0 =
              Some (slot_cell (replicate SB_HISTOGRAM_NSLOTS [1]) s 0))) (seq 0 SB_HISTOGRAM_NSLOTS) = true)
      by (vm_compute; reflexivity).
    rewrite forallb_forall in H. apply (bool_decide_eq_true_1 _), H, in_seq. lia. }
  pose proof (merge_over_portable_atomics 1 example_worker 2 example_memory example_sched s es
    (replicate SB_HISTOGRAM_NSLOTS [1]) [5] 5 ltac:(lia) Hw Hm eq_refl E) as H.
  assert (Hr : histogram_client 1 example_worker 0 (got <$> events_of 0 es) = None /\
    foldl absorb ([5], 5) (zip (merge_cells 1) (got <$> events_of 0 es)) = ([135], 135) /\
    count_inc 0 (map (step_of 1) es) = 2).
  { clear H. vm_compute in E. injection E as <- <-. split_and!; vm_compute; reflexivity. }
  destruct Hr as (Hd & Ha & Hc). specialize (H Hd). rewrite Ha in H. destruct H as (slots' & Hh & Hp & _).
  exists s, es, slots'. split_and!; [done..|]. specialize (Hp 0%nat). rewrite Hc in Hp. exact Hp.
Defined.
