(* ===== verification/Barrier.v ===== *)
(** * Barriers ([sb_barrier.c])

    [sb_barrier_wait] holds the mutex except while it sleeps on the condition
    variable, so a call is two atomic steps: entering ([wait_enter], which
    completes the round when the caller is the last one) and, for the others,
    waking up with the mutex held ([wait_wake], which goes back to sleep when the
    serial number has not changed: spurious wake-ups are allowed at any time).
    The step relation interleaves the calls of the participating threads, each
    of which may call again as soon as it has returned. *)

From S2P Require Import Prelude.

#[local] Set Warnings "-clear-no-such-hyp".

Definition SB_BARRIER_SERIAL_THREAD : Z := 1.

Record sb_barrier_t := Barrier {
  count : Z;
  init_count : Z;
  serial : Z;
  has_callback : bool;
  error : Z
}.

(** [pthread_ok]: the mutex and the condition variable could be created. *)
Definition sb_barrier_init (pthread_ok : bool) (n : Z) (cb : bool) : option sb_barrier_t :=
  if n =? 0 then None
  else if pthread_ok then Some (Barrier n n 0 cb 0) else None.

(** Up to the release of the mutex: the result of the call, or the serial number
    the caller waits to change.  [cbres] is what the callback returns. *)
Definition wait_enter (b : sb_barrier_t) (cbres : Z) : sb_barrier_t * (Z + Z) :=
  let c := u32 (count b - 1) in
  if c =? 0 then
    let failed := has_callback b && negb (cbres =? 0) in
    (Barrier (init_count b) (init_count b) (u32 (serial b + 1)) (has_callback b)
       (if failed then 1 else error b),
     inl (if failed then -1 else SB_BARRIER_SERIAL_THREAD))
  else (Barrier c (init_count b) (serial b) (has_callback b) (error b), inr (serial b)).

(** After [pthread_cond_wait] returns: [None] is another round of the loop. *)
Definition wait_wake (b : sb_barrier_t) (s : Z) : option Z :=
  if s =? serial b then None else Some (if negb (error b =? 0) then -1 else 0).

(** ** Threads *)

Inductive pc := Out | Waiting (s : Z).

(** A thread with the number of its calls and returns so far and the result of
    its last call. *)
Record thread := Thread { at_pc : pc; calls : nat; returns : nat; last_result : option Z }.

(** [fails] records, latest first, which callbacks failed; [leader] is the
    thread that completed the last round. *)
Record config := Config {
  bar : sb_barrier_t;
  threads : list thread;
  fails : list bool;
  leader : nat
}.

Inductive step : config -> config -> Prop :=
| step_enter_last (c : config) (i : nat) (t : thread) (cbres : Z) (b' : sb_barrier_t) (r : Z) :
    threads c !! i = Some t -> at_pc t = Out ->
    wait_enter (bar c) cbres = (b', inl r) ->
    step c (Config b' (<[i := Thread Out (S (calls t)) (S (returns t)) (Some r)]> (threads c))
              ((has_callback (bar c) && negb (cbres =? 0)) :: fails c) i)
| step_enter_wait (c : config) (i : nat) (t : thread) (cbres : Z) (b' : sb_barrier_t) (s : Z) :
    threads c !! i = Some t -> at_pc t = Out ->
    wait_enter (bar c) cbres = (b', inr s) ->
    step c (Config b' (<[i := Thread (Waiting s) (S (calls t)) (returns t) (last_result t)]> (threads c))
              (fails c) (leader c))
| step_wake (c : config) (i : nat) (t : thread) (s : Z) (r : Z) :
    threads c !! i = Some t -> at_pc t = Waiting s ->
    wait_wake (bar c) s = Some r ->
    step c (Config (bar c) (<[i := Thread Out (calls t) (S (returns t)) (Some r)]> (threads c))
              (fails c) (leader c))
| step_spurious (c : config) (i : nat) (t : thread) (s : Z) :
    threads c !! i = Some t -> at_pc t = Waiting s ->
    wait_wake (bar c) s = None -> step c c.

Definition new_thread : thread := Thread Out 0 0 None.

Definition initial (n : nat) (cb : bool) : config :=
  Config (Barrier (Z.of_nat n) (Z.of_nat n) 0 cb 0) (replicate n new_thread) [] 0.

(** ** The invariant *)

Definition is_waiting (s : Z) (t : thread) : Z :=
  match at_pc t with Waiting s' => b2z (s' =? s) | Out => 0 end.

(** Result of the last call of thread [i] once round [length fails] is over. *)
Definition round_result (fl : list bool) (ld i : nat) : option Z :=
  match fl with
  | [] => None
  | f :: _ =>
      Some (if (i =? ld)%nat then if f then -1 else SB_BARRIER_SERIAL_THREAD
            else if existsb id fl then -1 else 0)
  end.

(** A thread is out of the barrier, waits for the end of the current round, or
    has still to notice the end of the last one. *)
Definition thread_ok (fl : list bool) (ld i : nat) (t : thread) : Prop :=
  let k := length fl in
  (at_pc t = Out /\ calls t = k /\ returns t = k /\ last_result t = round_result fl ld i) \/
  (at_pc t = Waiting (u32 (Z.of_nat k)) /\ calls t = S k /\ returns t = k) \/
  (at_pc t = Waiting (u32 (Z.of_nat k - 1)) /\ (0 < k)%nat /\ calls t = k /\ returns t = (k - 1)%nat /\ i <> ld).

Definition inv (n : nat) (c : config) : Prop :=
  let b := bar c in
  length (threads c) = n /\ 0 < Z.of_nat n < 2 ^ 32 /\
  init_count b = Z.of_nat n /\ 1 <= count b <= Z.of_nat n /\
  count b = Z.of_nat n - sumZ (map (is_waiting (serial b)) (threads c)) /\
  serial b = u32 (Z.of_nat (length (fails c))) /\
  error b = b2z (existsb id (fails c)) /\
  forall i t, threads c !! i = Some t -> thread_ok (fails c) (leader c) i t.

Lemma serial_ne k : u32 (k - 1) <> u32 k.
Proof. ulia. Qed.

Lemma is_waiting_range s t : 0 <= is_waiting s t <= 1.
Proof. unfold is_waiting. case_match; [lia|]. by destruct (_ =? _). Qed.

Lemma sum_waiting_bound s l : 0 <= sumZ (map (is_waiting s) l) <= Z.of_nat (length l).
Proof.
  induction l as [|t l IH]; [done|]. cbn [map length]. rewrite sumZ_cons.
  pose proof (is_waiting_range s t). lia.
Qed.

Lemma sum_waiting_lt s l i t :
  l !! i = Some t -> is_waiting s t = 0 -> sumZ (map (is_waiting s) l) <= Z.of_nat (length l) - 1.
Proof.
  revert i. induction l as [|y l IH]; intros [|i] Hi Ht; cbn [map length lookup list_lookup] in *;
    try done; rewrite sumZ_cons; pose proof (is_waiting_range s y); pose proof (sum_waiting_bound s l).
  - injection Hi as ->. lia.
  - specialize (IH i Hi Ht). lia.
Qed.

Lemma sum_waiting_eq s l j u :
  l !! j = Some u -> sumZ (map (is_waiting s) l) = Z.of_nat (length l) -> is_waiting s u = 1.
Proof.
  intros Hj Hs. pose proof (is_waiting_range s u).
  destruct (Z.eq_dec (is_waiting s u) 0) as [E|]; [|lia].
  pose proof (sum_waiting_lt s l j u Hj E). lia.
Qed.

(** When all threads but one wait in the current round, every other one does. *)
Lemma others_waiting s l i t :
  l !! i = Some t -> is_waiting s t = 0 ->
  sumZ (map (is_waiting s) l) = Z.of_nat (length l) - 1 ->
  forall j u, l !! j = Some u -> j <> i -> is_waiting s u = 1.
Proof.
  revert i. induction l as [|x l IH]; intros [|i] Hi Ht Hs [|j] u Hj Hne;
    cbn [map length lookup list_lookup] in *; try done; rewrite sumZ_cons in Hs;
    pose proof (is_waiting_range s x); pose proof (sum_waiting_bound s l).
  - injection Hi as ->. apply (sum_waiting_eq s l j u Hj). lia.
  - injection Hj as ->. pose proof (sum_waiting_lt s l i t Hi Ht). lia.
  - pose proof (sum_waiting_lt s l i t Hi Ht).
    apply (IH i Hi Ht ltac:(lia) j u Hj). congruence.
Qed.

Lemma sum_waiting_insert s l i t t' :
  l !! i = Some t ->
  sumZ (map (is_waiting s) (<[i := t']> l)) = sumZ (map (is_waiting s) l) - is_waiting s t + is_waiting s t'.
Proof.
  intros Hi. rewrite (list_fmap_insert (is_waiting s) l i t' : map _ _ = _).
  apply sumZ_insert. by rewrite (list_lookup_fmap (is_waiting s) l i : map _ _ !! _ = _), Hi.
Qed.

Lemma waiting_0 s t : at_pc t = Out -> is_waiting s t = 0.
Proof. unfold is_waiting. by intros ->. Qed.

Lemma waiting_1 s t : is_waiting s t = 1 -> at_pc t = Waiting s.
Proof.
  unfold is_waiting. destruct (at_pc t) as [|s']; [done|].
  destruct (Z.eqb_spec s' s) as [->|]; done.
Qed.

Lemma initial_inv n cb : 0 < Z.of_nat n < 2 ^ 32 -> inv n (initial n cb).
Proof.
  intros Hn. unfold inv, initial. cbn [bar threads fails leader count init_count serial error].
  assert (E : sumZ (map (is_waiting 0) (replicate n new_thread)) = 0).
  { clear. induction n as [|n IH]; [done|]. cbn [replicate map]. by rewrite sumZ_cons, IH. }
  rewrite E. split_and!; try done; try lia; [apply length_replicate|].
  intros i t Hi. apply lookup_replicate in Hi as [-> _]. left. done.
Qed.

(** Entering as the last thread of the round. *)
Lemma inv_enter_last n c i t cbres b' r :
  inv n c -> threads c !! i = Some t -> at_pc t = Out ->
  wait_enter (bar c) cbres = (b', inl r) ->
  inv n (Config b' (<[i := Thread Out (S (calls t)) (S (returns t)) (Some r)]> (threads c))
           ((has_callback (bar c) && negb (cbres =? 0)) :: fails c) i).
Proof.
  intros (Hlen & Hn & Hic & Hc & Hcnt & Hser & Herr & Hth) Hi Hpc Hw.
  unfold wait_enter in Hw. rewrite (u32_small (count (bar c) - 1)) in Hw by (zify_u; lia).
  destruct (count (bar c) - 1 =? 0) eqn:E0; [|done]. apply Z.eqb_eq in E0.
  set (f := has_callback (bar c) && negb (cbres =? 0)) in *. injection Hw as <- <-.
  set (k := length (fails c)) in *. set (s := serial (bar c)) in *.
  assert (Eser : u32 (s + 1) = u32 (Z.of_nat (S k))) by (rewrite Hser, u32_add_l; f_equal; lia).
  pose proof (others_waiting s (threads c) i t Hi (waiting_0 _ _ Hpc) ltac:(lia)) as Hoth.
  assert (Hsum : sumZ (map (is_waiting (u32 (Z.of_nat (S k))))
     (<[i := Thread Out (S (calls t)) (S (returns t)) (Some (if f then -1 else SB_BARRIER_SERIAL_THREAD))]> (threads c))) = 0).
  { apply Z.le_antisymm; [|apply sum_waiting_bound].
    assert (Hall : forall u, u ∈ <[i := Thread Out (S (calls t)) (S (returns t)) (Some (if f then -1 else SB_BARRIER_SERIAL_THREAD))]> (threads c)
       -> is_waiting (u32 (Z.of_nat (S k))) u = 0).
    { intros u Hu. apply list_elem_of_lookup in Hu as [j Hj].
      destruct (decide (i = j)) as [<-|Hne].
      - rewrite list_lookup_insert_eq in Hj by (by eapply lookup_lt_Some). by injection Hj as <-.
      - rewrite list_lookup_insert_ne in Hj by done.
        specialize (Hoth j u Hj ltac:(congruence)). apply waiting_1 in Hoth.
        unfold is_waiting. rewrite Hoth, Hser.
        rewrite (proj2 (Z.eqb_neq _ _)); [done|].
        replace (Z.of_nat k) with (Z.of_nat (S k) - 1) by lia. apply serial_ne. }
    revert Hall. generalize (<[i := Thread Out (S (calls t)) (S (returns t)) (Some (if f then -1 else SB_BARRIER_SERIAL_THREAD))]> (threads c)).
    induction l as [|u l IH]; intros Hall; [done|]. cbn [map]. rewrite sumZ_cons.
    rewrite Hall by apply elem_of_cons, or_introl, eq_refl.
    assert (sumZ (map (is_waiting (u32 (Z.of_nat (S k)))) l) <= 0); [|lia].
    apply IH. intros v Hv. apply Hall, elem_of_cons. by right. }
  unfold inv. cbn [bar threads fails leader count init_count serial error length].
  rewrite Eser, Hsum. split_and!; try done; try lia; [by rewrite length_insert| |].
  - cbn [existsb]. unfold id at 1. destruct f; [done|]. exact Herr.
  - intros j u Hj. destruct (decide (i = j)) as [<-|Hne].
    + rewrite list_lookup_insert_eq in Hj by (by eapply lookup_lt_Some). injection Hj as <-.
      left. cbn. destruct (Hth i t Hi) as [(_ & H1 & H2 & _)|[(H1 & _)|(H1 & _)]]; [|congruence..].
      split_and!; [done|lia|lia|]. by rewrite Nat.eqb_refl.
    + rewrite list_lookup_insert_ne in Hj by done.
      pose proof (waiting_1 _ _ (Hoth j u Hj ltac:(congruence))) as Hw.
      right; right. cbn [length]. fold k. replace (Z.of_nat (S k) - 1) with (Z.of_nat k) by lia.
      destruct (Hth j u Hj) as [(H1 & _)|[(H1 & H2 & H3)|(H1 & Hk & _)]]; [congruence| |].
      * split_and!; [exact H1|lia|lia|lia|congruence].
      * exfalso. rewrite Hw, Hser in H1. injection H1 as H1. symmetry in H1. by apply serial_ne in H1.
Qed.

Lemma inv_enter_wait n c i t cbres b' s :
  inv n c -> threads c !! i = Some t -> at_pc t = Out ->
  wait_enter (bar c) cbres = (b', inr s) ->
  inv n (Config b' (<[i := Thread (Waiting s) (S (calls t)) (returns t) (last_result t)]> (threads c))
           (fails c) (leader c)).
Proof.
  intros (Hlen & Hn & Hic & Hc & Hcnt & Hser & Herr & Hth) Hi Hpc Hw.
  unfold wait_enter in Hw. rewrite (u32_small (count (bar c) - 1)) in Hw by (zify_u; lia).
  destruct (count (bar c) - 1 =? 0) eqn:E0; [done|]. apply Z.eqb_neq in E0. injection Hw as <- <-.
  unfold inv. cbn [bar threads fails leader count init_count serial error].
  rewrite (sum_waiting_insert _ _ i t) by done. rewrite (waiting_0 _ t) by done.
  assert (E1 : forall a b d, is_waiting (serial (bar c)) (Thread (Waiting (serial (bar c))) a b d) = 1)
    by (intros; unfold is_waiting; cbn; by rewrite Z.eqb_refl).
  rewrite E1. split_and!; try done; try lia; [by rewrite length_insert|].
  intros j u Hj. destruct (decide (i = j)) as [<-|Hne].
  - rewrite list_lookup_insert_eq in Hj by (by eapply lookup_lt_Some). injection Hj as <-.
    right; left. destruct (Hth i t Hi) as [(_ & H1 & H2 & _)|[(H1 & _)|(H1 & _)]]; [|congruence..].
    cbn. rewrite Hser. split_and!; [done|lia|lia].
  - rewrite list_lookup_insert_ne in Hj by done. by apply Hth.
Qed.

Lemma inv_wake n c i t s r :
  inv n c -> threads c !! i = Some t -> at_pc t = Waiting s -> wait_wake (bar c) s = Some r ->
  inv n (Config (bar c) (<[i := Thread Out (calls t) (S (returns t)) (Some r)]> (threads c))
           (fails c) (leader c)).
Proof.
  intros (Hlen & Hn & Hic & Hc & Hcnt & Hser & Herr & Hth) Hi Hpc Hw.
  unfold wait_wake in Hw. destruct (s =? serial (bar c)) eqn:E0; [done|]. apply Z.eqb_neq in E0.
  injection Hw as <-.
  assert (Ew : is_waiting (serial (bar c)) t = 0)
    by (unfold is_waiting; rewrite Hpc; by rewrite (proj2 (Z.eqb_neq _ _))).
  unfold inv. cbn [bar threads fails leader].
  rewrite (sum_waiting_insert _ _ i t), Ew by done.
  assert (E1 : forall a b d, is_waiting (serial (bar c)) (Thread Out a b d) = 0) by done.
  rewrite E1. split_and!; try done; try lia; [by rewrite length_insert|].
  intros j u Hj. destruct (decide (i = j)) as [<-|Hne].
  - rewrite list_lookup_insert_eq in Hj by (by eapply lookup_lt_Some). injection Hj as <-.
    left. destruct (Hth i t Hi) as [(H1 & _)|[(H1 & _)|(H1 & Hk & H2 & H3 & Hld)]]; [congruence|congruence|].
    cbn. split_and!; [done|lia|lia|]. rewrite Herr. unfold round_result.
    destruct (fails c) as [|f fl] eqn:Ef; [cbn in Hk; lia|].
    rewrite (proj2 (Nat.eqb_neq i (leader c))) by done. by destruct (existsb id (f :: fl)).
  - rewrite list_lookup_insert_ne in Hj by done. by apply Hth.
Qed.

Lemma step_inv n c c' : inv n c -> step c c' -> inv n c'.
Proof.
  intros Hinv Hs. destruct Hs.
  - by eapply inv_enter_last.
  - by eapply inv_enter_wait.
  - by eapply inv_wake.
  - done.
Qed.

Lemma reachable_inv n cb c : 0 < Z.of_nat n < 2 ^ 32 -> rtc step (initial n cb) c -> inv n c.
Proof.
  intros Hn. assert (H : inv n (initial n cb)) by by apply initial_inv.
  revert H. generalize (initial n cb). intros c0 H Hr. induction Hr; [done|].
  apply IHHr. by eapply step_inv.
Qed.

(** ** Properties *)

(** C1: with as many threads as the barrier counts, in every reachable state no
    thread has returned from more calls than any other thread has made: nobody
    passes the barrier before everybody has arrived; the rounds are counted by
    the callbacks' runs, one per round; and a thread that is not in the barrier
    got from its last call SERIAL_THREAD or -1 if it was the one that completed
    the round, otherwise 0 or, once a callback has failed, -1. *)
Theorem barrier_safety (n : nat) (cb : bool) (c : config) :
  0 < Z.of_nat n < 2 ^ 32 -> rtc step (initial n cb) c ->
  (forall i j t u, threads c !! i = Some t -> threads c !! j = Some u ->
     (returns t <= calls u)%nat /\ (calls u <= S (length (fails c)))%nat) /\
  (forall i t, threads c !! i = Some t -> at_pc t = Out ->
     calls t = length (fails c) /\ returns t = length (fails c) /\
     last_result t = round_result (fails c) (leader c) i).
Proof.
  intros Hn Hr. destruct (reachable_inv n cb c Hn Hr) as (_ & _ & _ & _ & _ & _ & _ & Hth).
  unfold thread_ok in Hth. cbv zeta in Hth. split.
  - intros i j t u Hi Hj.
    destruct (Hth i t Hi) as [(_ & ? & ? & _)|[(_ & ? & ?)|(_ & ? & ? & ? & _)]],
      (Hth j u Hj) as [(_ & ? & ? & _)|[(_ & ? & ?)|(_ & ? & ? & ? & _)]]; lia.
  - intros i t Hi Hpc. destruct (Hth i t Hi) as [(_ & ? & ? & ?)|[(E & _)|(E & _)]]; [done|congruence..].
Qed.

Definition example_run : config :=
  Config (Barrier 2 2 1 false 0) [Thread (Waiting 0) 1 0 None; Thread Out 1 1 (Some 1)] [false] 1.

Lemma example_reachable : rtc step (initial 2 false) example_run.
Proof.
  eapply rtc_l; [by apply (step_enter_wait (initial 2 false) 0 new_thread 0 (Barrier 1 2 0 false 0) 0)|].
  eapply rtc_once.
  by apply (step_enter_last (Config (Barrier 1 2 0 false 0) [Thread (Waiting 0) 1 0 None; new_thread] [] 0)
              1 new_thread 0 (Barrier 2 2 1 false 0) 1).
Qed.

Lemma barrier_safety_witness :
  (returns (Thread Out 1 1 (Some 1%Z)) <= calls (Thread (Waiting 0) 1 0 None))%nat
  /\ (calls (Thread (Waiting 0) 1 0 None) <= 2)%nat.
Proof.
  apply (proj1 (barrier_safety 2 false example_run ltac:(cbn; lia) example_reachable) 1%nat 0%nat); reflexivity.
Defined.

(** C31: the barrier does not deadlock: in every reachable state, either some
    thread is out of the barrier, or some waiting thread can leave it (its round
    is over); every thread that waits for an earlier round can leave. *)
Theorem barrier_progress (n : nat) (cb : bool) (c : config) :
  0 < Z.of_nat n < 2 ^ 32 -> rtc step (initial n cb) c ->
  (exists i t, threads c !! i = Some t /\
     (at_pc t = Out \/ exists s r, at_pc t = Waiting s /\ wait_wake (bar c) s = Some r)) /\
  (forall i t s, threads c !! i = Some t -> at_pc t = Waiting s -> (calls t <= length (fails c))%nat ->
     exists r, wait_wake (bar c) s = Some r).
Proof.
  intros Hn Hr. destruct (reachable_inv n cb c Hn Hr) as (Hlen & _ & _ & Hc & Hcnt & Hser & _ & Hth).
  assert (Hwake : forall s, s <> serial (bar c) -> exists r, wait_wake (bar c) s = Some r).
  { intros s Hs. unfold wait_wake. rewrite (proj2 (Z.eqb_neq _ _)) by done. by eexists. }
  split.
  - destruct (decide (Exists (fun t => is_waiting (serial (bar c)) t = 0) (threads c))) as [He|Hne].
    + apply Exists_exists in He as (t & Ht & E). apply list_elem_of_lookup in Ht as [i Hi].
      exists i, t. split; [done|]. unfold is_waiting in E. destruct (at_pc t) as [|s] eqn:Ep; [by left|].
      right. destruct (Z.eqb_spec s (serial (bar c))); [done|].
      destruct (Hwake s) as [r Hw]; [done|]. by exists s, r.
    + exfalso. apply not_Exists_Forall in Hne; [|apply _].
      assert (sumZ (map (is_waiting (serial (bar c))) (threads c)) = Z.of_nat (length (threads c))); [|lia].
      clear -Hne. induction Hne as [|t l Ht _ IH]; [done|]. cbn [map length].
      rewrite sumZ_cons, IH. assert (is_waiting (serial (bar c)) t <> 0) by exact Ht. pose proof (is_waiting_range (serial (bar c)) t). lia.
  - intros i t s Hi Hpc Hcalls. apply Hwake. rewrite Hser.
    destruct (Hth i t Hi) as [(H1 & _)|[(_ & H2 & _)|(H1 & _)]]; [congruence|lia|].
    rewrite Hpc in H1. injection H1 as ->. apply serial_ne.
Qed.

Lemma barrier_progress_witness :
  exists r, wait_wake (bar example_run) 0 = Some r.
Proof.
  apply (barrier_progress 2 false example_run) with (i := 0%nat) (t := Thread (Waiting 0) 1 0 None);
    [cbn; lia|apply example_reachable|done|done|cbn; lia].
Defined.
