(* ===== verification/Threads.v ===== *)
(** * Creating the threads ([sb_thread.c], [sb_thread.h])

    [sb_thread_create] wraps [pthread_create].  Without [pthread_cancel] the new
    thread first runs a proxy that installs the handler of the signal that
    cancels it; what the proxy needs is allocated by the creator and freed by
    the new thread.  The thread library is a parameter: the result of each of
    its calls, and whether [malloc] succeeds.  A thread is named by the order of
    its creation. *)

From S2P Require Import Prelude.

#[local] Set Warnings "-clear-no-such-hyp".

Definition EXIT_SUCCESS : Z := 0.
Definition EXIT_FAILURE : Z := 1.
Definition SIGUSR1 : Z := 10.

(** The start routines of the program, and their argument: a worker's is the
    address of its descriptor, [threads + i]; the others' is [NULL]. *)
Inductive routine := worker_thread | report_thread_proc | eventgen_thread_proc | checkpoints_thread_proc.
Abbreviation argument := (option nat).

Record sb_thread_proxy := Proxy { start_routine : routine; arg : argument }.

(** What a created thread starts with: a routine of the program, or
    [thread_start_routine_proxy] on a proxy in the heap. *)
Inductive entry := Direct (r : routine) (a : argument) | Proxied (p : positive).

Record threads_state := ThreadsState {
  proxies : gmap positive sb_thread_proxy;
  created : list entry;
  attempts : nat
}.

Record sb_thread_ctxt_t := Ctxt { thread : option nat; id : Z }.

(** The signal handler: [Some] is [pthread_exit(PTHREAD_CANCELED)]. *)
Definition PTHREAD_CANCELED : Z := -1.
Definition thread_cancel_handler (sig : Z) : option Z :=
  if sig =? SIGUSR1 then Some PTHREAD_CANCELED else None.

(** [thread_start_routine_proxy] up to the call of the routine: it reads and
    frees the proxy; [None] when that is not allocated. *)
Definition thread_start_routine_proxy (p : positive) (h : gmap positive sb_thread_proxy)
    : option (routine * argument * gmap positive sb_thread_proxy) :=
  proxy ← h !! p; Some (start_routine proxy, arg proxy, delete p h).

(** The first steps of a created thread. *)
Definition thread_start (e : entry) (h : gmap positive sb_thread_proxy)
    : option (routine * argument * gmap positive sb_thread_proxy) :=
  match e with
  | Direct r a => Some (r, a, h)
  | Proxied p => thread_start_routine_proxy p h
  end.

Section library.
Context (have_pthread_cancel : bool) (malloc_ok : nat -> bool) (pthread_create : nat -> Z)
  (pthread_cancel : nat -> Z) (pthread_kill : nat -> Z -> Z).

(** The call of [pthread_create]: the handle of the new thread, if it succeeds. *)
Definition call_pthread_create (e : entry) (st : threads_state) : Z * option nat * threads_state :=
  let rv := pthread_create (attempts st) in
  if rv =? 0
  then (rv, Some (length (created st)), ThreadsState (proxies st) (created st ++ [e]) (S (attempts st)))
  else (rv, None, ThreadsState (proxies st) (created st) (S (attempts st))).

Definition sb_thread_create (r : routine) (a : argument) (st : threads_state)
    : Z * option nat * threads_state :=
  if have_pthread_cancel then call_pthread_create (Direct r a) st
  else if malloc_ok (attempts st) then
    let p := fresh (dom (proxies st)) in
    let st := ThreadsState (<[p := Proxy r a]> (proxies st)) (created st) (attempts st) in
    let '(rv, t, st) := call_pthread_create (Proxied p) st in
    if rv =? 0 then (rv, t, st)
    else (rv, t, ThreadsState (delete p (proxies st)) (created st) (attempts st))
  else (EXIT_FAILURE, None, ThreadsState (proxies st) (created st) (S (attempts st))).

Definition sb_thread_cancel (t : nat) : Z :=
  if have_pthread_cancel then pthread_cancel t else pthread_kill t SIGUSR1.

(** The loops of [sb_thread_create_workers] over [sb_globals.threads]
    descriptors: the numbering, then the creation up to the first error. *)
Definition number_workers (n : nat) (threads : list sb_thread_ctxt_t) : list sb_thread_ctxt_t :=
  for_upto n (fun i threads => alter (fun c => Ctxt (thread c) (Z.of_nat i)) i threads) threads.

Fixpoint create_workers_from (todo i : nat) (threads : list sb_thread_ctxt_t) (st : threads_state)
    : Z * list sb_thread_ctxt_t * threads_state :=
  match todo with
  | O => (EXIT_SUCCESS, threads, st)
  | S todo =>
      let '(err, t, st) := sb_thread_create worker_thread (Some i) st in
      let threads := alter (fun c => Ctxt (match t with Some t => Some t | None => thread c end) (id c)) i threads in
      if negb (err =? 0) then (EXIT_FAILURE, threads, st)
      else create_workers_from todo (S i) threads st
  end.

Definition sb_thread_create_workers (n : nat) (threads : list sb_thread_ctxt_t) (st : threads_state)
    : Z * list sb_thread_ctxt_t * threads_state :=
  create_workers_from n 0 (number_workers n threads) st.

(** [run_test], from the report thread to the workers: a thread that is not
    wanted is not created; the first failure ends the test. *)
Definition create_if (wanted : bool) (r : routine) (st : threads_state) : Z * threads_state :=
  if wanted then let '(err, _, st) := sb_thread_create r None st in (err, st) else (0, st).

Definition create_threads (report eventgen checkpoints : bool) (n : nat)
    (threads : list sb_thread_ctxt_t) (st : threads_state) : Z * list sb_thread_ctxt_t * threads_state :=
  let '(err, st) := create_if report report_thread_proc st in
  if negb (err =? 0) then (1, threads, st)
  else
    let '(err, st) := create_if eventgen eventgen_thread_proc st in
    if negb (err =? 0) then (1, threads, st)
    else
      let '(err, st) := create_if checkpoints checkpoints_thread_proc st in
      if negb (err =? 0) then (1, threads, st)
      else sb_thread_create_workers n threads st.
End library.

(** ** Every created thread starts with what its creator gave it *)

(** [gives h es l]: in heap [h] the entries [es] are for the routines [l]; their
    proxies are distinct and nothing else is in [h]. *)
Definition entry_gives (h : gmap positive sb_thread_proxy) (e : entry) (ra : routine * argument) : Prop :=
  match e with
  | Direct r a => ra = (r, a)
  | Proxied p => h !! p = Some (Proxy ra.1 ra.2)
  end.

Definition proxies_of (es : list entry) : list positive :=
  omap (fun e => match e with Direct _ _ => None | Proxied p => Some p end) es.

Definition gives (h : gmap positive sb_thread_proxy) (es : list entry) (l : list (routine * argument)) : Prop :=
  Forall2 (entry_gives h) es l /\ NoDup (proxies_of es) /\ dom h = list_to_set (proxies_of es).

Lemma entry_gives_insert h p x e ra :
  p ∉ dom h -> entry_gives h e ra -> entry_gives (<[p := x]> h) e ra.
Proof.
  destruct e as [r a|q]; [done|]. cbn. intros Hp Hq. rewrite lookup_insert_ne; [done|].
  intros ->. apply Hp, elem_of_dom. by eexists.
Qed.

Lemma proxies_of_snoc es e :
  proxies_of (es ++ [e]) = proxies_of es ++ match e with Direct _ _ => [] | Proxied p => [p] end.
Proof. unfold proxies_of. rewrite omap_app. by destruct e. Qed.

Lemma sb_thread_create_gives hc mo pc r a st l :
  gives (proxies st) (created st) l ->
  let '(err, t, st') := sb_thread_create hc mo pc r a st in
  if err =? 0
  then t = Some (length l) /\ gives (proxies st') (created st') (l ++ [(r, a)])
  else t = None /\ proxies st' = proxies st /\ created st' = created st.
Proof.
  intros (Hf & Hnd & Hdom). unfold sb_thread_create, call_pthread_create.
  pose proof (Forall2_length _ _ _ Hf) as Hlen.
  destruct hc; [|destruct (mo (attempts st))].
  - destruct (Z.eqb_spec (pc (attempts st)) 0) as [->|Hne]; cbn [Z.eqb proxies created];
      [|by rewrite (proj2 (Z.eqb_neq _ _) Hne)].
    rewrite Hlen. split; [done|]. split; [by apply Forall2_app; [|constructor]|].
    rewrite proxies_of_snoc, app_nil_r. done.
  - cbn [proxies created attempts]. set (p := fresh (dom (proxies st))).
    assert (Hp : p ∉ dom (proxies st)) by apply is_fresh. clearbody p.
    destruct (Z.eqb_spec (pc (attempts st)) 0) as [->|Hne]; cbn [Z.eqb proxies created].
    + rewrite Hlen. split; [done|]. split; [|split].
      * apply Forall2_app; [|constructor; [by cbn; rewrite lookup_insert_eq|done]].
        eapply Forall2_impl; [exact Hf|]. intros e ra. by apply entry_gives_insert.
      * rewrite proxies_of_snoc. apply NoDup_app. split; [done|]. split; [|apply NoDup_singleton].
        intros q Hq Hq'. apply list_elem_of_singleton in Hq' as ->. apply Hp. by rewrite Hdom, elem_of_list_to_set.
      * rewrite dom_insert_L, Hdom, proxies_of_snoc, list_to_set_app_L. set_solver.
    + assert (E : (pc (attempts st) =? 0) = false) by by apply Z.eqb_neq.
      rewrite !E. split; [done|]. split; [|done].
      apply delete_insert_id. by apply not_elem_of_dom.
  - done.
Qed.

(** The threads start in any order. *)
Fixpoint start_all (es : list entry) (h : gmap positive sb_thread_proxy)
    : option (list (routine * argument) * gmap positive sb_thread_proxy) :=
  match es with
  | [] => Some ([], h)
  | e :: es =>
      '(r, a, h) ← thread_start e h;
      '(l, h) ← start_all es h;
      Some ((r, a) :: l, h)
  end.

Lemma start_all_gives h es l : gives h es l -> start_all es h = Some (l, ∅).
Proof.
  intros (Hf & Hnd & Hdom). revert h l Hf Hnd Hdom. induction es as [|e es IH]; intros h l Hf Hnd Hdom.
  { apply Forall2_nil_inv_l in Hf as ->. cbn in *. do 2 f_equal. by apply dom_empty_inv_L. }
  apply Forall2_cons_inv_l in Hf as (ra & l' & He & Hf & ->). cbn [start_all].
  destruct e as [r a|p]; cbn in He |- *.
  - subst ra. cbn in Hnd, Hdom. by rewrite (IH h l' Hf Hnd Hdom).
  - unfold thread_start_routine_proxy. rewrite He. cbn. cbn in Hnd, Hdom.
    apply NoDup_cons in Hnd as [Hp Hnd]. rewrite (IH (delete p h) l'); [by destruct ra| |done|].
    + assert (Hps : forall e ra, e ∈ es -> entry_gives h e ra -> entry_gives (delete p h) e ra).
      { intros [r a|q] ra' Hq Hg; [done|]. cbn in *. rewrite lookup_delete_ne; [done|]. intros <-.
        apply Hp. unfold proxies_of. apply list_elem_of_omap. by exists (Proxied p). }
      clear -Hf Hps. induction Hf as [|e ra es l Hg Hf IH]; [done|]. constructor; [apply Hps; [by left|done]|].
      apply IH. intros e' ra' Hin. apply Hps. by right.
    + rewrite dom_delete_L, Hdom. set_solver.
Qed.

(** The order in which the threads get to run does not matter. *)
Lemma gives_permutation h es es' l :
  gives h es l -> es ≡ₚ es' -> exists l', l ≡ₚ l' /\ gives h es' l'.
Proof.
  intros (Hf & Hnd & Hdom) Hp. destruct (Permutation_Forall2 Hp Hf) as (l' & Hl & Hf').
  exists l'. split; [done|]. split; [done|]. unfold proxies_of in *.
  split; [by rewrite <- Hp|]. by rewrite Hdom, Hp.
Qed.

Lemma range_empty i j : ((i <=? j) && (j <? i + 0))%nat = false.
Proof. destruct (Nat.leb_spec i j), (Nat.ltb_spec j (i + 0)); done || lia. Qed.

Definition worker_start (i : nat) : routine * argument := (worker_thread, Some i).

Lemma create_workers_from_spec hc mo pc todo : forall i ths st l,
  gives (proxies st) (created st) l ->
  let '(err, ths', st') := create_workers_from hc mo pc todo i ths st in
  exists k, (k <= todo)%nat /\
    gives (proxies st') (created st') (l ++ map worker_start (seq i k)) /\
    err = (if (k =? todo)%nat then EXIT_SUCCESS else EXIT_FAILURE) /\
    length ths' = length ths /\
    (forall j, ths' !! j = (fun c => Ctxt (if ((i <=? j) && (j <? i + k))%nat
                                     then Some (length l + (j - i))%nat else thread c) (id c)) <$> ths !! j).
Proof.
  induction todo as [|todo IH]; intros i ths st l Hg; cbn [create_workers_from].
  { exists 0%nat. split; [lia|]. cbn. rewrite app_nil_r. split_and!; try done. intros j.
    rewrite range_empty.
    destruct (ths !! j) as [[]|]; done. }
  pose proof (sb_thread_create_gives hc mo pc worker_thread (Some i) st l Hg) as Hc.
  destruct (sb_thread_create _ _ _ _ _ _) as [[err t] st1]. destruct (err =? 0); cbn [negb].
  - destruct Hc as [-> Hg1]. set (ths1 := alter _ i ths).
    specialize (IH (S i) ths1 st1 _ Hg1). destruct (create_workers_from _ _ _ _ _ _ _) as [[err' ths'] st'].
    destruct IH as (k & Hk & Hg' & He & Hl & Hj). exists (S k). split; [lia|]. split.
    { cbn [seq map]. by rewrite <- app_assoc in Hg'. }
    split; [done|]. split; [unfold ths1 in Hl; by rewrite length_alter in Hl|].
    intros j. rewrite Hj. unfold ths1. rewrite length_app, Nat.add_1_r.
    destruct (decide (i = j)) as [<-|Hne].
    + rewrite list_lookup_alter_eq. destruct (ths !! i) as [c|]; [|done]. cbn [fmap option_fmap option_map thread id].
      rewrite Nat.sub_diag, Nat.add_0_r, Nat.leb_refl, (proj2 (Nat.ltb_lt i (i + S k))) by lia.
      by rewrite (proj2 (Nat.leb_gt (S i) i)) by lia.
    + rewrite list_lookup_alter_ne by done. destruct (ths !! j) as [c|]; [|done]. cbn [fmap option_fmap option_map].
      do 2 f_equal. destruct (Nat.leb_spec (S i) j), (Nat.leb_spec i j), (Nat.ltb_spec j (S i + k)),
        (Nat.ltb_spec j (i + S k)); cbn [andb]; try lia; try done. f_equal. lia.
  - destruct Hc as (-> & Hp & Hcr). exists 0%nat. split; [lia|]. cbn [seq map]. rewrite app_nil_r, Hp, Hcr.
    split_and!; [done..|by rewrite length_alter|]. intros j.
    rewrite range_empty.
    destruct (decide (i = j)) as [<-|Hne].
    + rewrite list_lookup_alter_eq. by destruct (ths !! i) as [[]|].
    + rewrite list_lookup_alter_ne by done. by destruct (ths !! j) as [[]|].
Qed.

Lemma number_workers_spec n ths j :
  number_workers n ths !! j = (fun c => Ctxt (thread c) (if (j <? n)%nat then Z.of_nat j else id c)) <$> ths !! j.
Proof.
  unfold number_workers. induction n as [|n IH].
  - cbn. by destruct (ths !! j) as [[]|].
  - rewrite for_upto_S. destruct (decide (n = j)) as [<-|Hne].
    + rewrite list_lookup_alter_eq, IH. destruct (ths !! n) as [c|]; [|done]. cbn [fmap option_fmap option_map thread id].
      by rewrite (proj2 (Nat.ltb_lt n (S n))) by lia.
    + rewrite list_lookup_alter_ne, IH by done. destruct (ths !! j) as [c|]; [|done]. cbn [fmap option_fmap option_map].
      do 2 f_equal. destruct (Nat.ltb_spec j n), (Nat.ltb_spec j (S n)); try lia; done.
Qed.

(** The threads that [run_test] means to create, in order: those of the
    background and the workers. *)
Definition background (report eventgen checkpoints : bool) : list (routine * argument) :=
  (if report then [(report_thread_proc, None)] else []) ++
  (if eventgen then [(eventgen_thread_proc, None)] else []) ++
  (if checkpoints then [(checkpoints_thread_proc, None)] else []).

Definition planned (report eventgen checkpoints : bool) (n : nat) : list (routine * argument) :=
  background report eventgen checkpoints ++ map worker_start (seq 0 n).

Lemma create_if_spec hc mo pc wanted r st l :
  gives (proxies st) (created st) l ->
  let '(err, st') := create_if hc mo pc wanted r st in
  if err =? 0 then gives (proxies st') (created st') (l ++ if wanted then [(r, None)] else [])
  else gives (proxies st') (created st') l /\ wanted = true.
Proof.
  intros Hg. unfold create_if. destruct wanted; [|by cbn; rewrite app_nil_r].
  pose proof (sb_thread_create_gives hc mo pc r None st l Hg) as Hc.
  destruct (sb_thread_create _ _ _ _ _ _) as [[err t] st1].
  destruct (err =? 0); [apply Hc|]. by destruct Hc as (_ & -> & ->).
Qed.

(** The outcome of [create_threads]: [k] threads of the plan. *)
Lemma create_threads_gives hc mo pc report eventgen checkpoints n ths :
  length ths = n ->
  let bg := background report eventgen checkpoints in
  let plan := planned report eventgen checkpoints n in
  let '(err, ths', st) :=
    create_threads hc mo pc report eventgen checkpoints n ths (ThreadsState ∅ [] 0) in
  exists k, (k <= length plan)%nat /\ gives (proxies st) (created st) (take k plan) /\
    (err = 0 <-> k = length plan) /\
    ((length bg <= k)%nat -> forall i, (i < n)%nat ->
       ths' !! i = (fun c => Ctxt (if (i <? k - length bg)%nat then Some (length bg + i)%nat else thread c)
                       (Z.of_nat i)) <$> ths !! i).
Proof.
  intros Hn bg plan. unfold create_threads.
  assert (Hlen : length plan = (length bg + n)%nat) by (unfold plan, planned; by rewrite length_app, length_map, length_seq).
  assert (Htk : forall l rest, bg = l ++ rest -> take (length l) plan = l).
  { intros l rest E. unfold plan, planned. fold bg. by rewrite E, <- app_assoc, take_app_length. }
  assert (Hstop : forall l x st, (exists rest, bg = l ++ x :: rest) -> gives (proxies st) (created st) l ->
    exists k, (k <= length plan)%nat /\ gives (proxies st) (created st) (take k plan) /\
      (1 = 0 <-> k = length plan) /\
      ((length bg <= k)%nat -> forall i, (i < n)%nat ->
         ths !! i = (fun c => Ctxt (if (i <? k - length bg)%nat then Some (length bg + i)%nat else thread c)
                       (Z.of_nat i)) <$> ths !! i)).
  { intros l x st [rest E] Hg. exists (length l). pose proof (f_equal length E) as El. rewrite length_app in El.
    cbn [length] in El. split; [lia|]. rewrite (Htk l (x :: rest)) by done. split; [done|]. split; [lia|]. intros; lia. }
  pose proof (create_if_spec hc mo pc report report_thread_proc (ThreadsState ∅ [] 0) []) as H1.
  destruct (create_if _ _ _ report _ _) as [err1 st1].
  specialize (H1 ltac:(split; [constructor|split; [constructor|apply dom_empty_L]])).
  destruct (err1 =? 0); cbn [negb].
  2: { destruct H1 as [H1 ->]. eapply Hstop; [|exact H1]. by eexists. }
  pose proof (create_if_spec hc mo pc eventgen eventgen_thread_proc st1 _ H1) as H2.
  destruct (create_if _ _ _ eventgen _ _) as [err2 st2]. destruct (err2 =? 0); cbn [negb].
  2: { destruct H2 as [H2 ->]. eapply Hstop; [|exact H2]. by eexists. }
  pose proof (create_if_spec hc mo pc checkpoints checkpoints_thread_proc st2 _ H2) as H3.
  destruct (create_if _ _ _ checkpoints _ _) as [err3 st3]. destruct (err3 =? 0); cbn [negb].
  2: { destruct H3 as [H3 ->]. eapply Hstop; [|exact H3]. exists []. subst bg. unfold background. by rewrite <- !app_assoc. }
  assert (Ebg : (([] ++ (if report then [(report_thread_proc, None)] else [])) ++
    (if eventgen then [(eventgen_thread_proc, None)] else [])) ++
    (if checkpoints then [(checkpoints_thread_proc, None)] else []) = bg)
    by (subst bg; unfold background; by rewrite <- !app_assoc).
  rewrite Ebg in H3. unfold sb_thread_create_workers.
  pose proof (create_workers_from_spec hc mo pc n 0 (number_workers n ths) st3 bg H3) as H4.
  destruct (create_workers_from _ _ _ _ _ _ _) as [[err ths'] st]. destruct H4 as (k & Hk & Hg & He & _ & Hj).
  exists (length bg + k)%nat. split; [lia|]. split.
  { unfold plan, planned. fold bg. rewrite take_app_add. by rewrite firstn_map, take_seq, Nat.min_l by lia. }
  split; [subst err; unfold EXIT_SUCCESS, EXIT_FAILURE; destruct (Nat.eqb_spec k n); lia|].
  intros _ i Hi. rewrite Hj, number_workers_spec. destruct (ths !! i) as [c|]; [|done].
  cbn [fmap option_fmap option_map thread id]. rewrite Nat.sub_0_r, (proj2 (Nat.ltb_lt i n)) by lia.
  replace (length bg + k - length bg)%nat with k by lia. done.
Qed.

(** C8: The threads of the benchmark are created as planned, up to the first
    failure.  With or without [pthread_cancel], whichever calls of the thread
    library and of [malloc] fail: the created threads, in whatever order they get
    to run, start planned routines with their arguments, those of a prefix of the
    plan, each once, and leave no proxy allocated; the result is 0 exactly when
    the plan is complete; and once the background threads exist every worker's
    descriptor has its number and, if the worker was created, its thread. *)
Theorem threads_created_as_planned hc mo pc report eventgen checkpoints n ths :
  length ths = n ->
  let bg := length (background report eventgen checkpoints) in
  let plan := planned report eventgen checkpoints n in
  let '(err, ths', st) :=
    create_threads hc mo pc report eventgen checkpoints n ths (ThreadsState ∅ [] 0) in
  exists k, (k <= length plan)%nat /\
    start_all (created st) (proxies st) = Some (take k plan, ∅) /\
    (forall es, created st ≡ₚ es -> exists l, start_all es (proxies st) = Some (l, ∅) /\ l ≡ₚ take k plan) /\
    (err = 0 <-> k = length plan) /\
    ((bg <= k)%nat -> forall i, (i < n)%nat ->
       ths' !! i = (fun c => Ctxt (if (i <? k - bg)%nat then Some (bg + i)%nat else thread c) (Z.of_nat i))
                   <$> ths !! i).
Proof.
  intros Hn bg plan. pose proof (create_threads_gives hc mo pc report eventgen checkpoints n ths Hn) as H.
  destruct (create_threads _ _ _ _ _ _ _ _ _) as [[err ths'] st]. destruct H as (k & Hk & Hg & He & Hi).
  exists k. split_and!; [done|by apply start_all_gives| |done|done].
  intros es Hes. destruct (gives_permutation _ _ _ _ Hg Hes) as (l' & Hl & Hg'). exists l'.
  split; [by apply start_all_gives|by symmetry].
Qed.

(** Three workers and the report thread; the fourth call of [pthread_create]
    fails, and the threads get to run in the opposite order. *)
Definition example_create : Z * list sb_thread_ctxt_t * threads_state :=
  create_threads false (fun _ => true) (fun k => if (k =? 3)%nat then 11 else 0) true false false 3
    (replicate 3 (Ctxt None 0)) (ThreadsState ∅ [] 0).

Lemma threads_created_as_planned_witness :
  example_create.1.1 = EXIT_FAILURE /\
  map id example_create.1.2 = [0; 1; 2] /\ map thread example_create.1.2 = [Some 1; Some 2; None]%nat /\
  exists l, start_all (reverse (created example_create.2)) (proxies example_create.2) = Some (l, ∅) /\
    l ≡ₚ [(report_thread_proc, None); (worker_thread, Some 0); (worker_thread, Some 1)]%nat.
Proof.
  split; [reflexivity|]. split; [reflexivity|]. split; [reflexivity|].
  pose proof (threads_created_as_planned false (fun _ => true) (fun k => if (k =? 3)%nat then 11 else 0)
    true false false 3 (replicate 3 (Ctxt None 0)) eq_refl) as H.
  fold example_create in H. cbv zeta in H.
  rewrite (surjective_pairing example_create), (surjective_pairing example_create.1) in H.
  destruct H as (k & Hk & Hs & Hp & _).
  assert (Hs' : start_all (created example_create.2) (proxies example_create.2) =
    Some ([(report_thread_proc, None); (worker_thread, Some 0); (worker_thread, Some 1)]%nat, ∅))
    by (vm_compute; reflexivity).
  specialize (Hp (reverse (created example_create.2))). rewrite Hs' in Hs.
  injection Hs as Hs. rewrite <- Hs in Hp.
  apply Hp. symmetry. apply reverse_Permutation.
Defined.

(** ** The end of a thread *)

(** Cancelling reaches the thread in both configurations: the signal that is
    sent is the one whose handler ends the thread. *)
Theorem sb_thread_cancel_ends pcancel pkill t :
  sb_thread_cancel true pcancel pkill t = pcancel t /\
  sb_thread_cancel false pcancel pkill t = pkill t SIGUSR1 /\
  thread_cancel_handler SIGUSR1 = Some PTHREAD_CANCELED.
Proof. done. Qed.
