(* ===== verification/Shutdown.v ===== *)
(** * The end of a test: stopping the report threads ([sysbench.c], end of [run_test])

    When the workers have ended the main thread silences the intermediate reports,
    cancels and joins the background threads that have told it that they run, and
    makes the final report, which takes the lock of the latency histogram as theirs
    do; with --histogram it prints the histogram before, under the same lock, which
    [sb_histogram_print] does not release when there is nothing to print
    ([Histogram.empty_histogram_print_keeps_lock]).  The threads go on in the
    meantime; a checkpoint report empties the histogram.  With [pthread_cancel] a
    thread ends at a cancellation point, where it sleeps or prints; without it
    ([sb_thread.c]) a signal ends it wherever it is.  The event generator is a thread
    that never takes the lock.  After an error there is no final report, and when the
    cleanup of the test fails main returns before it cancels anybody. *)

From S2P Require Import Prelude.

#[local] Set Warnings "-clear-no-such-hyp".

(** ** Threads and states *)

(** A background thread: past the report barrier; in [sb_nanosleep]; in
    [report_intermediate] or [report_cumulative], before, in and after the part
    that holds the lock of the histogram; ended. *)
Inductive position := Arrived | Sleeping | Reporting | Holding | Printing | Ended.

#[global] Instance position_eq_dec : EqDecision position.
Proof. solve_decision. Defined.

(** [created] is [report_thread_created] or [checkpoints_thread_created]. *)
Record background := Background { pos : position; created : bool; cancelled : bool }.

(** The main thread: before it stores 0 in [report_interval]; at the test of
    [created] of thread [i], which after the last thread is that of the error flag;
    in [sb_thread_join] for it; in [sb_histogram_print] with the lock; back from it,
    with the lock or without; in the final report with the lock; after it. *)
Inductive main_at := Silence | Look (i : nat) | Join (i : nat) | PrintHist | Printed (kept : bool) | Report | Finished.

#[global] Instance main_at_eq_dec : EqDecision main_at.
Proof. solve_decision. Defined.

Inductive holder := Main | Thread (i : nat).

(** [recorded]: the histogram holds events. *)
Record shutdown := Shutdown {
  main : main_at;
  silenced : bool;
  recorded : bool;
  lock : option holder;
  threads : list background
}.

Definition set_main (m : main_at) (s : shutdown) : shutdown :=
  Shutdown m (silenced s) (recorded s) (lock s) (threads s).
Definition set_recorded (r : bool) (s : shutdown) : shutdown :=
  Shutdown (main s) (silenced s) r (lock s) (threads s).
Definition set_lock (l : option holder) (s : shutdown) : shutdown :=
  Shutdown (main s) (silenced s) (recorded s) l (threads s).
Definition set_thread (i : nat) (b : background) (s : shutdown) : shutdown :=
  Shutdown (main s) (silenced s) (recorded s) (lock s) (<[i := b]> (threads s)).

Section shutdown.
(** Whether threads are cancelled by [pthread_cancel]; which of them look at
    [report_interval] (the report thread does, the checkpoint thread does not), which
    end by themselves (the checkpoint thread, after its last checkpoint), and whose
    reports reset the histogram (the checkpoint thread's); --histogram; the error flag
    when the threads have been joined; and whether the test's [cleanup] succeeds. *)
Context (have_pthread_cancel : bool) (obeys finite resets : nat -> bool) (histogram error cleaned : bool).

(** ** Steps *)

Definition goes_to (i : nat) (b : background) (p : position) (s : shutdown) : shutdown :=
  set_thread i (Background p (created b) (cancelled b)) s.

(** The loops of [report_thread_proc] and [checkpoints_thread_proc]. *)
Inductive thread_step (i : nat) (b : background) (s : shutdown) : shutdown -> Prop :=
| T_created : pos b = Arrived -> thread_step i b s (set_thread i (Background Sleeping true (cancelled b)) s)
| T_wakes : pos b = Sleeping -> thread_step i b s (goes_to i b Reporting s)
| T_ends : pos b = Sleeping -> finite i = true -> thread_step i b s (goes_to i b Ended s)
| T_silent : pos b = Reporting -> obeys i = true -> silenced s = true -> thread_step i b s (goes_to i b Sleeping s)
| T_locks : pos b = Reporting -> lock s = None ->
    thread_step i b s (set_lock (Some (Thread i)) (goes_to i b Holding s))
| T_unlocks : pos b = Holding ->
    thread_step i b s (set_recorded (recorded s && negb (resets i)) (set_lock None (goes_to i b Printing s)))
| T_printed : pos b = Printing -> thread_step i b s (goes_to i b Sleeping s)
| T_cancelled : cancelled b = true -> have_pthread_cancel = true -> pos b = Sleeping \/ pos b = Printing ->
    thread_step i b s (goes_to i b Ended s)
| T_killed : cancelled b = true -> have_pthread_cancel = false -> pos b <> Ended ->
    thread_step i b s (goes_to i b Ended s).

(** [run_test] after the workers have been joined. *)
Inductive step (s : shutdown) : shutdown -> Prop :=
| S_thread i b s' : threads s !! i = Some b -> thread_step i b s s' -> step s s'
| S_silence : main s = Silence -> cleaned = true -> step s (Shutdown (Look 0) true (recorded s) (lock s) (threads s))
| S_cleanup_fails : main s = Silence -> cleaned = false ->
    step s (Shutdown Finished true (recorded s) (lock s) (threads s))
| S_skip i b : main s = Look i -> threads s !! i = Some b -> created b = false -> step s (set_main (Look (S i)) s)
| S_cancel i b : main s = Look i -> threads s !! i = Some b -> created b = true ->
    step s (set_main (Join i) (set_thread i (Background (pos b) true true) s))
| S_joined i b : main s = Join i -> threads s !! i = Some b -> pos b = Ended -> step s (set_main (Look (S i)) s)
| S_error : main s = Look (length (threads s)) -> error = true -> step s (set_main Finished s)
| S_print : main s = Look (length (threads s)) -> error = false -> histogram = true -> lock s = None ->
    step s (set_lock (Some Main) (set_main PrintHist s))
| S_printed : main s = PrintHist ->
    step s (set_lock (if recorded s then None else lock s) (set_main (Printed (negb (recorded s))) s))
| S_report kept :
    (main s = Look (length (threads s)) /\ error = false /\ histogram = false) \/ main s = Printed kept ->
    lock s = None -> step s (set_lock (Some Main) (set_main Report s))
| S_reported : main s = Report -> step s (set_recorded false (set_lock None (set_main Finished s))).

(** The threads have passed the barrier and are anywhere by now; one can be in the
    middle of a report. *)
Definition lock_held (s : shutdown) : Prop :=
  forall i, lock s = Some (Thread i) <-> exists b, threads s !! i = Some b /\ pos b = Holding.

Definition initial (s : shutdown) : Prop :=
  main s = Silence /\ silenced s = false /\ lock s <> Some Main /\ lock_held s /\
  Forall (fun b => cancelled b = false /\ (created b = false <-> pos b = Arrived)) (threads s).

Definition reachable (s0 s : shutdown) : Prop := rtc step s0 s.
End shutdown.

(** ** The invariant *)




Section orderly.
Context (obeys finite resets : nat -> bool) (histogram error cleaned : bool).
#[local] Abbreviation step := (step true obeys finite resets histogram error cleaned).
#[local] Abbreviation thread_step := (thread_step true obeys finite resets).












(** ** Main is never blocked for good *)






(** ** What main prints *)







(** ** Nothing to print *)








(** ** Properties *)

End orderly.

(** A background thread alone. *)
Definition one_reporter (p : position) (run cancel : bool) (m : main_at) (sil rec : bool) (l : option holder) : shutdown :=
  Shutdown m sil rec l [Background p run cancel].

Lemma one_reporter_initial p run rec :
  (run = false <-> p = Arrived) ->
  initial (one_reporter p run false Silence false rec (if decide (p = Holding) then Some (Thread 0) else None)).
Proof.
  intros Hr. split; [done|]. split; [done|]. split; [cbn; by case_decide|]. split.
  - intros [|i]; cbn; case_decide as Hp; naive_solver.
  - by repeat constructor; try apply Hr.
Qed.

(** Without [pthread_cancel] the signal can end a report thread that holds the lock
    of the histogram: the final report then waits for ever. *)
Theorem killed_reporter_blocks obeys finite resets histogram :
  exists s0 s, initial s0 /\ reachable false obeys finite resets histogram false true s0 s /\
    main s = Look (length (threads s)) /\ forall s', ~ step false obeys finite resets histogram false true s s'.
Proof.
  exists (one_reporter Holding true false Silence false true (Some (Thread 0))),
    (one_reporter Ended true true (Look 1) true true (Some (Thread 0))).
  split; [by apply (one_reporter_initial Holding)|]. split.
  - eapply rtc_l; [by apply S_silence|]. eapply rtc_l; [by eapply S_cancel|].
    eapply rtc_l; [eapply S_thread with (i := 0%nat); [done|by apply T_killed]|].
    eapply rtc_l; [by eapply S_joined|]. apply rtc_refl.
  - split; [done|]. intros s' Hs. inversion Hs as [i b s1 Hi Ht| | | | | | | | | |]; subst; cbn in *; simplify_eq.
    destruct i as [|i]; [|done]. injection Hi as <-. inversion Ht; cbn in *; naive_solver.
Qed.

(** A thread that is late to tell that it runs is not cancelled: the checkpoint
    thread goes on to report while the program ends. *)
Theorem late_reporter_survives finite resets :
  exists s0 s s', initial s0 /\ reachable true (fun _ => false) finite resets false false true s0 s /\ main s = Finished /\
    reachable true (fun _ => false) finite resets false false true s s' /\ lock s' = Some (Thread 0).
Proof.
  exists (one_reporter Arrived false false Silence false true None),
    (one_reporter Arrived false false Finished true false None),
    (one_reporter Holding true false Finished true false (Some (Thread 0))).
  split; [by apply (one_reporter_initial Arrived)|]. split.
  - eapply rtc_l; [by apply S_silence|]. eapply rtc_l; [by eapply S_skip|].
    eapply rtc_l; [by apply (S_report _ _ _ _ _ _ _ _ true); [left|]|].
    eapply rtc_l; [by apply S_reported|]. apply rtc_refl.
  - split; [done|]. split; [|done].
    eapply rtc_l; [eapply S_thread with (i := 0%nat); [done|by apply T_created]|].
    eapply rtc_l; [eapply S_thread with (i := 0%nat); [done|by apply T_wakes]|].
    eapply rtc_l; [eapply S_thread with (i := 0%nat); [done|by apply T_locks]|]. apply rtc_refl.
Qed.

(** A checkpoint report after the last event empties the histogram, so with
    --histogram the program hangs at its end although events were executed. *)
Theorem checkpoint_before_print_blocks finite :
  exists s0 s, initial s0 /\ recorded s0 = true /\
    reachable true (fun _ => false) finite (fun _ => true) true false true s0 s /\
    main s = Printed true /\ forall s', ~ step true (fun _ => false) finite (fun _ => true) true false true s s'.
Proof.
  exists (one_reporter Holding true false Silence false true (Some (Thread 0))),
    (one_reporter Ended true true (Printed true) true false (Some Main)).
  split; [by apply (one_reporter_initial Holding)|]. split; [done|]. split.
  - eapply rtc_l; [by apply S_silence|]. eapply rtc_l; [by eapply S_cancel|].
    eapply rtc_l; [eapply S_thread with (i := 0%nat); [done|by apply T_unlocks]|].
    eapply rtc_l; [eapply S_thread with (i := 0%nat); [done|apply T_cancelled; [done|done|by right]]|].
    eapply rtc_l; [by eapply S_joined|]. eapply rtc_l; [by apply S_print|]. eapply rtc_l; [by apply S_printed|].
    apply rtc_refl.
  - split; [done|]. intros s' Hs. inversion Hs as [i b s1 Hi Ht| | | | | | | | |kept Hk Hl|]; subst; cbn in *; simplify_eq.
    destruct i as [|i]; [|done]. injection Hi as <-. inversion Ht; cbn in *; naive_solver.
Qed.

