(* ===== verification/Reports.v ===== *)
(** * Statistics reports ([sysbench.c], first part)

    The reports combine the counters, the latency histogram and the per-thread
    timers.  [world] holds the variables they share; a report that needs the
    histogram's lock is [Blocked] when the lock is held.  Every reading of the
    clock is an argument. *)

From S2P Require Import Prelude Double Counter Timer Histogram.

(** ** Global variables *)

Definition MAX_CHECKPOINTS : nat := 256.

Record sb_globals_t := Globals {
  g_error : Z;
  tx_rate : Z;
  max_events : Z;
  max_time_ns : Z;
  threads : Z;
  threads_running : Z;
  report_interval : Z;
  percentile : Z;
  histogram : Z;
  checkpoints : list Z;
  debug : Z;
  timeout : Z;
  validate : Z;
  concurrency : Z;
  force_shutdown : Z;
  forced_shutdown_in_progress : Z;
  warmup_time : Z;
  nevents : Z
}.

Record world := World {
  globals : sb_globals_t;
  counts : counters;
  latency_histogram : sb_histogram_t;
  timers : list sb_timer_t;
  timers_copy : list sb_timer_t;
  sb_exec_timer : sb_timer_t;
  sb_intermediate_timer : sb_timer_t;
  sb_checkpoint_timer : sb_timer_t
}.

(** ** Statistics *)

Record sb_stat_t := Stat {
  st_threads_running : Z;
  time_interval : dbl;
  time_total : dbl;
  latency_pct : dbl;
  latency_min : dbl;
  latency_max : dbl;
  latency_avg : dbl;
  latency_sum : dbl;
  st_events : Z;
  st_reads : Z;
  st_writes : Z;
  st_other : Z;
  st_errors : Z;
  st_reconnects : Z;
  st_bytes_read : Z;
  st_bytes_written : Z;
  queue_length : Z;
  st_concurrency : Z
}.

Definition MS2SEC (msec : dbl) : dbl := ddiv msec (d_of_Z MS_PER_SEC).
Definition SEC2MS (sec : dbl) : dbl := dmul sec (d_of_Z MS_PER_SEC).

Definition cnt_of (cnt : list Z) (t : sb_counter_type_t) : Z := Counter.cell cnt (cnt_index t).

(** [now] is the clock read by [sb_timer_value]. *)
Definition report_get_common_stat (w : world) (now : timespec) (cnt : list Z) : sb_stat_t :=
  Stat (threads_running (globals w)) (Fin 0)
    (dsub (NS2SEC (sb_timer_value now (sb_exec_timer w))) (d_of_Z (warmup_time (globals w))))
    (Fin 0) (Fin 0) (Fin 0) (Fin 0) (Fin 0)
    (cnt_of cnt SB_CNT_EVENT) (cnt_of cnt SB_CNT_READ) (cnt_of cnt SB_CNT_WRITE)
    (cnt_of cnt SB_CNT_OTHER) (cnt_of cnt SB_CNT_ERROR) (cnt_of cnt SB_CNT_RECONNECT)
    (cnt_of cnt SB_CNT_BYTES_READ) (cnt_of cnt SB_CNT_BYTES_WRITTEN) 0 0.

Definition set_interval (s : sb_stat_t) (x pct : dbl) : sb_stat_t :=
  Stat (st_threads_running s) x (time_total s) pct (latency_min s) (latency_max s) (latency_avg s)
    (latency_sum s) (st_events s) (st_reads s) (st_writes s) (st_other s) (st_errors s)
    (st_reconnects s) (st_bytes_read s) (st_bytes_written s) (queue_length s) (st_concurrency s).
Definition set_latencies (s : sb_stat_t) (mn mx av sm : dbl) : sb_stat_t :=
  Stat (st_threads_running s) (time_interval s) (time_total s) (latency_pct s) mn mx av sm
    (st_events s) (st_reads s) (st_writes s) (st_other s) (st_errors s)
    (st_reconnects s) (st_bytes_read s) (st_bytes_written s) (queue_length s) (st_concurrency s).
Definition set_queue (s : sb_stat_t) (len conc : Z) : sb_stat_t :=
  Stat (st_threads_running s) (time_interval s) (time_total s) (latency_pct s) (latency_min s)
    (latency_max s) (latency_avg s) (latency_sum s) (st_events s) (st_reads s) (st_writes s)
    (st_other s) (st_errors s) (st_reconnects s) (st_bytes_read s) (st_bytes_written s) len conc.

Definition set_counts (w : world) (c : counters) : world :=
  World (globals w) c (latency_histogram w) (timers w) (timers_copy w)
    (sb_exec_timer w) (sb_intermediate_timer w) (sb_checkpoint_timer w).
Definition set_histogram (w : world) (h : sb_histogram_t) : world :=
  World (globals w) (counts w) h (timers w) (timers_copy w)
    (sb_exec_timer w) (sb_intermediate_timer w) (sb_checkpoint_timer w).
Definition set_timers (w : world) (t tc : list sb_timer_t) : world :=
  World (globals w) (counts w) (latency_histogram w) t tc
    (sb_exec_timer w) (sb_intermediate_timer w) (sb_checkpoint_timer w).
Definition set_intermediate_timer (w : world) (t : sb_timer_t) : world :=
  World (globals w) (counts w) (latency_histogram w) (timers w) (timers_copy w)
    (sb_exec_timer w) t (sb_checkpoint_timer w).
Definition set_checkpoint_timer (w : world) (t : sb_timer_t) : world :=
  World (globals w) (counts w) (latency_histogram w) (timers w) (timers_copy w)
    (sb_exec_timer w) (sb_intermediate_timer w) t.

(** What a report ends with: nothing printed, the statistics and the new state,
    a thread blocked for ever on the histogram's lock, or undefined behaviour. *)
Inductive report (A : Type) :=
| Reported (a : A) (w : world)
| ReportBlocked
| ReportUndefined.
Arguments Reported {A} a w.
Arguments ReportBlocked {A}.
Arguments ReportUndefined {A}.

Definition with_pct {A} (r : Histogram.result dbl) (k : dbl -> sb_histogram_t -> report A) : report A :=
  match r with
  | Histogram.Done x h => k x h
  | Histogram.Blocked => ReportBlocked
  | Histogram.Undefined => ReportUndefined
  end.

Definition zero_timer : sb_timer_t := Timer zero_time zero_time 0 0 0 0 0.
Definition nthreads (w : world) : nat := Z.to_nat (threads (globals w)).

Section reports.
Context (exp sqrt : dbl -> dbl).

(** [ring_size] is [ck_ring_size(&queue_ring)]; the result is the statistics
    given to the report handler, [None] when reports are silenced. *)
Definition report_intermediate (ring_size : Z) (now_total now_interval : timespec) (w : world)
    : report (option sb_stat_t) :=
  if report_interval (globals w) =? 0 then Reported None w
  else
    let '(cnt, c) := sb_counters_agg_intermediate (nthreads w) (counts w) in
    let w := set_counts w c in
    let stat := report_get_common_stat w now_total cnt in
    with_pct (sb_histogram_get_pct_intermediate exp (latency_histogram w) (d_of_Z (percentile (globals w))))
      (fun pct h =>
        let w := set_histogram w h in
        let '(ns, t) := sb_timer_current now_interval (sb_intermediate_timer w) in
        let stat := set_interval stat (NS2SEC ns) (MS2SEC pct) in
        let stat := if 0 <? tx_rate (globals w)
                    then set_queue stat ring_size (u64 (concurrency (globals w))) else stat in
        Reported (Some stat) (set_intermediate_timer w t)).

(** The loop over the worker threads' timers. *)
Definition checkpoint_timers (n : nat) (ts tcs : list sb_timer_t) : list sb_timer_t * list sb_timer_t :=
  for_upto n (fun i '(ts, tcs) =>
    let '(old, t) := sb_timer_checkpoint (nth i ts zero_timer) in
    (<[i := t]> ts, <[i := old]> tcs)) (ts, tcs).

Definition checkpoint (now_total now_interval : timespec) (w : world) : report sb_stat_t :=
  let '(cnt, c) := sb_counters_agg_cumulative (nthreads w) (counts w) in
  let w := set_counts w c in
  let stat := report_get_common_stat w now_total cnt in
  let '(ns, t) := sb_timer_current now_interval (sb_checkpoint_timer w) in
  let w := set_checkpoint_timer w t in
  with_pct (sb_histogram_get_pct_checkpoint exp (latency_histogram w) (d_of_Z (percentile (globals w))))
    (fun pct h =>
      let w := set_histogram w h in
      let '(ts, tcs) := checkpoint_timers (nthreads w) (timers w) (timers_copy w) in
      Reported (set_interval stat (NS2SEC ns) (MS2SEC pct)) (set_timers w ts tcs)).

(** Merging the first [n] timers of a list. *)
Definition merge_timers (n : nat) (ts : list sb_timer_t) : sb_timer_t :=
  for_upto n (fun i t => sb_timer_merge t (nth i ts zero_timer)) (sb_timer_init zero_timer).

(** The statistics given to the cumulative report handler. *)
Definition report_cumulative (now_total now_interval : timespec) (w : world) : report sb_stat_t :=
  match checkpoint now_total now_interval w with
  | Reported stat w =>
      let t := merge_timers (nthreads w) (timers_copy w) in
      Reported (set_latencies stat (NS2SEC (sb_timer_min t)) (NS2SEC (sb_timer_max t))
                  (NS2SEC (sb_timer_avg t)) (NS2SEC (sb_timer_sum t))) w
  | ReportBlocked => ReportBlocked
  | ReportUndefined => ReportUndefined
  end.

(** ** The default handlers *)

(** What [sb_report_intermediate] prints: threads, events per second, the
    percentile and its latency, and in --rate mode the queue. *)
Record intermediate_line := IntermediateLine {
  il_time : dbl; il_threads : Z; il_eps : dbl; il_percentile : Z; il_latency : dbl;
  il_queue : option (Z * Z)
}.

Definition sb_report_intermediate (g : sb_globals_t) (stat : sb_stat_t) : intermediate_line :=
  IntermediateLine (time_total stat) (st_threads_running stat)
    (ddiv (d_of_Z (st_events stat)) (time_interval stat)) (percentile g)
    (SEC2MS (latency_pct stat))
    (if 0 <? tx_rate g then Some (queue_length stat, st_concurrency stat) else None).

(** Stopping the timers that are running, on a forced shutdown: the number of
    those and the new timers. [now i] is the clock read for timer [i]. *)
Definition stop_running (now : nat -> timespec) (n : nat) (tcs : list sb_timer_t)
    : Z * list sb_timer_t :=
  for_upto n (fun i '(unfinished, tcs) =>
    let t := nth i tcs zero_timer in
    if sb_timer_running t then (u32 (unfinished + 1), <[i := snd (sb_timer_stop (now i) t)]> tcs)
    else (unfinished, tcs)) (0, tcs).

Record cumulative_lines := CumulativeLines {
  cl_unfinished : option Z;
  cl_eps : dbl; cl_elapsed : dbl; cl_events : Z;
  cl_min : dbl; cl_avg : dbl; cl_max : dbl; cl_percentile : option (Z * dbl); cl_sum : dbl;
  cl_events_avg : dbl; cl_events_stddev : dbl; cl_time_avg : dbl; cl_time_stddev : dbl;
  cl_debug : list (nat * dbl * dbl * dbl * Z * dbl)
}.

Definition sb_report_cumulative (now : nat -> timespec) (stat : sb_stat_t) (w : world)
    : cumulative_lines * world :=
  let g := globals w in
  let n := nthreads w in
  let dn := d_of_Z (threads g) in
  let '(unfinished, tcs) :=
    if forced_shutdown_in_progress g =? 0 then (0, timers_copy w)
    else stop_running now n (timers_copy w) in
  let t := merge_timers n tcs in
  let events_avg := ddiv (d_of_Z (events t)) dn in
  let time_avg := ddiv (latency_sum stat) dn in
  let '(events_dev, time_dev) :=
    for_upto n (fun i '(e, s) =>
      let tc := nth i tcs zero_timer in
      let diff := dabs (dsub events_avg (d_of_Z (events tc))) in
      let e := dadd e (dmul diff diff) in
      let diff := dabs (dsub time_avg (NS2SEC (sb_timer_sum tc))) in
      (e, dadd s (dmul diff diff))) (Fin 0, Fin 0) in
  (CumulativeLines
     (if 0 <? unfinished then Some unfinished else None)
     (ddiv (d_of_Z (st_events stat)) (time_interval stat)) (time_total stat) (st_events stat)
     (SEC2MS (latency_min stat)) (SEC2MS (latency_avg stat)) (SEC2MS (latency_max stat))
     (if 0 <? percentile g then Some (percentile g, SEC2MS (latency_pct stat)) else None)
     (SEC2MS (latency_sum stat))
     events_avg (sqrt (ddiv events_dev dn)) time_avg (sqrt (ddiv time_dev dn))
     (if debug g =? 0 then []
      else map (fun i =>
        let tc := nth i tcs zero_timer in
        (i, NS2SEC (sb_timer_min tc), NS2SEC (sb_timer_avg tc), NS2SEC (sb_timer_max tc),
         events tc, NS2SEC (sb_timer_sum tc))) (seq 0 n)),
   set_timers w (timers w) tcs).

(** The handler of SIGALRM: the statistics it reports before the process exits. *)
Definition sigalrm_forced_shutdown_handler (now : timespec) (now_total now_interval : timespec)
    (w : world) : report sb_stat_t :=
  let g := globals w in
  let g := Globals (g_error g) (tx_rate g) (max_events g) (max_time_ns g) (threads g)
    (threads_running g) (report_interval g) (percentile g) (histogram g) (checkpoints g) (debug g)
    (timeout g) (validate g) (concurrency g) (force_shutdown g) 1 (warmup_time g) (nevents g) in
  report_cumulative now_total now_interval
    (World g (counts w) (latency_histogram w) (timers w) (timers_copy w)
       (snd (sb_timer_stop now (sb_exec_timer w)))
       (snd (sb_timer_stop now (sb_intermediate_timer w)))
       (snd (sb_timer_stop now (sb_checkpoint_timer w)))).
End reports.

(** ** Timers of all worker threads *)

(** The first [n] timers hold the intervals [l 0], ..., [l (n - 1)]. *)
Definition all_recorded (n : nat) (ts : list sb_timer_t) (l : nat -> list Z) : Prop :=
  forall i, (i < n)%nat -> recorded (nth i ts zero_timer) (l i).

Lemma nth_insert {A} (l : list A) i j x d :
  (i < length l)%nat -> nth j (<[i := x]> l) d = if decide (i = j) then x else nth j l d.
Proof.
  intros Hi. rewrite !nth_lookup. destruct (decide (i = j)) as [<-|Hne].
  - by rewrite list_lookup_insert_eq.
  - by rewrite list_lookup_insert_ne.
Qed.

Lemma checkpoint_timers_spec n ts tcs :
  (n <= length ts)%nat -> (n <= length tcs)%nat ->
  let r := checkpoint_timers n ts tcs in
  length r.1 = length ts /\ length r.2 = length tcs /\
  forall i, (i < n)%nat ->
    nth i r.1 zero_timer = sb_timer_reset (nth i ts zero_timer) /\
    nth i r.2 zero_timer = nth i ts zero_timer.
Proof.
  intros Ht Htc r. subst r.
  assert (H : let r := checkpoint_timers n ts tcs in
    length r.1 = length ts /\ length r.2 = length tcs /\
    forall i, nth i r.1 zero_timer =
        (if (i <? n)%nat then sb_timer_reset (nth i ts zero_timer) else nth i ts zero_timer) /\
      nth i r.2 zero_timer = (if (i <? n)%nat then nth i ts zero_timer else nth i tcs zero_timer)).
  { induction n as [|n IH]; [done|]. specialize (IH ltac:(lia) ltac:(lia)). cbv zeta in *.
    unfold checkpoint_timers in *. rewrite for_upto_S.
    destruct (for_upto n _ _) as [a b]. cbn [fst snd] in IH. destruct IH as (Ha & Hb & Hi).
    cbv beta iota zeta delta [sb_timer_checkpoint]. cbn [fst snd].
    rewrite !length_insert. split; [done|]. split; [done|]. intros i.
    rewrite !nth_insert by lia. destruct (Hi n) as [Hn _]. rewrite Nat.ltb_irrefl in Hn.
    destruct (decide (n = i)) as [<-|Hne].
    - by rewrite (proj2 (Nat.ltb_lt n (S n))), Hn by lia.
    - destruct (Hi i) as [-> ->]. destruct (Nat.ltb_spec i n), (Nat.ltb_spec i (S n)); done || lia. }
  destruct H as (H1 & H2 & H3). split; [done|]. split; [done|]. intros i Hi.
  destruct (H3 i) as [-> ->]. by rewrite (proj2 (Nat.ltb_lt i n) Hi).
Qed.

Lemma merge_timers_recorded n ts l :
  all_recorded n ts l -> recorded (merge_timers n ts) (flat_map l (seq 0 n)).
Proof.
  unfold merge_timers. induction n as [|n IH]; intros H; [apply recorded_init|].
  rewrite for_upto_S, seq_S, flat_map_app. cbn [flat_map]. rewrite app_nil_r.
  apply recorded_merge; [|apply H; lia]. apply IH. intros i Hi. apply H. lia.
Qed.

(** The statistics of a list of intervals, as the reports print them. *)
Definition spec_min (l : list Z) : Z := if (length l =? 0)%nat then 0 else list_min l.
Definition spec_avg (l : list Z) : Z := if (length l =? 0)%nat then 0 else sumZ l / Z.of_nat (length l).

Lemma recorded_values t l :
  recorded t l -> Z.of_nat (length l) < 2 ^ 64 -> sumZ l < 2 ^ 64 ->
  sb_timer_min t = spec_min l /\ sb_timer_max t = list_max l /\
  sb_timer_avg t = spec_avg l /\ sb_timer_sum t = sumZ l.
Proof.
  intros (F & E & S & m & M) Hlen Hsum.
  assert (0 <= sumZ l) by (apply sumZ_nonneg; eapply Forall_impl; [exact F|intros z [? _]; done]).
  rewrite u64_small in E, S by (zify_u; lia).
  unfold sb_timer_min, sb_timer_max, sb_timer_avg, sb_timer_sum, spec_min, spec_avg.
  rewrite E, S, m, M.
  destruct (Nat.eqb_spec (length l) 0), (Z.eqb_spec (Z.of_nat (length l)) 0); try lia; done.
Qed.

(** ** Properties *)

#[local] Opaque sb_counters_agg_cumulative.

(** What a cumulative report does to the counters, after any run. *)
Lemma agg_cumulative_run n rows trace :
  (n <= rows)%nat -> Forall (in_rows rows) trace ->
  let out := sb_counters_agg_cumulative n (run n (sb_counters_init rows) trace) in
  (forall t, cnt_of (fst out) t = u64 (added n t (since is_cumulative trace)))
  /\ snd out = run n (sb_counters_init rows) (trace ++ [Cumulative]).
Proof.
  intros Hrows Htrace out. unfold out. split.
  - intros t. unfold cnt_of. destruct (run_accounts n rows trace Hrows Htrace) as [[Hwf Ha] _].
    pose proof (agg_cumulative_spec n _ Hwf) as Hs. destruct (Ha t) as (Ht & _ & Hcu).
    destruct (sb_counters_agg_cumulative n (run n (sb_counters_init rows) trace)) as [val c'].
    destruct Hs as (_ & _ & _ & Hs). destruct (Hs _ (cnt_index_lt t)) as [Ev _]. cbn [fst].
    rewrite Ev, Hcu, u64_sub_r, <- u64_sub_l, Ht, u64_sub_l. f_equal. lia.
  - unfold run. by rewrite foldl_app.
Qed.

(** C25: a cumulative (or checkpoint) report states, for the events the workers
    counted since the previous one, exactly the minimum, maximum, average and sum
    of the latencies all worker threads measured since then, and the bytes and
    events their counters gained; it leaves every worker timer with an empty
    record, so no measurement is reported twice. *)
Theorem report_cumulative_exact (exp : dbl -> dbl) (now_total now_interval : timespec) (w w' : world)
    (stat : sb_stat_t) (rows : nat) (trace : list action) (l : nat -> list Z) :
  let n := nthreads w in
  let all := flat_map l (seq 0 n) in
  (n <= length (timers w))%nat -> (n <= length (timers_copy w))%nat ->
  all_recorded n (timers w) l -> Z.of_nat (length all) < 2 ^ 64 -> sumZ all < 2 ^ 64 ->
  (n <= rows)%nat -> Forall (in_rows rows) trace ->
  counts w = run n (sb_counters_init rows) trace ->
  report_cumulative exp now_total now_interval w = Reported stat w' ->
  latency_min stat = NS2SEC (spec_min all) /\ latency_max stat = NS2SEC (list_max all) /\
  latency_avg stat = NS2SEC (spec_avg all) /\ latency_sum stat = NS2SEC (sumZ all) /\
  st_events stat = u64 (added n SB_CNT_EVENT (since is_cumulative trace)) /\
  st_bytes_read stat = u64 (added n SB_CNT_BYTES_READ (since is_cumulative trace)) /\
  all_recorded n (timers w') (fun _ => []) /\ all_recorded n (timers_copy w') l /\
  counts w' = run n (sb_counters_init rows) (trace ++ [Cumulative]).
Proof.
  intros n all Hts Htcs Hrec Hlen Hsum Hrows Htrace Hcounts H.
  unfold report_cumulative, checkpoint in H. fold n in H.
  destruct (agg_cumulative_run n rows trace Hrows Htrace) as [Hc Hrun]. rewrite <- Hcounts in Hc, Hrun.
  destruct (sb_counters_agg_cumulative n (counts w)) as [cnt c]. cbn [fst snd] in Hc, Hrun.
  cbn [globals latency_histogram set_counts set_checkpoint_timer sb_timer_current] in H.
  destruct (sb_histogram_get_pct_checkpoint _ _ _) as [pct h| |]; cbn [with_pct] in H; [|done..].
  pose proof (checkpoint_timers_spec n (timers w) (timers_copy w) Hts Htcs) as Hct.
  change (nthreads (set_counts w c)) with n in H. cbn [timers timers_copy set_histogram set_checkpoint_timer set_counts] in H.
  unfold nthreads in H. cbn [globals set_histogram set_checkpoint_timer set_counts set_timers] in H. fold (nthreads w) in H. fold n in H.
  destruct (checkpoint_timers n (timers w) (timers_copy w)) as [ts tcs]. cbn [fst snd] in Hct.
  destruct Hct as (_ & _ & Hct). injection H as <- <-.
  assert (Hcopy : all_recorded n tcs l).
  { intros i Hi. destruct (Hct i Hi) as [_ ->]. by apply Hrec. }
  destruct (recorded_values _ _ (merge_timers_recorded n tcs l Hcopy) Hlen Hsum) as (E1 & E2 & E3 & E4).
  cbn [set_latencies set_interval latency_min latency_max latency_avg latency_sum st_events st_bytes_read
    timers timers_copy counts set_timers set_histogram set_checkpoint_timer set_counts
    report_get_common_stat].
  change (Z.to_nat (threads (globals w))) with n. rewrite E1, E2, E3, E4, !Hc. split_and!; try done.
  intros i Hi. destruct (Hct i Hi) as [-> _]. apply recorded_reset.
Qed.

Definition example_globals : sb_globals_t :=
  Globals 0 0 0 0 2 2 0 95 0 [] 0 0 0 0 0 0 0 0.
Definition example_world : world :=
  World example_globals (run 2 (sb_counters_init 3) example_trace)
    (Histogram [3; 4] 7 [0; 0] (replicate SB_HISTOGRAM_NSLOTS [0; 0]) 2 (Fin 0) (Fin 0) (Fin 0) (Fin 1) false)
    [fst (timer_run zero_timer example_ops); fst (timer_run zero_timer []); zero_timer]
    [zero_timer; zero_timer; zero_timer] zero_timer zero_timer zero_timer.
Definition example_intervals (i : nat) : list Z := if (i =? 0)%nat then [500; 2000000000] else [].

Lemma report_cumulative_exact_witness :
  exists stat w', report_cumulative (fun x => x) (Timespec 9 0) (Timespec 9 0) example_world = Reported stat w' /\
    latency_min stat = NS2SEC 500 /\ latency_max stat = NS2SEC 2000000000 /\ st_events stat = 1.
Proof.
  assert (E : exists stat w', report_cumulative (fun x => x) (Timespec 9 0) (Timespec 9 0) example_world
                              = Reported stat w') by (eexists _, _; vm_compute; reflexivity).
  destruct E as (stat & w' & E).
  destruct (report_cumulative_exact (fun x => x) (Timespec 9 0) (Timespec 9 0) example_world w' stat 3
              example_trace example_intervals) as (H1 & H2 & _ & _ & H3 & _).
  - apply Nat.leb_le. reflexivity.
  - apply Nat.leb_le. reflexivity.
  - intros [|[|i]] Hi; [apply (timer_run_recorded zero_timer example_ops)|
      apply (timer_run_recorded zero_timer [])|].
    apply Nat.ltb_lt in Hi. discriminate Hi.
  - vm_compute. reflexivity.
  - vm_compute. reflexivity.
  - apply Nat.leb_le. reflexivity.
  - repeat constructor; cbn; lia.
  - reflexivity.
  - exact E.
  - exists stat, w'. split; [exact E|]. split; [exact H1|]. split; [exact H2|exact H3].
Defined.
