(* ===== verification/EventLoop.v ===== *)
(** * The event loop ([sysbench.c], second part)

    [sb_more_events] grants events to the worker threads: it checks the global
    error flag, the time limit and the limit on the number of events, and in
    --rate mode waits for an event of the queue that the generator thread fills.
    The gate is a function of the global variables; the queue is a class, with
    the ring buffer the program uses as its instance.  It holds pointers to the
    cells of [queue_array], in which the generator stores the times of the events;
    a worker reads the cell after it has taken the pointer.  The waiting is a step
    relation that interleaves the workers and the generator at their atomic
    operations. *)

From S2P Require Import Prelude Double Counter Timer Xoroshiro Rand Histogram Reports.

(** ** The gate: error flag, time limit, event limit *)

Definition set_nevents (n : Z) (g : sb_globals_t) : sb_globals_t :=
  Globals (g_error g) (tx_rate g) (max_events g) (max_time_ns g) (threads g)
    (threads_running g) (report_interval g) (percentile g) (histogram g) (checkpoints g) (debug g)
    (timeout g) (validate g) (concurrency g) (force_shutdown g) (forced_shutdown_in_progress g)
    (warmup_time g) n.
Definition set_concurrency (n : Z) (g : sb_globals_t) : sb_globals_t :=
  Globals (g_error g) (tx_rate g) (max_events g) (max_time_ns g) (threads g)
    (threads_running g) (report_interval g) (percentile g) (histogram g) (checkpoints g) (debug g)
    (timeout g) (validate g) n (force_shutdown g) (forced_shutdown_in_progress g)
    (warmup_time g) (nevents g).
Definition set_globals (w : world) (g : sb_globals_t) : world :=
  World g (counts w) (latency_histogram w) (timers w) (timers_copy w)
    (sb_exec_timer w) (sb_intermediate_timer w) (sb_checkpoint_timer w).

Definition time_limit_exceeded (g : sb_globals_t) (value : Z) : bool :=
  (0 <? max_time_ns g) && (max_time_ns g <=? value).

(** The part of [sb_more_events] before the queue; [value] is the execution
    timer.  The fetch-and-add makes the last check atomic. *)
Definition more_events_gate (value : Z) (g : sb_globals_t) : bool * sb_globals_t :=
  if negb (g_error g =? 0) then (false, g)
  else if time_limit_exceeded g value then (false, g)
  else if 0 <? max_events g then
    (nevents g <? max_events g, set_nevents (u64 (nevents g + 1)) g)
  else (true, g).

(** ** The queue *)

Class Ring (Q : Type) := {
  ring_list : Q -> list Z;
  ring_capacity : nat;
  ring_ok : Q -> Prop;
  ring_bounded : forall q, ring_ok q -> (length (ring_list q) <= ring_capacity)%nat;
  enqueue : Z -> Q -> option Q;
  dequeue : Q -> option (Z * Q);
  enqueue_spec : forall x q, ring_ok q ->
    match enqueue x q with
    | Some q' => ring_ok q' /\ ring_list q' = ring_list q ++ [x]
    | None => length (ring_list q) = ring_capacity
    end;
  dequeue_spec : forall q, ring_ok q ->
    match dequeue q with
    | Some (x, q') => ring_ok q' /\ ring_list q = x :: ring_list q'
    | None => ring_list q = []
    end
}.

Definition MAX_QUEUE_LEN : Z := 131072.

(** ** Steps of the workers and of the event generator in --rate mode *)

(** A worker inside [sb_more_events]: about to dequeue; after a failed dequeue,
    about to read the error flag; about to wait; waiting on the condition
    variable; woken up; with a pointer, that of cell [ptr] of [queue_array], which
    it has still to read; back with an event; back without; or gone through a null
    pointer.  [k] counts the pointers taken before: it is not part of the program. *)
Inductive wpc :=
| WDequeue | WCheckError | WEnterWait | WWaiting | WWoken | WPtr (k : nat) (ptr : Z)
| WGot (k : nat) (event : Z) | WStop | WNull.

(** The generator: at the head of its loop; about to store the time; about to
    enqueue the pointer; about to signal; about to broadcast; at its end. *)
Inductive gpc := GLoop | GStore | GEnqueue | GSignal | GBroadcast | GExit.

(** [i = (i+1) % MAX_QUEUE_LEN] *)
Definition next_index (i : Z) : Z := Z.rem (i + 1) MAX_QUEUE_LEN.

Section queue.
Context {Q : Type} `{!Ring Q}.

(** The ring holds the indices in [queue_array] of the cells it points to; [index]
    is the generator's [i].  The histories [stored], of the times stored, and [taken],
    of the pointers dequeued, are not part of the program. *)
Record qconfig := QConfig {
  ring : Q;
  queue_array : list Z;
  index : Z;
  workers : list wpc;
  gen : gpc;
  q_error : bool;
  expired : bool;
  stored : list Z;
  taken : list Z
}.

Definition set_workers (ws : list wpc) (c : qconfig) : qconfig :=
  QConfig (ring c) (queue_array c) (index c) ws (gen c) (q_error c) (expired c) (stored c) (taken c).
Definition set_worker (i : nat) (p : wpc) (c : qconfig) : qconfig := set_workers (<[i := p]> (workers c)) c.
Definition set_gen (p : gpc) (c : qconfig) : qconfig :=
  QConfig (ring c) (queue_array c) (index c) (workers c) p (q_error c) (expired c) (stored c) (taken c).
Definition set_index (i : Z) (c : qconfig) : qconfig :=
  QConfig (ring c) (queue_array c) i (workers c) (gen c) (q_error c) (expired c) (stored c) (taken c).
Definition set_ring (q : Q) (c : qconfig) : qconfig :=
  QConfig q (queue_array c) (index c) (workers c) (gen c) (q_error c) (expired c) (stored c) (taken c).
Definition set_error (c : qconfig) : qconfig :=
  QConfig (ring c) (queue_array c) (index c) (workers c) (gen c) true (expired c) (stored c) (taken c).
Definition set_expired (c : qconfig) : qconfig :=
  QConfig (ring c) (queue_array c) (index c) (workers c) (gen c) (q_error c) true (stored c) (taken c).
Definition wake_all (c : qconfig) : qconfig :=
  set_workers (map (fun p => match p with WWaiting => WWoken | _ => p end) (workers c)) c.

(** [queue_array[i] = sb_timer_value(&sb_exec_timer)] *)
Definition store_event (x : Z) (c : qconfig) : qconfig :=
  QConfig (ring c) (<[Z.to_nat (index c) := x]> (queue_array c)) (index c) (workers c) (gen c) (q_error c) (expired c)
    (stored c ++ [x]) (taken c).

(** A worker takes the pointer [ptr], which leaves the ring [q]. *)
Definition take_pointer (i : nat) (ptr : Z) (q : Q) (c : qconfig) : qconfig :=
  QConfig q (queue_array c) (index c) (<[i := WPtr (length (taken c)) ptr]> (workers c)) (gen c) (q_error c) (expired c)
    (stored c) (taken c ++ [ptr]).

(** Everything but the environment's own moves. *)
Inductive qstep : qconfig -> qconfig -> Prop :=
| q_dequeue c i ptr q' :
    workers c !! i = Some WDequeue -> dequeue (ring c) = Some (ptr, q') -> qstep c (take_pointer i ptr q' c)
| q_read c i k ptr x :
    workers c !! i = Some (WPtr k ptr) -> queue_array c !! Z.to_nat ptr = Some x -> qstep c (set_worker i (WGot k x) c)
| q_empty c i :
    workers c !! i = Some WDequeue -> dequeue (ring c) = None ->
    qstep c (set_worker i WCheckError c)
| q_loop_exit c i :
    workers c !! i = Some WCheckError -> q_error c = true -> qstep c (set_worker i WNull c)
| q_loop_body c i :
    workers c !! i = Some WCheckError -> q_error c = false -> qstep c (set_worker i WEnterWait c)
| q_wait c i :
    workers c !! i = Some WEnterWait -> qstep c (set_worker i WWaiting c)
| q_woken c i :
    workers c !! i = Some WWoken ->
    qstep c (set_worker i (if q_error c || expired c then WStop else WDequeue) c)
| q_gen_time c :
    gen c = GLoop -> qstep c (set_gen (if expired c then GBroadcast else GStore) c)
| q_gen_store c x :
    gen c = GStore -> qstep c (set_gen GEnqueue (store_event x c))
| q_gen_enqueue c q' :
    gen c = GEnqueue -> enqueue (index c) (ring c) = Some q' -> qstep c (set_gen GSignal (set_ring q' c))
| q_gen_full c :
    gen c = GEnqueue -> enqueue (index c) (ring c) = None -> qstep c (set_gen GBroadcast (set_error c))
| q_gen_signal c i :
    gen c = GSignal -> workers c !! i = Some WWaiting ->
    qstep c (set_gen GLoop (set_index (next_index (index c)) (set_worker i WWoken c)))
| q_gen_signal_none c :
    gen c = GSignal -> ~ In WWaiting (workers c) ->
    qstep c (set_gen GLoop (set_index (next_index (index c)) c))
| q_gen_broadcast c :
    gen c = GBroadcast -> qstep c (set_gen GExit (wake_all c)).

(** The environment: time passes the limit, another thread reports an error, a
    worker comes back for its next event, a spurious wake-up. *)
Inductive estep : qconfig -> qconfig -> Prop :=
| e_expire c : estep c (set_expired c)
| e_error c : estep c (set_error c)
| e_next c i k x : workers c !! i = Some (WGot k x) -> estep c (set_worker i WDequeue c)
| e_spurious c i : workers c !! i = Some WWaiting -> estep c (set_worker i WWoken c).

Definition any_step (c c' : qconfig) : Prop := qstep c c' \/ estep c c'.

(** [queue_array] is a static array. *)
Definition zero_cells : list Z := replicate (Z.to_nat MAX_QUEUE_LEN) 0.

Definition q_initial (q : Q) (n : nat) : qconfig :=
  QConfig q zero_cells 0 (replicate n WDequeue) GLoop false false [] [].

(** ** The invariant of the queue *)

(** The cell of the [k]-th event, and which event a worker has taken. *)
Definition cell_of (k : nat) : Z := Z.of_nat k mod MAX_QUEUE_LEN.
Definition event_of (p : wpc) : option nat := match p with WPtr k _ | WGot k _ => Some k | _ => None end.

Definition enqueued (c : qconfig) : nat := (length (taken c) + length (ring_list (ring c)))%nat.

(** The cell of event [k] has not been stored to again. *)
Definition intact (c : qconfig) (k : nat) : Prop := Z.of_nat (length (stored c)) <= Z.of_nat k + MAX_QUEUE_LEN.

Definition gen_ok (c : qconfig) (g : gpc) : Prop :=
  match g with
  | GLoop | GStore => enqueued c = length (stored c) /\ index c = cell_of (length (stored c))
  | GEnqueue => S (enqueued c) = length (stored c) /\ index c = cell_of (enqueued c)
  | GSignal => enqueued c = length (stored c) /\ next_index (index c) = cell_of (length (stored c))
  | GBroadcast | GExit => enqueued c = length (stored c) \/ S (enqueued c) = length (stored c)
  end.

Definition worker_ok (c : qconfig) (p : wpc) : Prop :=
  match p with
  | WPtr k ptr => (k < length (taken c))%nat /\ ptr = cell_of k
  | WGot k x => (k < length (taken c))%nat /\ (intact c k -> stored c !! k = Some x)
  | _ => True
  end.

(** No two workers have the same event. *)
Definition once (ws : list wpc) : Prop :=
  forall i j p p' k, ws !! i = Some p -> ws !! j = Some p' -> event_of p = Some k -> event_of p' = Some k -> i = j.

Record q_inv (c : qconfig) : Prop := {
  qi_ring : ring_ok (ring c);
  qi_cells : Z.of_nat (length (queue_array c)) = MAX_QUEUE_LEN;
  qi_gen : gen_ok c (gen c);
  qi_order : taken c ++ ring_list (ring c) = map cell_of (seq 0 (enqueued c));
  qi_array : forall k x, stored c !! k = Some x -> intact c k -> queue_array c !! Z.to_nat (cell_of k) = Some x;
  qi_workers : forall i p, workers c !! i = Some p -> worker_ok c p;
  qi_once : once (workers c)
}.

Lemma cell_of_range k : 0 <= cell_of k < MAX_QUEUE_LEN.
Proof. apply Z.mod_pos_bound. reflexivity. Qed.

Lemma next_cell k : next_index (cell_of k) = cell_of (S k).
Proof.
  pose proof (cell_of_range k). unfold next_index. rewrite Z.rem_mod_nonneg by (done || lia). unfold cell_of.
  rewrite Zplus_mod_idemp_l. f_equal. lia.
Qed.

(** Of two events with the same cell the second is at least a round later. *)
Lemma cell_of_inj k k' :
  (k < k')%nat -> cell_of k = cell_of k' -> Z.of_nat k + MAX_QUEUE_LEN <= Z.of_nat k'.
Proof.
  unfold cell_of. intros Hlt E. assert (H : (Z.of_nat k' - Z.of_nat k) mod MAX_QUEUE_LEN = 0)
    by (rewrite Zminus_mod, E, Z.sub_diag; reflexivity).
  apply Z.mod_divide in H as [z Hz]; [|done]. assert (HM : 0 < MAX_QUEUE_LEN) by reflexivity.
  revert HM Hz. generalize MAX_QUEUE_LEN. intros M HM Hz. assert (0 < z) by nia. nia.
Qed.

Lemma enqueued_stored c : gen_ok c (gen c) -> (enqueued c <= length (stored c) <= S (enqueued c))%nat.
Proof. destruct (gen c); cbn; lia. Qed.

Lemma inv_set_workers c ws :
  q_inv c -> (forall i p, ws !! i = Some p -> worker_ok c p) -> once ws -> q_inv (set_workers ws c).
Proof. intros [? ? ? ? ? ? ?] Hw Ho. by split. Qed.

Lemma once_insert ws i p :
  once ws -> (forall k, event_of p = Some k -> forall j q, ws !! j = Some q -> event_of q = Some k -> j = i) ->
  once (<[i := p]> ws).
Proof.
  intros Ho Hp j j' q q' k Hj Hj' Hq Hq'.
  destruct (decide (j = i)) as [->|Hne], (decide (j' = i)) as [->|Hne']; [done|..].
  - rewrite list_lookup_insert_eq in Hj by (apply lookup_lt_Some in Hj; by rewrite length_insert in Hj).
    rewrite list_lookup_insert_ne in Hj' by done. injection Hj as <-. by rewrite (Hp k Hq j' q').
  - rewrite list_lookup_insert_eq in Hj' by (apply lookup_lt_Some in Hj'; by rewrite length_insert in Hj').
    rewrite list_lookup_insert_ne in Hj by done. injection Hj' as <-. by rewrite (Hp k Hq' j q).
  - rewrite !list_lookup_insert_ne in * by done. by eapply (Ho j j' q q').
Qed.

Lemma workers_insert (P : wpc -> Prop) (ws : list wpc) i p :
  (forall j q, ws !! j = Some q -> P q) -> P p -> forall j q, <[i := p]> ws !! j = Some q -> P q.
Proof.
  intros Hw Hp j q Hq. destruct (decide (i = j)) as [<-|Hne].
  - rewrite list_lookup_insert_eq in Hq by (apply lookup_lt_Some in Hq; by rewrite length_insert in Hq).
    by injection Hq as <-.
  - rewrite list_lookup_insert_ne in Hq by done. by eapply Hw.
Qed.

(** A worker moves on without taking a pointer. *)
Lemma inv_worker c i p p' :
  q_inv c -> workers c !! i = Some p -> worker_ok c p' -> (event_of p' = None \/ event_of p' = event_of p) ->
  q_inv (set_worker i p' c).
Proof.
  intros Hc Hi Hp He. apply inv_set_workers; [done| |].
  - apply workers_insert; [|done]. intros j q. apply (qi_workers c Hc).
  - apply once_insert; [apply Hc|]. intros k Hk j q Hj Hq. destruct He as [He|He]; [congruence|].
    rewrite He in Hk. by eapply (qi_once c Hc j i q p k).
Qed.

Lemma inv_gen c g : q_inv c -> gen_ok c g -> q_inv (set_gen g c).
Proof. intros [? ? ? ? ? ? ?] Hg. by split. Qed.

Lemma inv_store c x : q_inv c -> gen c = GStore -> q_inv (set_gen GEnqueue (store_event x c)).
Proof.
  intros [Hr Hc Hg Ho Ha Hw H1] Eg. rewrite Eg in Hg. destruct Hg as [He Hi].
  assert (Hlen : length (stored c ++ [x]) = S (length (stored c))) by (rewrite length_app; cbn; lia).
  pose proof (cell_of_range (length (stored c))) as Hcell.
  split; unfold intact in *; cbn [set_gen store_event ring queue_array index workers gen stored taken]; try done.
  - by rewrite length_insert.
  - unfold gen_ok, enqueued in *. cbn [stored set_gen store_event index ring taken]. rewrite Hlen, He. split; [done|]. exact Hi.
  - intros k y Hk Hint. rewrite Hlen in Hint. rewrite Hi. apply lookup_app_Some in Hk as [Hk|[Hle Hk]].
    + pose proof (lookup_lt_Some _ _ _ Hk) as Hlt. rewrite list_lookup_insert_ne; [apply Ha; [done|lia]|].
      intros E. apply Z2Nat.inj in E; [|lia|apply cell_of_range].
      pose proof (cell_of_inj k (length (stored c)) Hlt (eq_sym E)). lia.
    + assert (k = length (stored c)) as ->.
      { apply lookup_lt_Some in Hk. cbn in Hk. lia. }
      rewrite Nat.sub_diag in Hk. injection Hk as <-. apply list_lookup_insert_eq. lia.
  - intros i p Hp. specialize (Hw i p Hp). unfold worker_ok, intact in *. cbn [taken stored set_gen store_event] in *.
    destruct p as [| | | | |k ptr|k y| |]; try done. destruct Hw as [Hk Hy]. split; [done|]. rewrite Hlen. intros Hint.
    apply lookup_app_l_Some. apply Hy. lia.
Qed.

Lemma inv_enqueue c q' :
  q_inv c -> gen c = GEnqueue -> enqueue (index c) (ring c) = Some q' -> q_inv (set_gen GSignal (set_ring q' c)).
Proof.
  intros [Hr Hc Hg Ho Ha Hw H1] Eg Eq. rewrite Eg in Hg. destruct Hg as [He Hi].
  pose proof (enqueue_spec (index c) (ring c) Hr) as Hs. rewrite Eq in Hs. destruct Hs as [Hr' El].
  assert (Hen : enqueued (set_ring q' c) = S (enqueued c)).
  { unfold enqueued. cbn [set_ring ring taken]. rewrite El, length_app. cbn. lia. }
  split; try done.
  - unfold gen_ok. change (enqueued (set_gen GSignal (set_ring q' c))) with (enqueued (set_ring q' c)).
    cbn [gen set_gen stored set_ring index]. rewrite Hen. split; [done|]. by rewrite Hi, next_cell, He.
  - change (enqueued (set_gen GSignal (set_ring q' c))) with (enqueued (set_ring q' c)). rewrite Hen, seq_S, map_app.
    cbn [ring taken set_gen set_ring map]. by rewrite El, app_assoc, Ho, Hi.
Qed.

Lemma inv_take c i ptr q' :
  q_inv c -> workers c !! i = Some WDequeue -> dequeue (ring c) = Some (ptr, q') -> q_inv (take_pointer i ptr q' c).
Proof.
  intros [Hr Hc Hg Ho Ha Hw H1] Hi Eq.
  pose proof (dequeue_spec (ring c) Hr) as Hs. rewrite Eq in Hs. destruct Hs as [Hr' El].
  assert (Hen : enqueued (take_pointer i ptr q' c) = enqueued c).
  { unfold enqueued. cbn [take_pointer ring taken]. rewrite El, length_app. cbn. lia. }
  assert (Hptr : ptr = cell_of (length (taken c))).
  { pose proof (f_equal (fun l => l !! length (taken c)) Ho) as E. cbn in E.
    assert (Hlt : (length (taken c) < enqueued c)%nat) by (unfold enqueued; rewrite El; cbn; lia).
    rewrite lookup_app_r, Nat.sub_diag, El, list_lookup_fmap, (lookup_seq_lt _ _ _ Hlt) in E by done.
    by injection E. }
  split; try done.
  - unfold gen_ok in *. rewrite Hen. exact Hg.
  - rewrite Hen, <- Ho, El. cbn [take_pointer taken ring]. by rewrite <- app_assoc.
  - cbn [workers take_pointer]. apply workers_insert.
    + intros j q Hq. specialize (Hw j q Hq). unfold worker_ok in *. cbn [taken stored take_pointer].
      rewrite length_app. destruct q; try done; (split; [cbn; lia|apply Hw]).
    + cbn. rewrite length_app. cbn. split; [lia|done].
  - cbn [workers take_pointer]. apply once_insert; [done|]. intros k [= <-] j q Hj Hq. exfalso. specialize (Hw j q Hj).
    destruct q; try done; injection Hq as ->; cbn in Hw; lia.
Qed.

Lemma inv_read c i k ptr x :
  q_inv c -> workers c !! i = Some (WPtr k ptr) -> queue_array c !! Z.to_nat ptr = Some x ->
  q_inv (set_worker i (WGot k x) c).
Proof.
  intros Hc Hi Hx. pose proof (qi_workers c Hc i _ Hi) as [Hk ->]. eapply inv_worker; [done..| |by right].
  split; [done|]. intros Hint. pose proof (enqueued_stored c (qi_gen c Hc)) as He. unfold enqueued in He.
  destruct (lookup_lt_is_Some_2 (stored c) k) as [y Hy]; [lia|]. rewrite (qi_array c Hc k y Hy Hint) in Hx. congruence.
Qed.

Lemma inv_signal c ws :
  q_inv (set_workers ws c) -> gen c = GSignal ->
  q_inv (set_gen GLoop (set_index (next_index (index c)) (set_workers ws c))).
Proof.
  intros [Hr Hc Hg Ho Ha Hw H1] Eg. cbn [gen set_workers] in Hg. rewrite Eg in Hg. by split.
Qed.

Lemma inv_wake_all c : q_inv c -> q_inv (wake_all c).
Proof.
  intros Hc. apply inv_set_workers; [done| |].
  - intros i p Hp. rewrite list_lookup_fmap in Hp. apply fmap_Some in Hp as (q & Hq & ->).
    pose proof (qi_workers c Hc i q Hq). by destruct q.
  - intros i j p p' k Hp Hp' He He'. rewrite list_lookup_fmap in Hp, Hp'.
    apply fmap_Some in Hp as (q & Hq & ->), Hp' as (q' & Hq' & ->).
    eapply (qi_once c Hc i j q q' k); [done..| |]; [by destruct q|by destruct q'].
Qed.

Lemma q_step_inv c c' : q_inv c -> any_step c c' -> q_inv c'.
Proof.
  intros Hc [Hs|Hs].
  - pose proof (qi_gen c Hc) as Hg. destruct Hs as [c i ptr q' Hi Hd|c i k ptr x Hi Hx|c i Hi Hd|c i Hi He|c i Hi He|c i Hi|c i Hi
      |c Eg|c x Eg|c q' Eg Eq|c Eg Eq|c i Eg Hi|c Eg Hn|c Eg].
    + by apply inv_take.
    + by eapply inv_read.
    + eapply inv_worker; [done..|by left].
    + eapply inv_worker; [done..|by left].
    + eapply inv_worker; [done..|by left].
    + eapply inv_worker; [done..|by left].
    + eapply inv_worker; [done..| |]; destruct (_ || _); [done..|by left|by left].
    + apply inv_gen; [done|]. rewrite Eg in Hg. destruct (expired c); [by left; apply Hg|done].
    + by apply inv_store.
    + by apply inv_enqueue.
    + apply inv_gen; [by destruct Hc; split|]. rewrite Eg in Hg. right. apply Hg.
    + apply inv_signal; [|done]. by eapply inv_worker; [..|left].
    + apply (inv_signal c (workers c)); [|done]. by destruct c.
    + apply inv_gen; [by apply inv_wake_all|]. by rewrite Eg in Hg.
  - destruct Hs as [c|c|c i k x Hi|c i Hi]; [by destruct Hc; split..| |]; by eapply inv_worker; [..|left].
Qed.

Lemma q_reachable_inv c0 c : q_inv c0 -> rtc any_step c0 c -> q_inv c.
Proof. intros H Hr. induction Hr; [done|]. apply IHHr. by eapply q_step_inv. Qed.

Lemma zero_cells_length : Z.of_nat (length zero_cells) = MAX_QUEUE_LEN.
Proof. unfold zero_cells. by rewrite length_replicate, Z2Nat.id. Qed.

#[local] Opaque zero_cells.

Lemma q_initial_inv q n : ring_ok q -> ring_list q = [] -> q_inv (q_initial q n).
Proof.
  intros Hq Hl. split; unfold enqueued; cbn [q_initial ring queue_array index workers gen stored taken]; rewrite ?Hl.
  - exact Hq.
  - apply zero_cells_length.
  - unfold gen_ok, enqueued. cbn [q_initial ring taken stored index gen]. by rewrite Hl.
  - done.
  - intros k x Hk. by rewrite lookup_nil in Hk.
  - intros i p Hp. by apply lookup_replicate in Hp as [-> _].
  - intros i j p p' k Hp _ He. by apply lookup_replicate in Hp as [-> _].
Qed.

(** The events in the ring have not been overwritten: it is shorter than the array. *)
Lemma waiting_intact c j ptr :
  (Z.of_nat ring_capacity < MAX_QUEUE_LEN) -> q_inv c -> ring_list (ring c) !! j = Some ptr ->
  ptr = cell_of (length (taken c) + j) /\ intact c (length (taken c) + j) /\
  (length (taken c) + j < length (stored c))%nat.
Proof.
  intros Hcap Hc Hj. pose proof (lookup_lt_Some _ _ _ Hj) as Hlt.
  pose proof (ring_bounded (ring c) (qi_ring c Hc)) as Hb.
  pose proof (enqueued_stored c (qi_gen c Hc)) as He. unfold enqueued, intact in *.
  split; [|lia]. pose proof (f_equal (fun l => l !! (length (taken c) + j)%nat) (qi_order c Hc)) as E. cbn in E.
  rewrite lookup_app_r in E by lia. replace (length (taken c) + j - length (taken c))%nat with j in E by lia.
  rewrite Hj, list_lookup_fmap, lookup_seq_lt in E by (unfold enqueued; lia). by injection E.
Qed.

(** No worker, nor the generator, can move. *)
Definition blocked (c : qconfig) : Prop := forall c', ~ qstep c c'.

End queue.
Arguments qconfig Q : clear implicits.

(** ** The ring buffer *)

Record ck_ring := CkRing { c_head : Z; p_tail : Z; buffer : list Z }.

Section ck_ring.
(** The size, a power of two. *)
Context (k : Z).
Let size := 2 ^ k.
Let mask := 2 ^ k - 1.

Definition ck_ring_init : ck_ring := CkRing 0 0 (replicate (Z.to_nat size) 0).
Definition ck_ring_size (r : ck_ring) : Z := Z.land (u32 (p_tail r - c_head r)) mask.

Definition ck_ring_enqueue_spmc (x : Z) (r : ck_ring) : option ck_ring :=
  let delta := u32 (p_tail r + 1) in
  if Z.land delta mask =? Z.land (c_head r) mask then None
  else Some (CkRing (c_head r) delta (<[Z.to_nat (Z.land (p_tail r) mask) := x]> (buffer r))).

(** One successful attempt of the compare-and-swap loop. *)
Definition ck_ring_dequeue_spmc (r : ck_ring) : option (Z * ck_ring) :=
  if c_head r =? p_tail r then None
  else Some (nth (Z.to_nat (Z.land (c_head r) mask)) (buffer r) 0,
             CkRing (u32 (c_head r + 1)) (p_tail r) (buffer r)).
End ck_ring.

Section ck_ring_facts.
Context (k : Z) (Hk : 0 < k < 32).

#[local] Notation size := (2 ^ k).

Definition ring_length (r : ck_ring) : Z := u32 (p_tail r - c_head r).
Definition ring_index (r : ck_ring) (j : nat) : nat := Z.to_nat ((c_head r + Z.of_nat j) mod size).
Definition ck_ring_list (r : ck_ring) : list Z :=
  map (fun j => nth (ring_index r j) (buffer r) 0) (seq 0 (Z.to_nat (ring_length r))).
Definition ck_ring_ok (r : ck_ring) : Prop :=
  is_u32 (c_head r) /\ is_u32 (p_tail r) /\ Z.of_nat (length (buffer r)) = size /\ ring_length r < size.

Lemma size_pos : 0 < size.
Proof using Hk. apply Z.pow_pos_nonneg; lia. Qed.

Lemma land_mask x : Z.land x (size - 1) = x mod size.
Proof using Hk. rewrite Z.sub_1_r, <- Z.ones_equiv. apply Z.land_ones. lia. Qed.

Lemma u32_mod_size x : u32 x mod size = x mod size.
Proof using Hk.
  unfold u32. pose proof size_pos.
  replace (2 ^ 32) with (size * 2 ^ (32 - k)) by (rewrite <- Z.pow_add_r by lia; f_equal; lia).
  rewrite Z.rem_mul_r by (try apply Z.pow_pos_nonneg; lia).
  rewrite (Z.mul_comm size), Z.mod_add by lia. apply Z.mod_mod. lia.
Qed.

Lemma mod_ne a d : 0 < d < size -> (a + d) mod size <> a mod size.
Proof using Hk.
  intros Hd E. pose proof size_pos.
  assert (Hz : (a + d - a) mod size = 0) by (rewrite Zminus_mod, E, Z.sub_diag; apply Z.mod_0_l; lia).
  replace (a + d - a) with d in Hz by ring. rewrite Z.mod_small in Hz by lia. lia.
Qed.

Lemma ck_enqueue_spec x r :
  ck_ring_ok r ->
  match ck_ring_enqueue_spmc k x r with
  | Some r' => ck_ring_ok r' /\ ck_ring_list r' = ck_ring_list r ++ [x]
  | None => length (ck_ring_list r) = Z.to_nat (size - 1)
  end.
Proof using Hk.
  intros (Hc & Hp & Hb & Hn). pose proof size_pos as Hs.
  assert (Hs32 : size < 2 ^ 32) by (apply Z.pow_lt_mono_r; lia).
  assert (Hn0 : 0 <= ring_length r) by apply u32_range.
  unfold ck_ring_enqueue_spmc. rewrite !land_mask, u32_mod_size.
  assert (Ept : forall d, (p_tail r + d) mod size = (c_head r + (ring_length r + d)) mod size).
  { intros d. rewrite <- (u32_mod_size (p_tail r + d)), <- (u32_mod_size (c_head r + _)). f_equal.
    unfold ring_length. ulia. }
  rewrite Ept. destruct (Z.eqb_spec ((c_head r + (ring_length r + 1)) mod size) (c_head r mod size)) as [E|E].
  - unfold ck_ring_list. rewrite length_map, length_seq. f_equal.
    destruct (Z.lt_ge_cases (ring_length r + 1) size); [|lia].
    exfalso. by apply (mod_ne (c_head r) (ring_length r + 1)); [lia|].
  - assert (Hn1 : ring_length r + 1 < size).
    { destruct (Z.lt_ge_cases (ring_length r + 1) size); [done|]. exfalso. apply E.
      assert (ring_length r + 1 = 1 * size) as -> by lia. apply Z.mod_add. lia. }
    set (r' := CkRing _ _ _).
    assert (El : ring_length r' = ring_length r + 1).
    { unfold ring_length, r'. cbn [p_tail c_head]. unfold ring_length in Hn1. ulia. }
    assert (Epos : Z.to_nat (p_tail r mod size) = ring_index r (Z.to_nat (ring_length r))).
    { unfold ring_index. f_equal. rewrite Z2Nat.id by done. rewrite <- (Z.add_0_r (p_tail r)), Ept. f_equal. lia. }
    assert (Hin : (ring_index r (Z.to_nat (ring_length r)) < length (buffer r))%nat).
    { unfold ring_index. pose proof (Z.mod_pos_bound (c_head r + Z.of_nat (Z.to_nat (ring_length r))) size Hs). lia. }
    split.
    + unfold ck_ring_ok. rewrite El. subst r'. cbn [c_head p_tail buffer].
      rewrite length_insert. split_and!; [apply Hc|apply u32_range|done|done].
    + unfold ck_ring_list. rewrite El, Z2Nat.inj_add by lia. change (Z.to_nat 1) with 1%nat.
      rewrite Nat.add_1_r, seq_S, map_app. cbn [map]. rewrite Nat.add_0_l.
      change (ring_index r') with (ring_index r).
      subst r'. cbn [buffer]. rewrite Epos. f_equal.
      * apply map_ext_in. intros j Hj. apply in_seq in Hj.
        rewrite !nth_lookup, list_lookup_insert_ne; [done|].
        unfold ring_index. intros Eq.
        pose proof (Z.mod_pos_bound (c_head r + Z.of_nat j) size Hs).
        pose proof (Z.mod_pos_bound (c_head r + Z.of_nat (Z.to_nat (ring_length r))) size Hs).
        apply (mod_ne (c_head r + Z.of_nat j) (ring_length r - Z.of_nat j)); [lia|].
        replace (c_head r + Z.of_nat j + (ring_length r - Z.of_nat j))
          with (c_head r + Z.of_nat (Z.to_nat (ring_length r))) by lia. lia.
      * by rewrite nth_lookup, list_lookup_insert_eq.
Qed.

Lemma ck_ring_bounded r : ck_ring_ok r -> (length (ck_ring_list r) <= Z.to_nat (size - 1))%nat.
Proof using Hk.
  intros (_ & _ & _ & Hn). unfold ck_ring_list. rewrite length_map, length_seq. apply Z2Nat.inj_le; [apply u32_range| |lia].
  pose proof size_pos. lia.
Qed.

Lemma ck_dequeue_spec r :
  ck_ring_ok r ->
  match ck_ring_dequeue_spmc k r with
  | Some (x, r') => ck_ring_ok r' /\ ck_ring_list r = x :: ck_ring_list r'
  | None => ck_ring_list r = []
  end.
Proof using Hk.
  intros (Hc & Hp & Hb & Hn). pose proof size_pos as Hs.
  unfold ck_ring_dequeue_spmc. destruct (Z.eqb_spec (c_head r) (p_tail r)) as [E|E].
  - unfold ck_ring_list, ring_length. by rewrite E, Z.sub_diag.
  - rewrite land_mask. set (r' := CkRing _ _ _).
    assert (El : ring_length r = ring_length r' + 1).
    { unfold ring_length, r'. cbn [p_tail c_head]. ulia. }
    assert (Hl' : 0 <= ring_length r') by apply u32_range.
    split.
    + unfold ck_ring_ok. split_and!; try done; [subst r'; apply u32_range|lia].
    + unfold ck_ring_list. rewrite El, Z2Nat.inj_add by lia. change (Z.to_nat 1) with 1%nat.
      rewrite Nat.add_1_r. cbn [seq map]. f_equal.
      * unfold ring_index. by rewrite Z.add_0_r.
      * rewrite <- seq_shift, map_map. apply map_ext. intros j. unfold ring_index, r'.
        cbn [c_head buffer]. f_equal. f_equal.
        rewrite <- (u32_mod_size (u32 _ + _)), u32_add_l, u32_mod_size. f_equal. lia.
Qed.
End ck_ring_facts.

Lemma size_17 : 0 < 17 < 32.
Proof. lia. Qed.

#[export] Instance queue_ring : Ring ck_ring := {|
  ring_list := ck_ring_list 17;
  ring_capacity := Z.to_nat (MAX_QUEUE_LEN - 1);
  ring_ok := ck_ring_ok 17;
  ring_bounded := ck_ring_bounded 17 size_17;
  enqueue := ck_ring_enqueue_spmc 17;
  dequeue := ck_ring_dequeue_spmc 17;
  enqueue_spec := ck_enqueue_spec 17 size_17;
  dequeue_spec := ck_dequeue_spec 17 size_17
|}.

(** ** Events of one worker *)

Definition upd_timer (i : nat) (f : sb_timer_t -> sb_timer_t) (w : world) : world :=
  set_timers w (<[i := f (nth i (timers w) zero_timer)]> (timers w)) (timers_copy w).

(** The end of [sb_more_events] in --rate mode: [event] is the time the dequeued
    event was generated at, [value] the execution timer. *)
Definition more_events_got (event value : Z) (thread_id : nat) (w : world) : world :=
  let w := set_globals w (set_concurrency (s32 (concurrency (globals w) + 1)) (globals w)) in
  upd_timer thread_id (set_queue_time (u64 (value - event))) w.

Definition sb_event_start (now : timespec) (thread_id : nat) (w : world) : world :=
  upd_timer thread_id (sb_timer_start now) w.

Section events.
Context (log : dbl -> dbl).

Definition sb_event_stop (now : timespec) (thread_id : nat) (w : world) : rand world := fun rng =>
  let '(value, t) := sb_timer_stop now (nth thread_id (timers w) zero_timer) in
  let w := upd_timer thread_id (fun _ => t) w in
  let finish w :=
    let w := set_counts w (sb_counter_inc (counts w) thread_id SB_CNT_EVENT) in
    if 0 <? tx_rate (globals w)
    then set_globals w (set_concurrency (s32 (concurrency (globals w) - 1)) (globals w)) else w in
  if 0 <? percentile (globals w) then
    match sb_histogram_update log (latency_histogram w) (NS2MS (s64 value)) rng with
    | Some (h, rng) => Some (finish (set_histogram w h), rng)
    | None => None
    end
  else Some (finish w, rng).

(** What a test does in its [i]-th event: whether there is one, its result code,
    and the readings of the clock around it. *)
Record event_env := EventEnv {
  ev_some : nat -> bool;
  ev_rc : nat -> Z;
  ev_value : nat -> Z;
  ev_start : nat -> timespec;
  ev_stop : nat -> timespec
}.

(** The default [thread_run], without --rate; [fuel] bounds the iterations. The
    result code and the state, [None] inside for undefined behaviour, [None]
    outside when the loop is still running. *)
Fixpoint thread_run (fuel : nat) (env : event_env) (thread_id i : nat) (rc : Z) (w : world)
    (rng : Xoroshiro.state) : option (option (Z * world * Xoroshiro.state)) :=
  match fuel with
  | O => None
  | S fuel =>
      let '(more, g) := more_events_gate (ev_value env i) (globals w) in
      let w := set_globals w g in
      if more && (rc =? 0) then
        if ev_some env i then
          let w := sb_event_start (ev_start env i) thread_id w in
          let rc := ev_rc env i in
          match sb_event_stop (ev_stop env i) thread_id w rng with
          | Some (w, rng) => thread_run fuel env thread_id (S i) rc w rng
          | None => Some None
          end
        else Some (Some (rc, w, rng))
      else Some (Some (rc, w, rng))
  end.
End events.

(** ** The event limit *)

(** Successive calls of the gate by any threads, in the order of their
    fetch-and-adds; each sees the error flag and the timer of its moment. *)
Definition set_g_error (e : Z) (g : sb_globals_t) : sb_globals_t :=
  Globals e (tx_rate g) (max_events g) (max_time_ns g) (threads g)
    (threads_running g) (report_interval g) (percentile g) (histogram g) (checkpoints g) (debug g)
    (timeout g) (validate g) (concurrency g) (force_shutdown g) (forced_shutdown_in_progress g)
    (warmup_time g) (nevents g).

Fixpoint gate_calls (l : list (Z * Z)) (g : sb_globals_t) : list bool :=
  match l with
  | [] => []
  | (e, v) :: l =>
      let '(b, g) := more_events_gate v (set_g_error e g) in
      b :: gate_calls l g
  end.

Definition granted (l : list bool) : Z := sumZ (map b2z l).

Lemma granted_cons b l : granted (b :: l) = b2z b + granted l.
Proof. done. Qed.

Lemma gate_calls_granted l g :
  0 < max_events g < 2 ^ 64 -> 0 <= nevents g -> nevents g + Z.of_nat (length l) < 2 ^ 64 ->
  0 <= granted (gate_calls l g) <= Z.max 0 (max_events g - nevents g) /\
  (Forall (fun '(e, v) => e = 0 /\ time_limit_exceeded g v = false) l ->
   granted (gate_calls l g) = Z.min (Z.of_nat (length l)) (Z.max 0 (max_events g - nevents g))).
Proof.
  revert g. induction l as [|[e v] l IH]; intros g HM Hn Hlen.
  - split; [cbn; lia|]. intros _. cbn. lia.
  - cbn [length] in Hlen. cbn [gate_calls]. unfold more_events_gate. cbn [g_error set_g_error].
    destruct (Z.eqb_spec e 0) as [->|He]; cbn [negb].
    2: { destruct (IH (set_g_error e g)) as [Hb _]; cbn [max_events nevents set_g_error] in *; [lia..|].
         rewrite granted_cons. cbn [b2z]. split; [lia|]. intros Hf. apply Forall_cons in Hf as [[? _] _]. done. }
    change (time_limit_exceeded (set_g_error 0 g) v) with (time_limit_exceeded g v).
    destruct (time_limit_exceeded g v) eqn:Et.
    { destruct (IH (set_g_error 0 g)) as [Hb _]; cbn [max_events nevents set_g_error] in *; [lia..|].
      rewrite granted_cons. cbn [b2z]. split; [lia|]. intros Hf.
      apply Forall_cons in Hf as [[_ ?] _]. congruence. }
    cbn [max_events nevents set_g_error]. rewrite (proj2 (Z.ltb_lt 0 (max_events g))) by lia.
    rewrite granted_cons. rewrite (u64_small (nevents g + 1)) by (zify_u; lia).
    set (g' := set_nevents (nevents g + 1) (set_g_error 0 g)).
    destruct (IH g') as [Hb Heq]; subst g'; cbn [max_events nevents set_nevents set_g_error] in *; [lia..|].
    destruct (Z.ltb_spec (nevents g) (max_events g)); cbn [b2z]; (split; [lia|]); intros Hf;
      apply Forall_cons in Hf as [_ Hf]; rewrite Heq by (eapply Forall_impl; [exact Hf|intros []; done]);
      cbn [length]; lia.
Qed.

(** ** The default thread loop *)

Section thread_run_facts.
Context (log : dbl -> dbl) (env : event_env) (tid : nat).

(** The bucket of every latency is defined. *)
Definition latency_defined (w : world) : Prop :=
  0 < percentile (globals w) -> forall v, exists i, bucket log (latency_histogram w) v = Some i.

Lemma event_stop_spec now w rng l c :
  (tid < length (timers w))%nat -> recorded (nth tid (timers w) zero_timer) l ->
  latency_defined w -> counts w = c ->
  exists w' rng' e, sb_event_stop log now tid w rng = Some (w', rng') /\
    recorded (nth tid (timers w') zero_timer) (l ++ [e]) /\ length (timers w') = length (timers w) /\
    latency_defined w' /\ counts w' = sb_counter_inc c tid SB_CNT_EVENT /\
    (tx_rate (globals w) = 0 -> globals w' = globals w).
Proof using Type.
  intros Hlen Hrec Hdef Hc. unfold sb_event_stop.
  pose proof (recorded_stop now _ _ Hrec) as Hr.
  destruct (sb_timer_stop now (nth tid (timers w) zero_timer)) as [value t]. cbn [fst snd] in Hr.
  set (w1 := upd_timer tid (fun _ => t) w).
  assert (Ht1 : nth tid (timers w1) zero_timer = t)
    by (unfold w1, upd_timer; cbn; rewrite nth_insert by done; by rewrite decide_True).
  assert (Hl1 : length (timers w1) = length (timers w)) by (unfold w1, upd_timer; cbn; by rewrite length_insert).
  change (globals w1) with (globals w).
  destruct (Z.ltb_spec 0 (percentile (globals w))) as [Hp|Hp].
  - destruct (Hdef Hp (NS2MS (s64 value))) as [i Hi].
    unfold sb_histogram_update. destruct (xoroshiro_next rng) as [x rng'].
    change (latency_histogram w1) with (latency_histogram w). rewrite Hi.
    set (h' := set_slots _ (latency_histogram w)).
    eexists _, rng', value. split; [reflexivity|]. cbv beta zeta.
    destruct (Z.ltb_spec 0 (tx_rate (globals (set_counts (set_histogram w1 h') (sb_counter_inc (counts (set_histogram w1 h')) tid SB_CNT_EVENT)))));
      cbn [timers set_counts set_histogram set_globals counts globals latency_histogram];
      (split; [by rewrite Ht1|]); (split; [done|]);
      (split; [intros _ v; destruct (Hdef Hp v) as [i' Hi']; exists i'; exact Hi'|]);
      (split; [by rewrite <- Hc|]); intros Htx; cbn [globals set_counts set_histogram] in *; [cbn in *; lia|done].
  - eexists _, rng, value. split; [reflexivity|]. cbv beta zeta.
    destruct (Z.ltb_spec 0 (tx_rate (globals (set_counts w1 (sb_counter_inc (counts w1) tid SB_CNT_EVENT)))));
      cbn [timers set_counts set_histogram set_globals counts globals latency_histogram];
      (split; [by rewrite Ht1|]); (split; [done|]);
      (split; [intros Hp'; exfalso; cbn in Hp'; lia|]);
      (split; [by rewrite <- Hc|]); intros Htx; [cbn in *; lia|done].
Qed.

Definition inc_event (c : counters) : counters := sb_counter_inc c tid SB_CNT_EVENT.

Lemma inc_event_wf n c m :
  wf n c -> wf n (Nat.iter m inc_event c) /\
  length (sb_counters (Nat.iter m inc_event c)) = length (sb_counters c).
Proof using Type.
  intros Hwf. induction m as [|m [IH1 IH2]]; [done|]. cbn [Nat.iter nat_rect]. split; [by apply add_wf|].
  rewrite <- IH2. apply length_alter.
Qed.

Lemma inc_many n c m :
  wf n c -> (tid < length (sb_counters c))%nat -> is_u64 (sb_counter_val c tid (cnt_index SB_CNT_EVENT)) ->
  sb_counter_val (Nat.iter m inc_event c) tid (cnt_index SB_CNT_EVENT)
  = u64 (sb_counter_val c tid (cnt_index SB_CNT_EVENT) + Z.of_nat m).
Proof using Type.
  intros Hwf Hlen Hu. induction m as [|m IH].
  - cbn [Nat.iter nat_rect]. by rewrite Z.add_0_r, u64_small.
  - destruct (inc_event_wf n c m Hwf) as [Hwf' Hlen']. cbn [Nat.iter nat_rect].
    fold (Nat.iter m inc_event c). rewrite <- Hlen' in Hlen.
    unfold inc_event at 1, sb_counter_inc. rewrite (add_val n) by done.
    rewrite decide_True by done. rewrite IH, u64_add_l. f_equal. lia.
Qed.

(** The test always has another event, every event succeeds and the time limit
    is not reached. *)
Definition steady (g : sb_globals_t) : Prop :=
  g_error g = 0 /\ tx_rate g = 0 /\
  forall i, time_limit_exceeded g (ev_value env i) = false /\ ev_some env i = true /\ ev_rc env i = 0.

Lemma steady_nevents g n : steady g -> steady (set_nevents n g).
Proof using Type. done. Qed.

Lemma thread_run_steady m fuel i w rng l :
  (m < fuel)%nat -> steady (globals w) -> 0 < max_events (globals w) < 2 ^ 64 - 1 ->
  nevents (globals w) = max_events (globals w) - Z.of_nat m -> 0 <= nevents (globals w) ->
  (tid < length (timers w))%nat -> recorded (nth tid (timers w) zero_timer) l -> latency_defined w ->
  exists w' rng' l', thread_run log fuel env tid i 0 w rng = Some (Some (0, w', rng')) /\
    recorded (nth tid (timers w') zero_timer) (l ++ l') /\ length l' = m /\
    counts w' = Nat.iter m inc_event (counts w) /\
    nevents (globals w') = max_events (globals w) + 1.
Proof using Type.
  revert fuel i w rng l. induction m as [|m IH]; intros [|fuel] i w rng l Hf Hst HM Hn Hn0 Hlen Hrec Hdef; try lia;
    pose proof Hst as (He & Htx & Hi); destruct (Hi i) as (Ht & Hs & Hr);
    cbn [thread_run]; unfold more_events_gate; rewrite He, Ht;
    rewrite (proj2 (Z.ltb_lt 0 (max_events (globals w)))) by lia; cbn [Z.eqb negb].
  - rewrite (proj2 (Z.ltb_ge _ _)) by lia. cbn [andb].
    eexists _, rng, []. rewrite app_nil_r. split; [reflexivity|]. split; [done|]. split; [done|]. split; [done|].
    cbn [globals set_globals nevents set_nevents]. rewrite u64_small by (zify_u; lia). lia.
  - rewrite (proj2 (Z.ltb_lt (nevents _) _)) by lia. cbn [andb]. rewrite Hs, Hr.
    set (g1 := set_nevents _ (globals w)). set (w1 := sb_event_start _ tid (set_globals w g1)).
    destruct (event_stop_spec (ev_stop env i) w1 rng l (counts w)) as (w2 & rng2 & e & E & Hr2 & Hl2 & Hd2 & Hc2 & Hg2).
    { unfold w1, sb_event_start, upd_timer. cbn. by rewrite length_insert. }
    { unfold w1, sb_event_start, upd_timer. cbn. rewrite nth_insert, decide_True by done. by apply recorded_start. }
    { exact Hdef. } { done. }
    rewrite E. assert (Eg : globals w2 = g1) by (apply Hg2; exact Htx).
    assert (Hnev : u64 (nevents (globals w) + 1) = nevents (globals w) + 1) by (apply u64_small; zify_u; lia).
    destruct (IH fuel (S i) w2 rng2 (l ++ [e])) as (w' & rng' & l' & E' & Hrec' & Hl' & Hc' & Hnev').
    { lia. } { rewrite Eg. by apply steady_nevents. } { rewrite Eg. exact HM. }
    { rewrite Eg. unfold g1. cbn [nevents max_events set_nevents]. rewrite Hnev. lia. }
    { rewrite Eg. unfold g1. cbn [nevents set_nevents]. rewrite Hnev. lia. }
    { rewrite Hl2. unfold w1, sb_event_start, upd_timer. cbn. by rewrite length_insert. }
    { done. } { done. }
    exists w', rng', (e :: l'). split; [exact E'|]. rewrite <- app_assoc in Hrec'.
    split; [exact Hrec'|]. split; [cbn; lia|]. split.
    + rewrite Hc', Hc2. by rewrite Nat.iter_succ_r.
    + rewrite Hnev', Eg. done.
Qed.
End thread_run_facts.

(** ** Properties *)

(** C11: the --events limit is exact under concurrency: of any sequence of calls
    of [sb_more_events], interleaved in any way, at most [max_events] are
    granted, and exactly the first [max_events] of them when no error and no
    time limit intervenes. *)
Theorem event_limit_exact (g : sb_globals_t) (l : list (Z * Z)) :
  0 < max_events g < 2 ^ 64 -> nevents g = 0 -> Z.of_nat (length l) < 2 ^ 64 ->
  granted (gate_calls l g) <= max_events g /\
  (Forall (fun '(e, v) => e = 0 /\ time_limit_exceeded g v = false) l ->
   granted (gate_calls l g) = Z.min (Z.of_nat (length l)) (max_events g)).
Proof.
  intros HM Hn Hlen. destruct (gate_calls_granted l g) as [H1 H2]; [lia..|].
  split; [lia|]. intros Hf. rewrite H2 by done. lia.
Qed.

Definition limited_globals : sb_globals_t := Globals 0 0 3 0 2 2 0 0 0 [] 0 0 0 0 0 0 0 0.

Lemma event_limit_exact_witness :
  granted (gate_calls [(0, 0); (0, 1); (0, 2); (0, 3); (0, 4)] limited_globals) = 3.
Proof.
  apply (event_limit_exact limited_globals [(0, 0); (0, 1); (0, 2); (0, 3); (0, 4)]);
    [cbn; lia|reflexivity|cbn; lia|repeat constructor].
Defined.

(** The default thread loop terminates under --events and accounts for every
    event: a worker that runs alone with [m] events left performs exactly [m]
    events, its counter grows by [m], its timer records [m] more latencies and
    the loop returns 0. *)
Theorem thread_run_accounts (log : dbl -> dbl) (env : event_env) (tid m fuel n : nat) (w : world)
    (rng : Xoroshiro.state) (l : list Z) :
  (m < fuel)%nat -> steady env (globals w) -> 0 < max_events (globals w) < 2 ^ 64 - 1 ->
  nevents (globals w) = max_events (globals w) - Z.of_nat m -> 0 <= nevents (globals w) ->
  (tid < length (timers w))%nat -> recorded (nth tid (timers w) zero_timer) l -> latency_defined log w ->
  wf n (counts w) -> (tid < length (sb_counters (counts w)))%nat ->
  is_u64 (sb_counter_val (counts w) tid (cnt_index SB_CNT_EVENT)) ->
  exists w' rng' l', thread_run log fuel env tid 0 0 w rng = Some (Some (0, w', rng')) /\
    recorded (nth tid (timers w') zero_timer) (l ++ l') /\ length l' = m /\
    sb_counter_val (counts w') tid (cnt_index SB_CNT_EVENT)
      = u64 (sb_counter_val (counts w) tid (cnt_index SB_CNT_EVENT) + Z.of_nat m).
Proof.
  intros Hf Hst HM Hn Hn0 Hlen Hrec Hdef Hwf Htid Hu.
  destruct (thread_run_steady log env tid m fuel 0 w rng l) as (w' & rng' & l' & E & Hr & Hl & Hc & _); try done.
  exists w', rng', l'. split_and!; try done. rewrite Hc. by apply (inc_many tid n).
Qed.

Definition steady_env : event_env :=
  EventEnv (fun _ => true) (fun _ => 0) (fun _ => 0) (fun i => Timespec (Z.of_nat i) 0)
    (fun i => Timespec (Z.of_nat i) 7).
Definition limited_world : world :=
  World limited_globals (sb_counters_init 3)
    (Histogram [3; 4] 7 [0; 0] (replicate SB_HISTOGRAM_NSLOTS [0; 0]) 2 (Fin 0) (Fin 0) (Fin 0) (Fin 1) false)
    [sb_timer_init zero_timer; sb_timer_init zero_timer; zero_timer]
    [zero_timer; zero_timer; zero_timer] zero_timer zero_timer zero_timer.

Lemma thread_run_accounts_witness :
  exists w' rng' l', thread_run (fun x => x) 4 steady_env 1 0 0 limited_world (1, 2) = Some (Some (0, w', rng')) /\
    recorded (nth 1 (timers w') zero_timer) ([] ++ l') /\ length l' = 3%nat /\
    sb_counter_val (counts w') 1 3 = 3.
Proof.
  apply (thread_run_accounts (fun x => x) steady_env 1 3 4 2 limited_world (1, 2) []).
  - lia.
  - split; [reflexivity|]. split; [reflexivity|]. intros i. split; [reflexivity|]. split; reflexivity.
  - cbn. lia.
  - reflexivity.
  - cbn. lia.
  - cbn. lia.
  - apply recorded_init.
  - intros Hp. cbn in Hp. lia.
  - split; [cbn; lia|]. split; [apply Forall_replicate; reflexivity|]. split; reflexivity.
  - cbn. lia.
  - vm_compute. split; [discriminate|reflexivity].
Defined.

Definition empty_ring : ck_ring := ck_ring_init 17.

Lemma empty_ring_ok : ck_ring_ok 17 empty_ring.
Proof.
  unfold ck_ring_ok, empty_ring, ck_ring_init, ring_length. cbn [c_head p_tail buffer].
  rewrite length_replicate, Z2Nat.id by lia. split; [zify_u; lia|]. split; [zify_u; lia|].
  split; reflexivity.
Qed.

Lemma empty_ring_dequeue : ck_ring_dequeue_spmc 17 empty_ring = None.
Proof. unfold empty_ring, ck_ring_init, ck_ring_dequeue_spmc. reflexivity. Qed.

Lemma empty_ring_list : ck_ring_list 17 empty_ring = [].
Proof. unfold ck_ring_list, ring_length, empty_ring, ck_ring_init. reflexivity. Qed.

#[local] Opaque empty_ring.

Lemma capacity_lt : Z.of_nat (@ring_capacity ck_ring _) < MAX_QUEUE_LEN.
Proof. cbn [ring_capacity queue_ring]. rewrite Z2Nat.id by done. reflexivity. Qed.

Lemma queue_inv n c : rtc any_step (q_initial empty_ring n) c -> q_inv c.
Proof. apply q_reachable_inv, q_initial_inv; [apply empty_ring_ok|apply empty_ring_list]. Qed.

(** C34: in --rate mode the queue neither loses nor duplicates nor reorders
    events, through the ring of pointers and the array they point into.  In every
    reachable state of the generator and of any number of workers: the pointers
    taken so far, followed by those in the ring, are the cells of [queue_array] in
    cyclic order, one for each event stored, but for one that is not, or could not
    be, enqueued; the cell of an event that waits in the ring holds the time
    stored for it, so reusing the array overwrites no waiting event; a worker that
    holds the [k]-th pointer taken finds in its cell, and one that has read it got,
    the time stored for the [k]-th event, as long as the generator has not stored
    more than [MAX_QUEUE_LEN] events since that one; and no two workers hold the
    same event. *)
Theorem rate_queue_fifo (n : nat) (c : qconfig ck_ring) :
  rtc any_step (q_initial empty_ring n) c ->
  (exists m, taken c ++ ck_ring_list 17 (ring c) = map cell_of (seq 0 m) /\
     (m = length (stored c) \/ S m = length (stored c))) /\
  (forall j ptr, ck_ring_list 17 (ring c) !! j = Some ptr ->
     exists x, stored c !! (length (taken c) + j)%nat = Some x /\ queue_array c !! Z.to_nat ptr = Some x) /\
  (forall i k ptr, workers c !! i = Some (WPtr k ptr) -> taken c !! k = Some ptr /\
     exists x, stored c !! k = Some x /\ (intact c k -> queue_array c !! Z.to_nat ptr = Some x)) /\
  (forall i k x, workers c !! i = Some (WGot k x) -> intact c k -> stored c !! k = Some x) /\
  (forall i j p p' k, workers c !! i = Some p -> workers c !! j = Some p' ->
     event_of p = Some k -> event_of p' = Some k -> i = j).
Proof.
  intros Hr. pose proof (queue_inv n c Hr) as Hc. pose proof (enqueued_stored c (qi_gen c Hc)) as He. split_and!.
  - exists (enqueued c). split; [apply (qi_order c Hc)|lia].
  - intros j ptr Hj. destruct (waiting_intact c j ptr capacity_lt Hc Hj) as (-> & Hint & Hlt).
    destruct (lookup_lt_is_Some_2 _ _ Hlt) as [x Hx]. exists x. split; [done|]. by apply (qi_array c Hc).
  - intros i k ptr Hi. destruct (qi_workers c Hc i _ Hi) as [Hk ->]. unfold enqueued in He. split.
    + pose proof (f_equal (fun l => l !! k) (qi_order c Hc)) as E. cbn in E.
      rewrite lookup_app_l in E by done. rewrite E, list_lookup_fmap, lookup_seq_lt by (unfold enqueued; lia). done.
    + destruct (lookup_lt_is_Some_2 (stored c) k) as [x Hx]; [lia|]. exists x. split; [done|]. by apply (qi_array c Hc).
  - intros i k x Hi. apply (qi_workers c Hc i _ Hi).
  - exact (qi_once c Hc).
Qed.

(** The generator stores an event at time [x] and enqueues it, if the ring takes it. *)
Lemma generate (c : qconfig ck_ring) x q' :
  gen c = GLoop -> expired c = false -> ~ In WWaiting (workers c) -> enqueue (index c) (ring c) = Some q' ->
  rtc any_step c (QConfig q' (<[Z.to_nat (index c) := x]> (queue_array c)) (next_index (index c)) (workers c) GLoop
    (q_error c) false (stored c ++ [x]) (taken c)).
Proof.
  destruct c as [q arr i ws g e ex st tk]. cbn [gen expired workers index ring]. intros -> -> Hw Hq.
  eapply rtc_l; [left; by apply q_gen_time|]. eapply rtc_l; [left; by apply (q_gen_store _ x)|].
  eapply rtc_l; [left; by apply (q_gen_enqueue _ q')|]. eapply rtc_once. left.
  by apply (q_gen_signal_none (QConfig q' (<[Z.to_nat i := x]> arr) i ws GSignal e false (st ++ [x]) tk)).
Qed.

(** The ring takes an event unless it is full. *)
Lemma enqueue_room x (q : ck_ring) :
  ck_ring_ok 17 q -> Z.of_nat (length (ck_ring_list 17 q)) < MAX_QUEUE_LEN - 1 ->
  exists q', ck_ring_enqueue_spmc 17 x q = Some q' /\ ck_ring_ok 17 q' /\
    ck_ring_list 17 q' = ck_ring_list 17 q ++ [x].
Proof.
  intros Hq Hl. pose proof (ck_enqueue_spec 17 size_17 x q Hq) as H.
  destruct (ck_ring_enqueue_spmc 17 x q) as [q'|]; [by exists q'|]. exfalso. rewrite H, Z2Nat.id in Hl; [|done].
  by apply Z.lt_irrefl in Hl.
Qed.

(** Generating events at the times [xs] whenever the ring has room for them. *)
Lemma generate_many xs : forall (c : qconfig ck_ring),
  q_inv c -> gen c = GLoop -> expired c = false -> ~ In WWaiting (workers c) ->
  Z.of_nat (length (ck_ring_list 17 (ring c))) + Z.of_nat (length xs) < MAX_QUEUE_LEN ->
  exists c', rtc any_step c c' /\ q_inv c' /\ gen c' = GLoop /\ expired c' = false /\ workers c' = workers c /\
    stored c' = stored c ++ xs /\ taken c' = taken c.
Proof.
  induction xs as [|x xs IH]; intros c Hc Hg Hx Hw Hl.
  { exists c. by rewrite app_nil_r. }
  cbn [length] in Hl. destruct (enqueue_room (index c) (ring c)) as (q' & Eq & Hq' & El); [apply (qi_ring c Hc)|lia|].
  pose proof (generate c x q' Hg Hx Hw Eq) as Hr. set (c1 := QConfig q' _ _ _ _ _ _ _ _) in Hr.
  destruct (IH c1) as (c' & Hr' & Hc' & Hg' & Hx' & Hw' & Hs' & Ht'); [by eapply q_reachable_inv|done..| |].
  - cbn [c1 ring]. rewrite El, length_app. cbn [length]. lia.
  - exists c'. split; [by etrans|]. cbn [c1 stored] in Hs'. by rewrite Hs', <- app_assoc.
Qed.

(** After the generator has stored and enqueued the events [xs]. *)
Lemma generated n xs :
  Z.of_nat (length xs) < MAX_QUEUE_LEN ->
  exists c, rtc any_step (q_initial empty_ring n) c /\ q_inv c /\ gen c = GLoop /\ expired c = false /\
    workers c = replicate n WDequeue /\ stored c = xs /\ taken c = [] /\
    ck_ring_list 17 (ring c) = map cell_of (seq 0 (length xs)).
Proof.
  intros Hl. destruct (generate_many xs (q_initial empty_ring n)) as (c & Hr & Hc & Hg & Hx & Hw & Hs & Ht).
  - by apply (queue_inv n).
  - done.
  - done.
  - intros H. cbn in H. apply list_elem_of_In, elem_of_replicate in H as [? _]. done.
  - cbn [ring q_initial]. rewrite empty_ring_list. exact Hl.
  - cbn [workers stored taken q_initial app] in Hw, Hs, Ht. exists c. do 7 (split; [done|]).
    pose proof (qi_order c Hc) as Ho. pose proof (qi_gen c Hc) as Hgen. rewrite Hg in Hgen. destruct Hgen as [He _].
    by rewrite He, Ht, Hs in Ho.
Qed.

(** Worker [i] takes the first pointer of the ring. *)
Lemma take_first (c : qconfig ck_ring) i ptr l :
  q_inv c -> workers c !! i = Some WDequeue -> ck_ring_list 17 (ring c) = ptr :: l ->
  exists q', any_step c (take_pointer i ptr q' c) /\ ck_ring_list 17 q' = l.
Proof.
  intros Hc Hi Hl. pose proof (ck_dequeue_spec 17 size_17 (ring c) (qi_ring c Hc)) as H.
  destruct (ck_ring_dequeue_spmc 17 (ring c)) as [[x q']|] eqn:Eq; [|congruence].
  destruct H as [_ H]. rewrite Hl in H. injection H as -> ->. exists q'. split; [|done]. left. by apply q_dequeue.
Qed.

(** Of two events, stored at the times 7 and 9, worker 0 has taken the first and
    read it, and worker 1 the second. *)
Lemma example_events :
  exists c, rtc any_step (q_initial empty_ring 2) c /\ workers c = [WGot 0 7; WPtr 1 1] /\
    stored c = [7; 9] /\ taken c = [0; 1].
Proof.
  destruct (generated 2 [7; 9]) as (c & Hr & Hc & _ & _ & Hw & Hs & Ht & Hl); [done|].
  change (map cell_of _) with [0; 1] in Hl.
  destruct (take_first c 0 0 [1] Hc) as (q1 & H1 & Hl1); [by rewrite Hw|done|].
  set (c1 := take_pointer 0 0 q1 c) in *. assert (Hc1 : q_inv c1) by by eapply q_step_inv.
  destruct (take_first c1 1 1 [] Hc1) as (q2 & H2 & _); [cbn; by rewrite Hw|done|].
  set (c2 := take_pointer 1 1 q2 c1) in *. assert (Hc2 : q_inv c2) by by eapply q_step_inv.
  assert (Hi : workers c2 !! 0%nat = Some (WPtr 0 0)) by (cbn; by rewrite Hw, Ht).
  assert (Hx : queue_array c2 !! 0%nat = Some 7).
  { apply (qi_array c2 Hc2 0); [cbn; by rewrite Hs|]. unfold intact. cbn. by rewrite Hs. }
  exists (set_worker 0 (WGot 0 7) c2). split_and!; [|cbn; by rewrite Hw, Ht|exact Hs|cbn; by rewrite Ht].
  etrans; [exact Hr|]. eapply rtc_l; [exact H1|]. eapply rtc_l; [exact H2|]. apply rtc_once. left. by apply (q_read c2 0 0 0).
Qed.

Lemma rate_queue_fifo_witness :
  exists c, rtc any_step (q_initial empty_ring 2) c /\ workers c = [WGot 0 7; WPtr 1 1] /\
    stored c !! 0%nat = Some 7 /\ taken c !! 1%nat = Some 1.
Proof.
  destruct example_events as (c & Hr & Hw & Hs & Ht). exists c. split; [exact Hr|]. split; [exact Hw|].
  destruct (rate_queue_fifo 2 c Hr) as (_ & _ & H3 & H4 & _). split.
  - apply (H4 0%nat 0%nat 7); [rewrite Hw; reflexivity|]. unfold intact. rewrite Hs. discriminate.
  - apply (H3 1%nat 1%nat 1). rewrite Hw. reflexivity.
Defined.

(** The side condition of [rate_queue_fifo] is needed: the generator stores an event
    in its cell before it tries to enqueue it, so when the ring is full it overwrites
    the cell of the event that was taken last.  A worker that has not read that
    cell yet then takes the time of another event for the start of its own. *)
Theorem slow_worker_misreads :
  exists c x, rtc any_step (q_initial empty_ring 1) c /\ workers c = [WGot 0 x] /\ stored c !! 0%nat <> Some x.
Proof.
  destruct (generated 1 [0]) as (c & Hr & Hc & Hg & Hx & Hw & Hs & Ht & Hl); [done|].
  change (map cell_of _) with [0] in Hl.
  destruct (take_first c 0 0 [] Hc) as (q1 & H1 & Hl1); [by rewrite Hw|done|].
  set (c1 := take_pointer 0 0 q1 c) in *. assert (Hc1 : q_inv c1) by by eapply q_step_inv.
  assert (Hw1 : workers c1 = [WPtr 0 0]) by (cbn; by rewrite Hw, Ht).
  set (rest := replicate (Z.to_nat (MAX_QUEUE_LEN - 1)) 0).
  assert (Hrest : Z.of_nat (length rest) = MAX_QUEUE_LEN - 1) by (unfold rest; by rewrite length_replicate, Z2Nat.id).
  destruct (generate_many rest c1 Hc1) as (c2 & Hr2 & Hc2 & Hg2 & Hx2 & Hw2 & Hs2 & Ht2); [done|done| | |].
  { rewrite Hw1. by intros [?|[]]. }
  { cbn [c1 ring take_pointer]. rewrite Hl1, Hrest. reflexivity. }
  clearbody rest. cbn [c1 stored take_pointer] in Hs2. rewrite Hs in Hs2.
  pose proof (qi_gen c2 Hc2) as Hgen. rewrite Hg2 in Hgen. destruct Hgen as [_ Hi].
  set (c3 := set_gen GEnqueue (store_event 1 (set_gen GStore c2))).
  assert (H3 : rtc any_step c2 c3).
  { eapply rtc_l; [left; by apply q_gen_time|]. rewrite Hx2. apply rtc_once. left. by apply (q_gen_store _ 1). }
  assert (Hc3 : q_inv c3) by by eapply q_reachable_inv.
  assert (Hlen : length (stored c2) = S (length rest)) by (rewrite Hs2, length_app; done).
  assert (Hcell : cell_of (length (stored c2)) = 0).
  { unfold cell_of. rewrite Hlen, Nat2Z.inj_succ, Hrest. reflexivity. }
  assert (Hread : queue_array c3 !! 0%nat = Some 1).
  { pose proof (qi_array c3 Hc3 (length (stored c2)) 1) as H. rewrite Hcell in H. apply H.
    - cbn [c3 set_gen store_event stored]. rewrite lookup_app_r, Nat.sub_diag by done. done.
    - unfold intact. cbn [c3 set_gen store_event stored]. rewrite length_app. cbn [length].
      pose proof (eq_refl : (0 <? MAX_QUEUE_LEN) = true) as HM. apply Z.ltb_lt in HM. lia. }
  exists (set_worker 0 (WGot 0 1) c3), 1. split; [|split].
  - etrans; [exact Hr|]. eapply rtc_l; [exact H1|]. etrans; [exact Hr2|]. etrans; [exact H3|].
    apply rtc_once. left. apply (q_read c3 0 0 0); [|done]. cbn. by rewrite Hw2, Hw1.
  - cbn. by rewrite Hw2, Hw1.
  - cbn [set_worker set_workers stored c3 set_gen store_event]. by rewrite Hs2.
Qed.

(** Two defects of the waiting loop, both reachable.  The wake-up at the end
    of the run can be lost: the generator broadcasts and exits while a worker is
    between its failed dequeue and [pthread_cond_wait], and then nobody can move
    any more and the worker sleeps for ever.  And when the error flag is raised
    after a failed dequeue, the loop ends with the null pointer, which is then
    dereferenced. *)
Theorem rate_wait_defects :
  (exists c, rtc any_step (q_initial empty_ring 1) c /\ blocked c /\ workers c = [WWaiting] /\
     gen c = GExit /\ expired c = true) /\
  (exists c, rtc any_step (q_initial empty_ring 1) c /\ workers c = [WNull]).
Proof.
  set (c0 := q_initial empty_ring 1).
  assert (S1 : any_step c0 (set_worker 0 WCheckError c0)) by (left; apply q_empty; [reflexivity|apply empty_ring_dequeue]).
  split.
  - exists (QConfig empty_ring zero_cells 0 [WWaiting] GExit false true [] []). split.
    + eapply rtc_l; [exact S1|].
      eapply rtc_l; [left; by apply (q_loop_body _ 0)|].
      eapply rtc_l; [right; apply e_expire|].
      eapply rtc_l; [left; by apply q_gen_time|].
      eapply rtc_l; [left; by apply q_gen_broadcast|].
      eapply rtc_l; [left; by apply (q_wait _ 0)|]. apply rtc_refl.
    + split_and!; try done. intros c' Hs. inversion Hs; subst; cbn in *;
        repeat match goal with H : [_] !! ?i = Some _ |- _ => destruct i; cbn in H end; done.
  - exists (set_worker 0 WNull (set_error (set_worker 0 WCheckError c0))). split; [|done].
    eapply rtc_l; [exact S1|].
    eapply rtc_l; [right; apply e_error|].
    eapply rtc_l; [left; by apply (q_loop_exit _ 0)|]. apply rtc_refl.
Qed.
