(* ===== verification/EventGen.v ===== *)
(** * The event generator's start and schedule ([sysbench.c], [eventgen_thread_proc])

    [EventLoop] interleaves the generator's queue operations with the workers'.
    Here is what comes before its loop, when it can give up, and the times at
    which it means to generate events: exponentially distributed intervals that
    it adds up, so that being late does not move the events after. *)

From S2P Require Import Prelude Double Xoroshiro Rand EventLoop.

#[local] Open Scope rand_scope.

Section generator.
Context (log : dbl -> dbl).

(** [-lambda * log(1 - sb_rand_uniform_double())] *)
Definition sb_rand_exp (lambda : dbl) : rand dbl :=
  u <-r sb_rand_uniform_double;
  rret (dmul (dopp lambda) (log (dsub D_1 u))).

(** An interval, converted to [uint64_t]. *)
Definition interval (lambda : dbl) : rand Z :=
  x <-r sb_rand_exp lambda;
  rcast (d_to_u64 x).

(** [1e9 / sb_globals.tx_rate] *)
Definition lambda_of (tx_rate : Z) : dbl := ddiv (d_of_Z 1000000000) (d_of_Z tx_rate).

(** An iteration: the time the event was due at, and how long the thread slept. *)
Record turn := Turn { due : Z; slept : Z }.

(** The loop; [clocks] are the values of the timer at its iterations, until the
    time limit or the end of the list. *)
Fixpoint gen_loop (lambda : dbl) (max_time_ns : Z) (clocks : list Z) (next : Z) : rand (list turn) :=
  match clocks with
  | [] => rret []
  | curr :: clocks =>
      intr <-r interval lambda;
      let next := u64 (next + intr) in
      if (0 <? max_time_ns) && (max_time_ns <=? curr) then rret []
      else
        rest <-r gen_loop lambda max_time_ns clocks next;
        rret (Turn next (if curr <? next then next - curr else 0) :: rest)
  end.

(** From the barrier on; [curr] is the timer. *)
Definition eventgen_run (tx_rate max_time_ns curr : Z) (clocks : list Z) : rand (list turn) :=
  let lambda := lambda_of tx_rate in
  intr <-r interval lambda;
  gen_loop lambda max_time_ns clocks (u64 (curr + intr)).

(** The start: [None] when the thread gives up.  In both cases it arrives at the
    barrier, so that nobody waits for it there. *)
Definition eventgen_start (mutex_rc cond_rc barrier_rc : Z) : bool :=
  if negb (mutex_rc =? 0) || negb (cond_rc =? 0) then false
  else negb (barrier_rc <? 0).

(** ** The schedule *)

(** The sums of the intervals drawn. *)
Fixpoint due_times (start : Z) (intervals : list Z) : list Z :=
  match intervals with
  | [] => []
  | i :: intervals => u64 (start + i) :: due_times (start + i) intervals
  end.

Lemma due_times_mod start intervals : due_times (u64 start) intervals = due_times start intervals.
Proof.
  revert start. induction intervals as [|i l IH]; intros start; [done|]. cbn [due_times]. rewrite u64_add_l. f_equal.
  rewrite <- IH, u64_add_l. by rewrite IH.
Qed.

Lemma due_times_app start l1 l2 : due_times start (l1 ++ l2) = due_times start l1 ++ due_times (start + sumZ l1) l2.
Proof.
  revert start. induction l1 as [|i l1 IH]; intros start; cbn [app due_times].
  - by rewrite Z.add_0_r.
  - rewrite IH, sumZ_cons. do 3 f_equal. lia.
Qed.

Lemma gen_loop_schedule lambda max_time_ns clocks : forall start s turns s',
  gen_loop lambda max_time_ns clocks (u64 start) s = Some (turns, s') ->
  exists intervals, map due turns = due_times start intervals /\
    (length turns <= length clocks)%nat /\
    forall k t curr, turns !! k = Some t -> clocks !! k = Some curr ->
      slept t = Z.max 0 (due t - curr) /\ (0 < max_time_ns -> curr < max_time_ns).
Proof.
  induction clocks as [|curr clocks IH]; intros start s turns s' H; cbn [gen_loop] in H.
  { injection H as <- <-. exists []. done. }
  unfold rbind in H at 1. destruct (interval lambda s) as [[intr s1]|]; [|done]. cbv zeta in H.
  rewrite u64_add_l in H. destruct ((0 <? max_time_ns) && (max_time_ns <=? curr)) eqn:Et.
  { injection H as <- <-. exists []. split; [done|]. split; [cbn; lia|]. intros k t c Hk. by rewrite lookup_nil in Hk. }
  unfold rbind in H. destruct (gen_loop _ _ clocks _ s1) as [[rest s2]|] eqn:Er; [|done]. injection H as <- <-.
  destruct (IH _ _ _ _ Er) as (l & Hd & Hlen & Hk). exists (intr :: l). split.
  { cbn [map due due_times]. by rewrite Hd. }
  split; [cbn; lia|]. intros [|k] t c Hl Hc; cbn in Hl, Hc; [|by apply (Hk k)].
  injection Hl as <-. injection Hc as <-. cbn [slept due]. split.
  - destruct (Z.ltb_spec curr (u64 (start + intr))); lia.
  - intros Hm. rewrite (proj2 (Z.ltb_lt _ _) Hm) in Et. cbn in Et. by apply Z.leb_gt in Et.
Qed.
End generator.

(** The generator keeps its schedule.  Whatever the clock says when it gets to
    run, the [k]-th event is due at the start plus the [k + 1] first intervals
    (the interval drawn before the loop delays all events); it sleeps exactly
    until then, or not at all when it is late; and it generates nothing once the
    time limit is reached. *)
Theorem eventgen_keeps_schedule (log : dbl -> dbl) tx_rate max_time_ns curr clocks s turns s' :
  eventgen_run log tx_rate max_time_ns curr clocks s = Some (turns, s') ->
  exists first intervals, map due turns = due_times (curr + first) intervals /\
    forall k t now, turns !! k = Some t -> clocks !! k = Some now ->
      slept t = Z.max 0 (due t - now) /\ (0 < max_time_ns -> now < max_time_ns).
Proof.
  unfold eventgen_run, rbind. destruct (interval log (lambda_of tx_rate) s) as [[first s1]|]; [|done]. intros H.
  destruct (gen_loop_schedule _ _ _ _ _ _ _ _ H) as (l & Hd & _ & Hk). by exists first, l.
Qed.

(** ** Without the generator *)

Section no_generator.
Context {Q : Type} `{!Ring Q}.

(** As at the start, but the generator has given up. *)
Definition without_generator (q : Q) (n : nat) : qconfig Q := set_gen GExit (q_initial q n).

Definition starving (c : qconfig Q) : Prop :=
  gen c = GExit /\ ring_ok (ring c) /\ ring_list (ring c) = [] /\ taken c = [] /\
  Forall (fun p => event_of p = None) (workers c).

Lemma starving_step (c c' : qconfig Q) : starving c -> any_step c c' -> starving c'.
Proof.
  intros (Hg & Hok & Hr & Ht & Hw) [H|H]; inversion H; subst; cbn in *; try congruence.
  - pose proof (dequeue_spec (ring c) Hok) as Hd. rewrite H1 in Hd. destruct Hd as [_ Hd]. by rewrite Hr in Hd.
  - by pose proof (Forall_lookup_1 _ _ _ _ Hw H0).
  - split_and!; try done. by apply Forall_insert.
  - split_and!; try done. by apply Forall_insert.
  - split_and!; try done. by apply Forall_insert.
  - split_and!; try done. by apply Forall_insert.
  - split_and!; try done. apply Forall_insert; [done|]. by destruct (_ || _).
  - done.
  - done.
  - by pose proof (Forall_lookup_1 _ _ _ _ Hw H0).
  - split_and!; try done. by apply Forall_insert.
Qed.

(** If the generator gives up, because the mutex or the condition variable of the
    queue cannot be initialized, no worker ever gets an event, whatever happens;
    and nothing tells the main thread. *)
Theorem no_generator_no_events (q : Q) n c :
  ring_ok q -> ring_list q = [] -> rtc any_step (without_generator q n) c ->
  taken c = [] /\ forall i p, workers c !! i = Some p -> event_of p = None.
Proof.
  intros Hok Hl Hr. assert (H0 : starving (without_generator q n)).
  { split_and!; try done. cbn. apply Forall_replicate. done. }
  assert (H : starving c) by (revert H0; induction Hr; [done|]; eauto using starving_step).
  destruct H as (_ & _ & _ & Ht & Hw). split; [done|]. intros i p Hi. exact (Forall_lookup_1 _ _ _ _ Hw Hi).
Qed.
End no_generator.
