(* ===== verification/Crc32.v ===== *)
(** * CRC-32 ([tests/fileio/crc32.c])

    The word-at-a-time routine of little-endian machines, with the tables of
    [crc32tbl.h], is shown equal to the bit-by-bit definition of the checksum for
    every buffer and every alignment.  The shift register is linear, so a table
    entry is the register shifted by whole bytes. *)

From S2P Require Import Prelude CrcTable.

(** ** The shift register *)

Definition poly_terms : list Z := [0; 1; 2; 4; 5; 7; 8; 10; 11; 12; 16; 22; 23; 26].
Definition poly : Z := Eval vm_compute in foldl (fun p n => Z.lor p (Z.shiftl 1 (31 - n))) 0 poly_terms.

Definition shift1 (c : Z) : Z := if Z.testbit c 0 then Z.lxor poly (Z.shiftr c 1) else Z.shiftr c 1.
Definition shiftn (n : nat) (c : Z) : Z := Nat.iter n shift1 c.

(** ** The tables, as [make_crc_table] computes them *)

Definition REV (w : Z) : Z :=
  Z.shiftr w 24 + Z.land (Z.shiftr w 8) 0xff00
  + Z.shiftl (Z.land w 0xff00) 8 + Z.shiftl (Z.land w 0xff) 24.

Definition make_table_0 : list Z := map (fun n => shiftn 8 (Z.of_nat n)) (seq 0 256).
Definition next_table (t0 t : list Z) : list Z :=
  map (fun c => Z.lxor (nth (Z.to_nat (Z.land c 0xff)) t0 0) (Z.shiftr c 8)) t.
Definition make_crc_table : list (list Z) :=
  let t0 := make_table_0 in
  let t1 := next_table t0 t0 in
  let t2 := next_table t0 t1 in
  let t3 := next_table t0 t2 in
  [t0; t1; t2; t3; map REV t0; map REV t1; map REV t2; map REV t3].

Definition crc_table : list (list Z) :=
  [crc_table_0; crc_table_1; crc_table_2; crc_table_3;
   crc_table_4; crc_table_5; crc_table_6; crc_table_7].
Definition tbl (k : nat) (n : Z) : Z := nth (Z.to_nat n) (nth k crc_table []) 0.

(** ** The routine *)

(** A 32-bit word read from memory on a little-endian and on a big-endian machine. *)
Definition le_word (b0 b1 b2 b3 : Z) : Z := b0 + 2 ^ 8 * b1 + 2 ^ 16 * b2 + 2 ^ 24 * b3.
Definition be_word (b0 b1 b2 b3 : Z) : Z := le_word b3 b2 b1 b0.

Definition do1_little (c b : Z) : Z := Z.lxor (tbl 0 (Z.land (Z.lxor c b) 0xff)) (Z.shiftr c 8).
Definition do1_big (c b : Z) : Z := Z.lxor (tbl 4 (Z.lxor (Z.shiftr c 24) b)) (u32 (Z.shiftl c 8)).

Definition DOLIT4 (c w : Z) : Z :=
  let c := Z.lxor c w in
  Z.lxor (Z.lxor (Z.lxor (tbl 3 (Z.land c 0xff)) (tbl 2 (Z.land (Z.shiftr c 8) 0xff)))
                 (tbl 1 (Z.land (Z.shiftr c 16) 0xff))) (tbl 0 (Z.shiftr c 24)).
Definition DOBIG4 (c w : Z) : Z :=
  let c := Z.lxor c w in
  Z.lxor (Z.lxor (Z.lxor (tbl 4 (Z.land c 0xff)) (tbl 5 (Z.land (Z.shiftr c 8) 0xff)))
                 (tbl 6 (Z.land (Z.shiftr c 16) 0xff))) (tbl 7 (Z.shiftr c 24)).

(** The loops of [crc32_little] and [crc32_big] differ in the step for a byte,
    [do1], and the step for the next four bytes of the buffer, [do4]. *)
Section loops.
  Variable do1 : Z -> Z -> Z.
  Variable do4 : Z -> Z -> Z -> Z -> Z -> Z.

(** [while (len >= 4)] *)
Fixpoint words_loop (c : Z) (buf : list Z) : Z * list Z :=
  match buf with
  | b0 :: b1 :: b2 :: b3 :: buf => words_loop (do4 c b0 b1 b2 b3) buf
  | _ => (c, buf)
  end.

(** [while (len >= 32)]; the fuel is the length of the buffer. *)
Fixpoint blocks_loop (fuel : nat) (c : Z) (buf : list Z) : Z * list Z :=
  match fuel with
  | O => (c, buf)
  | S fuel =>
      if (32 <=? length buf)%nat then
        blocks_loop fuel (fst (words_loop c (take 32 buf))) (drop 32 buf)
      else (c, buf)
  end.

(** [while (len && ((ptrdiff_t)buf & 3))], [buf] being at address [addr]. *)
Fixpoint align_loop (addr c : Z) (buf : list Z) : Z * list Z :=
  match buf with
  | [] => (c, [])
  | b :: buf' => if Z.land addr 3 =? 0 then (c, buf) else align_loop (addr + 1) (do1 c b) buf'
  end.

(** [if (len) do ... while (--len)] *)
Definition bytes_loop (c : Z) (buf : list Z) : Z := foldl do1 c buf.

Definition crc_loops (addr c : Z) (buf : list Z) : Z :=
  let '(c, buf) := align_loop addr c buf in
  let '(c, buf) := blocks_loop (length buf) c buf in
  let '(c, buf) := words_loop c buf in
  bytes_loop c buf.
End loops.

(** [~c] of a 32-bit [c]. *)
Definition not32 (c : Z) : Z := Z.lxor c UINT32_MAX.

Definition crc32_little (addr crc : Z) (buf : list Z) : Z :=
  let do4 c b0 b1 b2 b3 := DOLIT4 c (le_word b0 b1 b2 b3) in
  not32 (crc_loops do1_little do4 addr (not32 (u32 crc)) buf).

Definition crc32_big (addr crc : Z) (buf : list Z) : Z :=
  let do4 c b0 b1 b2 b3 := DOBIG4 c (be_word b0 b1 b2 b3) in
  REV (not32 (crc_loops do1_big do4 addr (not32 (REV (u32 crc))) buf)).

(** [crc32] of a buffer at [addr], or of [Z_NULL] ([None]), on a machine of
    either byte order; [BYFOUR] is defined wherever [unsigned int] has 32 bits. *)
Definition crc32 (little_endian : bool) (crc : Z) (buf : option (Z * list Z)) : Z :=
  match buf with
  | None => 0
  | Some (addr, bytes) =>
      if little_endian then crc32_little addr crc bytes else crc32_big addr crc bytes
  end.

(** A byte of the buffer. *)
Definition is_byte (b : Z) : Prop := 0 <= b < 256.

(** ** Specification: one bit at a time *)

Definition crc_byte (c b : Z) : Z := shiftn 8 (Z.lxor c b).
Definition crc32_spec (crc : Z) (buf : list Z) : Z :=
  not32 (foldl crc_byte (not32 (u32 crc)) buf).

(** ** Linearity *)

Lemma shift1_lxor x y : shift1 (Z.lxor x y) = Z.lxor (shift1 x) (shift1 y).
Proof.
  unfold shift1. rewrite Z.lxor_spec, Z.shiftr_lxor.
  destruct (Z.testbit x 0), (Z.testbit y 0); cbn [xorb]; apply Z.bits_inj'; intros i _;
    rewrite !Z.lxor_spec; destruct (Z.testbit poly i), (Z.testbit _ i), (Z.testbit _ i); done.
Qed.

Lemma shiftn_S n x : shiftn (S n) x = shift1 (shiftn n x).
Proof. done. Qed.

Lemma shiftn_lxor n x y : shiftn n (Z.lxor x y) = Z.lxor (shiftn n x) (shiftn n y).
Proof. induction n as [|n IH]; [done|]. by rewrite !shiftn_S, IH, shift1_lxor. Qed.

Lemma shiftn_add n m x : shiftn (n + m) x = shiftn n (shiftn m x).
Proof. induction n as [|n IH]; [done|]. cbn [Nat.add]. by rewrite !shiftn_S, IH. Qed.

Lemma shift1_double x : shift1 (Z.shiftl x 1) = x.
Proof.
  unfold shift1. rewrite Z.shiftl_spec_low by lia. rewrite Z.shiftr_shiftl_l by lia.
  apply Z.shiftl_0_r.
Qed.

Lemma shiftn_shiftl n x : shiftn n (Z.shiftl x (Z.of_nat n)) = x.
Proof.
  revert x. induction n as [|n IH]; intros x; [apply Z.shiftl_0_r|].
  rewrite shiftn_S. replace (Z.shiftl x (Z.of_nat (S n))) with (Z.shiftl (Z.shiftl x 1) (Z.of_nat n)).
  - rewrite IH. apply shift1_double.
  - rewrite Z.shiftl_shiftl by lia. f_equal. lia.
Qed.

(** Splitting off the low [8 * k] bits. *)
Lemma split_low x n : 0 <= n -> x = Z.lxor (Z.land x (Z.ones n)) (Z.shiftl (Z.shiftr x n) n).
Proof.
  intros Hn. apply Z.bits_inj'. intros i Hi.
  rewrite Z.lxor_spec, Z.land_spec, Z.shiftl_spec by done.
  destruct (Z.lt_ge_cases i n).
  - rewrite Z.ones_spec_low, (Z.testbit_neg_r _ (i - n)) by lia. by destruct (Z.testbit x i).
  - rewrite Z.ones_spec_high, Z.shiftr_spec by lia. rewrite Z.sub_add. by destruct (Z.testbit x i).
Qed.

Lemma land_ff_range x : 0 <= Z.land x 0xff < 256.
Proof. change 0xff with (Z.ones 8). rewrite Z.land_ones by lia. apply Z.mod_pos_bound. lia. Qed.

(** ** The tables *)

Definition table_ok (k : nat) : bool :=
  forallb (fun n => nth n (nth k crc_table []) 0 =? shiftn (8 * S k) (Z.of_nat n)) (seq 0 256).

Lemma tables_ok : table_ok 0 && table_ok 1 && table_ok 2 && table_ok 3 = true.
Proof. vm_compute. reflexivity. Qed.

#[local] Opaque crc_table shiftn.

Lemma tbl_spec k n : (k < 4)%nat -> 0 <= n < 256 -> tbl k n = shiftn (8 * S k) n.
Proof.
  intros Hk Hn. assert (Hok : table_ok k = true).
  { pose proof tables_ok as H. rewrite !andb_true_iff in H. destruct H as [[[? ?] ?] ?].
    destruct k as [|[|[|[|k]]]]; [assumption..|lia]. }
  unfold table_ok in Hok. rewrite forallb_forall in Hok.
  specialize (Hok (Z.to_nat n) ltac:(apply in_seq; lia)). apply Z.eqb_eq in Hok.
  rewrite Z2Nat.id in Hok by lia. exact Hok.
Qed.

Lemma do1_little_spec c b : 0 <= b < 256 -> do1_little c b = crc_byte c b.
Proof.
  intros Hb. unfold do1_little, crc_byte. rewrite tbl_spec by (lia || apply land_ff_range).
  rewrite (split_low (Z.lxor c b) 8) at 2 by lia. change (Z.ones 8) with 0xff.
  rewrite shiftn_lxor. f_equal. rewrite (shiftn_shiftl 8). rewrite Z.shiftr_lxor.
  rewrite (Z.shiftr_div_pow2 b) by lia. rewrite (Z.div_small b) by lia. by rewrite Z.lxor_0_r.
Qed.

(** Folding in a byte after [k] others is folding it in above them before. *)
Lemma byte_before k c b : Z.lxor (shiftn k c) b = shiftn k (Z.lxor c (Z.shiftl b (Z.of_nat k))).
Proof. by rewrite shiftn_lxor, shiftn_shiftl. Qed.

Lemma le_word_lxor b0 b1 b2 b3 :
  0 <= b0 < 256 -> 0 <= b1 < 256 -> 0 <= b2 < 256 -> 0 <= b3 < 256 ->
  le_word b0 b1 b2 b3
  = Z.lxor (Z.lxor (Z.lxor b0 (Z.shiftl b1 8)) (Z.shiftl b2 16)) (Z.shiftl b3 24).
Proof.
  intros H0 H1 H2 H3.
  assert (Hx : forall n x y, 0 <= n -> 0 <= x < 2 ^ n -> 0 <= y -> Z.lxor x (Z.shiftl y n) = x + y * 2 ^ n).
  { intros n x y Hn Hx Hy. rewrite <- Z.add_nocarry_lxor.
    - by rewrite Z.shiftl_mul_pow2.
    - apply Z.bits_inj'. intros i Hi. rewrite Z.land_spec, Z.bits_0, Z.shiftl_spec by done.
      destruct (Z.lt_ge_cases i n).
      + rewrite (Z.testbit_neg_r y) by lia. apply andb_false_r.
      + by rewrite (testbit_above n x i) by lia. }
  rewrite (Hx 8) by lia. rewrite (Hx 16) by lia. rewrite (Hx 24) by lia. unfold le_word. lia.
Qed.

(** The four-byte step, as one shift of the register. *)
Lemma crc_word c b0 b1 b2 b3 :
  is_byte b0 -> is_byte b1 -> is_byte b2 -> is_byte b3 ->
  foldl crc_byte c [b0; b1; b2; b3] = shiftn 32 (Z.lxor c (le_word b0 b1 b2 b3)).
Proof.
  intros H0 H1 H2 H3. cbn [foldl]. unfold crc_byte.
  rewrite (byte_before 8 (Z.lxor c b0) b1), <- (shiftn_add 8 8), (byte_before 16 _ b2),
    <- (shiftn_add 8 16), (byte_before 24 _ b3), <- (shiftn_add 8 24). cbn [Nat.add].
  rewrite le_word_lxor by done. by rewrite !Z.lxor_assoc.
Qed.

Lemma shiftn_split n m x :
  m = (8 + n)%nat -> shiftn m x = Z.lxor (shiftn m (Z.land x 0xff)) (shiftn n (Z.shiftr x 8)).
Proof.
  intros ->. rewrite (split_low x 8) at 1 by lia. rewrite shiftn_lxor. f_equal.
  rewrite (Nat.add_comm 8 n), shiftn_add. by rewrite (shiftn_shiftl 8).
Qed.

Lemma DOLIT4_spec c b0 b1 b2 b3 :
  0 <= c < 2 ^ 32 -> 0 <= b0 < 256 -> 0 <= b1 < 256 -> 0 <= b2 < 256 -> 0 <= b3 < 256 ->
  DOLIT4 c (le_word b0 b1 b2 b3) = foldl crc_byte c [b0; b1; b2; b3].
Proof.
  intros Hc H0 H1 H2 H3. rewrite crc_word by assumption.
  assert (Hw : 0 <= Z.lxor c (le_word b0 b1 b2 b3) < 2 ^ 32) by (apply lxor_bound; unfold le_word; lia).
  unfold DOLIT4. set (w := Z.lxor c (le_word b0 b1 b2 b3)) in *. clearbody w.
  assert (H24 : 0 <= Z.shiftr w 24 < 256).
  { rewrite Z.shiftr_div_pow2 by lia. split; [apply Z.div_pos; lia|apply Z.div_lt_upper_bound; lia]. }
  rewrite !tbl_spec by (lia || apply land_ff_range).
  rewrite (shiftn_split 24 32 w), (shiftn_split 16 24 (Z.shiftr w 8)),
    (shiftn_split 8 16 (Z.shiftr (Z.shiftr w 8) 8)) by reflexivity.
  rewrite !Z.shiftr_shiftr by lia. cbn [Nat.mul Nat.add Z.add Pos.add Pos.succ Pos.add_carry].
  by rewrite !Z.lxor_assoc.
Qed.

(** ** The register stays within 32 bits *)

Lemma shift1_bound c : is_u32 c -> is_u32 (shift1 c).
Proof.
  intros Hc. assert (Hs : 0 <= Z.shiftr c 1 < 2 ^ 32).
  { rewrite Z.shiftr_div_pow2 by lia. unfold is_u32 in Hc.
    split; [apply Z.div_pos; lia|apply Z.div_lt_upper_bound; lia]. }
  unfold shift1. destruct (Z.testbit c 0); [|exact Hs]. apply lxor_bound; [lia|unfold poly; lia|exact Hs].
Qed.

Lemma shiftn_bound n c : is_u32 c -> is_u32 (shiftn n c).
Proof. intros Hc. induction n as [|n IH]; [exact Hc|]. rewrite shiftn_S. by apply shift1_bound. Qed.

Lemma crc_byte_bound c b : is_u32 c -> is_byte b -> is_u32 (crc_byte c b).
Proof. intros Hc Hb. apply shiftn_bound, lxor_bound; unfold is_u32, is_byte in *; lia. Qed.

Lemma crc_bytes_bound c buf : is_u32 c -> Forall is_byte buf -> is_u32 (foldl crc_byte c buf).
Proof.
  revert c. induction buf as [|b buf IH]; intros c Hc Hb; [exact Hc|].
  apply Forall_cons in Hb as [Hb Hbuf]. apply IH; [by apply crc_byte_bound|exact Hbuf].
Qed.


(** ** Each loop folds in the bytes it consumes

    [f] is how the routine represents the register of the bit-by-bit definition:
    the identity on a little-endian machine, byte reversal on a big-endian one. *)
Section loops_correct.
  Context (do1 : Z -> Z -> Z) (do4 : Z -> Z -> Z -> Z -> Z -> Z) (f : Z -> Z).
  Hypothesis do1_ok : forall c b, is_u32 c -> is_byte b -> do1 (f c) b = f (crc_byte c b).
  Hypothesis do4_ok : forall c b0 b1 b2 b3, is_u32 c ->
    is_byte b0 -> is_byte b1 -> is_byte b2 -> is_byte b3 ->
    do4 (f c) b0 b1 b2 b3 = f (foldl crc_byte c [b0; b1; b2; b3]).

(** The loop has read a prefix of [buf] and folded it into the register. *)
Definition consumes (c : Z) (buf : list Z) (out : Z * list Z) : Prop :=
  exists pre, buf = pre ++ out.2 /\ out.1 = f (foldl crc_byte c pre).

Lemma consumes_nil c buf : consumes c buf (f c, buf).
Proof using Type. by exists []. Qed.

Lemma consumes_step c pre buf out :
  consumes (foldl crc_byte c pre) buf out -> consumes c (pre ++ buf) out.
Proof using Type. intros [p [-> E]]. exists (pre ++ p). by rewrite <- app_assoc, foldl_app. Qed.

Lemma align_loop_consumes buf : forall addr c,
  is_u32 c -> Forall is_byte buf -> consumes c buf (align_loop do1 addr (f c) buf).
Proof using do1_ok.
  induction buf as [|b buf IH]; intros addr c Hc Hb; cbn [align_loop]; [apply consumes_nil|].
  apply Forall_cons in Hb as [Hb Hbuf]. destruct (Z.land addr 3 =? 0); [apply consumes_nil|].
  apply (consumes_step c [b]). cbn [foldl]. rewrite do1_ok by assumption.
  apply IH; [by apply crc_byte_bound|exact Hbuf].
Qed.

Lemma words_loop_consumes n : forall c buf, (length buf <= n)%nat ->
  is_u32 c -> Forall is_byte buf -> consumes c buf (words_loop do4 (f c) buf).
Proof using do4_ok.
  induction n as [n IH] using lt_wf_ind. intros c buf Hn Hc Hb.
  destruct buf as [|b0 [|b1 [|b2 [|b3 buf]]]]; cbn [words_loop]; try apply consumes_nil.
  rewrite !Forall_cons in Hb. destruct Hb as (H0 & H1 & H2 & H3 & Hb).
  apply (consumes_step c [b0; b1; b2; b3]). rewrite do4_ok by assumption.
  cbn [length] in Hn. apply (IH (length buf)); [lia|lia| |exact Hb].
  apply crc_bytes_bound; [exact Hc|]. rewrite !Forall_cons. auto.
Qed.

Lemma words_loop_all n : forall c buf, length buf = (4 * n)%nat -> (words_loop do4 c buf).2 = [].
Proof using Type.
  induction n as [|n IH]; intros c buf Hn.
  - by destruct buf.
  - destruct buf as [|b0 [|b1 [|b2 [|b3 buf]]]]; cbn [length] in Hn; try lia.
    cbn [words_loop]. apply IH. lia.
Qed.

Lemma block_consumed c buf :
  (32 <= length buf)%nat -> is_u32 c -> Forall is_byte buf ->
  fst (words_loop do4 (f c) (take 32 buf)) = f (foldl crc_byte c (take 32 buf)).
Proof using do4_ok.
  intros Hl Hc Hb. destruct (words_loop_consumes _ c (take 32 buf) (le_n _) Hc) as [pre [E ->]].
  - by apply Forall_take.
  - rewrite (words_loop_all 8) in E by (rewrite length_take; lia). by rewrite E, app_nil_r.
Qed.

Lemma blocks_loop_consumes fuel : forall c buf,
  is_u32 c -> Forall is_byte buf -> consumes c buf (blocks_loop do4 fuel (f c) buf).
Proof using do4_ok.
  induction fuel as [|fuel IH]; intros c buf Hc Hb; cbn [blocks_loop]; [apply consumes_nil|].
  destruct (Nat.leb_spec 32 (length buf)) as [Hl|Hl]; [|apply consumes_nil].
  rewrite block_consumed by assumption. rewrite <- (take_drop 32 buf) at 1. apply consumes_step.
  apply IH; [apply crc_bytes_bound; [exact Hc|by apply Forall_take]|by apply Forall_drop].
Qed.

Lemma bytes_loop_spec buf : forall c,
  is_u32 c -> Forall is_byte buf -> bytes_loop do1 (f c) buf = f (foldl crc_byte c buf).
Proof using do1_ok.
  unfold bytes_loop. induction buf as [|b buf IH]; intros c Hc Hb; [reflexivity|].
  apply Forall_cons in Hb as [Hb Hbuf]. cbn [foldl]. rewrite do1_ok by assumption.
  apply IH; [by apply crc_byte_bound|exact Hbuf].
Qed.

Lemma crc_loops_spec addr c buf :
  is_u32 c -> Forall is_byte buf -> crc_loops do1 do4 addr (f c) buf = f (foldl crc_byte c buf).
Proof using do1_ok do4_ok.
  intros Hc Hb. unfold crc_loops.
  destruct (align_loop_consumes buf addr c Hc Hb) as [p1 [E1 F1]].
  destruct (align_loop do1 addr (f c) buf) as [c1 b1]. cbn [fst snd] in *. subst buf c1.
  apply Forall_app in Hb as [Hp1 Hb]. rewrite foldl_app.
  pose proof (crc_bytes_bound c p1 Hc Hp1) as Hc1. clear Hc. set (c1 := foldl crc_byte c p1) in *.
  destruct (blocks_loop_consumes (length b1) c1 b1 Hc1 Hb) as [p2 [E2 F2]].
  destruct (blocks_loop do4 (length b1) (f c1) b1) as [c2 b2]. cbn [fst snd] in *. subst b1 c2.
  apply Forall_app in Hb as [Hp2 Hb]. rewrite foldl_app.
  pose proof (crc_bytes_bound c1 p2 Hc1 Hp2) as Hc2. set (c2 := foldl crc_byte c1 p2) in *.
  destruct (words_loop_consumes (length b2) c2 b2 (le_n _) Hc2 Hb) as [p3 [E3 F3]].
  destruct (words_loop do4 (f c2) b2) as [c3 b3]. cbn [fst snd] in *. subst b2 c3.
  apply Forall_app in Hb as [Hp3 Hb]. rewrite foldl_app.
  apply bytes_loop_spec; [by apply crc_bytes_bound|exact Hb].
Qed.
End loops_correct.

Lemma not32_bound c : is_u32 c -> is_u32 (not32 c).
Proof. intros Hc. apply lxor_bound; [lia|exact Hc|unfold UINT32_MAX; lia]. Qed.

Lemma crc32_little_spec addr crc buf :
  Forall is_byte buf -> crc32_little addr crc buf = crc32_spec crc buf.
Proof.
  intros Hb. unfold crc32_little, crc32_spec. f_equal.
  apply (crc_loops_spec _ _ (fun c => c)); [| |apply not32_bound, u32_range|exact Hb].
  - intros c b _ Hx. by apply do1_little_spec.
  - intros c b0 b1 b2 b3. apply DOLIT4_spec.
Qed.

(** ** Byte reversal *)

Lemma land_ff x : Z.land x 0xff = x mod 2 ^ 8.
Proof. change 0xff with (Z.ones 8). by apply Z.land_ones. Qed.

Lemma land_ff00 x : Z.land x 0xff00 = 2 ^ 8 * ((x / 2 ^ 8) mod 2 ^ 8).
Proof.
  change 0xff00 with (Z.shiftl (Z.ones 8) 8).
  rewrite Z.mul_comm, <- Z.shiftl_mul_pow2, <- Z.land_ones, <- Z.shiftr_div_pow2 by lia.
  apply Z.bits_inj'. intros i Hi. rewrite Z.land_spec, !Z.shiftl_spec, Z.land_spec by lia.
  destruct (Z.lt_ge_cases i 8).
  - rewrite (Z.testbit_neg_r _ (i - 8)) by lia. rewrite (Z.testbit_neg_r (Z.shiftr _ _)) by lia.
    apply andb_false_r.
  - rewrite Z.shiftr_spec by lia. by rewrite Z.sub_add.
Qed.

Lemma REV_le_word b0 b1 b2 b3 :
  is_byte b0 -> is_byte b1 -> is_byte b2 -> is_byte b3 -> REV (le_word b0 b1 b2 b3) = le_word b3 b2 b1 b0.
Proof.
  unfold is_byte. intros H0 H1 H2 H3. unfold REV. rewrite !land_ff00, land_ff.
  rewrite !Z.shiftr_div_pow2, !Z.shiftl_mul_pow2 by lia. unfold le_word.
  Z.div_mod_to_equations; lia.
Qed.

Lemma le_word_split w : is_u32 w ->
  exists b0 b1 b2 b3, w = le_word b0 b1 b2 b3 /\ is_byte b0 /\ is_byte b1 /\ is_byte b2 /\ is_byte b3.
Proof.
  intros Hw. exists (w mod 2 ^ 8), ((w / 2 ^ 8) mod 2 ^ 8), ((w / 2 ^ 16) mod 2 ^ 8), (w / 2 ^ 24).
  unfold le_word, is_u32, is_byte in *. repeat split; Z.div_mod_to_equations; lia.
Qed.

Lemma le_word_bound b0 b1 b2 b3 :
  is_byte b0 -> is_byte b1 -> is_byte b2 -> is_byte b3 -> is_u32 (le_word b0 b1 b2 b3).
Proof. unfold is_byte, is_u32, le_word. lia. Qed.

(** The bytes of a word, the way the routine extracts them. *)
Lemma le_word_bytes b0 b1 b2 b3 (w := le_word b0 b1 b2 b3) :
  is_byte b0 -> is_byte b1 -> is_byte b2 -> is_byte b3 ->
  Z.land w 0xff = b0 /\ Z.land (Z.shiftr w 8) 0xff = b1 /\
  Z.land (Z.shiftr w 16) 0xff = b2 /\ Z.shiftr w 24 = b3 /\
  Z.shiftr w 8 = le_word b1 b2 b3 0 /\ u32 (Z.shiftl w 8) = le_word 0 b0 b1 b2.
Proof.
  unfold is_byte. intros H0 H1 H2 H3. subst w. rewrite !land_ff, !Z.shiftr_div_pow2, Z.shiftl_mul_pow2 by lia.
  unfold le_word, u32. repeat split; Z.div_mod_to_equations; lia.
Qed.

Lemma lxor_byte x y : is_byte x -> is_byte y -> is_byte (Z.lxor x y).
Proof. apply (lxor_bound 8). lia. Qed.

Lemma le_word_lxor2 a0 a1 a2 a3 b0 b1 b2 b3 :
  is_byte a0 -> is_byte a1 -> is_byte a2 -> is_byte a3 ->
  is_byte b0 -> is_byte b1 -> is_byte b2 -> is_byte b3 ->
  Z.lxor (le_word a0 a1 a2 a3) (le_word b0 b1 b2 b3)
  = le_word (Z.lxor a0 b0) (Z.lxor a1 b1) (Z.lxor a2 b2) (Z.lxor a3 b3).
Proof.
  intros. rewrite !le_word_lxor by (done || by apply lxor_byte).
  rewrite !Z.shiftl_lxor. apply Z.bits_inj'. intros i _. rewrite !Z.lxor_spec.
  repeat match goal with |- context [Z.testbit ?x i] => destruct (Z.testbit x i) end; reflexivity.
Qed.

Lemma REV_lxor x y : is_u32 x -> is_u32 y -> REV (Z.lxor x y) = Z.lxor (REV x) (REV y).
Proof.
  intros Hx Hy. destruct (le_word_split x Hx) as (a0 & a1 & a2 & a3 & -> & ? & ? & ? & ?).
  destruct (le_word_split y Hy) as (b0 & b1 & b2 & b3 & -> & ? & ? & ? & ?).
  rewrite le_word_lxor2, !REV_le_word, le_word_lxor2 by (done || by apply lxor_byte). reflexivity.
Qed.

Lemma REV_bound x : is_u32 x -> is_u32 (REV x).
Proof.
  intros Hx. destruct (le_word_split x Hx) as (a0 & a1 & a2 & a3 & -> & ? & ? & ? & ?).
  rewrite REV_le_word by done. by apply le_word_bound.
Qed.

Lemma REV_REV x : is_u32 x -> REV (REV x) = x.
Proof.
  intros Hx. destruct (le_word_split x Hx) as (a0 & a1 & a2 & a3 & -> & ? & ? & ? & ?).
  by rewrite !REV_le_word by done.
Qed.

Lemma not32_REV x : is_u32 x -> not32 (REV x) = REV (not32 x).
Proof.
  intros Hx. unfold not32. rewrite REV_lxor by (done || (unfold is_u32, UINT32_MAX; lia)). reflexivity.
Qed.

(** ** The big-endian steps *)

Definition reversed_ok (k : nat) : bool :=
  forallb (fun n => nth n (nth (k + 4) crc_table []) 0 =? REV (nth n (nth k crc_table []) 0)) (seq 0 256).

#[local] Transparent crc_table.
Lemma reversed_tables : reversed_ok 0 && reversed_ok 1 && reversed_ok 2 && reversed_ok 3 = true.
Proof. vm_compute. reflexivity. Qed.
#[local] Opaque crc_table.

Lemma tbl_reversed k n : (k < 4)%nat -> is_byte n -> tbl (k + 4) n = REV (tbl k n).
Proof.
  intros Hk Hn. unfold is_byte in Hn. assert (Hok : reversed_ok k = true).
  { pose proof reversed_tables as H. rewrite !andb_true_iff in H. destruct H as [[[? ?] ?] ?].
    destruct k as [|[|[|[|k]]]]; [assumption..|lia]. }
  unfold reversed_ok in Hok. rewrite forallb_forall in Hok.
  specialize (Hok (Z.to_nat n) ltac:(apply in_seq; lia)). by apply Z.eqb_eq in Hok.
Qed.

Lemma tbl_bound k n : (k < 4)%nat -> is_byte n -> is_u32 (tbl k n).
Proof.
  intros Hk Hn. rewrite tbl_spec by (done || exact Hn). apply shiftn_bound.
  unfold is_byte, is_u32 in *. lia.
Qed.

Lemma do1_big_spec c b : is_u32 c -> is_byte b -> do1_big (REV c) b = REV (crc_byte c b).
Proof.
  intros Hc Hb. rewrite <- do1_little_spec by exact Hb.
  destruct (le_word_split c Hc) as (c0 & c1 & c2 & c3 & -> & H0 & H1 & H2 & H3).
  unfold do1_big, do1_little. rewrite REV_le_word by done.
  destruct (le_word_bytes c3 c2 c1 c0) as (_ & _ & _ & -> & _ & ->); [done..|].
  destruct (le_word_bytes c0 c1 c2 c3) as (E & _ & _ & _ & -> & _); [done..|].
  assert (Eb : Z.land (Z.lxor (le_word c0 c1 c2 c3) b) 0xff = Z.lxor c0 b).
  { revert E. generalize (le_word c0 c1 c2 c3) as w. intros w E. rewrite <- E.
    rewrite !land_ff, <- !Z.land_ones by lia. apply Z.bits_inj'. intros i _.
    assert (Hi : Z.testbit b i = Z.testbit b i && Z.testbit (Z.ones 8) i).
    { rewrite <- Z.land_spec, Z.land_ones by lia. by rewrite Z.mod_small by exact Hb. }
    rewrite !Z.land_spec, !Z.lxor_spec, Z.land_spec. rewrite Hi.
    clear. repeat match goal with |- context [Z.testbit ?x i] => destruct (Z.testbit x i) end; reflexivity. }
  assert (Hx : is_byte (Z.lxor c0 b)) by (by apply lxor_byte).
  assert (Hz : is_byte 0) by (unfold is_byte; lia).
  rewrite Eb, (tbl_reversed 0) by (exact Hx || lia).
  rewrite <- (REV_le_word c1 c2 c3 0) by done.
  rewrite REV_lxor; [reflexivity|apply tbl_bound; [lia|done]|by apply le_word_bound].
Qed.

Lemma DOBIG4_spec c b0 b1 b2 b3 : is_u32 c ->
  is_byte b0 -> is_byte b1 -> is_byte b2 -> is_byte b3 ->
  DOBIG4 (REV c) (be_word b0 b1 b2 b3) = REV (foldl crc_byte c [b0; b1; b2; b3]).
Proof.
  intros Hc H0 H1 H2 H3. rewrite <- DOLIT4_spec by assumption. unfold DOBIG4, DOLIT4, be_word.
  rewrite <- (REV_le_word b0 b1 b2 b3) by assumption. pose proof (le_word_bound b0 b1 b2 b3 H0 H1 H2 H3) as Hw.
  rewrite <- REV_lxor by assumption. assert (Hx : is_u32 (Z.lxor c (le_word b0 b1 b2 b3))) by (by apply lxor_bound).
  destruct (le_word_split _ Hx) as (x0 & x1 & x2 & x3 & -> & X0 & X1 & X2 & X3).
  rewrite REV_le_word by assumption.
  destruct (le_word_bytes x3 x2 x1 x0) as (-> & -> & -> & -> & _ & _); [assumption..|].
  destruct (le_word_bytes x0 x1 x2 x3) as (-> & -> & -> & -> & _ & _); [assumption..|].
  rewrite (tbl_reversed 0), (tbl_reversed 1), (tbl_reversed 2), (tbl_reversed 3) by (assumption || lia).
  pose proof (tbl_bound 0 x3 ltac:(lia) X3). pose proof (tbl_bound 1 x2 ltac:(lia) X2).
  pose proof (tbl_bound 2 x1 ltac:(lia) X1). pose proof (tbl_bound 3 x0 ltac:(lia) X0).
  rewrite !REV_lxor by (repeat apply lxor_bound; (assumption || lia)).
  apply Z.bits_inj'. intros i _. rewrite !Z.lxor_spec.
  repeat match goal with |- context [Z.testbit ?x i] => destruct (Z.testbit x i) end; reflexivity.
Qed.

Lemma crc32_big_spec addr crc buf :
  Forall is_byte buf -> crc32_big addr crc buf = crc32_spec crc buf.
Proof.
  intros Hb. unfold crc32_big, crc32_spec. pose proof (u32_range crc) as Hc.
  pose proof (not32_bound _ Hc) as Hn. rewrite not32_REV by exact Hc.
  rewrite (crc_loops_spec _ _ REV); [|apply do1_big_spec|apply DOBIG4_spec|exact Hn|exact Hb].
  pose proof (crc_bytes_bound _ buf Hn Hb). rewrite not32_REV by assumption.
  apply REV_REV. by apply not32_bound.
Qed.

(** ** The register is injective, so no short corruption goes unnoticed *)

Lemma shift1_zero z : is_u32 z -> shift1 z = 0 -> z = 0.
Proof.
  intros Hz. unfold shift1. rewrite Z.bit0_odd, Z.shiftr_div_pow2 by lia. unfold is_u32 in Hz.
  destruct (Z.odd z) eqn:E.
  - intros H. apply Z.lxor_eq in H. exfalso. unfold poly in H.
    pose proof (Z.div_lt_upper_bound z (2 ^ 1) (2 ^ 31)). lia.
  - rewrite (Zodd_even_bool z) in E. apply negb_false_iff, Zeven_bool_iff, Zeven_ex in E as [k ->].
    change (2 ^ 1) with 2. intros H. rewrite Z.mul_comm, Z.div_mul in H by lia. lia.
Qed.

Lemma shiftn_zero n z : is_u32 z -> shiftn n z = 0 -> z = 0.
Proof.
  intros Hz. induction n as [|n IH]; [auto|]. rewrite shiftn_S. intros H.
  apply IH, shift1_zero; [by apply shiftn_bound|exact H].
Qed.

Lemma shiftn_inj n x y : is_u32 x -> is_u32 y -> shiftn n x = shiftn n y -> x = y.
Proof.
  intros Hx Hy H. apply Z.lxor_eq, (shiftn_zero n); [by apply lxor_bound|].
  rewrite shiftn_lxor, H. apply Z.lxor_nilpotent.
Qed.

Lemma lxor_cancel_r a b c : Z.lxor a c = Z.lxor b c -> a = b.
Proof.
  intros H. apply (f_equal (fun z => Z.lxor z c)) in H.
  by rewrite !Z.lxor_assoc, !Z.lxor_nilpotent, !Z.lxor_0_r in H.
Qed.

Lemma crc_bytes_inj buf : forall x y, is_u32 x -> is_u32 y -> Forall is_byte buf ->
  foldl crc_byte x buf = foldl crc_byte y buf -> x = y.
Proof.
  induction buf as [|b buf IH]; intros x y Hx Hy Hb E; [exact E|].
  apply Forall_cons in Hb as [Hb Hbuf]. cbn [foldl] in E.
  apply IH in E; [|by apply crc_byte_bound..|exact Hbuf].
  assert (is_u32 b) by (unfold is_byte, is_u32 in *; lia).
  apply shiftn_inj in E; [|by apply lxor_bound..]. by apply lxor_cancel_r in E.
Qed.

Lemma le_word_inj a0 a1 a2 a3 b0 b1 b2 b3 :
  is_byte a0 -> is_byte a1 -> is_byte a2 -> is_byte a3 ->
  is_byte b0 -> is_byte b1 -> is_byte b2 -> is_byte b3 ->
  le_word a0 a1 a2 a3 = le_word b0 b1 b2 b3 -> [a0; a1; a2; a3] = [b0; b1; b2; b3].
Proof.
  unfold is_byte, le_word. intros. assert (a0 = b0 /\ a1 = b1 /\ a2 = b2 /\ a3 = b3) as (-> & -> & -> & ->) by lia.
  reflexivity.
Qed.

Lemma crc32_spec_bound crc buf : Forall is_byte buf -> is_u32 (crc32_spec crc buf).
Proof. intros Hb. apply not32_bound, crc_bytes_bound; [apply not32_bound, u32_range|exact Hb]. Qed.

(** Two buffers that differ only within four adjacent bytes have different
    checksums. *)
Lemma crc32_spec_burst crc pre x y post :
  Forall is_byte (pre ++ x ++ post) -> Forall is_byte y -> length x = 4%nat -> length y = 4%nat ->
  crc32_spec crc (pre ++ x ++ post) = crc32_spec crc (pre ++ y ++ post) -> x = y.
Proof.
  rewrite !Forall_app. intros (Hp & Hx & Hq) Hy Lx Ly E. unfold crc32_spec in E.
  apply lxor_cancel_r in E. rewrite !foldl_app in E.
  pose proof (crc_bytes_bound _ _ (not32_bound _ (u32_range crc)) Hp) as Hc.
  set (c := foldl crc_byte _ pre) in *. clearbody c.
  apply crc_bytes_inj in E; [|by apply crc_bytes_bound..|exact Hq].
  destruct x as [|x0 [|x1 [|x2 [|x3 [|]]]]]; try (cbn [length] in Lx; lia).
  destruct y as [|y0 [|y1 [|y2 [|y3 [|]]]]]; try (cbn [length] in Ly; lia).
  rewrite !Forall_cons in Hx, Hy. destruct Hx as (? & ? & ? & ? & _), Hy as (? & ? & ? & ? & _).
  rewrite !crc_word in E by assumption. apply shiftn_inj in E.
  - rewrite (Z.lxor_comm c), (Z.lxor_comm c (le_word y0 y1 y2 y3)) in E.
    apply lxor_cancel_r in E. by apply le_word_inj in E.
  - apply lxor_bound; [lia|exact Hc|by apply le_word_bound].
  - apply lxor_bound; [lia|exact Hc|by apply le_word_bound].
Qed.

(** ** Properties *)

(** C38: the checksum of a buffer, computed four bytes at a time through the
    tables after aligning the pointer, is the bit-by-bit CRC-32 of the buffer, for
    every buffer, every address, every initial value and both byte orders. *)
Theorem crc32_equivalence little_endian addr crc buf :
  Forall is_byte buf -> crc32 little_endian crc (Some (addr, buf)) = crc32_spec crc buf.
Proof.
  intros Hb. unfold crc32. destruct little_endian; [by apply crc32_little_spec|by apply crc32_big_spec].
Qed.

#[local] Transparent crc_table shiftn.

(** The check value of CRC-32, of the ASCII string 123456789. *)
Definition check_input : list Z := [49; 50; 51; 52; 53; 54; 55; 56; 57].
Lemma crc32_equivalence_witness :
  crc32 false 0 (Some (3, check_input)) = crc32_spec 0 check_input
  /\ crc32_spec 0 check_input = 0xcbf43926.
Proof.
  split; [|vm_compute; reflexivity].
  apply (crc32_equivalence false 3 0 check_input). unfold check_input, is_byte.
  repeat constructor; lia.
Defined.

(** The tables compiled in from [crc32tbl.h] are the ones [make_crc_table]
    computes from the polynomial. *)
Theorem crc_table_is_made : crc_table = make_crc_table.
Proof. vm_compute. reflexivity. Qed.
