(* ===== verification/Fileio.v ===== *)
(** * The fileio test: requests and block validation ([tests/fileio/sb_fileio.c])

    Sequential and random request generation with periodic fsync, the check of
    sequential order, and the checksummed blocks of validation mode.  Executing
    a request is in [FileioRun], the command line in [FileioArgs]. *)

From S2P Require Import Prelude Double Xoroshiro Rand Counter Reports Crc32.

#[local] Open Scope rand_scope.

(** ** Data *)

Inductive sb_file_op_t :=
| FILE_OP_TYPE_NULL | FILE_OP_TYPE_READ | FILE_OP_TYPE_WRITE | FILE_OP_TYPE_FSYNC.

Record sb_file_request_t := FileRequest {
  file_id : Z;
  pos : Z;
  size : Z;
  operation : sb_file_op_t
}.

Inductive file_test_mode_t :=
| MODE_READ | MODE_WRITE | MODE_REWRITE | MODE_RND_READ | MODE_RND_WRITE | MODE_RND_RW | MODE_MIXED.

Inductive file_fsync_mode_t := FSYNC_ALL | FSYNC_DATA.

Inductive file_io_mode_t := FILE_IO_MODE_SYNC | FILE_IO_MODE_ASYNC | FILE_IO_MODE_MMAP.

Definition SB_FILE_FLAG_SYNC : Z := 1.
Definition SB_FILE_FLAG_DSYNC : Z := 2.
Definition SB_FILE_FLAG_DIRECTIO : Z := 4.

#[export] Instance sb_file_op_eq_dec : EqDecision sb_file_op_t.
Proof. solve_decision. Defined.
#[export] Instance file_test_mode_eq_dec : EqDecision file_test_mode_t.
Proof. solve_decision. Defined.
#[export] Instance file_io_mode_eq_dec : EqDecision file_io_mode_t.
Proof. solve_decision. Defined.
#[export] Instance sb_file_request_eq_dec : EqDecision sb_file_request_t.
Proof. solve_decision. Defined.

(** The test options. *)
Record fileio_conf := FileioConf {
  num_files : Z;
  total_size : Z;
  file_size : Z;
  file_block_size : Z;
  file_extra_flags : Z;
  file_fsync_freq : Z;
  file_fsync_all : Z;
  file_fsync_end : Z;
  file_fsync_mode : file_fsync_mode_t;
  file_rw_ratio : dbl;
  file_merged_requests : Z;
  file_request_size : Z;
  file_io_mode : file_io_mode_t;
  test_mode : file_test_mode_t
}.

(** The statistical and other local variables. *)
Record fileio_vars := FileioVars {
  position : Z;
  current_file : Z;
  fsynced_file : Z;
  is_dirty : bool;
  req_performed : Z;
  prev_req : sb_file_request_t
}.

Record sb_per_thread_t := PerThread {
  buffer : list Z;
  buffer_file_id : Z;
  buffer_pos : Z
}.

Definition SB_MIN (a b : Z) : Z := if a <? b then a else b.

(** [init_vars] *)
Definition init_vars (validating : bool) (prev : sb_file_request_t) : fileio_vars :=
  FileioVars 0 0 0 false 0 (if validating then FileRequest 0 0 0 FILE_OP_TYPE_NULL else prev).

(** ** Sequential requests *)

(** Operations on the execution mutex. *)
Inductive mutex_op := Lock | Unlock.

(** The warnings of [check_seq_req]. *)
Inductive seq_warning := FileDifference | PositionDifference | InvalidFileSwitch.

Definition check_seq_req (c : fileio_conf) (prev r : sb_file_request_t) : option seq_warning :=
  if bool_decide (operation r = FILE_OP_TYPE_FSYNC) || bool_decide (operation r = FILE_OP_TYPE_NULL)
  then None
  else if bool_decide (operation prev = FILE_OP_TYPE_NULL) then None
  else if (1 <? u32 (file_id r - file_id prev))
          && negb ((file_id r =? 0) && (file_id prev =? u32 (num_files c - 1)))
  then Some FileDifference
  else if file_id r =? file_id prev then
    (if pos r - pos prev =? size prev then None else Some PositionDifference)
  else if negb (pos prev + size prev =? file_size c) || negb (pos r =? 0) then Some InvalidFileSwitch
  else None.

Definition is_write_mode (m : file_test_mode_t) : bool :=
  bool_decide (m = MODE_WRITE) || bool_decide (m = MODE_REWRITE).

(** The fsync request of the periodic series, in both generators. *)
Definition fsync_request (c : fileio_conf) (v : fileio_vars) : sb_file_request_t * fileio_vars :=
  let next := u32 (fsynced_file v + 1) in
  (FileRequest (fsynced_file v) 0 0 FILE_OP_TYPE_FSYNC,
   if next =? num_files c
   then FileioVars (position v) (current_file v) 0 false (req_performed v) (prev_req v)
   else FileioVars (position v) (current_file v) next (is_dirty v) (req_performed v) (prev_req v)).

(** What a generator leaves behind: the mutex calls it made, a warning, the
    request and the variables. *)
Record seq_out := SeqOut {
  so_mutex : list mutex_op;
  so_warning : option seq_warning;
  so_req : sb_file_request_t;
  so_vars : fileio_vars
}.

Definition seq_operation (c : fileio_conf) : sb_file_op_t :=
  if is_write_mode (test_mode c) then FILE_OP_TYPE_WRITE else FILE_OP_TYPE_READ.

Definition time_to_fsync (c : fileio_conf) (v : fileio_vars) : bool :=
  negb (file_fsync_freq c =? 0) && is_dirty v && (req_performed v mod u32 (file_fsync_freq c) =? 0).

Definition seq_data_request (validating : bool) (c : fileio_conf) (v : fileio_vars)
    : option seq_warning * sb_file_request_t * fileio_vars :=
  let op := seq_operation c in
  let req_performed := u32 (req_performed v + 1) in
  let is_dirty := bool_decide (op = FILE_OP_TYPE_WRITE) || is_dirty v in
  let rewind := current_file v =? num_files c in
  let position := if rewind then 0 else position v in
  let current_file := if rewind then 0 else current_file v in
  let size := SB_MIN (file_request_size c) (file_size c - position) in
  let req := FileRequest current_file position size op in
  let position := position + size in
  let scroll := position =? file_size c in
  let current_file := if scroll then u32 (current_file + 1) else current_file in
  let position := if scroll then 0 else position in
  (if validating then check_seq_req c (prev_req v) req else None, req,
   FileioVars position current_file (fsynced_file v) is_dirty req_performed
     (if validating then req else prev_req v)).

Definition file_get_seq_request (validating : bool) (c : fileio_conf) (v : fileio_vars) : seq_out :=
  if bool_decide (seq_operation c = FILE_OP_TYPE_WRITE) && time_to_fsync c v then
    let '(req, v) := fsync_request c v in SeqOut [Lock; Unlock] None req v
  else
    let '(warning, req, v) := seq_data_request validating c v in
    SeqOut [Lock; Unlock] warning req v.

(** ** Random requests *)

(** The value of [mode]: the combined test reads while the thread's ratio of
    reads to writes is below the requested one. *)
Definition rnd_mode (c : fileio_conf) (cnt : counters) (thread_id : nat) : file_test_mode_t :=
  if bool_decide (test_mode c = MODE_RND_RW) then
    let val t := dadd (d_of_Z (sb_counter_val cnt thread_id (cnt_index t))) (d_of_Z 1) in
    if dltb (ddiv (val SB_CNT_READ) (val SB_CNT_WRITE)) (file_rw_ratio c)
    then MODE_RND_READ else MODE_RND_WRITE
  else test_mode c.

(** One pass from the label [retry]: a block picked uniformly from the total
    size. Undefined where the code divides by zero. *)
Definition rnd_block (c : fileio_conf) (op : sb_file_op_t) : rand sb_file_request_t :=
  u <-r sb_rand_uniform_double;
  t <-r rcast (d_to_s64 (dmul u (d_of_Z (total_size c))));
  let tmppos := u64 t in
  if (file_block_size c =? 0) || (file_size c =? 0) then rcast None
  else
    let tmppos := u64 (tmppos - tmppos mod u64 (file_block_size c)) in
    let pos := s64 (tmppos mod u64 (file_size c)) in
    rret (FileRequest (u32 (tmppos / u64 (file_size c))) pos
            (SB_MIN (file_block_size c) (file_size c - pos)) op).

Definition no_thread : sb_per_thread_t := PerThread [] 0 0.

(** Another thread works on the block. *)
Definition block_in_use (nthreads : nat) (pt : list sb_per_thread_t) (thread_id : nat)
    (req : sb_file_request_t) : bool :=
  existsb (fun i => negb (i =? thread_id)%nat
                    && (buffer_file_id (nth i pt no_thread) =? file_id req)
                    && (buffer_pos (nth i pt no_thread) =? pos req)) (seq 0 nthreads).

(** [retry] until the block is free; [inr tt] when the fuel runs out. *)
Fixpoint rnd_pick (fuel : nat) (validating : bool) (nthreads : nat) (c : fileio_conf)
    (pt : list sb_per_thread_t) (thread_id : nat) (op : sb_file_op_t)
    : rand (sb_file_request_t + unit) :=
  match fuel with
  | O => rret (inr tt)
  | S fuel =>
      req <-r rnd_block c op;
      if validating && block_in_use nthreads pt thread_id req
      then rnd_pick fuel validating nthreads c pt thread_id op
      else rret (inl req)
  end.

Record rnd_out := RndOut {
  ro_mutex : list mutex_op;
  ro_req : sb_file_request_t;
  ro_vars : fileio_vars;
  ro_threads : list sb_per_thread_t
}.

Definition file_get_rnd_request (fuel : nat) (validating : bool) (nthreads : nat) (c : fileio_conf)
    (cnt : counters) (pt : list sb_per_thread_t) (thread_id : nat) (v : fileio_vars)
    : rand (rnd_out + unit) :=
  let mode := rnd_mode c cnt thread_id in
  if time_to_fsync c v then
    let '(req, v) := fsync_request c v in rret (inl (RndOut [Unlock] req v pt))
  else
    let op := if bool_decide (mode = MODE_RND_WRITE) then FILE_OP_TYPE_WRITE else FILE_OP_TYPE_READ in
    picked <-r rnd_pick fuel validating nthreads c pt thread_id op;
    match picked with
    | inr _ => rret (inr tt)
    | inl req =>
        let pt := alter (fun p => PerThread (buffer p) (file_id req) (pos req)) thread_id pt in
        let v := FileioVars (position v) (current_file v) (fsynced_file v)
                   (bool_decide (op = FILE_OP_TYPE_WRITE) || is_dirty v)
                   (u32 (req_performed v + 1)) (prev_req v) in
        rret (inl (RndOut [Unlock] req v pt))
    end.

(** [file_next_event]: the generator of the test mode. *)
Definition is_seq_mode (m : file_test_mode_t) : bool :=
  bool_decide (m = MODE_WRITE) || bool_decide (m = MODE_REWRITE) || bool_decide (m = MODE_READ).

Definition file_next_event (fuel : nat) (validating : bool) (nthreads : nat) (c : fileio_conf)
    (cnt : counters) (pt : list sb_per_thread_t) (thread_id : nat) (v : fileio_vars)
    : rand (rnd_out + unit) :=
  if is_seq_mode (test_mode c) then
    let o := file_get_seq_request validating c v in
    rret (inl (RndOut (so_mutex o) (so_req o) (so_vars o) pt))
  else file_get_rnd_request fuel validating nthreads c cnt pt thread_id v.

(** ** Validated blocks *)

Definition FILE_CHECKSUM_LENGTH : Z := 4.
Definition FILE_OFFSET_LENGTH : Z := 8.

(** The bytes of an integer in memory, and back. *)
Fixpoint le_bytes (n : nat) (x : Z) : list Z :=
  match n with O => [] | S n => x mod 256 :: le_bytes n (x / 256) end.
Fixpoint le_value (l : list Z) : Z :=
  match l with [] => 0 | b :: l => b + 256 * le_value l end.

Section validation.
(** The byte order of the machine and the address of the buffer. *)
Context (little_endian : bool) (addr : Z).

Definition store (n : nat) (x : Z) : list Z :=
  if little_endian then le_bytes n x else rev (le_bytes n x).
Definition load (l : list Z) : Z := if little_endian then le_value l else le_value (rev l).

(** [for (i = 0; i < n; i++) buf[i] = sb_rand_uniform_uint64() & 0xFF] *)
Fixpoint random_bytes (n : nat) : rand (list Z) :=
  match n with
  | O => rret []
  | S n => x <-r sb_rand_uniform_uint64; l <-r random_bytes n; rret (Z.land x 0xFF :: l)
  end.

(** Undefined ([None]) when a store falls outside the buffer. *)
Definition file_fill_buffer (buf : list Z) (len offset : Z) : rand (list Z) :=
  let n := u32 (len - (FILE_CHECKSUM_LENGTH + FILE_OFFSET_LENGTH)) in
  if Z.of_nat (length buf) <? n + (FILE_CHECKSUM_LENGTH + FILE_OFFSET_LENGTH) then rcast None
  else
    data <-r random_bytes (Z.to_nat n);
    let checksum := u32 (crc32 little_endian 0 (Some (addr, data))) in
    rret (data ++ store 4 checksum ++ store 8 (u64 offset)
          ++ drop (Z.to_nat n + 12) buf).

(** The result of the function, or [None] when a load falls outside the buffer. *)
Definition file_validate_buffer (buf : list Z) (len offset : Z) : option Z :=
  let cs_offset := u32 (len - (FILE_CHECKSUM_LENGTH + FILE_OFFSET_LENGTH)) in
  if Z.of_nat (length buf) <? cs_offset + (FILE_CHECKSUM_LENGTH + FILE_OFFSET_LENGTH) then None
  else
    let n := Z.to_nat cs_offset in
    let checksum := u32 (crc32 little_endian 0 (Some (addr, take n buf))) in
    if negb (checksum =? load (take 4 (drop n buf))) then Some 1
    else if negb (u64 offset =? load (take 8 (drop (n + 4) buf))) then Some 1
    else Some 0.
End validation.

(** ** The sequential plan

    Data request [k] of a run is chunk [k mod per_file] of file [k / per_file],
    the files taken round and round.  When fsyncs are due, each series of
    [file_fsync_freq] data requests is followed by one fsync of every file. *)

Record conf_ok (c : fileio_conf) : Prop := ConfOk {
  ok_files : 0 < num_files c < 2 ^ 32;
  ok_file_size : 0 < file_size c;
  ok_request : 0 < file_request_size c;
  ok_freq : 0 <= file_fsync_freq c < 2 ^ 31
}.

Definition per_file (c : fileio_conf) : Z := (file_size c + file_request_size c - 1) / file_request_size c.

Definition data_request (c : fileio_conf) (k : Z) : sb_file_request_t :=
  let p := k mod per_file c * file_request_size c in
  FileRequest ((k / per_file c) mod num_files c) p
    (SB_MIN (file_request_size c) (file_size c - p)) (seq_operation c).

Definition periodic (c : fileio_conf) : bool :=
  bool_decide (seq_operation c = FILE_OP_TYPE_WRITE) && negb (file_fsync_freq c =? 0).

(** Request [i] belongs to round [i / round c]. *)
Definition round (c : fileio_conf) : Z := file_fsync_freq c + num_files c.

(** The data requests among the first [i] requests. *)
Definition data_count (c : fileio_conf) (i : Z) : Z :=
  if periodic c then i / round c * file_fsync_freq c + Z.min (i mod round c) (file_fsync_freq c) else i.

Definition is_data (c : fileio_conf) (i : Z) : bool :=
  negb (periodic c) || (i mod round c <? file_fsync_freq c).

Definition planned (c : fileio_conf) (i : Z) : sb_file_request_t :=
  if is_data c i then data_request c (data_count c i)
  else FileRequest (i mod round c - file_fsync_freq c) 0 0 FILE_OP_TYPE_FSYNC.

(** The one warning of a correct run: with a single file, returning to its
    beginning is taken for a gap. *)
Definition planned_warning (validating : bool) (c : fileio_conf) (i : Z) : option seq_warning :=
  let k := data_count c i in
  if validating && is_data c i && (num_files c =? 1) && (0 <? k) && (k mod per_file c =? 0)
  then Some PositionDifference else None.

Fixpoint seq_run (n : nat) (validating : bool) (c : fileio_conf) (v : fileio_vars)
    : list (sb_file_request_t * option seq_warning) :=
  match n with
  | O => []
  | S n =>
      let o := file_get_seq_request validating c v in
      (so_req o, so_warning o) :: seq_run n validating c (so_vars o)
  end.

(** ** Chunks of a file *)

Lemma per_file_pos c : conf_ok c -> 0 < per_file c.
Proof. intros [? ? ? ?]. unfold per_file. apply Z.div_str_pos. lia. Qed.

Lemma per_file_bracket c : conf_ok c ->
  (per_file c - 1) * file_request_size c < file_size c <= per_file c * file_request_size c.
Proof.
  intros [? ? ? ?]. unfold per_file.
  pose proof (Z.div_mod (file_size c + file_request_size c - 1) (file_request_size c) ltac:(lia)).
  pose proof (Z.mod_pos_bound (file_size c + file_request_size c - 1) (file_request_size c) ltac:(lia)).
  nia.
Qed.

Lemma chunk_inside c j : conf_ok c -> 0 <= j < per_file c ->
  0 <= j * file_request_size c < file_size c.
Proof. intros Hc Hj. pose proof (per_file_bracket c Hc). destruct Hc. nia. Qed.

(** The size of chunk [j]: whole except for the last one, which ends the file. *)
Lemma chunk_size c j : conf_ok c -> 0 <= j < per_file c ->
  let p := j * file_request_size c in
  SB_MIN (file_request_size c) (file_size c - p)
  = if j =? per_file c - 1 then file_size c - p else file_request_size c.
Proof.
  intros Hc Hj p. pose proof (per_file_bracket c Hc) as [Hlo Hhi]. destruct Hc as [? ? ? ?].
  unfold SB_MIN, p. destruct (Z.eqb_spec j (per_file c - 1)) as [->|].
  - destruct (Z.ltb_spec (file_request_size c) (file_size c - (per_file c - 1) * file_request_size c)); nia.
  - assert (j + 2 <= per_file c) by lia.
    destruct (Z.ltb_spec (file_request_size c) (file_size c - j * file_request_size c)); nia.
Qed.

Lemma mod_S k m : 0 < m -> 0 <= k ->
  (k + 1) mod m = (if k mod m =? m - 1 then 0 else k mod m + 1) /\
  (k + 1) / m = (if k mod m =? m - 1 then k / m + 1 else k / m).
Proof.
  intros Hm Hk. pose proof (Z.div_mod k m ltac:(lia)). pose proof (Z.mod_pos_bound k m Hm).
  destruct (Z.eqb_spec (k mod m) (m - 1)).
  - split; [symmetry; apply (Z.mod_unique_pos _ _ (k / m + 1)); lia|
            symmetry; apply (Z.div_unique_pos _ _ _ 0); lia].
  - split; [symmetry; apply (Z.mod_unique_pos _ _ (k / m)); lia|
            symmetry; apply (Z.div_unique_pos _ _ _ (k mod m + 1)); lia].
Qed.

(** ** The invariant of the generator *)

(** Where the files stand after [k] data requests.  After the last file,
    [current_file] is [num_files] until the next request rewinds it. *)
Record at_data (c : fileio_conf) (k : Z) (v : fileio_vars) : Prop := AtData {
  ad_file : 0 <= current_file v <= num_files c;
  ad_mod : current_file v mod num_files c = (k / per_file c) mod num_files c;
  ad_last : current_file v = num_files c -> k mod per_file c = 0;
  ad_pos : position v = k mod per_file c * file_request_size c;
  ad_performed : req_performed v = k
}.

(** What validation mode remembers. *)
Definition remembers (validating : bool) (c : fileio_conf) (k : Z) (v : fileio_vars) : Prop :=
  validating = true ->
  if k =? 0 then operation (prev_req v) = FILE_OP_TYPE_NULL else prev_req v = data_request c (k - 1).

(** Where the periodic fsync stands at request [i]. *)
Definition at_fsync (c : fileio_conf) (i : Z) (v : fileio_vars) : Prop :=
  periodic c = true ->
  let r := i mod round c in
  is_dirty v = (0 <? r) /\ fsynced_file v = Z.max 0 (r - file_fsync_freq c).

Definition seq_inv (validating : bool) (c : fileio_conf) (i : Z) (v : fileio_vars) : Prop :=
  at_data c (data_count c i) v /\ remembers validating c (data_count c i) v /\ at_fsync c i v.

(** The request the data branch makes from a state of the plan. *)
Lemma data_request_made validating c k v :
  conf_ok c -> at_data c k v -> 0 <= k -> (seq_data_request validating c v).1.2 = data_request c k.
Proof.
  intros Hc [Hf Hm Hl Hp _] Hk. unfold seq_data_request, data_request. cbn [fst snd].
  destruct (Z.eqb_spec (current_file v) (num_files c)) as [E|E].
  - specialize (Hl E). rewrite Hl in *. cbn [Z.mul]. rewrite <- Hm, E, Z.mod_same; [reflexivity|].
    destruct Hc. lia.
  - rewrite <- Hm, Z.mod_small by (destruct Hc; lia). rewrite Hp. reflexivity.
Qed.

Lemma next_file_mod f q n : 0 < n -> 0 <= f < n -> f mod n = q mod n -> (f + 1) mod n = (q + 1) mod n.
Proof. intros Hn Hf E. rewrite <- Zplus_mod_idemp_l, E. apply Zplus_mod_idemp_l. Qed.

Lemma data_state_made validating c k v :
  conf_ok c -> at_data c k v -> 0 <= k -> k + 1 < 2 ^ 32 ->
  at_data c (k + 1) (seq_data_request validating c v).2.
Proof.
  intros Hc Hat Hk Hk1. pose proof (data_request_made validating c k v Hc Hat Hk) as Ereq.
  unfold seq_data_request in *. cbn [fst snd] in *. unfold data_request in Ereq.
  injection Ereq as Ef Ep Es. rewrite Ef, Ep in *. clear Ef Ep Es.
  destruct Hat as [Hf Hm Hl Hp Hr]. pose proof (per_file_pos c Hc) as Hpf.
  pose proof (Z.mod_pos_bound k (per_file c) Hpf) as Hj. set (j := k mod per_file c) in *.
  pose proof (chunk_inside c j Hc Hj) as Hin. pose proof (chunk_size c j Hc Hj) as Hsz. cbv zeta in Hsz.
  rewrite Hsz. destruct (mod_S k (per_file c) Hpf Hk) as [Em Ed]. fold j in Em, Ed.
  pose proof (Z.mod_pos_bound (k / per_file c) (num_files c) (proj1 (ok_files c Hc))) as Hq.
  assert (Hn : 0 < num_files c < 2 ^ 32) by apply Hc.
  destruct (Z.eqb_spec j (per_file c - 1)) as [Ej|Ej].
  - assert (E : (j * file_request_size c + (file_size c - j * file_request_size c) =? file_size c) = true)
      by (apply Z.eqb_eq; lia).
    rewrite E. rewrite u32_small by (unfold is_u32; lia). split; cbn [current_file position req_performed].
    + lia.
    + rewrite Ed. by rewrite Zplus_mod_idemp_l.
    + intros _. rewrite Em. reflexivity.
    + rewrite Em. reflexivity.
    + rewrite Hr. apply u32_small. unfold is_u32. lia.
  - pose proof (chunk_inside c (j + 1) Hc ltac:(lia)) as Hin1.
    assert (E : (j * file_request_size c + file_request_size c =? file_size c) = false)
      by (apply Z.eqb_neq; lia).
    rewrite E. split; cbn [current_file position req_performed].
    + lia.
    + rewrite Ed. apply Z.mod_mod. lia.
    + intros Hx. lia.
    + rewrite Em. lia.
    + rewrite Hr. apply u32_small. unfold is_u32. lia.
Qed.

Lemma seq_operation_cases c :
  seq_operation c = FILE_OP_TYPE_WRITE \/ seq_operation c = FILE_OP_TYPE_READ.
Proof. unfold seq_operation. destruct (is_write_mode (test_mode c)); auto. Qed.

(** Successive data requests pass the check of sequential order, except when a
    single file starts over. *)
Lemma planned_check c k :
  conf_ok c -> 0 < k ->
  check_seq_req c (data_request c (k - 1)) (data_request c k)
  = if (num_files c =? 1) && (k mod per_file c =? 0) then Some PositionDifference else None.
Proof.
  intros Hc Hk. pose proof (per_file_pos c Hc) as Hpf. assert (Hn : 0 < num_files c < 2 ^ 32) by apply Hc.
  destruct (mod_S (k - 1) (per_file c) Hpf ltac:(lia)) as [Em Ed]. rewrite Z.sub_add in Em, Ed.
  pose proof (Z.mod_pos_bound (k - 1) (per_file c) Hpf) as Hj.
  unfold check_seq_req, data_request. cbn [file_id pos size operation].
  rewrite !bool_decide_eq_false_2 by (destruct (seq_operation_cases c) as [-> | ->]; done).
  cbn [orb]. rewrite (chunk_size c ((k - 1) mod per_file c) Hc Hj). rewrite Em, Ed.
  set (j := (k - 1) mod per_file c) in *. set (q := (k - 1) / per_file c) in *.
  assert (0 <= q) by (apply Z.div_pos; lia).
  pose proof (Z.mod_pos_bound q (num_files c) ltac:(lia)) as Hf.
  destruct (Z.eqb_spec j (per_file c - 1)) as [Ej|Ej].
  - destruct (mod_S q (num_files c) ltac:(lia) ltac:(lia)) as [Eq _]. rewrite Eq.
    rewrite (u32_small (num_files c - 1)) by (unfold is_u32; lia).
    pose proof (ok_file_size c Hc).
    destruct (Z.eqb_spec (q mod num_files c) (num_files c - 1)) as [El|El].
    + rewrite El, !Z.eqb_refl. rewrite andb_false_r.
      destruct (Z.eqb_spec (num_files c) 1) as [E1|E1].
      * rewrite E1. cbn [andb Z.sub Z.eqb]. change (0 =? 1 - 1) with true. cbv iota.
        destruct (Z.eqb_spec (0 * file_request_size c - j * file_request_size c)
                    (file_size c - j * file_request_size c)); [lia|reflexivity].
      * cbn [andb]. destruct (Z.eqb_spec 0 (num_files c - 1)); [lia|].
        rewrite Zplus_minus, Z.eqb_refl. reflexivity.
    + rewrite (u32_small (_ - _)) by (unfold is_u32; lia).
      destruct (Z.ltb_spec 1 (q mod num_files c + 1 - q mod num_files c)); [lia|]. cbn [andb].
      destruct (Z.eqb_spec (q mod num_files c + 1) (q mod num_files c)); [lia|].
      rewrite Zplus_minus, Z.eqb_refl. destruct (Z.eqb_spec (num_files c) 1); [lia|]. reflexivity.
  - rewrite Z.sub_diag, Z.eqb_refl. cbn [andb]. change (1 <? u32 0) with false. cbv iota. cbn [andb].
    destruct (Z.eqb_spec ((j + 1) * file_request_size c - j * file_request_size c) (file_request_size c)); [|lia].
    destruct (Z.eqb_spec (j + 1) 0); [lia|]. by rewrite andb_false_r.
Qed.

(** ** Rounds *)

Lemma round_pos c : conf_ok c -> 0 < round c.
Proof. intros [? ? ? ?]. unfold round. lia. Qed.

(** Counting the data requests of one more request. *)
Lemma data_count_S c i : conf_ok c -> 0 <= i ->
  data_count c (i + 1) = data_count c i + (if is_data c i then 1 else 0).
Proof.
  intros Hc Hi. unfold data_count, is_data. destruct (periodic c); cbn [negb orb]; [|lia].
  pose proof (round_pos c Hc) as Hr. destruct (mod_S i (round c) Hr Hi) as [-> ->].
  pose proof (Z.mod_pos_bound i (round c) Hr). destruct Hc as [Hn _ _ Hq]. unfold round in *.
  destruct (Z.eqb_spec (i mod (file_fsync_freq c + num_files c)) (file_fsync_freq c + num_files c - 1));
    destruct (Z.ltb_spec (i mod (file_fsync_freq c + num_files c)) (file_fsync_freq c)); lia.
Qed.

Lemma data_count_nonneg c i : conf_ok c -> 0 <= i -> 0 <= data_count c i.
Proof.
  intros Hc Hi. unfold data_count. destruct (periodic c); [|done].
  pose proof (round_pos c Hc) as Hr. pose proof (Z.mod_pos_bound i (round c) Hr).
  pose proof (Z.div_pos i (round c) Hi Hr). destruct Hc. nia.
Qed.

Lemma data_count_mono c i j : conf_ok c -> 0 <= i <= j -> data_count c i <= data_count c j.
Proof.
  intros Hc [Hi Hij]. pattern j. apply (Zlt_lower_bound_ind _ i); [|done].
  intros x IH Hx. destruct (Z.eq_dec i x) as [->|]; [lia|].
  specialize (IH (x - 1) ltac:(lia)). pose proof (data_count_S c (x - 1) Hc ltac:(lia)) as E.
  rewrite Z.sub_add in E. destruct (is_data c (x - 1)); lia.
Qed.

(** Whether the generator decides to fsync. *)
Lemma fsync_decision validating c i v : conf_ok c -> 0 <= i -> seq_inv validating c i v ->
  bool_decide (seq_operation c = FILE_OP_TYPE_WRITE) && time_to_fsync c v = negb (is_data c i).
Proof.
  intros Hc Hi (Hd & _ & Hs). unfold time_to_fsync, is_data.
  rewrite !andb_assoc. fold (periodic c). destruct (periodic c) eqn:Ep; [|reflexivity].
  destruct (Hs Ep) as [-> _]. rewrite (ad_performed _ _ _ Hd). cbn [andb negb orb]. clear Hs Hd.
  unfold data_count. rewrite Ep. pose proof (round_pos c Hc) as Hr.
  pose proof (Z.mod_pos_bound i (round c) Hr) as Hb. set (r := i mod round c) in *.
  assert (Hq : 0 < file_fsync_freq c < 2 ^ 31).
  { unfold periodic in Ep. destruct Hc as [_ _ _ Hq]. bool_to_prop. lia. }
  rewrite u32_small by (unfold is_u32; lia). rewrite Z.add_comm, Z.mod_add by lia.
  destruct (Z.ltb_spec r (file_fsync_freq c)).
  - rewrite Z.min_l, Z.mod_small by lia. destruct (Z.ltb_spec 0 r); [|reflexivity].
    cbn [andb negb]. apply Z.eqb_neq. lia.
  - rewrite Z.min_r, Z.mod_same by lia. destruct (Z.ltb_spec 0 r); [reflexivity|lia].
Qed.

(** One data request keeps the plan. *)
Lemma seq_step_data validating c i v :
  conf_ok c -> 0 <= i -> data_count c i + 1 < 2 ^ 32 -> is_data c i = true -> seq_inv validating c i v ->
  let '(warning, req, v') := seq_data_request validating c v in
  req = planned c i /\ warning = planned_warning validating c i /\ seq_inv validating c (i + 1) v'.
Proof.
  intros Hc Hi Hk Hd (Hat & Hrem & Hfs). pose proof (data_count_nonneg c i Hc Hi) as Hk0.
  pose proof (data_count_S c i Hc Hi) as ES. rewrite Hd in ES.
  pose proof (data_request_made validating c _ v Hc Hat Hk0) as Ereq.
  pose proof (data_state_made validating c _ v Hc Hat Hk0 Hk) as Hat'.
  unfold planned, planned_warning, seq_inv. rewrite ES, Hd.
  destruct (seq_data_request validating c v) as [[warning req] v'] eqn:Eo. cbn [fst snd] in *.
  assert (Ew : warning = if validating then check_seq_req c (prev_req v) req else None)
    by (unfold seq_data_request in Eo; injection Eo as <- <- _; reflexivity).
  assert (Ev : (validating = true -> prev_req v' = req) /\ fsynced_file v' = fsynced_file v
               /\ is_dirty v' = bool_decide (seq_operation c = FILE_OP_TYPE_WRITE) || is_dirty v).
  { unfold seq_data_request in Eo. injection Eo as _ <- <-. cbn [prev_req fsynced_file is_dirty].
    split_and!; [intros ->|..]; reflexivity. }
  destruct Ev as (Epr & Efs & Edi). clear Eo. split_and!; [exact Ereq| |exact Hat'| |].
  - rewrite Ew, Ereq. destruct validating; [|reflexivity]. specialize (Hrem eq_refl).
    cbn [andb]. destruct (Z.eqb_spec (data_count c i) 0) as [E0|E0].
    + rewrite E0. cbn. unfold check_seq_req. rewrite Hrem. rewrite (bool_decide_eq_true_2 (FILE_OP_TYPE_NULL = FILE_OP_TYPE_NULL)) by done.
      rewrite andb_false_r. cbn [andb]. by case_bool.
    + rewrite Hrem, planned_check by (done || lia). rewrite (proj2 (Z.ltb_lt 0 (data_count c i))) by lia.
      by rewrite andb_true_r.
  - intros Hv. destruct (Z.eqb_spec (data_count c i + 1) 0); [lia|]. rewrite Z.add_simpl_r, <- Ereq. by apply Epr.
  - intros Hp. destruct (Hfs Hp) as [Hdi Hff]. unfold is_data in Hd. rewrite Hp in Hd. cbn [negb orb] in Hd.
    bool_to_prop. pose proof (round_pos c Hc) as Hr. destruct (mod_S i (round c) Hr Hi) as [-> _].
    pose proof (Z.mod_pos_bound i (round c) Hr). rewrite Efs, Edi, Hff.
    unfold periodic in Hp. apply andb_true_iff in Hp as [-> _]. destruct Hc as [Hn _ _ _]. unfold round in *.
    destruct (Z.eqb_spec (i mod (file_fsync_freq c + num_files c)) (file_fsync_freq c + num_files c - 1)); [lia|].
    cbn [orb]. rewrite (proj2 (Z.ltb_lt 0 _)) by lia. split; [reflexivity|lia].
Qed.

(** One request of the fsync series keeps the plan. *)
Lemma seq_step_fsync validating c i v :
  conf_ok c -> 0 <= i -> is_data c i = false -> seq_inv validating c i v ->
  let '(req, v') := fsync_request c v in
  req = planned c i /\ None = planned_warning validating c i /\ seq_inv validating c (i + 1) v'.
Proof.
  intros Hc Hi Hd (Hat & Hrem & Hfs). pose proof (data_count_S c i Hc Hi) as ES. rewrite Hd, Z.add_0_r in ES.
  unfold planned, planned_warning, seq_inv. rewrite ES, Hd, andb_false_r. cbn [andb].
  unfold is_data in Hd. apply orb_false_iff in Hd as [Hp Hr0]. apply negb_false_iff in Hp. bool_to_prop.
  destruct (Hfs Hp) as [Hdi Hff]. pose proof (round_pos c Hc) as Hr.
  pose proof (Z.mod_pos_bound i (round c) Hr) as Hb. assert (Hn : 0 < num_files c < 2 ^ 32) by apply Hc.
  assert (Hq : 0 <= file_fsync_freq c) by apply Hc.
  unfold fsync_request. rewrite Hff, Z.max_r by lia. split_and!; [reflexivity..| | |].
  - destruct Hat. case_bool; by split.
  - intros Hv. specialize (Hrem Hv). destruct (_ =? num_files c); exact Hrem.
  - intros _. destruct (mod_S i (round c) Hr Hi) as [-> _]. unfold round in *.
    rewrite u32_small by (unfold is_u32; lia).
    destruct (Z.eqb_spec (i mod (file_fsync_freq c + num_files c)) (file_fsync_freq c + num_files c - 1)) as [E|E].
    + rewrite (proj2 (Z.eqb_eq _ (num_files c))) by lia. cbn [is_dirty fsynced_file]. split; [reflexivity|lia].
    + rewrite (proj2 (Z.eqb_neq _ (num_files c))) by lia. cbn [is_dirty fsynced_file]. rewrite Hdi.
      rewrite !(proj2 (Z.ltb_lt 0 _)) by (destruct (Z.eq_dec (file_fsync_freq c) 0); [|lia]; unfold periodic in Hp; bool_to_prop; lia).
      split; [reflexivity|lia].
Qed.

Lemma seq_step validating c i v :
  conf_ok c -> 0 <= i -> data_count c (i + 1) < 2 ^ 32 -> seq_inv validating c i v ->
  let o := file_get_seq_request validating c v in
  so_req o = planned c i /\ so_warning o = planned_warning validating c i /\
  seq_inv validating c (i + 1) (so_vars o).
Proof.
  intros Hc Hi Hk Hinv o. unfold o, file_get_seq_request. rewrite (fsync_decision validating c i v) by done.
  rewrite data_count_S in Hk by done. destruct (is_data c i) eqn:Hd; cbn [negb].
  - pose proof (seq_step_data validating c i v Hc Hi Hk Hd Hinv) as H.
    by destruct (seq_data_request validating c v) as [[? ?] ?].
  - pose proof (seq_step_fsync validating c i v Hc Hi Hd Hinv) as H.
    destruct (fsync_request c v) as [? ?]. cbn [so_req so_warning so_vars]. naive_solver.
Qed.

Lemma seq_run_planned validating c n : forall i v,
  conf_ok c -> 0 <= i -> data_count c (i + Z.of_nat n) < 2 ^ 32 -> seq_inv validating c i v ->
  seq_run n validating c v
  = map (fun d => (planned c (i + Z.of_nat d), planned_warning validating c (i + Z.of_nat d))) (seq 0 n).
Proof.
  induction n as [|n IH]; intros i v Hc Hi Hk Hinv; [reflexivity|].
  assert (Hk1 : data_count c (i + 1) < 2 ^ 32).
  { pose proof (data_count_mono c (i + 1) (i + Z.of_nat (S n)) Hc). lia. }
  destruct (seq_step validating c i v Hc Hi Hk1 Hinv) as (E1 & E2 & Hinv').
  cbn [seq_run seq map]. rewrite E1, E2, Z.add_0_r. f_equal.
  rewrite (IH (i + 1)); [|done|lia|by replace (i + 1 + Z.of_nat n) with (i + Z.of_nat (S n)) by lia|done].
  rewrite <- seq_shift, map_map. apply map_ext. intros d. by replace (i + 1 + Z.of_nat d) with (i + Z.of_nat (S d)) by lia.
Qed.

Lemma init_seq_inv validating c prev : conf_ok c -> seq_inv validating c 0 (init_vars validating prev).
Proof.
  intros Hc. pose proof (per_file_pos c Hc). pose proof (round_pos c Hc).
  assert (E : data_count c 0 = 0).
  { unfold data_count. destruct (periodic c); [|done]. rewrite Z.div_0_l, Z.mod_0_l by lia. destruct Hc. lia. }
  unfold seq_inv. rewrite E. split_and!.
  - split; cbn.
    + destruct Hc. lia.
    + by rewrite Z.div_0_l by lia.
    + intros _. apply Z.mod_0_l. lia.
    + by rewrite Z.mod_0_l by lia.
    + done.
  - intros ->. done.
  - intros Hp. rewrite Z.mod_0_l by lia. cbn. destruct Hc. lia.
Qed.

(** C35: a sequential run is exactly the plan: chunk after chunk, file after
    file, round and round, and with periodic fsync enabled each
    [file_fsync_freq] writes followed by one fsync of every file.  The order
    check of validation mode is silent, except that with a single file it
    reports a gap each time the file starts over. *)
Theorem seq_requests_planned validating c prev n :
  conf_ok c -> data_count c (Z.of_nat n) < 2 ^ 32 ->
  seq_run n validating c (init_vars validating prev)
  = map (fun i => (planned c (Z.of_nat i), planned_warning validating c (Z.of_nat i))) (seq 0 n).
Proof. intros Hc Hn. rewrite (seq_run_planned validating c n 0); [reflexivity|done|lia|done|by apply init_seq_inv]. Qed.

(** Three files of 10 bytes in chunks of 4, an fsync series after 4 writes. *)
Definition example_seq_conf : fileio_conf :=
  FileioConf 3 30 10 4 0 4 0 1 FSYNC_ALL (Fin 0) 0 4 FILE_IO_MODE_SYNC MODE_WRITE.
Lemma seq_requests_planned_witness :
  seq_run 14 true example_seq_conf (init_vars true (FileRequest 0 0 0 FILE_OP_TYPE_NULL))
  = map (fun i => (planned example_seq_conf (Z.of_nat i), planned_warning true example_seq_conf (Z.of_nat i))) (seq 0 14)
  /\ planned example_seq_conf 3 = FileRequest 1 0 4 FILE_OP_TYPE_WRITE
  /\ planned example_seq_conf 6 = FileRequest 2 0 0 FILE_OP_TYPE_FSYNC
  /\ planned example_seq_conf 8 = FileRequest 1 8 2 FILE_OP_TYPE_WRITE.
Proof.
  split; [|vm_compute; auto].
  apply (seq_requests_planned true example_seq_conf (FileRequest 0 0 0 FILE_OP_TYPE_NULL) 14).
  - split; cbn; lia.
  - vm_compute. reflexivity.
Defined.

(** ** Requests stay within the files *)

(** The files fill the total size, which a [double] holds exactly. *)
Record rnd_ok (c : fileio_conf) : Prop := RndOk {
  ok_total : total_size c = num_files c * file_size c;
  ok_exact : total_size c <= 2 ^ 52;
  ok_block : 0 < file_block_size c < 2 ^ 31
}.

Record vars_ok (c : fileio_conf) (v : fileio_vars) : Prop := VarsOk {
  ok_current : 0 <= current_file v <= num_files c;
  ok_position : 0 <= position v < file_size c;
  ok_fsynced : 0 <= fsynced_file v < num_files c
}.

Record in_bounds (c : fileio_conf) (r : sb_file_request_t) : Prop := InBounds {
  ib_file : 0 <= file_id r < num_files c;
  ib_pos : 0 <= pos r;
  ib_size : 0 <= size r;
  ib_end : pos r + size r <= file_size c
}.

Lemma SB_MIN_spec a b : SB_MIN a b = Z.min a b.
Proof. unfold SB_MIN. destruct (Z.ltb_spec a b); lia. Qed.

Lemma fsync_request_bounds c v : conf_ok c -> vars_ok c v ->
  let '(req, v') := fsync_request c v in in_bounds c req /\ vars_ok c v'.
Proof.
  intros [Hn Hs _ _] [Hc Hp Hf]. unfold fsync_request. rewrite u32_small by (unfold is_u32; lia).
  split; [split; cbn; lia|]. destruct (Z.eqb_spec (fsynced_file v + 1) (num_files c)); split; cbn; lia.
Qed.

Lemma seq_request_bounds validating c v : conf_ok c -> vars_ok c v ->
  let o := file_get_seq_request validating c v in in_bounds c (so_req o) /\ vars_ok c (so_vars o).
Proof.
  intros Hc Hv o. unfold o, file_get_seq_request. destruct (_ && _).
  - pose proof (fsync_request_bounds c v Hc Hv) as H. by destruct (fsync_request c v).
  - destruct Hc as [Hn Hs Hr _], Hv as [Hcf Hp Hf]. unfold seq_data_request. rewrite SB_MIN_spec.
    cbn [so_req so_vars]. set (cf := if current_file v =? num_files c then 0 else current_file v).
    set (p := if current_file v =? num_files c then 0 else position v).
    assert (Hcf' : 0 <= cf < num_files c) by (unfold cf; destruct (Z.eqb_spec (current_file v) (num_files c)); lia).
    assert (Hp' : 0 <= p < file_size c) by (unfold p; case_bool; lia). clearbody cf p.
    rewrite u32_small by (unfold is_u32; lia). split; [split; cbn; lia|].
    destruct (Z.eqb_spec (p + file_request_size c `min` (file_size c - p)) (file_size c)); split; cbn; lia.
Qed.

(** The position a uniform number selects lies below the total size. *)
Lemma uniform_position s n : 0 < n <= 2 ^ 52 ->
  exists u s' t, sb_rand_uniform_double s = Some (u, s') /\
    d_to_s64 (dmul u (d_of_Z n)) = Some t /\ 0 <= t < n.
Proof.
  intros Hn. destruct (uniform_double_spec s) as (k & Hk & _ & E).
  destruct (log_bracket n) as (j & Hj & Hlo & Hhi); [lia|].
  assert (j <= 52) by (apply (bracket_le n); lia).
  destruct (unit_mul_bound k n j) as (v & Ev & Hv); try lia.
  assert (0 < 2 ^ (j + 1021)) by (apply Z.pow_pos_nonneg; lia). pose proof D1_pos.
  destruct (d_to_int_between (- 2 ^ 63) (2 ^ 63 - 1) v 0 (n - 1)) as (t & Et & Ht); try lia.
  exists (unit52 k), (next_state s), t. split_and!; [exact E|rewrite Ev; exact Et|lia..].
Qed.

Lemma rnd_block_spec c op s : 0 < file_size c -> 0 < total_size c <= 2 ^ 52 -> 0 < file_block_size c < 2 ^ 31 ->
  file_size c <= total_size c ->
  exists s' t, rnd_block c op s =
    Some (FileRequest (u32 (t / file_size c)) (t mod file_size c)
            (SB_MIN (file_block_size c) (file_size c - t mod file_size c)) op, s')
    /\ 0 <= t < total_size c /\ t mod file_block_size c = 0.
Proof.
  intros Hf Ht Hb Hft. destruct (uniform_position s (total_size c) Ht) as (u & s' & t & E1 & E2 & Hlt).
  exists s', (t - t mod file_block_size c). unfold rnd_block, rbind. rewrite E1. unfold rcast at 1. rewrite E2.
  pose proof (Z.mod_pos_bound t (file_block_size c) ltac:(lia)) as Hm.
  assert (t mod file_block_size c <= t) by (apply Z.mod_le; lia).
  rewrite (u64_small t), (u64_small (file_block_size c)), (u64_small (file_size c)), (u64_small (t - _))
    by (unfold is_u64; lia).
  rewrite (proj2 (Z.eqb_neq (file_block_size c) 0)), (proj2 (Z.eqb_neq (file_size c) 0)) by lia. cbn [orb].
  pose proof (Z.mod_pos_bound (t - t mod file_block_size c) (file_size c) Hf).
  rewrite s64_small by (unfold is_s64; lia). split_and!; [reflexivity|lia|lia|].
  rewrite <- Zminus_mod_idemp_l, Z.sub_diag. apply Z.mod_0_l. lia.
Qed.

Lemma rnd_block_bounds c op s : conf_ok c -> rnd_ok c ->
  exists req s', rnd_block c op s = Some (req, s') /\ in_bounds c req /\ operation req = op.
Proof.
  intros [Hn Hs Hr _] [Et Hx Hb]. destruct (rnd_block_spec c op s) as (s' & t & E & Ht & _); try (nia || lia).
  pose proof (Z.mod_pos_bound t (file_size c) Hs).
  assert (0 <= t / file_size c < num_files c).
  { split; [apply Z.div_pos; lia|apply Z.div_lt_upper_bound; lia]. }
  eexists _, s'. split_and!; [exact E| |reflexivity].
  rewrite u32_small by (unfold is_u32; lia). rewrite SB_MIN_spec. split; cbn; lia.
Qed.

Lemma rnd_pick_bounds validating nthreads c pt thread_id op fuel : conf_ok c -> rnd_ok c -> forall s,
  exists r s', rnd_pick fuel validating nthreads c pt thread_id op s = Some (r, s') /\
    match r with
    | inl req => in_bounds c req /\ operation req = op
                 /\ (validating = true -> block_in_use nthreads pt thread_id req = false)
    | inr _ => validating = true \/ fuel = O
    end.
Proof.
  intros Hc Hr. induction fuel as [|fuel IH]; intros s; cbn [rnd_pick].
  - eexists _, s. split; [reflexivity|]. by right.
  - destruct (rnd_block_bounds c op s Hc Hr) as (req & s1 & E & Hb & Ho). unfold rbind at 1. rewrite E.
    destruct (validating && block_in_use nthreads pt thread_id req) eqn:Eu.
    + destruct (IH s1) as (r & s2 & E2 & H2). exists r, s2. split; [exact E2|].
      apply andb_true_iff in Eu as [-> _]. destruct r; auto.
    + eexists _, s1. split; [reflexivity|]. split_and!; [exact Hb|exact Ho|]. intros ->. exact Eu.
Qed.

(** C36: when the files fill the total size, every request of either generator
    lies within its file and keeps the generator's variables in range; the
    generator never divides by zero or converts out of range, and outside
    validation mode one attempt is enough.  In validation mode a random request
    avoids the blocks that other threads hold. *)
Theorem next_event_in_bounds fuel validating nthreads c cnt pt thread_id v s :
  conf_ok c -> rnd_ok c -> vars_ok c v ->
  exists r s', file_next_event fuel validating nthreads c cnt pt thread_id v s = Some (r, s') /\
    match r with
    | inl o => in_bounds c (ro_req o) /\ vars_ok c (ro_vars o)
        /\ (validating = true -> is_seq_mode (test_mode c) = false ->
            operation (ro_req o) <> FILE_OP_TYPE_FSYNC -> block_in_use nthreads pt thread_id (ro_req o) = false)
    | inr _ => validating = true \/ fuel = O
    end.
Proof.
  intros Hc Hr Hv. unfold file_next_event. destruct (is_seq_mode (test_mode c)).
  - pose proof (seq_request_bounds validating c v Hc Hv) as [H1 H2].
    eexists _, s. split; [reflexivity|]. cbn [ro_req ro_vars]. split_and!; [exact H1|exact H2|discriminate].
  - unfold file_get_rnd_request. destruct (time_to_fsync c v).
    + pose proof (fsync_request_bounds c v Hc Hv) as H. destruct (fsync_request c v) as [req v'] eqn:E.
      destruct H as [H1 H2]. eexists _, s. split; [reflexivity|]. cbn [ro_req ro_vars].
      split_and!; [exact H1|exact H2|]. intros _ _ Hop. unfold fsync_request in E. injection E as <- _. by destruct Hop.
    + set (op := if bool_decide _ then FILE_OP_TYPE_WRITE else FILE_OP_TYPE_READ). unfold rbind.
      destruct (rnd_pick_bounds validating nthreads c pt thread_id op fuel Hc Hr s) as (r & s' & E & H).
      rewrite E. destruct r as [req|]; eexists _, s'; (split; [reflexivity|]); [|exact H].
      destruct H as (H1 & _ & H3). cbn [ro_req ro_vars]. split_and!; [exact H1| |auto].
      destruct Hv. split; assumption.
Qed.

Definition example_rnd_conf : fileio_conf :=
  FileioConf 4 65536 16384 4096 0 0 0 1 FSYNC_ALL (d_of_Z 1) 0 4096 FILE_IO_MODE_SYNC MODE_RND_RW.
Lemma next_event_in_bounds_witness :
  exists r s', file_next_event 1 false 1 example_rnd_conf (sb_counters_init 1) [no_thread] 0
    (init_vars false (FileRequest 0 0 0 FILE_OP_TYPE_NULL)) (7, 8) = Some (r, s') /\
    match r with
    | inl o => in_bounds example_rnd_conf (ro_req o) /\ vars_ok example_rnd_conf (ro_vars o)
        /\ (false = true -> is_seq_mode (test_mode example_rnd_conf) = false ->
            operation (ro_req o) <> FILE_OP_TYPE_FSYNC -> block_in_use 1 [no_thread] 0 (ro_req o) = false)
    | inr _ => false = true \/ 1%nat = O
    end.
Proof.
  apply (next_event_in_bounds 1 false 1 example_rnd_conf (sb_counters_init 1) [no_thread] 0
           (init_vars false (FileRequest 0 0 0 FILE_OP_TYPE_NULL)) (7, 8));
    split; cbn; lia.
Defined.

(** ** Validation *)

Lemma length_le_bytes n : forall x, length (le_bytes n x) = n.
Proof. induction n as [|n IH]; intros x; cbn [le_bytes length]; [done|]. by rewrite IH. Qed.

Lemma le_value_bytes n : forall x, 0 <= x < 256 ^ Z.of_nat n -> le_value (le_bytes n x) = x.
Proof.
  induction n as [|n IH]; intros x Hx; cbn [le_bytes le_value]; [cbn in Hx; lia|].
  rewrite Nat2Z.inj_succ, Z.pow_succ_r in Hx by lia.
  rewrite IH; [pose proof (Z.div_mod x 256); lia|].
  split; [apply Z.div_pos; lia|apply Z.div_lt_upper_bound; lia].
Qed.

Lemma length_store le n x : length (store le n x) = n.
Proof. unfold store. destruct le; rewrite ?length_rev; apply length_le_bytes. Qed.

Lemma load_store le n x : 0 <= x < 256 ^ Z.of_nat n -> load le (store le n x) = x.
Proof. intros Hx. unfold load, store. destruct le; rewrite ?rev_involutive; by apply le_value_bytes. Qed.

Lemma random_bytes_spec n : forall s, exists l s', random_bytes n s = Some (l, s')
  /\ length l = n /\ Forall is_byte l.
Proof.
  induction n as [|n IH]; intros s; cbn [random_bytes]; [by exists [], s|].
  unfold rbind, sb_rand_uniform_uint64. destruct (xoroshiro_next s) as [x s1].
  destruct (IH s1) as (l & s2 & -> & Hl & Hb). eexists _, s2. split_and!; [reflexivity|cbn; lia|].
  constructor; [apply land_ff_range|exact Hb].
Qed.

Lemma crc32_either le addr crc buf : Forall is_byte buf -> crc32 le crc (Some (addr, buf)) = crc32_spec crc buf.
Proof. intros Hb. unfold crc32. destruct le; [by apply crc32_little_spec|by apply crc32_big_spec]. Qed.

(** The block the fill routine leaves: data, checksum, offset. *)
Definition block le (data : list Z) (offset : Z) (rest : list Z) : list Z :=
  data ++ store le 4 (crc32_spec 0 data) ++ store le 8 (u64 offset) ++ rest.

Lemma fill_block le addr buf len offset s :
  12 <= len <= Z.of_nat (length buf) -> len < 2 ^ 32 ->
  exists data rest s', file_fill_buffer le addr buf len offset s = Some (block le data offset rest, s')
    /\ Z.of_nat (length data) = len - 12 /\ Forall is_byte data
    /\ length (block le data offset rest) = length buf.
Proof.
  intros Hl Hu. unfold file_fill_buffer, FILE_CHECKSUM_LENGTH, FILE_OFFSET_LENGTH.
  rewrite u32_small by (unfold is_u32; lia).
  destruct (Z.ltb_spec (Z.of_nat (length buf)) (len - (4 + 8) + (4 + 8))); [lia|].
  destruct (random_bytes_spec (Z.to_nat (len - (4 + 8))) s) as (data & s' & E & Hd & Hb).
  exists data, (drop (Z.to_nat (len - (4 + 8)) + 12) buf), s'. unfold rbind. rewrite E.
  rewrite crc32_either by exact Hb. unfold block. rewrite (u32_small (crc32_spec 0 data)) by (by apply crc32_spec_bound).
  split_and!; [reflexivity|lia|exact Hb|]. rewrite !length_app, !length_store, length_drop. lia.
Qed.

(** What the validation routine reads of a block-shaped buffer. *)
Lemma validate_parts le addr data w1 w2 rest len offset :
  Z.of_nat (length data) = len - 12 -> len < 2 ^ 32 -> length w1 = 4%nat -> length w2 = 8%nat -> Forall is_byte data ->
  file_validate_buffer le addr (data ++ w1 ++ w2 ++ rest) len offset
  = Some (if (crc32_spec 0 data =? load le w1) && (u64 offset =? load le w2) then 0 else 1).
Proof.
  intros Hd Hl H1 H2 Hb. unfold file_validate_buffer, FILE_CHECKSUM_LENGTH, FILE_OFFSET_LENGTH.
  rewrite u32_small by (unfold is_u32; lia).
  assert (En : Z.to_nat (len - (4 + 8)) = length data) by lia. rewrite En.
  destruct (Z.ltb_spec (Z.of_nat (length (data ++ w1 ++ w2 ++ rest))) (len - (4 + 8) + (4 + 8))) as [Hx|_];
    [rewrite !length_app in Hx; lia|].
  rewrite take_app_length, drop_app_length. rewrite <- drop_drop, drop_app_length.
  rewrite <- H2, <- H1, take_app_length, drop_app_length, take_app_length.
  rewrite crc32_either by exact Hb. rewrite u32_small by (by apply crc32_spec_bound).
  destruct (crc32_spec 0 data =? load le w1), (u64 offset =? load le w2); reflexivity.
Qed.

Lemma load_checksum le data : Forall is_byte data -> load le (store le 4 (crc32_spec 0 data)) = crc32_spec 0 data.
Proof. intros Hb. apply load_store. exact (crc32_spec_bound 0 data Hb). Qed.
Lemma load_offset le offset : load le (store le 8 (u64 offset)) = u64 offset.
Proof. apply load_store. apply u64_range. Qed.

(** C37: a filled block validates at its own offset; it is rejected at any other
    offset, and after any change confined to four adjacent data bytes. *)
Theorem fill_then_validate le addr addr' buf len offset s :
  12 <= len <= Z.of_nat (length buf) -> len < 2 ^ 32 ->
  exists buf' s', file_fill_buffer le addr buf len offset s = Some (buf', s')
    /\ length buf' = length buf
    /\ (forall offset', file_validate_buffer le addr' buf' len offset'
                        = Some (if u64 offset' =? u64 offset then 0 else 1))
    /\ (forall pre x y post, buf' = pre ++ x ++ post -> length x = 4%nat -> length y = 4%nat ->
          Z.of_nat (length (pre ++ x)) <= len - 12 -> Forall is_byte y -> x <> y ->
          file_validate_buffer le addr' (pre ++ y ++ post) len offset = Some 1).
Proof.
  intros Hl Hu. destruct (fill_block le addr buf len offset s Hl Hu) as (data & rest & s' & E & Hd & Hb & Hlen).
  exists (block le data offset rest), s'. split_and!; [exact E|exact Hlen| |].
  - intros offset'. unfold block. rewrite validate_parts by (done || apply length_store).
    by rewrite load_checksum, load_offset, Z.eqb_refl.
  - intros pre x y post Ebuf Hx Hy Hin Hyb Hne. unfold block in Ebuf.
    assert (exists mid, data = pre ++ x ++ mid /\
              post = mid ++ store le 4 (crc32_spec 0 data) ++ store le 8 (u64 offset) ++ rest) as (mid & Emid & Epost).
    { exists (drop (length (pre ++ x)) data). rewrite (app_assoc pre x post) in Ebuf.
      apply (f_equal (take (length (pre ++ x)))) in Ebuf as Et. apply (f_equal (drop (length (pre ++ x)))) in Ebuf as Ed.
      rewrite take_app_length, take_app_le in Et by lia. rewrite drop_app_length, drop_app_le in Ed by lia.
      split; [|by rewrite <- Ed]. rewrite app_assoc. rewrite <- Et at 1. symmetry. apply take_drop. }
    rewrite Epost. replace (pre ++ y ++ mid ++ _) with ((pre ++ y ++ mid) ++ store le 4 (crc32_spec 0 data)
      ++ store le 8 (u64 offset) ++ rest) by (by rewrite <- !app_assoc).
    assert (Hyb' : Forall is_byte (pre ++ y ++ mid)).
    { rewrite Emid in Hb. rewrite !Forall_app in *. tauto. }
    rewrite validate_parts; [|rewrite Emid, !length_app in Hd; rewrite !length_app; lia|done|apply length_store..|exact Hyb'].
    rewrite load_checksum by exact Hb.
    destruct (Z.eqb_spec (crc32_spec 0 (pre ++ y ++ mid)) (crc32_spec 0 data)) as [Ec|]; [|reflexivity].
    exfalso. apply Hne. apply (crc32_spec_burst 0 pre x y mid); [by rewrite <- Emid|done..|by rewrite <- Emid].
Qed.

Lemma fill_then_validate_witness :
  exists buf' s', file_fill_buffer true 0 (replicate 20 0) 20 4096 (7, 8) = Some (buf', s')
    /\ length buf' = length (replicate 20 0)
    /\ (forall offset', file_validate_buffer true 0 buf' 20 offset'
                        = Some (if u64 offset' =? u64 4096 then 0 else 1))
    /\ (forall pre x y post, buf' = pre ++ x ++ post -> length x = 4%nat -> length y = 4%nat ->
          Z.of_nat (length (pre ++ x)) <= 20 - 12 -> Forall is_byte y -> x <> y ->
          file_validate_buffer true 0 (pre ++ y ++ post) 20 4096 = Some 1).
Proof. apply (fill_then_validate true 0 0 (replicate 20 0) 20 4096 (7, 8)); cbn; lia. Defined.

(** A block shorter than its checksum and offset (the tail of a file whose
    size is not a multiple of the block size) makes the length wrap around: the
    fill routine writes, and the validation routine reads, outside the buffer. *)
Theorem short_block_undefined le addr buf len offset s :
  0 <= len < 12 -> Z.of_nat (length buf) < 2 ^ 32 ->
  file_fill_buffer le addr buf len offset s = None /\ file_validate_buffer le addr buf len offset = None.
Proof.
  intros Hl Hb. unfold file_fill_buffer, file_validate_buffer, FILE_CHECKSUM_LENGTH, FILE_OFFSET_LENGTH.
  replace (u32 (len - (4 + 8))) with (2 ^ 32 + len - 12) by ulia.
  destruct (Z.ltb_spec (Z.of_nat (length buf)) (2 ^ 32 + len - 12 + (4 + 8))); [done|lia].
Qed.

Lemma short_block_undefined_witness :
  file_fill_buffer true 0 (replicate 16 0) 10 0 (7, 8) = None
  /\ file_validate_buffer true 0 (replicate 16 0) 10 0 = None.
Proof. apply (short_block_undefined true 0 (replicate 16 0) 10 0 (7, 8)); cbn; lia. Defined.

(** ** Defects of the random generator *)

Lemma rnd_pick_one_block nthreads c pt thread_id op fuel i :
  0 < file_size c <= total_size c -> total_size c <= 2 ^ 52 -> total_size c <= file_block_size c < 2 ^ 31 ->
  (i < nthreads)%nat -> i <> thread_id ->
  buffer_file_id (nth i pt no_thread) = 0 -> buffer_pos (nth i pt no_thread) = 0 -> forall s,
  exists s', rnd_pick fuel true nthreads c pt thread_id op s = Some (inr tt, s').
Proof.
  intros Hf Ht Hb Hi Hne Ef Ep. induction fuel as [|fuel IH]; intros s; cbn [rnd_pick]; [by eexists|].
  destruct (rnd_block_spec c op s) as (s1 & t & E & Hlt & Hm); try lia.
  assert (t = 0) as -> by (rewrite Z.mod_small in Hm; lia).
  unfold rbind at 1. rewrite E. rewrite Z.div_0_l, Z.mod_0_l by lia.
  set (req := FileRequest _ _ _ _). assert (block_in_use nthreads pt thread_id req = true) as ->; [|apply IH].
  apply existsb_exists. exists i. split; [apply in_seq; lia|]. rewrite Ef, Ep. cbn.
  by rewrite (proj2 (Nat.eqb_neq i thread_id)).
Qed.

(** The random generator unlocks the execution mutex without having locked
    it, on every path; and in validation mode, when the total size is one block
    and another thread holds it, it retries for ever. *)
Theorem rnd_request_defects validating nthreads c cnt pt thread_id v s :
  (forall fuel o s', file_get_rnd_request fuel validating nthreads c cnt pt thread_id v s = Some (inl o, s') ->
     ro_mutex o = [Unlock]) /\
  (forall i, validating = true -> 0 < file_size c <= total_size c -> total_size c <= 2 ^ 52 ->
     total_size c <= file_block_size c < 2 ^ 31 -> (i < nthreads)%nat -> i <> thread_id ->
     buffer_file_id (nth i pt no_thread) = 0 -> buffer_pos (nth i pt no_thread) = 0 -> time_to_fsync c v = false ->
     forall fuel, exists s', file_get_rnd_request fuel validating nthreads c cnt pt thread_id v s = Some (inr tt, s')).
Proof.
  unfold file_get_rnd_request. split.
  - intros fuel o s' H. destruct (time_to_fsync c v).
    + destruct (fsync_request c v). unfold rret in H. by injection H as <- _.
    + unfold rbind in H. destruct (rnd_pick _ _ _ _ _ _ _ s) as [[[req|] s1]|]; unfold rret in H; simplify_eq. done.
  - intros i -> Hf Ht Hb Hi Hne Ef Ep -> fuel. set (op := if bool_decide _ then _ else _).
    destruct (rnd_pick_one_block nthreads c pt thread_id op fuel i Hf Ht Hb Hi Hne Ef Ep s) as [s' E].
    exists s'. unfold rbind. by rewrite E.
Qed.

(** Two threads on one 4096-byte block. *)
Definition example_one_block : fileio_conf :=
  FileioConf 1 4096 4096 4096 0 0 0 1 FSYNC_ALL (d_of_Z 1) 0 4096 FILE_IO_MODE_SYNC MODE_RND_READ.
Lemma rnd_request_defects_witness :
  exists s', file_get_rnd_request 1000 true 2 example_one_block (sb_counters_init 2)
    [no_thread; no_thread] 1 (init_vars true (FileRequest 0 0 0 FILE_OP_TYPE_NULL)) (7, 8) = Some (inr tt, s').
Proof.
  apply (proj2 (rnd_request_defects true 2 example_one_block (sb_counters_init 2) [no_thread; no_thread] 1
           (init_vars true (FileRequest 0 0 0 FILE_OP_TYPE_NULL)) (7, 8)) 0%nat) with (fuel := 1000%nat);
    (reflexivity || discriminate || (cbn; lia)).
Defined.
