(* ===== verification/FileioRun.v ===== *)
(** * The fileio test: running requests ([tests/fileio/sb_fileio.c])

    Opening, creating and removing the test files, executing requests in the
    three I/O modes, fsync, the asynchronous queue of each thread and the final
    flush.  The platform is 64-bit Linux: [HAVE_LIBAIO], [HAVE_MMAP],
    [HAVE_FDATASYNC] and [O_DIRECT] defined, [HAVE_DIRECTIO] and [F_FULLFSYNC]
    not.  The kernel is a parameter, the class [Kernel]. *)

From stdpp Require Import pretty.
From S2P Require Import Prelude Double Xoroshiro Rand Counter Reports Crc32 Fileio.

(** ** The kernel *)

(** An asynchronous operation: what [sb_aio_oper_t] and its control block hold. *)
Record sb_aio_oper_t := AioOper {
  aio_type : sb_file_op_t;
  aio_len : Z;
  aio_fd : Z;
  aio_offset : Z
}.

(** System calls on a kernel state.  A call returns the value the C function
    returns; a call that fills a buffer returns the bytes stored, and an
    asynchronous call the contents the kernel leaves in the thread's buffer. *)
Class Kernel (os : Type) := {
  sys_open : string -> Z -> os -> Z * os;
  sys_create_excl : string -> os -> Z * os;
  sys_close : Z -> os -> os;
  sys_unlink : string -> os -> os;
  sys_lseek_end : Z -> os -> Z * os;
  sys_write : Z -> list Z -> os -> Z * os;
  sys_fstat_size : Z -> os -> option Z;
  sys_pread : Z -> Z -> Z -> os -> Z * list Z * os;
  sys_pwrite : Z -> list Z -> Z -> os -> Z * os;
  sys_fsync : Z -> os -> Z * os;
  sys_fdatasync : Z -> os -> Z * os;
  sys_ftruncate : Z -> Z -> os -> Z * os;
  sys_mmap : Z -> Z -> os -> option Z * os;
  sys_munmap : Z -> Z -> os -> os;
  sys_msync : Z -> Z -> os -> Z * os;
  map_load : Z -> Z -> Z -> os -> list Z;
  map_store : Z -> Z -> list Z -> os -> os;
  io_queue_init : nat -> Z -> os -> Z * os;
  io_queue_release : nat -> os -> os;
  io_submit : nat -> sb_aio_oper_t -> list Z -> os -> Z * list Z * os;
  io_getevents : nat -> Z -> Z -> list Z -> os -> Z * list (sb_aio_oper_t * Z) * list Z * os
}.

(** ** State and monad *)

Record fio (os : Type) := Fio {
  kernel : os;
  cnts : counters;
  per_thread : list sb_per_thread_t;
  nrequests : list Z;
  files : list Z;
  mmaps : list Z;
  rng : Xoroshiro.state
}.
Arguments Fio {os}.
Arguments kernel {os}.
Arguments cnts {os}.
Arguments per_thread {os}.
Arguments nrequests {os}.
Arguments files {os}.
Arguments mmaps {os}.
Arguments rng {os}.

(** [None] is undefined behaviour: an access outside an array or a buffer. *)
Definition io (os A : Type) : Type := fio os -> option (A * fio os).

Section monad.
Context {os : Type}.
Definition ret {A} (a : A) : io os A := fun st => Some (a, st).
Definition bind {A B} (m : io os A) (k : A -> io os B) : io os B :=
  fun st => match m st with Some (a, st) => k a st | None => None end.
Definition gets {A} (f : fio os -> A) : io os A := fun st => Some (f st, st).
Definition cast {A} (o : option A) : io os A :=
  fun st => match o with Some a => Some (a, st) | None => None end.
Definition sys {A} (f : os -> A * os) : io os A :=
  fun st => let '(a, k) := f (kernel st) in
  Some (a, Fio k (cnts st) (per_thread st) (nrequests st) (files st) (mmaps st) (rng st)).
Definition sys_ (f : os -> os) : io os unit := sys (fun k => (tt, f k)).
Definition count (f : counters -> counters) : io os unit :=
  fun st => Some (tt, Fio (kernel st) (f (cnts st)) (per_thread st) (nrequests st) (files st) (mmaps st) (rng st)).
Definition set_buffer (thread_id : nat) (b : list Z) : io os unit :=
  fun st => Some (tt, Fio (kernel st) (cnts st)
    (alter (fun p => PerThread b (buffer_file_id p) (buffer_pos p)) thread_id (per_thread st))
    (nrequests st) (files st) (mmaps st) (rng st)).
Definition set_nrequests (thread_id : nat) (n : Z) : io os unit :=
  fun st => Some (tt, Fio (kernel st) (cnts st) (per_thread st) (<[thread_id := n]> (nrequests st))
                       (files st) (mmaps st) (rng st)).
Definition set_files (l : list Z) : io os unit :=
  fun st => Some (tt, Fio (kernel st) (cnts st) (per_thread st) (nrequests st) l (mmaps st) (rng st)).
Definition set_mmaps (l : list Z) : io os unit :=
  fun st => Some (tt, Fio (kernel st) (cnts st) (per_thread st) (nrequests st) (files st) l (rng st)).
Definition free_per_thread : io os unit :=
  fun st => Some (tt, Fio (kernel st) (cnts st) [] (nrequests st) (files st) (mmaps st) (rng st)).
Definition random {A} (m : rand A) : io os A :=
  fun st => match m (rng st) with
            | Some (a, s) => Some (a, Fio (kernel st) (cnts st) (per_thread st) (nrequests st) (files st) (mmaps st) s)
            | None => None
            end.
End monad.

Declare Scope io_scope.
Delimit Scope io_scope with io.
Notation "x <- m ; k" := (bind m (fun x => k)) (at level 100, m at next level, right associativity) : io_scope.
Notation "m ;; k" := (bind m (fun _ => k)) (at level 100, k at level 200, right associativity) : io_scope.
#[local] Open Scope io_scope.

(** ** Open flags *)

Section run.
Context {os : Type} `{!Kernel os}.
(** The platform: byte order, buffer alignment and [open(2)] flags. *)
Context (little_endian : bool) (addr : Z) (O_SYNC O_DSYNC O_DIRECT O_RDWR O_CREAT O_WRONLY : Z).
(** The options: [sb_globals.validate], [sb_globals.threads], the test's. *)
Context (validating : bool) (nthreads : nat) (c : fileio_conf) (file_async_backlog : Z).

(** The returned code and the value left in [*open_flags]. *)
Definition convert_extra_flags (extra_flags open_flags : Z) : Z * Z :=
  if extra_flags =? 0 then (0, open_flags)
  else
    let flags := 0 in
    let flags := if Z.land extra_flags SB_FILE_FLAG_SYNC =? 0 then flags else Z.lor flags O_SYNC in
    let flags := if Z.land extra_flags SB_FILE_FLAG_DSYNC =? 0 then flags else Z.lor flags O_DSYNC in
    let flags := if Z.land extra_flags SB_FILE_FLAG_DIRECTIO =? 0 then flags else Z.lor flags O_DIRECT in
    if SB_FILE_FLAG_DIRECTIO <? extra_flags then (1, flags) else (0, flags).

Definition SB_INVALID_FILE : Z := -1.

(** [VALID_FILE] *)
Definition valid_file (fd : Z) : bool := 0 <=? fd.

Definition sb_open (name : string) : io os Z :=
  let '(rc, flags) := convert_extra_flags (file_extra_flags c) 0 in
  if negb (rc =? 0) then ret SB_INVALID_FILE else sys (sys_open name (Z.lor O_RDWR flags)).

Definition sb_create (path : string) : io os Z :=
  file <- sys (sys_create_excl path);
  sys_ (sys_close file) ;;
  ret (b2z (negb (valid_file file))).

(** [snprintf(file_name, sizeof(file_name), "test_file.%d", i)] *)
Definition file_name (i : nat) : string := "test_file." +:+ pretty i.

(** A [for] loop whose body may return: [Some rc] leaves the function. *)
Fixpoint loop (l : list nat) (body : nat -> io os (option Z)) : io os (option Z) :=
  match l with
  | [] => ret None
  | i :: l => r <- body i; match r with Some rc => ret (Some rc) | None => loop l body end
  end.

Definition files_range : list nat := seq 0 (Z.to_nat (num_files c)).

(** ** Memory-mapped files *)

Definition file_mmap_prepare : io os Z :=
  if negb (bool_decide (file_io_mode c = FILE_IO_MODE_MMAP)) then ret 0
  else
    r <- (if bool_decide (test_mode c = MODE_WRITE) then
            loop files_range (fun i =>
              fds <- gets files; fd <- cast (fds !! i);
              rc <- sys (sys_ftruncate fd (file_size c));
              ret (if rc =? 0 then None else Some 1))
          else ret None);
    match r with
    | Some rc => ret rc
    | None =>
        set_mmaps (replicate (Z.to_nat (num_files c)) 0) ;;
        r <- loop files_range (fun i =>
               fds <- gets files; fd <- cast (fds !! i);
               m <- sys (sys_mmap fd (file_size c));
               match m with
               | None => ret (Some 1)
               | Some a => l <- gets mmaps; set_mmaps (<[i := a]> l) ;; ret None
               end);
        ret (match r with Some rc => rc | None => 0 end)
    end.

Definition file_mmap_done : io os Z :=
  if negb (bool_decide (file_io_mode c = FILE_IO_MODE_MMAP)) then ret 0
  else
    loop files_range (fun i =>
      l <- gets mmaps; a <- cast (l !! i); sys_ (sys_munmap a (file_size c)) ;; ret None) ;;
    ret 0.

(** ** Preparing the run *)

Definition file_prepare : io os Z :=
  r <- loop files_range (fun i =>
    let name := file_name i in
    created <- (if bool_decide (test_mode c = MODE_WRITE) then sys_ (sys_unlink name) ;; sb_create name
                else ret 0);
    if negb (created =? 0) then ret (Some 1)
    else
      fd <- sb_open name;
      fds <- gets files;
      set_files (<[i := fd]> fds) ;;
      if negb (valid_file fd) then ret (Some 1)
      else if bool_decide (test_mode c = MODE_WRITE) then ret None
      else
        k <- gets kernel;
        match sys_fstat_size fd k with
        | None => ret (Some 1)
        | Some st_size => ret (if st_size <? file_size c then Some 1 else None)
        end);
  match r with Some rc => ret rc | None => file_mmap_prepare end.

(** ** The asynchronous queue *)

Definition file_async_init (backlog : Z) : io os Z :=
  if negb (bool_decide (file_io_mode c = FILE_IO_MODE_ASYNC)) then ret 0
  else if u32 backlog <=? 0 then ret 1
  else
    r <- loop (seq 0 nthreads) (fun i =>
           rc <- sys (io_queue_init i (u32 backlog)); ret (if rc =? 0 then None else Some 1));
    ret (match r with Some rc => rc | None => 0 end).

Definition file_async_done : io os Z :=
  if negb (bool_decide (file_io_mode c = FILE_IO_MODE_ASYNC)) then ret 0
  else loop (seq 0 nthreads) (fun i => sys_ (io_queue_release i) ;; ret None) ;; ret 0.

(** The loop over the completed operations. *)
Fixpoint complete (thread_id : nat) (events : list (sb_aio_oper_t * Z)) : io os Z :=
  match events with
  | [] => ret 0
  | (oper, res) :: events =>
      let next : io os Z :=
        l <- gets nrequests; n <- cast (l !! thread_id);
        set_nrequests thread_id (u32 (n - 1)) ;;
        complete thread_id events in
      match aio_type oper with
      | FILE_OP_TYPE_FSYNC =>
          if negb (res =? 0) then ret 1
          else count (fun k => sb_counter_inc k thread_id SB_CNT_OTHER) ;; next
      | FILE_OP_TYPE_READ =>
          if negb (res =? aio_len oper) then ret 1
          else count (fun k => sb_counter_add (sb_counter_inc k thread_id SB_CNT_READ)
                                 thread_id SB_CNT_BYTES_READ (aio_len oper)) ;; next
      | FILE_OP_TYPE_WRITE =>
          if negb (res =? aio_len oper) then ret 1
          else count (fun k => sb_counter_add (sb_counter_inc k thread_id SB_CNT_WRITE)
                                 thread_id SB_CNT_BYTES_WRITTEN (aio_len oper)) ;; next
      | FILE_OP_TYPE_NULL => next
      end
  end.

Definition buffer_of (thread_id : nat) : io os (list Z) :=
  l <- gets per_thread; p <- cast (l !! thread_id); ret (buffer p).

Definition file_wait (thread_id : nat) (nreq : Z) : io os Z :=
  b <- buffer_of thread_id;
  r <- sys (fun k => let '(nr, events, b', k') := io_getevents thread_id nreq file_async_backlog b k in
                     ((nr, events, b'), k'));
  let '(nr, events, b') := r in
  set_buffer thread_id b' ;;
  if nr <? 1 then ret 1 else complete thread_id (take (Z.to_nat nr) events).

Definition file_submit_or_wait (oper : sb_aio_oper_t) (thread_id : nat) : io os Z :=
  b <- buffer_of thread_id;
  r <- sys (fun k => let '(rc, b', k') := io_submit thread_id oper b k in ((rc, b'), k'));
  set_buffer thread_id (snd r) ;;
  if fst r <? 1 then ret 1
  else
    l <- gets nrequests; n <- cast (l !! thread_id);
    set_nrequests thread_id (u32 (n + 1)) ;;
    if u32 (n + 1) <? file_async_backlog then ret 0 else file_wait thread_id 1.

(** ** File operations *)

Definition fd_of (id : Z) : io os Z := l <- gets files; cast (l !! Z.to_nat id).

Definition file_do_fsync (id : Z) : io os Z :=
  fd <- fd_of id;
  match file_io_mode c with
  | FILE_IO_MODE_SYNC | FILE_IO_MODE_ASYNC =>
      match file_fsync_mode c with
      | FSYNC_ALL => sys (sys_fsync fd)
      | FSYNC_DATA => sys (sys_fdatasync fd)
      end
  | FILE_IO_MODE_MMAP => l <- gets mmaps; a <- cast (l !! Z.to_nat id); sys (sys_msync a (file_size c))
  end.

Definition file_fsync (id : Z) (thread_id : nat) : io os Z :=
  rc <- file_do_fsync id;
  if negb (rc =? 0) then ret 1
  else count (fun k => sb_counter_inc k thread_id SB_CNT_OTHER) ;; ret 0.

(** Bytes stored at the start of the thread's buffer; undefined beyond its end. *)
Definition store_bytes (thread_id : nat) (l : list Z) : io os unit :=
  b <- buffer_of thread_id;
  if (length b <? length l)%nat then cast None else set_buffer thread_id (l ++ drop (length l) b).
(** The first [count] bytes of the thread's buffer. *)
Definition load_bytes (thread_id : nat) (count : Z) : io os (list Z) :=
  b <- buffer_of thread_id;
  if Z.of_nat (length b) <? count then cast None else ret (take (Z.to_nat count) b).

Definition file_pread (id count offset : Z) (thread_id : nat) : io os Z :=
  fd <- fd_of id;
  match file_io_mode c with
  | FILE_IO_MODE_SYNC =>
      r <- sys (sys_pread fd count offset); store_bytes thread_id (snd r) ;; ret (fst r)
  | FILE_IO_MODE_ASYNC =>
      rc <- file_submit_or_wait (AioOper FILE_OP_TYPE_READ count fd offset) thread_id;
      ret (if rc =? 0 then count else 0)
  | FILE_IO_MODE_MMAP =>
      l <- gets mmaps; a <- cast (l !! Z.to_nat id);
      k <- gets kernel; store_bytes thread_id (map_load a offset count k) ;; ret count
  end.

Definition file_pwrite (id count offset : Z) (thread_id : nat) : io os Z :=
  fd <- fd_of id;
  match file_io_mode c with
  | FILE_IO_MODE_SYNC => l <- load_bytes thread_id count; sys (sys_pwrite fd l offset)
  | FILE_IO_MODE_ASYNC =>
      rc <- file_submit_or_wait (AioOper FILE_OP_TYPE_WRITE count fd offset) thread_id;
      ret (if rc =? 0 then count else 0)
  | FILE_IO_MODE_MMAP =>
      l <- gets mmaps; a <- cast (l !! Z.to_nat id);
      l <- load_bytes thread_id count; sys_ (map_store a offset l) ;; ret count
  end.

(** ** Executing a request *)

Definition count_unless_async (f : counters -> counters) : io os unit :=
  if bool_decide (file_io_mode c = FILE_IO_MODE_ASYNC) then ret tt else count f.

Definition execute_write (r : sb_file_request_t) (thread_id : nat) : io os Z :=
  (if validating then
     b <- buffer_of thread_id;
     b <- random (file_fill_buffer little_endian addr b (u32 (size r)) (pos r));
     set_buffer thread_id b
   else ret tt) ;;
  n <- file_pwrite (file_id r) (size r) (pos r) thread_id;
  if negb (n =? size r) then ret 1
  else
    rc <- (if file_fsync_all c =? 0 then ret 0 else file_fsync (file_id r) thread_id);
    if negb (rc =? 0) then ret 1
    else
      count_unless_async (fun k => sb_counter_add (sb_counter_inc k thread_id SB_CNT_WRITE)
                                     thread_id SB_CNT_BYTES_WRITTEN (size r)) ;;
      ret 0.

Definition execute_read (r : sb_file_request_t) (thread_id : nat) : io os Z :=
  n <- file_pread (file_id r) (size r) (pos r) thread_id;
  if negb (n =? size r) then ret 1
  else
    failed <- (if validating then
                 b <- buffer_of thread_id;
                 cast (file_validate_buffer little_endian addr b (u32 (size r)) (pos r))
               else ret 0);
    if negb (failed =? 0) then ret 1
    else
      count_unless_async (fun k => sb_counter_add (sb_counter_inc k thread_id SB_CNT_READ)
                                     thread_id SB_CNT_BYTES_READ (size r)) ;;
      ret 0.

Definition file_execute_event (r : sb_file_request_t) (thread_id : nat) : io os Z :=
  if num_files c <? file_id r then ret 1
  else if file_size c <? pos r + size r then ret 1
  else
    fd_of (file_id r) ;;
    match operation r with
    | FILE_OP_TYPE_NULL => ret 1
    | FILE_OP_TYPE_WRITE => execute_write r thread_id
    | FILE_OP_TYPE_READ => execute_read r thread_id
    | FILE_OP_TYPE_FSYNC =>
        if negb (file_fsync_all c =? 0) then ret 0
        else rc <- file_fsync (file_id r) thread_id; ret (if rc =? 0 then 0 else 1)
    end.

(** ** The end of the run *)

Definition file_thread_done (thread_id : nat) : io os Z :=
  r <- (if negb (file_fsync_end c =? 0) && negb (bool_decide (test_mode c = MODE_READ))
           && negb (bool_decide (test_mode c = MODE_RND_READ))
        then loop files_range (fun i =>
               rc <- file_fsync (Z.of_nat i) thread_id; ret (if rc =? 0 then None else Some 1))
        else ret None);
  match r with
  | Some rc => ret rc
  | None =>
      if bool_decide (file_io_mode c = FILE_IO_MODE_ASYNC) then
        l <- gets nrequests; n <- cast (l !! thread_id);
        if 0 <? n then file_wait thread_id n else ret 0
      else ret 0
  end.

Definition file_done : io os Z :=
  loop files_range (fun i => fd <- fd_of (Z.of_nat i); sys_ (sys_close fd) ;; ret None) ;;
  rc <- file_async_done;
  if negb (rc =? 0) then ret 1
  else
    rc <- file_mmap_done;
    if negb (rc =? 0) then ret 1 else free_per_thread ;; ret 0.

(** ** Creating and removing the test files *)

(** [for (; offset < file_size; written += file_block_size, offset += file_block_size)];
    [inl] is the value of [written], [inr] the jump to [error], [None] when the
    fuel runs out. *)
Fixpoint write_blocks (fuel : nat) (fd offset written : Z) : io os (option (Z + unit)) :=
  match fuel with
  | O => ret None
  | S fuel =>
      if offset <? file_size c then
        (if validating then
           b <- buffer_of 0;
           b <- random (file_fill_buffer little_endian addr b (u32 (file_block_size c)) offset);
           set_buffer 0 b
         else ret tt) ;;
        l <- load_bytes 0 (file_block_size c);
        n <- sys (sys_write fd l);
        if n <? 0 then ret (Some (inr tt))
        else write_blocks fuel fd (offset + file_block_size c) (written + file_block_size c)
      else ret (Some (inl written))
  end.

(** Blocks have at least a byte and [lseek] returns at least -1. *)
Definition blocks_fuel : nat := S (S (Z.to_nat (file_size c))).

(** The loop over the files: the total written, or the value returned. *)
Fixpoint create_loop (l : list nat) (flags written : Z) : io os (Z + Z) :=
  match l with
  | [] => ret (inl written)
  | i :: l =>
      fd <- sys (sys_open (file_name i) (Z.lor (Z.lor O_CREAT O_WRONLY) flags));
      if fd <? 0 then ret (inr 1)
      else
        offset <- sys (sys_lseek_end fd);
        r <- write_blocks blocks_fuel fd offset written;
        match r with
        | Some (inl written) =>
            sys (sys_fsync fd) ;; sys_ (sys_close fd) ;; create_loop l flags written
        | Some (inr _) => sys_ (sys_close fd) ;; ret (inr 1)
        | None => cast None
        end
  end.

Definition create_files : io os Z :=
  let '(rc, flags) := convert_extra_flags (file_extra_flags c) 0 in
  if negb (rc =? 0) then ret 1
  else r <- create_loop files_range flags 0; ret (match r with inl _ => 0 | inr rc => rc end).

Definition remove_files : io os Z :=
  loop files_range (fun i => sys_ (sys_unlink (file_name i)) ;; ret None) ;; ret 0.

(** The commands, after the arguments have been parsed. *)
Definition file_cmd_prepare : io os Z :=
  if bool_decide (test_mode c = MODE_WRITE) then remove_files else create_files.
Definition file_cmd_cleanup : io os Z := remove_files.
End run.

(** ** Inversion and frame lemmas of the monad *)

Lemma bind_inv {os A B} (m : io os A) (k : A -> io os B) st b st' :
  bind m k st = Some (b, st') -> exists a st1, m st = Some (a, st1) /\ k a st1 = Some (b, st').
Proof. unfold bind. destruct (m st) as [[a st1]|]; [eauto|discriminate]. Qed.

Lemma ret_inv {os A} (a b : A) (st st' : fio os) : ret a st = Some (b, st') -> a = b /\ st = st'.
Proof. unfold ret. intros H. by injection H. Qed.

(** Splits a successful run into its steps. *)
Ltac run_inv :=
  repeat match goal with
  | H : bind _ _ _ = Some (_, _) |- _ =>
      let a := fresh "a" in let st := fresh "st" in let E := fresh "E" in
      apply bind_inv in H as (a & st & E & H)
  | H : ret _ _ = Some (_, _) |- _ => apply ret_inv in H as [? ?]; subst
  end.

(** [m] leaves the field [f] of the state alone. *)
Definition keeps {os A B} (f : fio os -> B) (m : io os A) : Prop :=
  forall st a st', m st = Some (a, st') -> f st' = f st.

Create HintDb fio discriminated.

Lemma keeps_ret {os A B} (f : fio os -> B) (a : A) : keeps f (ret a).
Proof. intros st b st' H. by apply ret_inv in H as [_ ->]. Qed.
Lemma keeps_bind {os A B C} (f : fio os -> C) (m : io os A) (k : A -> io os B) :
  keeps f m -> (forall a, keeps f (k a)) -> keeps f (bind m k).
Proof. intros Hm Hk st b st' H. apply bind_inv in H as (a & st1 & E1 & E2). by rewrite (Hk a _ _ _ E2), (Hm _ _ _ E1). Qed.
Lemma keeps_gets {os A B} (f : fio os -> B) (g : fio os -> A) : keeps f (gets g).
Proof. intros st b st' H. by injection H as _ <-. Qed.
Lemma keeps_cast {os A B} (f : fio os -> B) (o : option A) : keeps f (cast o).
Proof. intros st b st' H. unfold cast in H. destruct o; [by injection H as _ <-|discriminate]. Qed.

Section frames.
Context {os : Type}.
Implicit Types m : io os Z.

Lemma cnts_sys {A} (g : os -> A * os) : keeps (@cnts os) (sys g).
Proof. intros st b st' H. unfold sys in H. destruct (g (kernel st)). by injection H as _ <-. Qed.
Lemma cnts_random {A} (g : rand A) : keeps (@cnts os) (random g).
Proof. intros st b st' H. unfold random in H. destruct (g (rng st)) as [[? ?]|]; [by injection H as _ <-|discriminate]. Qed.
Lemma cnts_buffer t b : keeps (@cnts os) (set_buffer t b).
Proof. intros st x st' H. by injection H as _ <-. Qed.
Lemma cnts_nrequests t n : keeps (@cnts os) (set_nrequests t n).
Proof. intros st x st' H. by injection H as _ <-. Qed.
Lemma keeps_if {A B} (f : fio os -> B) (b : bool) (m1 m2 : io os A) :
  keeps f m1 -> keeps f m2 -> keeps f (if b then m1 else m2).
Proof. by destruct b. Qed.
End frames.

#[export] Hint Resolve keeps_ret keeps_gets keeps_cast cnts_sys cnts_random cnts_buffer cnts_nrequests : fio.
#[export] Hint Resolve keeps_bind keeps_if | 5 : fio.
#[export] Hint Extern 2 (keeps _ (match ?x with _ => _ end)) => destruct x : fio.
#[export] Hint Extern 1 (keeps _ (sys_ _)) => apply cnts_sys : fio.

Section accounting.
Context {os : Type} `{!Kernel os}.
Context (little_endian : bool) (addr : Z) (validating : bool) (c : fileio_conf) (file_async_backlog : Z).

(** What a successful request adds to the counters outside asynchronous mode. *)
Definition accounted (r : sb_file_request_t) (thread_id : nat) (k : counters) : counters :=
  match operation r with
  | FILE_OP_TYPE_WRITE =>
      let k := if file_fsync_all c =? 0 then k else sb_counter_inc k thread_id SB_CNT_OTHER in
      sb_counter_add (sb_counter_inc k thread_id SB_CNT_WRITE) thread_id SB_CNT_BYTES_WRITTEN (size r)
  | FILE_OP_TYPE_READ =>
      sb_counter_add (sb_counter_inc k thread_id SB_CNT_READ) thread_id SB_CNT_BYTES_READ (size r)
  | FILE_OP_TYPE_FSYNC =>
      if file_fsync_all c =? 0 then sb_counter_inc k thread_id SB_CNT_OTHER else k
  | FILE_OP_TYPE_NULL => k
  end.

Lemma do_fsync_keeps id : keeps (@cnts os) (file_do_fsync c id).
Proof using Type. unfold file_do_fsync, fd_of. eauto 10 with fio. Qed.

Lemma buffer_of_keeps t : keeps (@cnts os) (buffer_of t).
Proof using Type. unfold buffer_of. auto with fio. Qed.
#[local] Hint Resolve do_fsync_keeps buffer_of_keeps : fio.

Lemma store_bytes_keeps t l : keeps (@cnts os) (store_bytes t l).
Proof using Type. unfold store_bytes. auto with fio. Qed.
Lemma load_bytes_keeps t n : keeps (@cnts os) (load_bytes t n).
Proof using Type. unfold load_bytes. auto with fio. Qed.
#[local] Hint Resolve store_bytes_keeps load_bytes_keeps : fio.

Lemma fsync_counts id t st rc st' : file_fsync c id t st = Some (rc, st') ->
  (rc = 0 /\ cnts st' = sb_counter_inc (cnts st) t SB_CNT_OTHER) \/ (rc = 1 /\ cnts st' = cnts st).
Proof using Type.
  unfold file_fsync. intros H. run_inv. apply do_fsync_keeps in E.
  destruct (negb (a =? 0)); run_inv; [by right|]. injection E0 as _ <-. left. cbn [cnts]. by rewrite E.
Qed.

Context (Hmode : file_io_mode c <> FILE_IO_MODE_ASYNC).

Lemma pwrite_keeps id n off t : keeps (@cnts os) (file_pwrite c file_async_backlog id n off t).
Proof using Hmode. unfold file_pwrite, fd_of. destruct (file_io_mode c); [|done|]; auto 10 with fio. Qed.
Lemma pread_keeps id n off t : keeps (@cnts os) (file_pread c file_async_backlog id n off t).
Proof using Hmode. unfold file_pread, fd_of. destruct (file_io_mode c); [|done|]; auto 10 with fio. Qed.

Lemma count_unless_async_spec f st x (st' : fio os) :
  count_unless_async c f st = Some (x, st') -> cnts st' = f (cnts st).
Proof using Hmode.
  unfold count_unless_async. rewrite bool_decide_eq_false_2 by done. intros H. by injection H as _ <-.
Qed.

Lemma execute_write_counts r t st rc st' :
  operation r = FILE_OP_TYPE_WRITE ->
  execute_write little_endian addr validating c file_async_backlog r t st = Some (rc, st') ->
  (rc = 0 /\ cnts st' = accounted r t (cnts st)) \/ (rc = 1 /\ cnts st' = cnts st).
Proof using Hmode.
  intros Hop H. unfold execute_write in H. unfold accounted. rewrite Hop.
  apply bind_inv in H as (a & st1 & E1 & H). apply bind_inv in H as (n & st2 & E2 & H).
  assert (K1 : cnts st1 = cnts st).
  { revert E1. apply (keeps_if cnts validating _ _); auto with fio. }
  apply pwrite_keeps in E2. rewrite K1 in E2. destruct (negb (n =? size r)); run_inv; [by right|].
  destruct (file_fsync_all c =? 0).
  - run_inv. cbn [negb Z.eqb] in H. run_inv. apply count_unless_async_spec in E. left. by rewrite E, E2.
  - apply fsync_counts in E as [[-> E]|[-> E]]; cbn [negb Z.eqb] in H; run_inv.
    + apply count_unless_async_spec in E0. left. by rewrite E0, E, E2.
    + right. by rewrite E, E2.
Qed.

Lemma execute_read_counts r t st rc st' :
  operation r = FILE_OP_TYPE_READ ->
  execute_read little_endian addr validating c file_async_backlog r t st = Some (rc, st') ->
  (rc = 0 /\ cnts st' = accounted r t (cnts st)) \/ (rc = 1 /\ cnts st' = cnts st).
Proof using Hmode.
  intros Hop H. unfold execute_read in H. unfold accounted. rewrite Hop.
  apply bind_inv in H as (n & st1 & E1 & H). apply pread_keeps in E1.
  destruct (negb (n =? size r)); run_inv; [by right|].
  assert (K : cnts st0 = cnts st1).
  { revert E. apply (keeps_if cnts validating _ _); auto with fio. }
  destruct (negb (a =? 0)); run_inv.
  - right. by rewrite K, E1.
  - apply count_unless_async_spec in E0. left. by rewrite E0, K, E1.
Qed.

(** Outside asynchronous mode an executed request either succeeds and adds
    exactly its operation and its bytes to the thread's counters (a write also
    its fsync when every write is synced), or returns 1 and adds nothing. *)
Theorem execute_event_accounts r thread_id st rc st' :
  file_execute_event little_endian addr validating c file_async_backlog r thread_id st = Some (rc, st') ->
  (rc = 0 /\ cnts st' = accounted r thread_id (cnts st)) \/ (rc = 1 /\ cnts st' = cnts st).
Proof using Hmode.
  unfold file_execute_event. intros H.
  destruct (num_files c <? file_id r); [run_inv; by right|].
  destruct (file_size c <? pos r + size r); [run_inv; by right|].
  apply bind_inv in H as (fd & st1 & E & H).
  assert (K : cnts st1 = cnts st) by (revert E; apply (keeps_bind cnts); auto with fio).
  rewrite <- K. destruct (operation r) eqn:Hop.
  - run_inv. by right.
  - by apply execute_read_counts.
  - by apply execute_write_counts.
  - unfold accounted. rewrite Hop. destruct (file_fsync_all c =? 0); cbn [negb] in H; run_inv; [|by left].
    apply fsync_counts in E0 as [[-> E0]|[-> E0]]; [by left|by right].
Qed.
End accounting.

(** ** A kernel in memory

    For the witnesses: descriptor [i] is the contents of file [i], a mapping is
    its descriptor, and asynchronous operations succeed when they are reaped. *)
Record memk := Memk { disk : list (list Z); queue : nat -> list sb_aio_oper_t }.

Definition splice (f l : list Z) (off : nat) : list Z :=
  take off (f ++ replicate (off - length f) 0) ++ l ++ drop (off + length l) f.
Definition mem_load (fd count off : Z) (k : memk) : list Z :=
  take (Z.to_nat count) (drop (Z.to_nat off) (nth (Z.to_nat fd) (disk k) [])).
Definition mem_store (fd : Z) (l : list Z) (off : Z) (k : memk) : memk :=
  Memk (alter (fun f => splice f l (Z.to_nat off)) (Z.to_nat fd) (disk k)) (queue k).
Definition mem_length (fd : Z) (k : memk) : Z := Z.of_nat (length (nth (Z.to_nat fd) (disk k) [])).
Definition set_queue (t : nat) (l : list sb_aio_oper_t) (k : memk) : memk :=
  Memk (disk k) (fun u => if (u =? t)%nat then l else queue k u).

#[export] Instance mem_kernel : Kernel memk := {|
  sys_open name flags k := (Z.of_nat (String.length name), k);
  sys_create_excl name k := (0, k);
  sys_close fd k := k;
  sys_unlink name k := k;
  sys_lseek_end fd k := (mem_length fd k, k);
  sys_write fd l k := (Z.of_nat (length l), mem_store fd l (mem_length fd k) k);
  sys_fstat_size fd k := Some (mem_length fd k);
  sys_pread fd n off k := (Z.of_nat (length (mem_load fd n off k)), mem_load fd n off k, k);
  sys_pwrite fd l off k :=
    if (Z.to_nat fd <? length (disk k))%nat then (Z.of_nat (length l), mem_store fd l off k) else (-1, k);
  sys_fsync fd k := (0, k);
  sys_fdatasync fd k := (0, k);
  sys_ftruncate fd n k := (0, k);
  sys_mmap fd n k := (Some fd, k);
  sys_munmap a n k := k;
  sys_msync a n k := (0, k);
  map_load a off n k := mem_load a n off k;
  map_store a off l k := mem_store a l off k;
  io_queue_init t n k := (0, k);
  io_queue_release t k := k;
  io_submit t oper b k := (1, b, set_queue t (queue k t ++ [oper]) k);
  io_getevents t mn mx b k :=
    let n := Z.min mx (Z.of_nat (length (queue k t))) in
    if (n <? mn) || (n <? 1) then (-1, [], b, k)
    else (n, map (fun o => (o, match aio_type o with FILE_OP_TYPE_FSYNC => 0 | _ => aio_len o end))
               (take (Z.to_nat n) (queue k t)), b,
          set_queue t (drop (Z.to_nat n) (queue k t)) k)
|}.

(** One thread, one empty-initialised file of 64 bytes. *)
Definition example_fio : fio memk :=
  Fio (Memk [replicate 64 0] (fun _ => [])) (sb_counters_init 1) [PerThread (replicate 32 0) 0 0] [0] [0] [0] (7, 8).
Definition example_conf (mode : file_io_mode_t) : fileio_conf :=
  FileioConf 1 64 64 32 0 0 0 1 FSYNC_ALL (Fin 0) 0 32 mode MODE_REWRITE.
Definition example_write : sb_file_request_t := FileRequest 0 32 32 FILE_OP_TYPE_WRITE.

Lemma execute_event_accounts_witness :
  exists st', file_execute_event true 0 true (example_conf FILE_IO_MODE_MMAP) 128 example_write 0 example_fio
              = Some (0, st')
  /\ cnts st' = accounted (example_conf FILE_IO_MODE_MMAP) example_write 0 (cnts example_fio).
Proof.
  assert (exists st', file_execute_event true 0 true (example_conf FILE_IO_MODE_MMAP) 128 example_write 0 example_fio
                      = Some (0, st')) as [st' E] by (eexists; vm_compute; reflexivity).
  exists st'. split; [exact E|].
  destruct (execute_event_accounts true 0 true (example_conf FILE_IO_MODE_MMAP) 128 ltac:(discriminate)
              example_write 0 example_fio 0 st' E) as [[_ H]|[H _]]; [exact H|discriminate].
Defined.

(** ** Reading back a validated block *)

Section readback.
Context {os : Type} `{!Kernel os}.
Context (little_endian : bool) (addr : Z) (c : fileio_conf) (file_async_backlog : Z).

(** [pread(2)] after a complete [pwrite(2)] of the same range returns its bytes. *)
Hypothesis pread_after_pwrite : forall fd l off k k',
  sys_pwrite fd l off k = (Z.of_nat (length l), k') ->
  exists k'', sys_pread fd (Z.of_nat (length l)) off k' = (Z.of_nat (length l), l, k'').

Context (Hmode : file_io_mode c = FILE_IO_MODE_SYNC) (Hsync : file_fsync_all c = 0).

(** The state after a successful validated write: the block is in the buffer
    and the kernel has accepted it. *)
Lemma validated_write r t st st' p :
  per_thread st !! t = Some p -> 12 <= size r <= Z.of_nat (length (buffer p)) -> size r < 2 ^ 32 ->
  execute_write little_endian addr true c file_async_backlog r t st = Some (0, st') ->
  exists b fd k, file_validate_buffer little_endian addr b (u32 (size r)) (pos r) = Some 0
    /\ length b = length (buffer p)
    /\ per_thread st' !! t = Some (PerThread b (buffer_file_id p) (buffer_pos p))
    /\ files st' = files st /\ files st !! Z.to_nat (file_id r) = Some fd
    /\ sys_pwrite fd (take (Z.to_nat (size r)) b) (pos r) k = (size r, kernel st').
Proof using Hmode Hsync.
  intros Hp Hs Hu H. unfold execute_write in H. cbv iota in H.
  destruct (fill_block little_endian addr (buffer p) (size r) (pos r) (rng st) Hs Hu)
    as (data & rest & s' & Ef & Hd & Hb & Hlen).
  unfold bind at 1 2, buffer_of at 1, bind at 1 2, gets at 1, cast at 1 in H. rewrite Hp in H. unfold ret at 1 in H.
  unfold bind at 1, random at 1 in H. rewrite (u32_small (size r)) in H by (unfold is_u32; lia). rewrite Ef in H.
  unfold set_buffer at 1 in H. cbn [kernel cnts per_thread nrequests files mmaps rng] in H.
  set (b := block little_endian data (pos r) rest) in *.
  exists b. rewrite (u32_small (size r)) by (unfold is_u32; lia).
  assert (Hval : file_validate_buffer little_endian addr b (size r) (pos r) = Some 0).
  { unfold b, block. rewrite validate_parts by (done || apply length_store). by rewrite load_checksum, load_offset, !Z.eqb_refl. }
  apply bind_inv in H as (n & st2 & E2 & H). unfold file_pwrite in E2. rewrite Hmode in E2.
  apply bind_inv in E2 as (fd & st3 & E3 & E2). unfold fd_of, bind, gets, cast in E3. cbn [files] in E3.
  destruct (files st !! Z.to_nat (file_id r)) as [fd'|] eqn:Efd; [|discriminate]. injection E3 as <- <-.
  apply bind_inv in E2 as (l & st4 & E4 & E2). unfold load_bytes, buffer_of, bind, gets, cast, ret in E4.
  cbn [per_thread] in E4. rewrite list_lookup_alter_eq, Hp in E4. cbn [fmap option_fmap option_map buffer] in E4.
  rewrite Hlen in E4. destruct (Z.ltb_spec (Z.of_nat (length (buffer p))) (size r)); [lia|].
  injection E4 as <- <-. unfold sys in E2. cbn [kernel cnts per_thread nrequests files mmaps rng] in E2.
  destruct (sys_pwrite fd' _ (pos r) (kernel st)) as [n' k'] eqn:Ew. injection E2 as <- <-.
  destruct (Z.eqb_spec n' (size r)) as [->|]; cbn [negb] in H; [|run_inv; discriminate].
  rewrite Hsync in H. cbn [Z.eqb] in H. apply bind_inv in H as (rc & st5 & E5 & H). apply ret_inv in E5 as [<- <-].
  cbn [negb Z.eqb] in H. apply bind_inv in H as (x & st6 & E & H). apply ret_inv in H as [_ <-].
  unfold count_unless_async in E. rewrite bool_decide_eq_false_2 in E by (rewrite Hmode; discriminate).
  injection E as _ <-. exists fd', (kernel st). cbn [per_thread files kernel]. split_and!; try done.
  by rewrite list_lookup_alter_eq, Hp.
Qed.

Lemma validated_read r t st b p fd k k' :
  per_thread st !! t = Some p -> buffer p = b -> files st !! Z.to_nat (file_id r) = Some fd ->
  0 <= size r <= Z.of_nat (length b) ->
  sys_pwrite fd (take (Z.to_nat (size r)) b) (pos r) k' = (size r, kernel st) ->
  file_validate_buffer little_endian addr b (u32 (size r)) (pos r) = Some 0 -> k = kernel st ->
  exists st', execute_read little_endian addr true c file_async_backlog r t st = Some (0, st').
Proof using Hmode pread_after_pwrite.
  intros Hp Hb Hfd Hs Hw Hv _. set (l := take (Z.to_nat (size r)) b) in *.
  assert (Hl : Z.of_nat (length l) = size r) by (unfold l; rewrite length_take; lia).
  rewrite <- Hl in Hw. destruct (pread_after_pwrite _ _ _ _ _ Hw) as [k'' Er]. rewrite Hl in Er.
  assert (El : l ++ drop (length l) b = b).
  { replace (length l) with (Z.to_nat (size r)) by lia. apply take_drop. }
  assert (Hlb : (length b <? length l)%nat = false) by (apply Nat.ltb_ge; lia).
  unfold execute_read, file_pread. rewrite Hmode.
  unfold fd_of, bind, gets, cast, sys, store_bytes, buffer_of, bind, gets, cast, ret. rewrite Hfd, Er.
  cbn [fst snd kernel cnts per_thread nrequests files mmaps rng]. rewrite Hp, Hb, Hlb. unfold set_buffer.
  cbn [kernel cnts per_thread nrequests files mmaps rng]. rewrite Z.eqb_refl. cbn [negb].
  cbn [per_thread]. rewrite list_lookup_alter_eq, Hp. cbn [fmap option_fmap option_map buffer]. rewrite El, Hv. cbn [negb Z.eqb].
  unfold count_unless_async. rewrite bool_decide_eq_false_2 by (rewrite Hmode; discriminate).
  unfold count. eexists. reflexivity.
Qed.

(** In validation mode with synchronous I/O, a block that was written
    passes validation when it is read back at once. *)
Theorem write_then_read_validates r t st st' p :
  operation r = FILE_OP_TYPE_WRITE -> per_thread st !! t = Some p ->
  12 <= size r <= Z.of_nat (length (buffer p)) -> size r < 2 ^ 32 ->
  file_execute_event little_endian addr true c file_async_backlog r t st = Some (0, st') ->
  exists st'', file_execute_event little_endian addr true c file_async_backlog
    (FileRequest (file_id r) (pos r) (size r) FILE_OP_TYPE_READ) t st' = Some (0, st'').
Proof using Hmode Hsync pread_after_pwrite.
  intros Hop Hp Hs Hu H. unfold file_execute_event in *. cbn [file_id pos size operation].
  destruct (num_files c <? file_id r); [run_inv; discriminate|].
  destruct (file_size c <? pos r + size r); [run_inv; discriminate|].
  apply bind_inv in H as (fd & st1 & E & H). unfold fd_of, bind, gets, cast in E.
  destruct (files st !! Z.to_nat (file_id r)) as [fd'|] eqn:Efd; [|discriminate]. injection E as -> <-.
  rewrite Hop in H. destruct (validated_write r t st st' p Hp Hs Hu H) as (b & fd1 & k & Hv & Hl & Hp' & Hf & Efd1 & Hw).
  rewrite Efd in Efd1. injection Efd1 as <-.
  unfold bind, fd_of at 1, bind, gets at 1, cast at 1. rewrite Hf, Efd.
  apply (validated_read (FileRequest (file_id r) (pos r) (size r) FILE_OP_TYPE_READ) t st' b
           (PerThread b (buffer_file_id p) (buffer_pos p)) fd (kernel st') k); cbn [file_id pos size buffer];
    [done|done|by rewrite Hf|lia|done|done|done].
Qed.
End readback.

Lemma mem_pread_after_pwrite fd l off (k k' : memk) :
  sys_pwrite fd l off k = (Z.of_nat (length l), k') ->
  exists k'', sys_pread fd (Z.of_nat (length l)) off k' = (Z.of_nat (length l), l, k'').
Proof.
  cbn [sys_pwrite sys_pread mem_kernel]. intros H.
  destruct (Nat.ltb_spec (Z.to_nat fd) (length (disk k))) as [Hfd|]; [|by injection H; lia].
  injection H as <-. exists (mem_store fd l off k).
  assert (E : mem_load fd (Z.of_nat (length l)) off (mem_store fd l off k) = l); [|by rewrite E].
  unfold mem_load, mem_store. cbn [disk]. rewrite nth_lookup, list_lookup_alter_eq.
  destruct (lookup_lt_is_Some_2 (disk k) (Z.to_nat fd) Hfd) as [f ->].
  cbn [fmap option_fmap option_map default from_option]. unfold splice.
  unfold id. rewrite drop_app_length', Nat2Z.id, take_app_length; [reflexivity|].
  rewrite length_take, length_app, length_replicate. lia.
Qed.

Lemma write_then_read_validates_witness :
  exists st' st'',
    file_execute_event true 0 true (example_conf FILE_IO_MODE_SYNC) 128 example_write 0 example_fio = Some (0, st')
    /\ file_execute_event true 0 true (example_conf FILE_IO_MODE_SYNC) 128
         (FileRequest 0 32 32 FILE_OP_TYPE_READ) 0 st' = Some (0, st'').
Proof.
  assert (exists st', file_execute_event true 0 true (example_conf FILE_IO_MODE_SYNC) 128 example_write 0 example_fio
                      = Some (0, st')) as [st' E] by (eexists; vm_compute; reflexivity).
  destruct (write_then_read_validates true 0 (example_conf FILE_IO_MODE_SYNC) 128 mem_pread_after_pwrite
              eq_refl eq_refl example_write 0 example_fio st' (PerThread (replicate 32 0) 0 0)) as [st'' E'];
    [reflexivity|reflexivity|cbn; lia|cbn; lia|exact E|].
  exists st', st''. split; [exact E|exact E'].
Defined.

(** ** The asynchronous queue *)

(** What the code relies on of [io_submit(2)] and [io_getevents(2)]: a context
    has a number of operations in flight; a successful submission adds one, and
    a successful wait returns between [min_nr] and [nr] of them; flushing a file
    submits nothing. *)
Class AioLaws (os : Type) `{!Kernel os} := {
  in_flight : nat -> os -> Z;
  submit_law t oper b k rc b' k' :
    io_submit t oper b k = (rc, b', k') -> 1 <= rc -> in_flight t k' = in_flight t k + 1;
  getevents_law t mn mx b k nr events b' k' :
    io_getevents t mn mx b k = (nr, events, b', k') -> 1 <= nr ->
    mn <= nr <= mx /\ nr <= in_flight t k /\ Z.of_nat (length events) = nr
    /\ in_flight t k' = in_flight t k - nr;
  fsync_law t fd k : in_flight t (snd (sys_fsync fd k)) = in_flight t k;
  fdatasync_law t fd k : in_flight t (snd (sys_fdatasync fd k)) = in_flight t k
}.

#[export] Instance mem_aio_laws : AioLaws memk.
Proof.
  refine {| in_flight t k := Z.of_nat (length (queue k t)) |}.
  - intros t oper b k rc b' k' H _. cbn [io_submit mem_kernel] in H. injection H as _ _ <-.
    unfold set_queue. cbn [queue]. rewrite Nat.eqb_refl, length_app. cbn [length]. lia.
  - intros t mn mx b k nr events b' k' H Hnr. cbn [io_getevents mem_kernel] in H.
    destruct (_ || _) eqn:E; [injection H; lia|]. bool_to_prop. injection H as <- <- _ <-.
    unfold set_queue. cbn [queue]. rewrite Nat.eqb_refl, length_map, length_take, length_drop. lia.
  - reflexivity.
  - reflexivity.
Defined.

Section async.
Context {os : Type} `{!Kernel os} `{!AioLaws os}.
Context (c : fileio_conf) (file_async_backlog : Z).
Hypothesis backlog_ok : 0 < file_async_backlog < 2 ^ 32.

(** The thread's count of queued requests is what the kernel has in flight. *)
Definition queue_ok (t : nat) (st : fio os) : Prop :=
  nrequests st !! t = Some (in_flight t (kernel st)) /\ 0 <= in_flight t (kernel st) < 2 ^ 32.

Lemma complete_counts t events : forall (st : fio os) rc st' n,
  nrequests st !! t = Some n -> Z.of_nat (length events) <= n < 2 ^ 32 -> complete t events st = Some (rc, st') ->
  kernel st' = kernel st /\ (rc = 0 -> nrequests st' !! t = Some (n - Z.of_nat (length events))).
Proof using Type.
  induction events as [|[oper res] events IH]; intros st rc st' n Hn Hl H; cbn [complete length] in *.
  - run_inv. split; [done|]. intros _. by rewrite Z.sub_0_r.
  - assert (Hnext : forall st0 : fio os, kernel st0 = kernel st -> nrequests st0 = nrequests st ->
      (l <- gets nrequests; n <- cast (l !! t); set_nrequests t (u32 (n - 1)) ;; complete t events) st0 = Some (rc, st') ->
      kernel st' = kernel st /\ (rc = 0 -> nrequests st' !! t = Some (n - Z.of_nat (S (length events))))).
    { intros st0 Hk Hq H0. unfold bind, gets, cast in H0. rewrite Hq, Hn in H0. unfold set_nrequests in H0.
      rewrite u32_small in H0 by (unfold is_u32; lia). apply (IH _ _ _ (n - 1)) in H0 as [K Q].
      - cbn [kernel] in K. rewrite K, Hk. split; [done|]. intros Hrc. rewrite Q by exact Hrc. f_equal. lia.
      - cbn [nrequests]. rewrite Hq. apply list_lookup_insert_eq. by apply lookup_lt_Some in Hn.
      - lia. }
    destruct (aio_type oper); [exact (Hnext st eq_refl eq_refl H)|..];
      (destruct (negb _); [run_inv; split; [done|discriminate]|]);
      (unfold bind at 1, count at 1 in H; eapply Hnext in H; [exact H|reflexivity..]).
Qed.

Lemma wait_reaps t nreq st rc st' :
  queue_ok t st -> file_wait file_async_backlog t nreq st = Some (rc, st') -> rc = 0 ->
  queue_ok t st' /\ 0 <= in_flight t (kernel st') <= in_flight t (kernel st) - Z.max 1 nreq.
Proof using Type*.
  intros [Hq Hb] H Hrc. unfold file_wait in H. apply bind_inv in H as (b & st1 & E1 & H).
  unfold buffer_of, bind, gets, cast, ret in E1. destruct (per_thread st !! t) as [p|]; [|discriminate].
  injection E1 as _ <-. unfold bind at 1, sys in H.
  destruct (io_getevents t nreq file_async_backlog b (kernel st)) as [[[nr events] b'] k'] eqn:Eg.
  unfold bind at 1, set_buffer in H. destruct (Z.ltb_spec nr 1) as [|Hnr]; [run_inv; discriminate|].
  destruct (getevents_law _ _ _ _ _ _ _ _ _ Eg Hnr) as (Hr & Hp & Hlen & Hk).
  rewrite take_ge in H by lia.
  eapply (complete_counts t events) in H as [K Q]; [|exact Hq|lia].
  cbn [kernel] in K. unfold queue_ok. rewrite K, Q, Hk by done. split; [split; [f_equal; lia|lia]|lia].
Qed.

Lemma submit_keeps_queue oper t st st' :
  queue_ok t st -> in_flight t (kernel st) < file_async_backlog ->
  file_submit_or_wait file_async_backlog oper t st = Some (0, st') ->
  queue_ok t st' /\ in_flight t (kernel st') < file_async_backlog.
Proof using Type*.
  intros [Hq Hb] Hlt H. unfold file_submit_or_wait in H. apply bind_inv in H as (b & st1 & E1 & H).
  unfold buffer_of, bind, gets, cast, ret in E1. destruct (per_thread st !! t) as [p|]; [|discriminate].
  injection E1 as _ <-. unfold bind at 1, sys in H.
  destruct (io_submit t oper b (kernel st)) as [[rc b'] k'] eqn:Es. cbn [fst snd] in H.
  unfold bind at 1, set_buffer in H. destruct (Z.ltb_spec rc 1) as [|Hrc]; [run_inv; discriminate|].
  pose proof (submit_law _ _ _ _ _ _ _ Es Hrc) as Hk. unfold bind at 1 2 3, gets, cast in H.
  cbn [nrequests] in H. rewrite Hq in H. unfold set_nrequests in H. cbn [kernel cnts per_thread nrequests files mmaps rng] in H.
  rewrite u32_small in H by (unfold is_u32; lia). set (st2 := Fio k' _ _ _ _ _ _) in H.
  assert (Hq2 : queue_ok t st2).
  { unfold queue_ok, st2. cbn [nrequests kernel]. rewrite Hk. split; [|lia].
    apply list_lookup_insert_eq. by apply lookup_lt_Some in Hq. }
  destruct (Z.ltb_spec (in_flight t (kernel st) + 1) file_async_backlog).
  - run_inv. split; [exact Hq2|]. unfold st2. cbn [kernel]. lia.
  - destruct (wait_reaps t 1 st2 0 st' Hq2 H eq_refl) as [Hq3 Hle]. split; [exact Hq3|].
    unfold st2 in Hle. cbn [kernel] in Hle. lia.
Qed.

(** The final fsync of every file leaves the queue alone. *)
Definition queue_view (t : nat) (st : fio os) : Z * list Z := (in_flight t (kernel st), nrequests st).

Lemma loop_keeps {B} (f : fio os -> B) l body : (forall i, keeps f (body i)) -> keeps f (loop l body).
Proof using Type.
  intros Hb. induction l as [|i l IH]; cbn [loop]; [apply keeps_ret|].
  apply keeps_bind; [apply Hb|]. intros [rc|]; [apply keeps_ret|exact IH].
Qed.

Lemma fsync_keeps_queue t id u : file_io_mode c = FILE_IO_MODE_ASYNC -> keeps (queue_view t) (file_fsync c id u).
Proof using Type*.
  intros Hm. unfold file_fsync. apply keeps_bind; [|intros rc; apply keeps_if; [apply keeps_ret|]].
  - unfold file_do_fsync, fd_of. rewrite Hm. repeat (apply keeps_bind; [auto with fio|intros ?]); auto with fio.
    destruct (file_fsync_mode c); intros st x st' H; unfold sys in H.
    + pose proof (fsync_law t a (kernel st)) as L. destruct (sys_fsync a (kernel st)). injection H as _ <-.
      unfold queue_view. cbn in *. by rewrite L.
    + pose proof (fdatasync_law t a (kernel st)) as L. destruct (sys_fdatasync a (kernel st)). injection H as _ <-.
      unfold queue_view. cbn in *. by rewrite L.
  - apply keeps_bind; [|intros ?; apply keeps_ret]. intros st x st' H. by injection H as _ <-.
Qed.

(** The flush loop leaves the function with 1 only. *)
Lemma flush_loop_one (b : bool) l u (st : fio os) rc st' :
  (if b then loop l (fun i => rc <- file_fsync c (Z.of_nat i) u; ret (if rc =? 0 then None else Some 1)) else ret None) st
  = Some (Some rc, st') -> rc = 1.
Proof using Type.
  destruct b; [|intros H; by run_inv]. revert st. induction l as [|i l IH]; intros st H; cbn [loop] in H; [by run_inv|].
  apply bind_inv in H as (r & st1 & E & H). run_inv. destruct (a =? 0); [by apply (IH st1)|by run_inv; simplify_eq].
Qed.

(** A sequence of submissions, each of which returned 0. *)
Inductive submits (t : nat) : list sb_aio_oper_t -> fio os -> fio os -> Prop :=
| submits_nil st : submits t [] st st
| submits_cons oper l st st1 st2 :
    file_submit_or_wait file_async_backlog oper t st = Some (0, st1) ->
    submits t l st1 st2 -> submits t (oper :: l) st st2.

Lemma submits_keep t l st st' : submits t l st st' ->
  queue_ok t st -> in_flight t (kernel st) < file_async_backlog ->
  queue_ok t st' /\ in_flight t (kernel st') < file_async_backlog.
Proof using Type*.
  induction 1 as [|oper l st st1 st2 H _ IH]; intros Hq Hlt; [done|].
  destruct (submit_keeps_queue oper t st st1 Hq Hlt H). by apply IH.
Qed.

(** C39: in asynchronous mode a thread never has [file_async_backlog] requests
    in flight after a submission returns, its count agrees with the kernel's,
    and when the final wait of [file_thread_done] succeeds nothing is left in
    flight. *)
Theorem async_requests_all_reaped t l st st1 st2 :
  queue_ok t st -> in_flight t (kernel st) < file_async_backlog -> submits t l st st1 ->
  file_io_mode c = FILE_IO_MODE_ASYNC ->
  file_thread_done c file_async_backlog t st1 = Some (0, st2) ->
  in_flight t (kernel st1) < file_async_backlog /\ queue_ok t st1 /\ in_flight t (kernel st2) = 0 /\ queue_ok t st2.
Proof using Type*.
  intros Hq Hlt Hl Hm H. destruct (submits_keep t l st st1 Hl Hq Hlt) as [Hq1 Hlt1]. clear Hq Hlt Hl.
  split; [exact Hlt1|]. split; [exact Hq1|]. unfold file_thread_done in H.
  apply bind_inv in H as (r & st3 & E & H).
  assert (K : queue_view t st3 = queue_view t st1).
  { revert E. apply keeps_if; [apply loop_keeps; intros i|apply keeps_ret].
    apply keeps_bind; [by apply fsync_keeps_queue|intros ?; apply keeps_ret]. }
  injection K as Kf Kn. assert (Hq3 : queue_ok t st3) by (unfold queue_ok; rewrite Kf, Kn; exact Hq1).
  destruct r as [rc|]; [apply flush_loop_one in E as ->; run_inv; discriminate|].
  rewrite bool_decide_eq_true_2 in H by exact Hm.
  pose proof Hq3 as [Hn Hb]. unfold bind, gets, cast in H. rewrite Hn in H.
  destruct (Z.ltb_spec 0 (in_flight t (kernel st3))).
  - destruct (wait_reaps t _ st3 0 st2 Hq3 H eq_refl) as [Hq2 Hle]. split; [lia|exact Hq2].
  - run_inv. split; [lia|exact Hq3].
Qed.
End async.

Definition example_read (off : Z) : sb_aio_oper_t := AioOper FILE_OP_TYPE_READ 32 0 off.
Lemma async_requests_all_reaped_witness :
  exists st1 st2, submits 2 0 [example_read 0; example_read 32; example_read 0] example_fio st1
    /\ file_thread_done (example_conf FILE_IO_MODE_ASYNC) 2 0 st1 = Some (0, st2)
    /\ in_flight 0 (kernel st2) = 0.
Proof.
  assert (exists st1 st2, submits 2 0 [example_read 0; example_read 32; example_read 0] example_fio st1
            /\ file_thread_done (example_conf FILE_IO_MODE_ASYNC) 2 0 st1 = Some (0, st2)) as (st1 & st2 & Hs & Hd).
  { eexists _, _. split.
    - do 3 (eapply submits_cons; [vm_compute; reflexivity|]). apply submits_nil.
    - vm_compute. reflexivity. }
  exists st1, st2. split; [exact Hs|]. split; [exact Hd|].
  apply (async_requests_all_reaped (example_conf FILE_IO_MODE_ASYNC) 2 ltac:(lia) 0
           [example_read 0; example_read 32; example_read 0] example_fio st1 st2);
    [split; [reflexivity|cbn; lia]|cbn; lia|exact Hs|reflexivity|exact Hd].
Defined.

(** ** The end of a thread *)

Section flush.
Context {os : Type} `{!Kernel os}.
Context (c : fileio_conf) (file_async_backlog : Z).

(** [fsync] of the first files, in order, on the kernel state. *)
Fixpoint flushed (fds : list Z) (k : os) : os :=
  match fds with
  | [] => k
  | fd :: fds => flushed fds (snd (sys_fsync fd k))
  end.

Lemma flush_loop t n : forall i st st',
  file_io_mode c = FILE_IO_MODE_SYNC -> file_fsync_mode c = FSYNC_ALL ->
  loop (seq i n) (fun i => rc <- file_fsync c (Z.of_nat i) t; ret (if rc =? 0 then None else Some 1)) st = Some (None, st') ->
  (i + n <= length (files st))%nat ->
  kernel st' = flushed (take n (drop i (files st))) (kernel st)
  /\ cnts st' = Nat.iter n (fun k => sb_counter_inc k t SB_CNT_OTHER) (cnts st).
Proof using Type.
  induction n as [|n IH]; intros i st st' Hm Hf H Hl; cbn [seq loop] in H.
  - run_inv. rewrite take_0. done.
  - apply bind_inv in H as (r & st1 & E & H). run_inv. unfold file_fsync in E0. apply bind_inv in E0 as (rc & st2 & E1 & E0).
    unfold file_do_fsync, fd_of, bind, gets, cast in E1. rewrite Hm, Hf, Nat2Z.id in E1.
    destruct (lookup_lt_is_Some_2 (files st) i) as [fd Efd]; [lia|]. rewrite Efd in E1. unfold sys in E1.
    destruct (sys_fsync fd (kernel st)) as [rc' k'] eqn:Ek. injection E1 as <- <-.
    destruct (rc' =? 0); cbn [negb] in E0; [|run_inv; cbn [Z.eqb] in H; run_inv; discriminate].
    unfold bind, count, ret in E0. injection E0 as <- <-. cbn [Z.eqb] in H.
    apply IH in H as [K C]; [|done|done|cbn; lia]. cbn [kernel cnts files] in K, C.
    rewrite K, C, (drop_S (files st) fd i) by exact Efd. cbn [take flushed]. rewrite Ek. split; [done|]. symmetry. apply (Nat.iter_succ_r n (fun k => sb_counter_inc k t SB_CNT_OTHER)).
Qed.

(** After a test that writes, with [--file-fsync-end] and synchronous I/O, a
    thread that ends successfully has called [fsync] once on every file, in
    order, and counted each call. *)
Theorem thread_done_flushes t st st' :
  file_io_mode c = FILE_IO_MODE_SYNC -> file_fsync_mode c = FSYNC_ALL -> file_fsync_end c <> 0 ->
  test_mode c <> MODE_READ -> test_mode c <> MODE_RND_READ -> Z.of_nat (length (files st)) = num_files c ->
  file_thread_done c file_async_backlog t st = Some (0, st') ->
  kernel st' = flushed (files st) (kernel st)
  /\ cnts st' = Nat.iter (length (files st)) (fun k => sb_counter_inc k t SB_CNT_OTHER) (cnts st).
Proof using Type.
  intros Hm Hf He H1 H2 Hn H. unfold file_thread_done in H. apply bind_inv in H as (r & st1 & E & H).
  destruct r as [rc|].
  - apply flush_loop_one in E as ->. run_inv. discriminate.
  - rewrite (proj2 (Z.eqb_neq _ _) He), !bool_decide_eq_false_2 in E by done. cbn [negb andb] in E.
    rewrite bool_decide_eq_false_2 in H by (rewrite Hm; discriminate). run_inv.
    unfold files_range in E. rewrite <- Hn, Nat2Z.id in E.
    apply flush_loop in E; [|done|done|lia]. rewrite drop_0, take_ge in E by lia. exact E.
Qed.
End flush.

Lemma thread_done_flushes_witness :
  exists st', file_thread_done (example_conf FILE_IO_MODE_SYNC) 128 0 example_fio = Some (0, st')
    /\ sb_counter_val (cnts st') 0 (cnt_index SB_CNT_OTHER) = 1.
Proof.
  assert (exists st', file_thread_done (example_conf FILE_IO_MODE_SYNC) 128 0 example_fio = Some (0, st')) as [st' E]
    by (eexists; vm_compute; reflexivity).
  exists st'. split; [exact E|].
  destruct (thread_done_flushes (example_conf FILE_IO_MODE_SYNC) 128 0 example_fio st') as [_ ->];
    [reflexivity|reflexivity|discriminate..|reflexivity|exact E|reflexivity].
Defined.

(** ** Defects *)

(** [--file-extra-flags] accepts a list, but [direct] together with
    another flag is refused when the files are opened: the combined value is
    taken for an unknown flag. *)
Theorem direct_flag_alone O_SYNC O_DSYNC O_DIRECT extra open_flags :
  0 <= extra < 8 ->
  fst (convert_extra_flags O_SYNC O_DSYNC O_DIRECT extra open_flags) = 0 <->
  (Z.land extra SB_FILE_FLAG_DIRECTIO = 0 \/ extra = SB_FILE_FLAG_DIRECTIO).
Proof.
  intros He. unfold convert_extra_flags, SB_FILE_FLAG_DIRECTIO.
  assert (extra = 0 \/ extra = 1 \/ extra = 2 \/ extra = 3 \/ extra = 4 \/ extra = 5 \/ extra = 6 \/ extra = 7)
    as Hc by lia.
  repeat destruct Hc as [->|Hc]; try subst; cbn; intuition discriminate.
Qed.

Lemma direct_flag_alone_witness :
  fst (convert_extra_flags 1052672 4096 16384 (Z.lor SB_FILE_FLAG_SYNC SB_FILE_FLAG_DIRECTIO) 0) = 1.
Proof.
  pose proof (direct_flag_alone 1052672 4096 16384 5 0 ltac:(lia)) as H.
  destruct (Z.eq_dec (fst (convert_extra_flags 1052672 4096 16384 5 0)) 0) as [E|_]; [|reflexivity].
  apply H in E as [E|E]; vm_compute in E; discriminate E.
Defined.

(** 12801 bytes in 100 files: one byte is left over, and it starts a block. *)
Definition example_remainder : fileio_conf :=
  FileioConf 100 12801 128 512 0 0 0 1 FSYNC_ALL (d_of_Z 1) 0 512 FILE_IO_MODE_SYNC MODE_RND_READ.

Lemma execute_after_last {os} `{!Kernel os} (st : fio os) le addr validating c backlog t r :
  file_id r = num_files c -> Z.of_nat (length (files st)) = num_files c -> pos r + size r <= file_size c ->
  file_execute_event le addr validating c backlog r t st = None.
Proof.
  intros Hf Hl Hp. unfold file_execute_event.
  destruct (Z.ltb_spec (num_files c) (file_id r)); [lia|].
  destruct (Z.ltb_spec (file_size c) (pos r + size r)); [lia|].
  unfold bind, fd_of, bind, gets, cast. by rewrite lookup_ge_None_2 by lia.
Qed.

(** When the total size is not a multiple of the number of files, the random
    generator can name the file after the last one; the check of the request
    lets it through and the descriptor is read outside the array. *)
Theorem file_after_last {os} `{!Kernel os} (st : fio os) le addr validating backlog t :
  length (files st) = 100%nat ->
  exists o s', file_get_rnd_request 1 false 1 example_remainder (sb_counters_init 1) [no_thread] 0
      (init_vars false (FileRequest 0 0 0 FILE_OP_TYPE_NULL)) (2 ^ 64 - 1, 0) = Some (inl o, s')
    /\ file_id (ro_req o) = num_files example_remainder
    /\ file_execute_event le addr validating example_remainder backlog (ro_req o) t st = None.
Proof.
  intros Hl. eexists _, _. split; [vm_compute; reflexivity|]. split; [reflexivity|].
  apply execute_after_last; [reflexivity|rewrite Hl; reflexivity|vm_compute; discriminate].
Qed.

Lemma file_after_last_witness :
  let st : fio memk := Fio (Memk [] (fun _ => [])) (sb_counters_init 1) [no_thread] [0] (replicate 100 0) [] (7, 8) in
  exists o s', file_get_rnd_request 1 false 1 example_remainder (sb_counters_init 1) [no_thread] 0
      (init_vars false (FileRequest 0 0 0 FILE_OP_TYPE_NULL)) (2 ^ 64 - 1, 0) = Some (inl o, s')
    /\ file_id (ro_req o) = num_files example_remainder
    /\ file_execute_event true 0 false example_remainder 128 (ro_req o) 0 st = None.
Proof. intros st. apply (file_after_last st true 0 false 128 0). reflexivity. Defined.

(** ** Creating the files terminates *)

Section creation.
Context {os : Type} `{!Kernel os}.
Context (little_endian : bool) (addr O_SYNC O_DSYNC O_DIRECT O_CREAT O_WRONLY : Z).
Context (validating : bool) (c : fileio_conf).

(** [lseek(2)] returns an offset, or -1. *)
Hypothesis lseek_result : forall fd k, -1 <= fst (sys_lseek_end (os := os) fd k).
Hypothesis block_ok : 0 < file_block_size c < 2 ^ 31.
Hypothesis validated_block : validating = true -> 12 <= file_block_size c.
Hypothesis size_ok : 0 <= file_size c.

(** The first thread's buffer holds a block. *)
Definition buffer_ready (st : fio os) : Prop :=
  exists p, per_thread st !! 0%nat = Some p /\ file_block_size c <= Z.of_nat (length (buffer p)).

Definition fill_first (offset : Z) : io os unit :=
  if validating then
    b <- buffer_of 0;
    b <- random (file_fill_buffer little_endian addr b (u32 (file_block_size c)) offset);
    set_buffer 0 b
  else ret tt.

Lemma fill_first_total offset st : buffer_ready st ->
  exists st', fill_first offset st = Some (tt, st') /\ buffer_ready st'.
Proof using block_ok validated_block.
  intros (p & Hp & Hb). unfold fill_first. destruct validating; [|by exists st; split; [|exists p]].
  rewrite u32_small by (unfold is_u32; lia). specialize (validated_block eq_refl).
  destruct (fill_block little_endian addr (buffer p) (file_block_size c) offset (rng st)) as (data & rest & s' & E & _ & _ & Hl);
    [lia|lia|].
  unfold bind, buffer_of, bind, gets, cast. rewrite Hp. unfold ret, random. rewrite E. unfold set_buffer.
  eexists. split; [reflexivity|]. eexists. cbn [per_thread]. rewrite list_lookup_alter_eq, Hp.
  split; [reflexivity|]. cbn [buffer]. by rewrite Hl.
Qed.

Lemma write_blocks_total fd fuel : forall offset written st,
  buffer_ready st -> Z.max 0 (file_size c - offset) < Z.of_nat fuel ->
  exists r st', write_blocks little_endian addr validating c fuel fd offset written st = Some (Some r, st')
    /\ buffer_ready st'.
Proof using block_ok validated_block.
  induction fuel as [|fuel IH]; intros offset written st Hst Hf; [lia|]. cbn [write_blocks].
  destruct (Z.ltb_spec offset (file_size c)) as [Ho|]; [|by eexists _, st].
  fold (fill_first offset). destruct (fill_first_total offset st Hst) as (st1 & E1 & Hst1).
  unfold bind at 1. rewrite E1. destruct Hst1 as (p & Hp & Hb).
  unfold bind at 1, load_bytes, buffer_of, bind at 1 2 3, gets at 1, cast at 1. rewrite Hp. unfold ret at 1.
  destruct (Z.ltb_spec (Z.of_nat (length (buffer p))) (file_block_size c)); [lia|].
  unfold ret at 1, bind at 1, sys. destruct (sys_write fd _ (kernel st1)) as [n k].
  set (st2 := Fio k _ _ _ _ _ _). assert (Hst2 : buffer_ready st2) by (by exists p).
  destruct (n <? 0); [by eexists _, st2|]. apply IH; [done|lia].
Qed.

Lemma create_loop_total l : forall flags written st, buffer_ready st ->
  exists r st', create_loop little_endian addr O_CREAT O_WRONLY validating c l flags written st = Some (r, st')
    /\ (r = inr 1 \/ exists w, r = inl w).
Proof using lseek_result size_ok block_ok validated_block.
  induction l as [|i l IH]; intros flags written st Hst; cbn [create_loop]; [eexists _, st; eauto|].
  unfold bind at 1, sys at 1. destruct (sys_open _ _ (kernel st)) as [fd k1].
  destruct (fd <? 0); [eexists _, _; split; [reflexivity|by left]|].
  unfold bind at 1, sys at 1. cbn [kernel]. pose proof (lseek_result fd k1) as Hl.
  destruct (sys_lseek_end fd k1) as [offset k2]. cbn [fst] in Hl.
  unfold bind at 1. set (st2 := Fio k2 _ _ _ _ _ _).
  destruct (write_blocks_total fd (blocks_fuel c) offset written st2) as (r & st3 & E & Hst3).
  - destruct Hst as (p & Hp & Hb). by exists p.
  - unfold blocks_fuel. lia.
  - rewrite E. destruct r as [w|[]].
    + unfold bind at 1, sys at 1. destruct (sys_fsync fd (kernel st3)) as [x k3].
      unfold bind at 1, sys_, sys at 1. apply IH. destruct Hst3 as (p & Hp & Hb). by exists p.
    + unfold bind at 1, sys_, sys at 1. eexists _, _. split; [reflexivity|by left].
Qed.

(** The [prepare] command's file creation always ends, whatever the kernel
    answers: it returns 0 or 1, within one block write per block of each file,
    and never leaves the buffer. *)
Theorem create_files_terminates st : buffer_ready st ->
  exists rc st', create_files little_endian addr O_SYNC O_DSYNC O_DIRECT O_CREAT O_WRONLY validating c st = Some (rc, st')
    /\ (rc = 0 \/ rc = 1).
Proof using lseek_result size_ok block_ok validated_block.
  intros Hst. unfold create_files. destruct (convert_extra_flags _ _ _ _ _) as [rc flags].
  destruct (negb (rc =? 0)); [eexists _, st; split; [reflexivity|by right]|].
  destruct (create_loop_total (files_range c) flags 0 st Hst) as (r & st' & E & Hr).
  unfold bind. rewrite E. eexists _, st'. split; [reflexivity|]. destruct Hr as [->|[w ->]]; [by right|by left].
Qed.
End creation.

Lemma create_files_terminates_witness :
  exists rc st', create_files true 0 1052672 4096 16384 64 1 true (example_conf FILE_IO_MODE_SYNC) example_fio
                 = Some (rc, st') /\ (rc = 0 \/ rc = 1).
Proof.
  apply (create_files_terminates true 0 1052672 4096 16384 64 1 true (example_conf FILE_IO_MODE_SYNC)).
  - intros fd k. cbn. unfold mem_length. lia.
  - cbn. lia.
  - cbn. lia.
  - cbn. lia.
  - eexists. split; [reflexivity|]. cbn. lia.
Defined.
