(* ===== verification/FileioArgs.v ===== *)
(** * The fileio test: options and initialisation ([tests/fileio/sb_fileio.c])

    [parse_arguments] turns the option store into the configuration the other
    files run with; the theorems connect it to their hypotheses. *)

From S2P Require Import Prelude Double Options Xoroshiro Rand Counter Fileio FileioRun.

(** ** The options of the test *)

Definition fileio_args : list sb_arg_t :=
  [SB_OPT "file-num" "number of files to create" (Some "128") SB_ARG_TYPE_INT None;
   SB_OPT "file-block-size" "block size to use in all IO operations" (Some "16384") SB_ARG_TYPE_INT None;
   SB_OPT "file-total-size" "total size of files to create" (Some "2G") SB_ARG_TYPE_SIZE None;
   SB_OPT "file-test-mode" "test mode {seqwr, seqrewr, seqrd, rndrd, rndwr, rndrw}" None SB_ARG_TYPE_STRING None;
   SB_OPT "file-io-mode" "file operations mode {sync,async,mmap}" (Some "sync") SB_ARG_TYPE_STRING None;
   SB_OPT "file-async-backlog" "number of asynchronous operatons to queue per thread" (Some "128") SB_ARG_TYPE_INT None;
   SB_OPT "file-extra-flags" "list of additional flags to use to open files {sync,dsync,direct}"
     (Some "") SB_ARG_TYPE_LIST None;
   SB_OPT "file-fsync-freq" "do fsync() after this number of requests (0 - don't use fsync())"
     (Some "100") SB_ARG_TYPE_INT None;
   SB_OPT "file-fsync-all" "do fsync() after each write operation" (Some "off") SB_ARG_TYPE_BOOL None;
   SB_OPT "file-fsync-end" "do fsync() at the end of test" (Some "on") SB_ARG_TYPE_BOOL None;
   SB_OPT "file-fsync-mode" "which method to use for synchronization {fsync, fdatasync}"
     (Some "fsync") SB_ARG_TYPE_STRING None;
   SB_OPT "file-merged-requests" "merge at most this number of IO requests if possible (0 - don't merge)"
     (Some "0") SB_ARG_TYPE_INT None;
   SB_OPT "file-rw-ratio" "reads/writes ratio for combined test" (Some "1.5") SB_ARG_TYPE_DOUBLE None].

(** ** Parsing *)

#[local] Open Scope parse_scope.

Definition test_mode_of (s : string) : parsed file_test_mode_t :=
  if String.eqb s "seqwr" then POk MODE_WRITE
  else if String.eqb s "seqrewr" then POk MODE_REWRITE
  else if String.eqb s "seqrd" then POk MODE_READ
  else if String.eqb s "rndrd" then POk MODE_RND_READ
  else if String.eqb s "rndwr" then POk MODE_RND_WRITE
  else if String.eqb s "rndrw" then POk MODE_RND_RW
  else PFail.

Definition io_mode_of (s : string) : parsed file_io_mode_t :=
  if String.eqb s "sync" then POk FILE_IO_MODE_SYNC
  else if String.eqb s "async" then POk FILE_IO_MODE_ASYNC
  else if String.eqb s "mmap" then POk FILE_IO_MODE_MMAP
  else PFail.

Definition fsync_mode_of (s : string) : parsed file_fsync_mode_t :=
  if String.eqb s "fsync" then POk FSYNC_ALL
  else if String.eqb s "fdatasync" then POk FSYNC_DATA
  else PFail.

(** The loop over the values of [file-extra-flags]. *)
Fixpoint extra_flags_of (flags : Z) (l : list value_t) : parsed Z :=
  match l with
  | [] => POk flags
  | v :: l =>
      let val := val_data v in
      if String.eqb val "sync" then extra_flags_of (Z.lor flags SB_FILE_FLAG_SYNC) l
      else if String.eqb val "dsync" then extra_flags_of (Z.lor flags SB_FILE_FLAG_DSYNC) l
      else if String.eqb val "direct" then extra_flags_of (Z.lor flags SB_FILE_FLAG_DIRECTIO) l
      else PFail
  end.

Section parsing.
(** [strtod(3)]; whether the [i]-th [sb_memalign] succeeds, and what [malloc]
    leaves in the other fields of [per_thread]. *)
Context (strtod : string -> dbl) (allocates : nat -> bool) (garbage : nat -> Z * Z).
Context (options : list option_t).

Definition new_per_thread (request_size : Z) (i : nat) : sb_per_thread_t :=
  PerThread (replicate (Z.to_nat request_size) 0) (fst (garbage i)) (snd (garbage i)).

(** [cmdname] and [threads] come from [sb_globals]; [flags] and [mode] are the
    previous values of [file_extra_flags] and [test_mode]. *)
Definition parse_arguments (cmdname : string) (threads : nat) (flags : Z) (mode : file_test_mode_t)
    : parsed (fileio_conf * list sb_per_thread_t) :=
  num <-p p_int (sb_get_value_int options "file-num");
  let num_files := u32 num in
  _ <-p check (negb (num_files <=? 0));
  let total_size := s64 (sb_get_value_size options "file-total-size") in
  _ <-p check (negb (total_size <=? 0));
  let file_size := total_size / num_files in
  test_mode <-p (if String.eqb cmdname "run" then
                   match sb_get_value_string options "file-test-mode" with
                   | None => PFail
                   | Some s => test_mode_of s
                   end
                 else POk mode);
  io_mode <-p io_mode_of (default "sync"%string (sb_get_value_string options "file-io-mode"));
  merged <-p p_int (sb_get_value_int options "file-merged-requests");
  _ <-p check (negb (merged <? 0));
  let block := s32 (sb_get_value_size options "file-block-size") in
  _ <-p check (negb (block <=? 0));
  let request_size := if 0 <? merged then block * merged else block in
  _ <-p defined (request_size <=? INT_MAX);
  list <-p match sb_get_value_list options "file-extra-flags" with Some l => POk l | None => PUndefined end;
  flags <-p extra_flags_of flags list;
  freq <-p p_int (sb_get_value_int options "file-fsync-freq");
  _ <-p check (negb (freq <? 0));
  let fsync_end := sb_get_value_flag options "file-fsync-end" in
  let fsync_all := sb_get_value_flag options "file-fsync-all" in
  let fsync_end := if fsync_all =? 0 then fsync_end else 0 in
  let freq := if fsync_all =? 0 then freq else 0 in
  fsync_mode <-p match sb_get_value_string options "file-fsync-mode" with
                 | Some s => fsync_mode_of s
                 | None => PUndefined
                 end;
  let rw_ratio := sb_get_value_double strtod options "file-rw-ratio" in
  _ <-p check (negb (dltb rw_ratio (Fin 0)));
  _ <-p check (forallb allocates (seq 0 threads));
  POk (FileioConf num_files total_size file_size block flags freq fsync_all fsync_end fsync_mode
         rw_ratio merged request_size io_mode test_mode,
       map (new_per_thread request_size) (seq 0 threads)).
End parsing.

(** ** Well-formedness of a parsed configuration *)

(** A configuration that [parse_arguments] accepts has files of
    [file-total-size / file-num] bytes and positive sizes within their C types,
    one zeroed buffer per thread that holds the largest request, and, unless
    there are more files than bytes, satisfies what the request generators need.
    [file-fsync-all] switches the other two ways of syncing off. *)
Theorem parse_arguments_valid strtod allocates garbage options cmdname threads flags mode c pts :
  parse_arguments strtod allocates garbage options cmdname threads flags mode = POk (c, pts) ->
  file_size c = total_size c / num_files c
  /\ (0 < total_size c < 2 ^ 63 /\ 0 < file_block_size c <= file_request_size c /\ file_request_size c < 2 ^ 31)
  /\ (num_files c <= total_size c -> conf_ok c)
  /\ (file_fsync_all c <> 0 -> file_fsync_freq c = 0 /\ file_fsync_end c = 0)
  /\ length pts = threads
  /\ Forall (fun p => buffer p = replicate (Z.to_nat (file_request_size c)) 0) pts.
Proof.
  intros H. unfold parse_arguments in H. parse_inv. injection H as <- <-.
  cbn [num_files total_size file_size file_block_size file_request_size file_fsync_all file_fsync_freq file_fsync_end].
  pose proof (opt_to_int_range _ _ _ E10) as Hfreq. pose proof (u32_range a) as Hn. unfold is_s32, is_u32 in *.
  pose proof (s64_range (sb_get_value_size options "file-total-size")) as Ht. unfold is_s64 in Ht.
  set (block := s32 _) in *. set (total := s64 _) in *.
  assert (Hreq : block <= (if 0 <? a4 then block * a4 else block) <= 2 ^ 31 - 1).
  { unfold INT_MAX in *. destruct (Z.ltb_spec 0 a4); nia. }
  split_and!; try lia; try done.
  - intros Hle. split; cbn [num_files file_size file_request_size file_fsync_freq]; try lia.
    + apply Z.div_str_pos. lia.
    + case_bool; lia.
  - destruct (sb_get_value_flag options "file-fsync-all" =? 0) eqn:Eall; [|done]. bool_to_prop. lia.
  - by rewrite length_map, length_seq.
  - apply List.Forall_map, Forall_forall. done.
Qed.

(** The options as registered, with some set on the command line. *)
Definition example_options (sets : list (string * string * sb_arg_type_t)) : list option_t :=
  foldl (fun options '(name, value, ty) => fst (set_option (fun _ => None) options name (Some value) ty))
    (fst (sb_register_arg_set (fun _ => None) fileio_args [])) sets.
Definition example_parse (sets : list (string * string * sb_arg_type_t)) : parsed (fileio_conf * list sb_per_thread_t) :=
  parse_arguments (fun _ => d_of_Z 1) (fun _ => true) (fun _ => (0, 0)) (example_options sets) "run" 2 0 MODE_READ.

Definition example_sets : list (string * string * sb_arg_type_t) :=
  [("file-test-mode", "rndrw", SB_ARG_TYPE_STRING); ("file-block-size", "64", SB_ARG_TYPE_INT);
   ("file-merged-requests", "4", SB_ARG_TYPE_INT)]%string.

Lemma parse_arguments_valid_witness :
  exists c pts, example_parse example_sets = POk (c, pts) /\ file_size c = 16777216 /\ file_request_size c = 256
    /\ conf_ok c.
Proof.
  assert (exists c pts, example_parse example_sets = POk (c, pts) /\ file_size c = 16777216 /\ file_request_size c = 256
            /\ num_files c <= total_size c) as (c & pts & E & E1 & E2 & E3)
    by (eexists _, _; split; [vm_compute; reflexivity|]; vm_compute; split_and!; (reflexivity || discriminate)).
  exists c, pts. split; [exact E|]. split; [exact E1|]. split; [exact E2|].
  apply (parse_arguments_valid (fun _ => d_of_Z 1) (fun _ => true) (fun _ => (0, 0)) (example_options example_sets)
           "run" 2 0 MODE_READ c pts E). exact E3.
Defined.

(** ** Arguments that are not checked *)

Definition sets_negative : list (string * string * sb_arg_type_t) :=
  [("file-test-mode", "seqrd", SB_ARG_TYPE_STRING); ("file-num", "-1", SB_ARG_TYPE_INT);
   ("file-block-size", "64", SB_ARG_TYPE_INT); ("file-total-size", "16G", SB_ARG_TYPE_SIZE)]%string.
Definition sets_empty_files : list (string * string * sb_arg_type_t) :=
  [("file-test-mode", "rndrd", SB_ARG_TYPE_STRING); ("file-num", "128", SB_ARG_TYPE_INT);
   ("file-block-size", "64", SB_ARG_TYPE_INT); ("file-total-size", "100", SB_ARG_TYPE_SIZE)]%string.

(** Two mistakes on the command line pass [parse_arguments]: a negative
    number of files becomes a very large one, since the check [num_files <= 0]
    is on an unsigned variable; and with fewer bytes than files every file is
    empty, and the random generator divides by zero at its first request. *)
Theorem unchecked_arguments :
  (exists c pts, example_parse sets_negative = POk (c, pts) /\ num_files c = 4294967295) /\
  (exists c pts, example_parse sets_empty_files = POk (c, pts) /\ file_size c = 0 /\
     forall op s, rnd_block c op s = None).
Proof.
  split.
  - eexists _, _. split; [vm_compute; reflexivity|]. reflexivity.
  - eexists _, _. split; [vm_compute; reflexivity|]. split; [reflexivity|].
    intros op s. unfold rnd_block, rbind. destruct (sb_rand_uniform_double s) as [[u s']|]; [|reflexivity].
    unfold rcast at 1. cbn [total_size file_block_size file_size]. by destruct (d_to_s64 _).
Qed.
