(* ===== verification/MemoryTest.v ===== *)
(** * The memory test ([tests/memory/sb_memory.c], [sb_memalign] of [sb_util.c])

    Every event goes through one memory block, word by word, in order or at
    random.  The blocks live in an explicit heap: the threads share one block
    (scope [global]) or have their own, and an access outside a block is undefined
    behaviour. *)

From stdpp Require Import pretty.
From S2P Require Import Prelude Double Options Xoroshiro Rand Counter Timer Histogram Reports.

Definition SIZEOF_SIZE_T : Z := 8.
Definition LARGE_PAGE_SIZE : Z := 4 * 1024 * 1024.

Definition memory_args : list sb_arg_t :=
  [SB_OPT "memory-block-size" "size of memory block for test" (Some "1K") SB_ARG_TYPE_SIZE None;
   SB_OPT "memory-total-size" "total size of data to transfer" (Some "100G") SB_ARG_TYPE_SIZE None;
   SB_OPT "memory-scope" "memory access scope {global,local}" (Some "global") SB_ARG_TYPE_STRING None;
   SB_OPT "memory-hugetlb" "allocate memory from HugeTLB pool" (Some "off") SB_ARG_TYPE_BOOL None;
   SB_OPT "memory-oper" "type of memory operations {read, write, none}" (Some "write") SB_ARG_TYPE_STRING None;
   SB_OPT "memory-access-mode" "memory access mode {seq,rnd}" (Some "seq") SB_ARG_TYPE_STRING None].

(** ** Global variables *)

Inductive sb_mem_op_t := SB_MEM_OP_NONE | SB_MEM_OP_READ | SB_MEM_OP_WRITE.
Inductive sb_mem_scope_t := SB_MEM_SCOPE_GLOBAL | SB_MEM_SCOPE_LOCAL.

Record memory_conf := MemoryConf {
  memory_block_size : Z;
  memory_total_size : Z;
  memory_scope : sb_mem_scope_t;
  memory_oper : sb_mem_op_t;
  memory_access_rnd : bool;
  memory_hugetlb : Z;
  max_offset : Z
}.

(** The blocks, each a list of words, and the arrays of the threads: a pointer to
    a block is its position in [heap]. *)
Record memory_state := MemoryState {
  heap : list (list Z);
  buffers : list nat;
  thread_counters : list Z
}.

(** ** Initialisation *)

Definition mem_scope_of (s : string) : parsed sb_mem_scope_t :=
  if String.eqb s "global" then POk SB_MEM_SCOPE_GLOBAL
  else if String.eqb s "local" then POk SB_MEM_SCOPE_LOCAL
  else PFail.
Definition mem_oper_of (s : string) : parsed sb_mem_op_t :=
  if String.eqb s "write" then POk SB_MEM_OP_WRITE
  else if String.eqb s "read" then POk SB_MEM_OP_READ
  else if String.eqb s "none" then POk SB_MEM_OP_NONE
  else PFail.
Definition mem_access_of (s : string) : parsed bool :=
  if String.eqb s "seq" then POk false
  else if String.eqb s "rnd" then POk true
  else PFail.

(** [strcmp] of an option without a value is undefined. *)
Definition p_string (o : option string) : parsed string :=
  match o with Some s => POk s | None => PUndefined end.

(** [sb_globals.max_events = 0] *)
Definition no_max_events (g : sb_globals_t) : sb_globals_t :=
  Globals (g_error g) (tx_rate g) 0 (max_time_ns g) (threads g) (threads_running g) (report_interval g)
    (percentile g) (histogram g) (checkpoints g) (debug g) (timeout g) (validate g) (concurrency g)
    (force_shutdown g) (forced_shutdown_in_progress g) (warmup_time g) (nevents g).

(** The size of the segment [hugetlb_alloc] asks for. *)
Definition hugetlb_size (size : Z) : Z :=
  u64 (Z.land (u64 (size - 1)) (u64 (Z.lnot LARGE_PAGE_SIZE)) + LARGE_PAGE_SIZE).

#[local] Open Scope parse_scope.

Section allocation.
(** The system's allocators, at the [i]-th allocation: the words of the block that
    [posix_memalign(3)] returns for an alignment and a size, whether [shmget(2)]
    creates a segment, the words [shmat(2)] attaches, the page size; and whether
    [malloc(3)] returns the arrays of the threads. *)
Context (posix_memalign : nat -> Z -> Z -> option (list Z)).
Context (shmget : nat -> Z -> bool) (shmat : nat -> Z -> option (list Z)).
Context (pagesize : Z) (mallocs : bool).

Definition sb_memalign (i : nat) (size alignment : Z) : option (list Z) := posix_memalign i alignment size.

Definition hugetlb_alloc (i : nat) (size : Z) : option (list Z) :=
  let size := hugetlb_size size in
  if negb (shmget i size) then None else shmat i size.

(** [memset(buffer, 0, size)]; undefined beyond the end of the block. *)
Definition memset_zero (l : list Z) (size : Z) : parsed (list Z) :=
  let n := Z.to_nat (size / SIZEOF_SIZE_T) in
  _ <-p defined (n <=? length l)%nat;
  POk (replicate n 0 ++ drop n l).

Definition alloc_buffer (i : nat) (hugetlb size : Z) : parsed (list Z) :=
  match (if negb (hugetlb =? 0) then hugetlb_alloc i size else sb_memalign i size pagesize) with
  | None => PFail
  | Some l => memset_zero l size
  end.

(** The loop over the threads: thread [i] and the ones after it, [rest] in all. *)
Fixpoint init_threads (c : memory_conf) (nthreads : Z) (rest i : nat) (st : memory_state) : parsed memory_state :=
  match rest with
  | O => POk st
  | S rest =>
      hb <-p match memory_scope c with
             | SB_MEM_SCOPE_GLOBAL => POk (heap st, 0%nat)
             | SB_MEM_SCOPE_LOCAL =>
                 b <-p alloc_buffer i (memory_hugetlb c) (memory_block_size c);
                 POk (heap st ++ [b], length (heap st))
             end;
      let n := u64 (Z.quot (Z.quot (memory_total_size c) (memory_block_size c)) nthreads) in
      init_threads c nthreads rest (S i)
        (MemoryState (fst hb) (buffers st ++ [snd hb]) (thread_counters st ++ [n]))
  end.

Definition memory_init (options : list option_t) (g : sb_globals_t)
    : parsed (memory_conf * memory_state * sb_globals_t) :=
  let block := s64 (sb_get_value_size options "memory-block-size") in
  _ <-p check (negb ((block <? SIZEOF_SIZE_T) || negb (Z.land block (block - 1) =? 0)));
  let total := s64 (sb_get_value_size options "memory-total-size") in
  s <-p p_string (sb_get_value_string options "memory-scope");
  scope <-p mem_scope_of s;
  let hugetlb := sb_get_value_flag options "memory-hugetlb" in
  s <-p p_string (sb_get_value_string options "memory-oper");
  oper <-p mem_oper_of s;
  s <-p p_string (sb_get_value_string options "memory-access-mode");
  rnd <-p mem_access_of s;
  let c := MemoryConf block total scope oper rnd hugetlb (Z.quot block SIZEOF_SIZE_T - 1) in
  h <-p match scope with
        | SB_MEM_SCOPE_GLOBAL => b <-p alloc_buffer 0 hugetlb block; POk [b]
        | SB_MEM_SCOPE_LOCAL => POk []
        end;
  _ <-p check mallocs;
  st <-p init_threads c (threads g) (Z.to_nat (threads g)) 0 (MemoryState h [] []);
  POk (c, st, no_max_events g).
End allocation.

(** ** Events *)

Inductive memory_event := SB_REQ_TYPE_NULL | SB_REQ_TYPE_MEMORY.

(** The event and the new counters; [None]: no such thread. *)
Definition memory_next_event (c : memory_conf) (tid : nat) (st : memory_state)
    : option (memory_event * memory_state) :=
  if 0 <? memory_total_size c then
    n ← thread_counters st !! tid;
    let st := MemoryState (heap st) (buffers st) (<[tid := u64 (n - 1)]> (thread_counters st)) in
    Some (if n =? 0 then SB_REQ_TYPE_NULL else SB_REQ_TYPE_MEMORY, st)
  else Some (SB_REQ_TYPE_MEMORY, st).

(** An event works on the heap and draws numbers.  It finishes, or a draw is still
    in its rejection loop, or its behaviour is undefined. *)
Inductive ran (A : Type) := Ran (a : A) (h : list (list Z)) (s : Xoroshiro.state) | Drawing | Undefined.
Arguments Ran {A}.
Arguments Drawing {A}.
Arguments Undefined {A}.

Definition mem (A : Type) : Type := list (list Z) -> Xoroshiro.state -> ran A.
Definition mret {A} (a : A) : mem A := fun h s => Ran a h s.
Definition mthen {A B} (m : mem A) (k : A -> mem B) : mem B :=
  fun h s => match m h s with Ran a h s => k a h s | Drawing => Drawing | Undefined => Undefined end.
Declare Scope mem_scope.
Delimit Scope mem_scope with mem.
Notation "x <-m m ; k" := (mthen m (fun x => k)) (at level 100, m at next level, right associativity) : mem_scope.
#[local] Open Scope mem_scope.

Definition SIZE_T_LOAD (p : nat) (offset : Z) : mem Z := fun h s =>
  match (if 0 <=? offset then b ← h !! p; b !! Z.to_nat offset else None) with
  | Some v => Ran v h s
  | None => Undefined
  end.
Definition SIZE_T_STORE (p : nat) (offset v : Z) : mem unit := fun h s =>
  match (if 0 <=? offset then b ← h !! p; _ ← b !! Z.to_nat offset; Some b else None) with
  | Some b => Ran tt (<[p := <[Z.to_nat offset := v]> b]> h) s
  | None => Undefined
  end.

Fixpoint for_words (l : list Z) (body : Z -> mem unit) : mem unit :=
  match l with [] => mret tt | i :: l => _ <-m body i; for_words l body end.

Section events.
(** The mathematical library, the bound on a rejection loop, the distribution; the
    test's variables. *)
Context (log exp log1p expm1 : dbl -> dbl) (pow : dbl -> dbl -> dbl) (fuel : nat) (r : rand_conf).
Context (c : memory_conf) (bufs : list nat).

Definition draw_offset : mem Z := fun h s =>
  match sb_rand_default log exp log1p expm1 pow fuel r 0 (u32 (max_offset c)) s with
  | Some (inl k, s) => Ran k h s
  | Some (inr _, _) => Drawing
  | None => Undefined
  end.
Definition buffer_of (tid : nat) : mem nat := fun h s =>
  match bufs !! tid with Some p => Ran p h s | None => Undefined end.

Definition event_rnd_none (tid : nat) : mem Z :=
  _ <-m for_words (seqZ 0 (max_offset c + 1)) (fun _ => _ <-m draw_offset; mret tt);
  mret 0.

Definition event_rnd_read (tid : nat) : mem Z :=
  _ <-m for_words (seqZ 0 (max_offset c + 1)) (fun _ =>
    offset <-m draw_offset; p <-m buffer_of tid; _ <-m SIZE_T_LOAD p offset; mret tt);
  mret 0.

Definition event_rnd_write (tid : nat) : mem Z :=
  _ <-m for_words (seqZ 0 (max_offset c + 1)) (fun i =>
    offset <-m draw_offset; p <-m buffer_of tid; SIZE_T_STORE p offset (u64 i));
  mret 0.

Definition event_seq_none (tid : nat) : mem Z :=
  p <-m buffer_of tid;
  _ <-m for_words (seqZ 0 (max_offset c + 1)) (fun _ => mret tt);
  mret 0.

Definition event_seq_read (tid : nat) : mem Z :=
  p <-m buffer_of tid;
  _ <-m for_words (seqZ 0 (max_offset c)) (fun offset => _ <-m SIZE_T_LOAD p offset; mret tt);
  mret 0.

Definition event_seq_write (tid : nat) : mem Z :=
  p <-m buffer_of tid;
  _ <-m for_words (seqZ 0 (max_offset c)) (fun offset => SIZE_T_STORE p offset (u64 (Z.of_nat tid)));
  mret 0.

(** The operation that [memory_init] selects. *)
Definition execute_event : nat -> mem Z :=
  match memory_oper c with
  | SB_MEM_OP_NONE => if memory_access_rnd c then event_rnd_none else event_seq_none
  | SB_MEM_OP_READ => if memory_access_rnd c then event_rnd_read else event_seq_read
  | SB_MEM_OP_WRITE => if memory_access_rnd c then event_rnd_write else event_seq_write
  end.
End events.

(** ** Reports *)

Definition mem_oper_name (o : sb_mem_op_t) : string :=
  match o with SB_MEM_OP_READ => "read" | SB_MEM_OP_WRITE => "write" | SB_MEM_OP_NONE => "none" end.
Definition mem_scope_name (s : sb_mem_scope_t) : string :=
  match s with SB_MEM_SCOPE_GLOBAL => "global" | SB_MEM_SCOPE_LOCAL => "local" end.

Definition memory_print_mode (c : memory_conf) : list string :=
  ["Running memory speed test with the following options:";
   "  block size: " +:+ pretty (Z.quot (memory_block_size c) 1024) +:+ "KiB";
   "  total size: " +:+ pretty (Z.quot (Z.quot (memory_total_size c) 1024) 1024) +:+ "MiB";
   "  operation: " +:+ mem_oper_name (memory_oper c);
   "  scope: " +:+ mem_scope_name (memory_scope c);
   ""]%string.

Definition megabyte : dbl := dmul (d_of_Z 1024) (d_of_Z 1024).

Definition megabytes (c : memory_conf) (stat : sb_stat_t) : dbl :=
  ddiv (d_of_Z (u64 (st_events stat * memory_block_size c))) megabyte.

(** The number in the line of an intermediate report. *)
Definition memory_report_intermediate (c : memory_conf) (stat : sb_stat_t) : dbl :=
  ddiv (megabytes c stat) (time_interval stat).

(** The events and their rate; the megabytes and their rate, unless the test does
    nothing with the memory. *)
Record memory_lines := MemoryLines {
  total_operations : Z;
  operations_rate : dbl;
  transferred : option (dbl * dbl)
}.
Definition memory_report_cumulative (sqrt : dbl -> dbl) (now : nat -> timespec) (c : memory_conf) (stat : sb_stat_t) (w : world) :=
  (MemoryLines (st_events stat) (ddiv (d_of_Z (st_events stat)) (time_interval stat))
     (match memory_oper c with
      | SB_MEM_OP_NONE => None
      | _ => let mb := megabytes c stat in Some (mb, ddiv mb (time_interval stat))
      end),
   sb_report_cumulative sqrt now stat w).

(** ** What initialisation establishes *)

Lemma land_pred_pow2 x : 0 < x -> Z.land x (x - 1) = 0 -> exists k, 0 <= k /\ x = 2 ^ k.
Proof.
  intros Hx H. exists (Z.log2 x). split; [apply Z.log2_nonneg|].
  destruct (Z.log2_spec x) as [Hlo Hhi]; [lia|].
  destruct (Z.eq_dec x (2 ^ Z.log2 x)) as [|Hne]; [done|]. exfalso.
  assert (Hk : Z.log2 (x - 1) = Z.log2 x) by (apply Z.log2_unique; [apply Z.log2_nonneg|lia]).
  assert (Hb : Z.testbit (Z.land x (x - 1)) (Z.log2 x) = true).
  { rewrite Z.land_spec, Z.bit_log2 by lia. rewrite <- Hk, Z.bit_log2; [done|].
    assert (0 < 2 ^ Z.log2 x) by (apply Z.pow_pos_nonneg; [lia|apply Z.log2_nonneg]). lia. }
  by rewrite H, Z.bits_0 in Hb.
Qed.

(** The number of words of a block. *)
Definition words (c : memory_conf) : nat := Z.to_nat (memory_block_size c / SIZEOF_SIZE_T).

Definition conf_valid (c : memory_conf) : Prop :=
  (exists k, 3 <= k < 63 /\ memory_block_size c = 2 ^ k)
  /\ max_offset c + 1 = memory_block_size c / SIZEOF_SIZE_T
  /\ is_s64 (memory_total_size c).

(** A block that is large enough and starts with zeroes. *)
Definition block_fresh (c : memory_conf) (b : list Z) : Prop :=
  (words c <= length b)%nat /\ take (words c) b = replicate (words c) 0.

(** Every thread has a pointer to such a block: all to the same one, or each to its
    own. *)
Definition state_valid (c : memory_conf) (n : nat) (st : memory_state) : Prop :=
  buffers st = match memory_scope c with SB_MEM_SCOPE_GLOBAL => replicate n 0%nat | SB_MEM_SCOPE_LOCAL => seq 0 n end
  /\ length (heap st) = match memory_scope c with SB_MEM_SCOPE_GLOBAL => 1%nat | SB_MEM_SCOPE_LOCAL => n end
  /\ Forall (block_fresh c) (heap st).

Section init_facts.
Context (posix_memalign : nat -> Z -> Z -> option (list Z)).
Context (shmget : nat -> Z -> bool) (shmat : nat -> Z -> option (list Z)).
Context (pagesize : Z) (mallocs : bool).

Lemma alloc_buffer_ok c i hugetlb b :
  alloc_buffer posix_memalign shmget shmat pagesize i hugetlb (memory_block_size c) = POk b -> block_fresh c b.
Proof.
  unfold alloc_buffer. destruct (if negb _ then _ else _) as [l|]; [|done].
  unfold memset_zero. intros H. parse_inv. injection H as <-. unfold block_fresh, words.
  rewrite length_app, length_replicate, length_drop. split; [lia|].
  by rewrite take_app_length' by (symmetry; apply length_replicate).
Qed.

(** The number of events of a thread. *)
Definition events_of (c : memory_conf) (nthreads : Z) : Z :=
  u64 (Z.quot (Z.quot (memory_total_size c) (memory_block_size c)) nthreads).

Lemma init_threads_ok c nthreads rest i st st' :
  init_threads posix_memalign shmget shmat pagesize c nthreads rest i st = POk st' ->
  exists bs,
    heap st' = heap st ++ bs
    /\ length bs = match memory_scope c with SB_MEM_SCOPE_GLOBAL => 0%nat | SB_MEM_SCOPE_LOCAL => rest end
    /\ Forall (block_fresh c) bs
    /\ buffers st' = buffers st ++ match memory_scope c with
                                   | SB_MEM_SCOPE_GLOBAL => replicate rest 0%nat
                                   | SB_MEM_SCOPE_LOCAL => seq (length (heap st)) rest
                                   end
    /\ thread_counters st' = thread_counters st ++ replicate rest (events_of c nthreads).
Proof.
  revert i st. induction rest as [|rest IH]; intros i st H; cbn [init_threads] in H.
  - injection H as <-. exists []. cbn. destruct (memory_scope c); by rewrite !app_nil_r.
  - destruct (memory_scope c) eqn:Es; parse_inv; simplify_eq;
      destruct (IH _ _ H) as (bs & E1 & E2 & E3 & E4 & E5); cbn [heap buffers thread_counters fst snd] in *.
    + exists bs. rewrite E1, E4, E5, <- !app_assoc. done.
    + apply alloc_buffer_ok in E0 as Hb. exists (a0 :: bs).
      rewrite E1, E4, E5, <- !app_assoc, length_app, Nat.add_1_r. cbn [length app seq replicate].
      split_and!; try done; [lia|]. by constructor.
Qed.

Lemma memory_init_ok options g c st g' :
  memory_init posix_memalign shmget shmat pagesize mallocs options g = POk (c, st, g') ->
  conf_valid c /\ state_valid c (Z.to_nat (threads g)) st
  /\ thread_counters st = replicate (Z.to_nat (threads g)) (events_of c (threads g)).
Proof.
  intros H. unfold memory_init in H.
  set (block := s64 (sb_get_value_size options "memory-block-size")) in *.
  parse_inv. injection H as <- <- <-.
  pose proof (s64_range (sb_get_value_size options "memory-block-size")) as Hr. fold block in Hr.
  assert (Hc : exists k, 3 <= k < 63 /\ block = 2 ^ k).
  { destruct (land_pred_pow2 block) as (k & Hk & Ek); unfold SIZEOF_SIZE_T, is_s64 in *; [lia..|].
    exists k. split; [|done]. rewrite Ek in *. split.
    - apply (Z.pow_le_mono_r_iff 2); lia.
    - apply (Z.pow_lt_mono_r_iff 2); lia. }
  split; [|].
  - split; [exact Hc|]. split; [|apply s64_range]. cbn [max_offset memory_block_size].
    destruct Hc as (k & Hk & ->). rewrite Z.quot_div_nonneg by (unfold SIZEOF_SIZE_T; lia). lia.
  - destruct (init_threads_ok _ _ _ _ _ _ E8) as (bs & H2 & H3 & H4 & H5 & H6).
    unfold state_valid. cbn [heap buffers thread_counters memory_scope app] in *. rewrite H2, H5, length_app, H3.
    destruct a1; parse_inv; simplify_eq; split_and!; try done.
    match goal with |- Forall (block_fresh ?c) _ => apply (alloc_buffer_ok c) in E as Hb end. by constructor.
Qed.
End init_facts.

(** ** The events of the threads *)

(** Calls of [memory_next_event] by any threads, in their order. *)
Fixpoint next_events (c : memory_conf) (l : list nat) (st : memory_state)
    : option (list (nat * memory_event) * memory_state) :=
  match l with
  | [] => Some ([], st)
  | tid :: l =>
      '(e, st) ← memory_next_event c tid st;
      '(es, st) ← next_events c l st;
      Some ((tid, e) :: es, st)
  end.

Definition calls_of (t : nat) (l : list nat) : Z := sumZ (map (fun u => b2z (Nat.eqb u t)) l).
Definition is_memory (e : memory_event) : bool := match e with SB_REQ_TYPE_MEMORY => true | SB_REQ_TYPE_NULL => false end.
Definition granted (t : nat) (es : list (nat * memory_event)) : Z :=
  sumZ (map (fun e => b2z (Nat.eqb (fst e) t && is_memory (snd e))) es).

Lemma calls_of_cons t u l : calls_of t (u :: l) = b2z (Nat.eqb u t) + calls_of t l.
Proof. done. Qed.
Lemma events_granted_cons t u e es : granted t ((u, e) :: es) = b2z (Nat.eqb u t && is_memory e) + granted t es.
Proof. done. Qed.
Lemma calls_of_nonneg t l : 0 <= calls_of t l.
Proof. apply sumZ_nonneg, Forall_forall. intros x (u & -> & _)%list_elem_of_fmap. by destruct (Nat.eqb u t). Qed.

(** Each thread gets as many events as its counter says, if it stops at the first
    refusal. *)
Lemma next_events_granted c l st :
  0 < memory_total_size c ->
  Forall (fun t => (t < length (thread_counters st))%nat) l ->
  (forall t n, thread_counters st !! t = Some n -> is_u64 n /\ calls_of t l <= n + 1) ->
  exists es st', next_events c l st = Some (es, st') /\
    forall t n, thread_counters st !! t = Some n -> granted t es = Z.min (calls_of t l) n.
Proof.
  intros Hc. revert st. induction l as [|u l IH]; intros st Hl Hn.
  - eexists [], st. split; [done|]. intros t n Ht. destruct (Hn t n Ht) as [Hr _]. unfold is_u64 in Hr. cbn. lia.
  - apply Forall_cons in Hl as [Hu Hl]. destruct (lookup_lt_is_Some_2 _ _ Hu) as [m Hm].
    cbn [next_events]. unfold memory_next_event at 1. rewrite (proj2 (Z.ltb_lt _ _) Hc), Hm. cbn [mbind option_bind].
    destruct (Hn u m Hm) as [Hmr Hmc]. rewrite calls_of_cons, Nat.eqb_refl in Hmc. cbn [b2z] in Hmc.
    pose proof (calls_of_nonneg u l).
    set (st1 := MemoryState _ _ _).
    destruct (IH st1) as (es & st' & -> & He).
    { subst st1. cbn [thread_counters]. by rewrite length_insert. }
    { intros t n Ht. subst st1. cbn [thread_counters] in Ht.
      apply list_lookup_insert_Some in Ht as [(<- & <- & _)|[Hne Ht]].
      - split; [apply u64_range|]. unfold is_u64 in Hmr. destruct (Z.eq_dec m 0) as [->|].
        + change (u64 (0 - 1)) with (2 ^ 64 - 1). lia.
        + rewrite u64_small by (unfold is_u64; lia). lia.
      - destruct (Hn t n Ht) as [? Hx]. rewrite calls_of_cons, (proj2 (Nat.eqb_neq u t)) in Hx by done.
        cbn [b2z] in Hx. split; [done|lia]. }
    eexists _, st'. split; [reflexivity|]. intros t n Ht. rewrite events_granted_cons, calls_of_cons.
    destruct (Nat.eqb_spec u t) as [->|Hne]; cbn [andb b2z].
    + assert (n = m) as -> by congruence.
      rewrite (He t (u64 (m - 1))) by (subst st1; cbn [thread_counters]; by apply list_lookup_insert_eq).
      unfold is_u64 in Hmr. destruct (Z.eqb_spec m 0) as [->|]; cbn [is_memory b2z].
      * change (u64 (0 - 1)) with (2 ^ 64 - 1). lia.
      * rewrite u64_small by (unfold is_u64; lia). lia.
    + rewrite (He t n); [lia|]. subst st1. cbn [thread_counters]. by rewrite list_lookup_insert_ne.
Qed.

(** ** Accesses to the blocks *)

(** Only the words of block [p] may differ. *)
Definition changes_only (p : nat) (h h' : list (list Z)) : Prop :=
  map length h' = map length h /\ forall q, q <> p -> h' !! q = h !! q.

#[local] Instance changes_only_preorder p : PreOrder (changes_only p).
Proof.
  split; [done|]. intros h1 h2 h3 [E1 H1] [E2 H2]. split; [by rewrite E2|].
  intros q Hq. by rewrite H2, H1.
Qed.

Lemma changes_only_block p h h' b :
  changes_only p h h' -> h !! p = Some b -> exists b', h' !! p = Some b' /\ length b' = length b.
Proof.
  intros [E _] Hb. assert (Hm : map length h' !! p = Some (length b)) by (rewrite E; by rewrite list_lookup_fmap, Hb).
  apply list_lookup_fmap_Some in Hm as (b' & -> & Hb'). by exists b'.
Qed.

(** [m] is defined wherever block [p] has [n] words, changes that block only, and
    its result satisfies [Q]. *)
Definition safe {A} (p : nat) (n : Z) (m : mem A) (Q : A -> Prop) : Prop :=
  forall h s b, h !! p = Some b -> n <= Z.of_nat (length b) ->
    exists a h' s', m h s = Ran a h' s' /\ Q a /\ changes_only p h h'.

Lemma safe_ret {A} p n (a : A) (Q : A -> Prop) : Q a -> safe p n (mret a) Q.
Proof. intros HQ h s b _ _. by exists a, h, s. Qed.

Lemma safe_then {A B} p n (m : mem A) (k : A -> mem B) (R : A -> Prop) (Q : B -> Prop) :
  safe p n m R -> (forall a, R a -> safe p n (k a) Q) -> safe p n (mthen m k) Q.
Proof.
  intros Hm Hk h s b Hb Hn. destruct (Hm h s b Hb Hn) as (a & h1 & s1 & E & HR & H1).
  destruct (changes_only_block p h h1 b H1 Hb) as (b1 & Hb1 & El).
  destruct (Hk a HR h1 s1 b1 Hb1) as (a2 & h2 & s2 & E2 & HQ & H2); [lia|].
  exists a2, h2, s2. unfold mthen. rewrite E. split_and!; [done..|]. by etrans.
Qed.

Lemma safe_load p n offset : 0 <= offset < n -> safe p n (SIZE_T_LOAD p offset) (fun _ => True).
Proof.
  intros Ho h s b Hb Hn. unfold SIZE_T_LOAD. rewrite (proj2 (Z.leb_le 0 offset)), Hb by lia. cbn [mbind option_bind].
  destruct (lookup_lt_is_Some_2 b (Z.to_nat offset)) as [v ->]; [lia|]. by exists v, h, s.
Qed.

Lemma safe_store p n offset v : 0 <= offset < n -> safe p n (SIZE_T_STORE p offset v) (fun _ => True).
Proof.
  intros Ho h s b Hb Hn. unfold SIZE_T_STORE. rewrite (proj2 (Z.leb_le 0 offset)), Hb by lia. cbn [mbind option_bind].
  destruct (lookup_lt_is_Some_2 b (Z.to_nat offset)) as [w ->]; [lia|]. cbn [mbind option_bind].
  eexists _, _, _. split; [reflexivity|]. split; [done|]. split.
  - rewrite list_fmap_insert, length_insert. apply list_insert_id. by rewrite list_lookup_fmap, Hb.
  - intros q Hq. by apply list_lookup_insert_ne.
Qed.

Lemma safe_for p n l body :
  (forall i, i ∈ l -> safe p n (body i) (fun _ => True)) -> safe p n (for_words l body) (fun _ => True).
Proof.
  induction l as [|i l IH]; intros H; [by apply safe_ret|]. cbn [for_words].
  eapply safe_then; [apply H, list_elem_of_here|]. intros _ _. apply IH. intros j Hj. by apply H, list_elem_of_further.
Qed.

Section safe_events.
Context (log exp log1p expm1 : dbl -> dbl) (pow : dbl -> dbl -> dbl) (fuel : nat) (r : rand_conf).
Context (c : memory_conf) (bufs : list nat) (tid p : nat).
Hypothesis uniform : rand_type r = DIST_TYPE_UNIFORM.
Hypothesis offsets : 0 <= max_offset c.
Hypothesis pointer : bufs !! tid = Some p.

Lemma safe_draw n : safe p n (draw_offset log exp log1p expm1 pow fuel r c) (fun k => 0 <= k <= max_offset c).
Proof using uniform offsets.
  intros h s b Hb Hn. unfold draw_offset, sb_rand_default. rewrite uniform. unfold rbind, rret.
  destruct (uniform_from_zero (u32 (max_offset c)) s) as (k & -> & Hk); [apply u32_range|].
  exists k, h, (next_state s). split; [done|]. split; [|done].
  assert (u32 (max_offset c) <= max_offset c) by (apply Z.mod_le; lia). lia.
Qed.

Lemma safe_buffer n : safe p n (buffer_of bufs tid) (fun q => q = p).
Proof using pointer. intros h s b Hb Hn. unfold buffer_of. rewrite pointer. by exists p, h, s. Qed.

Lemma safe_event n :
  max_offset c < n ->
  safe p n (execute_event log exp log1p expm1 pow fuel r c bufs tid) (fun rc => rc = 0).
Proof using uniform offsets pointer.
  intros Hn. unfold execute_event.
  assert (Hret : forall u : unit, True -> safe p n (mret 0) (fun rc => rc = 0)) by (intros; by apply safe_ret).
  destruct (memory_oper c), (memory_access_rnd c);
    unfold event_rnd_none, event_rnd_read, event_rnd_write, event_seq_none, event_seq_read, event_seq_write;
    try (eapply safe_then; [apply safe_buffer|intros ? ->]);
    (eapply safe_then; [apply safe_for|exact Hret]); intros i Hi%elem_of_seqZ;
    repeat first [ by apply safe_ret | apply safe_store; lia
                 | eapply safe_then; [apply safe_draw|intros k Hk; cbn beta in Hk]
                 | eapply safe_then; [apply safe_buffer|intros ? ->]
                 | eapply safe_then; [apply safe_load; lia|intros _ _] ].
Qed.
End safe_events.

(** What the loop of [event_seq_write] leaves in a block. *)
Lemma store_run p v n k h s b :
  h !! p = Some b -> (k + n <= length b)%nat ->
  for_words (seqZ (Z.of_nat k) (Z.of_nat n)) (fun offset => SIZE_T_STORE p offset v) h s
  = Ran tt (<[p := take k b ++ replicate n v ++ drop (k + n) b]> h) s.
Proof.
  revert k h b. induction n as [|n IH]; intros k h b Hb Hl.
  - cbn. rewrite Nat.add_0_r, take_drop, list_insert_id; done.
  - rewrite seqZ_cons by lia. cbn [for_words]. unfold mthen, SIZE_T_STORE at 1.
    rewrite (proj2 (Z.leb_le 0 (Z.of_nat k))), Hb, Nat2Z.id by lia. cbn [mbind option_bind].
    destruct (lookup_lt_is_Some_2 b k) as [w Hw]; [lia|]. rewrite Hw. cbn [mbind option_bind].
    replace (Z.succ (Z.of_nat k)) with (Z.of_nat (S k)) by lia.
    replace (Z.pred (Z.of_nat (S n))) with (Z.of_nat n) by lia.
    rewrite (IH (S k) _ (<[k := v]> b)).
    + rewrite list_insert_insert_eq. do 2 f_equal.
      rewrite (take_S_r _ k v) by (apply list_lookup_insert_eq; lia).
      rewrite take_insert_ge, drop_insert_lt, <- app_assoc by lia. cbn [app replicate].
      by rewrite Nat.add_succ_r.
    + apply list_lookup_insert_eq. by eapply lookup_lt_Some.
    + rewrite length_insert. lia.
Qed.

(** ** Properties *)

(** A configuration that [memory_init] accepts has blocks of 2^k bytes, at
    least one word, and every thread a pointer to a zeroed block of that size: the
    same for all of them or a different one for each, as the scope says.  The limit
    --events is switched off. *)
Theorem memory_init_valid posix_memalign shmget shmat pagesize mallocs options g c st g' :
  memory_init posix_memalign shmget shmat pagesize mallocs options g = POk (c, st, g') ->
  conf_valid c /\ state_valid c (Z.to_nat (threads g)) st /\ max_events g' = 0 /\ threads g' = threads g.
Proof.
  intros H. destruct (memory_init_ok _ _ _ _ _ _ _ _ _ _ H) as (Hc & Hs & _). split_and!; try done.
  all: unfold memory_init in H; parse_inv; by simplify_eq.
Qed.

(** With a total size, each thread is granted the events it asks for up to
    [total / (block * threads)], however the threads' calls interleave; so all
    events together move at most [memory-total-size] bytes, and no further event
    per thread would fit. *)
Theorem memory_transfers_total posix_memalign shmget shmat pagesize mallocs options g c st g' (l : list nat) :
  memory_init posix_memalign shmget shmat pagesize mallocs options g = POk (c, st, g') ->
  0 < memory_total_size c -> 0 < threads g < 2 ^ 32 ->
  let n := memory_total_size c / (memory_block_size c * threads g) in
  Forall (fun t => Z.of_nat t < threads g) l -> (forall t, Z.of_nat t < threads g -> calls_of t l <= n + 1) ->
  exists es st', next_events c l st = Some (es, st')
    /\ (forall t, Z.of_nat t < threads g -> granted t es = Z.min (calls_of t l) n)
    /\ threads g * n * memory_block_size c <= memory_total_size c < threads g * (n + 1) * memory_block_size c.
Proof.
  intros H Ht Hg n Hl Hn. destruct (memory_init_ok _ _ _ _ _ _ _ _ _ _ H) as (Hc & _ & Hk).
  destruct Hc as ((k & Hkr & Eb) & _ & Hts). unfold is_s64 in Hts.
  assert (Hb : 0 < memory_block_size c) by (rewrite Eb; apply Z.pow_pos_nonneg; lia).
  assert (Hnr : 0 <= n <= memory_total_size c).
  { assert (0 < memory_block_size c * threads g) by (apply Z.mul_pos_pos; lia).
    split; [apply Z.div_pos; lia|]. apply Z.div_le_upper_bound; nia. }
  assert (En : events_of c (threads g) = n).
  { unfold events_of. rewrite (Z.quot_div_nonneg (memory_total_size c)) by lia.
    rewrite Z.quot_div_nonneg, Z.div_div by (try apply Z.div_pos; lia). apply u64_small. unfold is_u64. fold n. lia. }
  destruct (next_events_granted c l st) as (es & st' & E & He); [done| | |].
  - rewrite Hk, length_replicate. eapply Forall_impl; [exact Hl|]. cbn. lia.
  - intros t m Htm. rewrite Hk in Htm. apply lookup_replicate in Htm as [-> Hlt]. rewrite En.
    split; [unfold is_u64; lia|]. apply Hn. lia.
  - exists es, st'. split; [done|]. split.
    + intros t Htl. apply He. rewrite Hk, En. apply lookup_replicate. split; [done|lia].
    + pose proof (Z.div_mod (memory_total_size c) (memory_block_size c * threads g)) as Hdm.
      pose proof (Z.mod_pos_bound (memory_total_size c) (memory_block_size c * threads g)). fold n in Hdm. nia.
Qed.

(** With uniform numbers, every event of the test stays inside its thread's
    block and succeeds; in the local scope it leaves the blocks of the other
    threads alone. *)
Theorem memory_event_in_bounds posix_memalign shmget shmat pagesize mallocs options g c st g'
    log exp log1p expm1 pow fuel r (tid : nat) h s :
  memory_init posix_memalign shmget shmat pagesize mallocs options g = POk (c, st, g') ->
  Z.of_nat tid < threads g -> rand_type r = DIST_TYPE_UNIFORM -> map length h = map length (heap st) ->
  exists h' s', execute_event log exp log1p expm1 pow fuel r c (buffers st) tid h s = Ran 0 h' s'
    /\ map length h' = map length h
    /\ (memory_scope c = SB_MEM_SCOPE_LOCAL -> forall q, q <> tid -> h' !! q = h !! q).
Proof.
  intros H Ht Hr Eh. destruct (memory_init_ok _ _ _ _ _ _ _ _ _ _ H) as (((k & Hk & Eb) & Eo & _) & (Ep & El & Hf) & _).
  set (p := match memory_scope c with SB_MEM_SCOPE_GLOBAL => 0%nat | SB_MEM_SCOPE_LOCAL => tid end).
  assert (Hp : buffers st !! tid = Some p /\ (p < length (heap st))%nat).
  { rewrite Ep, El. subst p. destruct (memory_scope c).
    - rewrite lookup_replicate. lia.
    - rewrite lookup_seq. lia. }
  destruct Hp as [Hp Hlt]. destruct (lookup_lt_is_Some_2 _ _ Hlt) as [b0 Hb0].
  assert (Hb : map length h !! p = Some (length b0)) by (rewrite Eh, list_lookup_fmap, Hb0; done).
  apply list_lookup_fmap_Some in Hb as (b & Elb & Hb).
  destruct (proj1 (Forall_lookup _ _) Hf p b0 Hb0) as [Hw _]. unfold words, SIZEOF_SIZE_T in *.
  assert (0 <= max_offset c).
  { rewrite Eb in Eo. assert (2 ^ 3 <= 2 ^ k) by (apply Z.pow_le_mono_r; lia).
    assert (1 <= 2 ^ k / 8) by (apply Z.div_le_lower_bound; lia). lia. }
  destruct (safe_event log exp log1p expm1 pow fuel r c (buffers st) tid p Hr) with (n := Z.of_nat (length b)) (h := h) (s := s) (b := b)
    as (rc & h' & s' & E & -> & E1 & E2); try done; try lia.
  exists h', s'. split_and!; try done. intros Es. subst p. by rewrite Es in E2.
Qed.

(** The loops of [event_seq_read] and [event_seq_write] stop before the last word,
    [buf < end], where the other four operations go through all [max_offset + 1]
    words: the last word of a block keeps its value. *)
Theorem seq_write_skips_last c bufs tid p b h s :
  bufs !! tid = Some p -> h !! p = Some b -> 0 <= max_offset c < Z.of_nat (length b) ->
  let n := Z.to_nat (max_offset c) in
  event_seq_write c bufs tid h s
  = Ran 0 (<[p := replicate n (u64 (Z.of_nat tid)) ++ drop n b]> h) s.
Proof.
  intros Hp Hb Ho n. unfold event_seq_write, mthen at 1, buffer_of. rewrite Hp.
  unfold mthen. replace (seqZ 0 (max_offset c)) with (seqZ (Z.of_nat 0) (Z.of_nat n)) by (subst n; f_equal; lia).
  rewrite (store_run p _ n 0 h s b Hb) by (subst n; lia). done.
Qed.

(** [hugetlb_alloc] means to round up to 4 MiB pages, but it clears one bit where a
    mask was meant: no request is a multiple of a page, and from 8 MiB on it is
    one byte smaller than the block.  The block still fits in a segment that the
    system rounds up to its own pages, if they divide the block. *)
Theorem hugetlb_size_unaligned k :
  3 <= k < 63 ->
  hugetlb_size (2 ^ k) mod LARGE_PAGE_SIZE <> 0
  /\ (22 < k -> hugetlb_size (2 ^ k) = 2 ^ k - 1)
  /\ forall page, 1 < page -> (page | 2 ^ k) -> 2 ^ k <= (hugetlb_size (2 ^ k) + page - 1) / page * page.
Proof.
  intros Hk.
  set (ok := fun k => negb (hugetlb_size (2 ^ k) mod LARGE_PAGE_SIZE =? 0)
    && (if 22 <? k then hugetlb_size (2 ^ k) =? 2 ^ k - 1 else 2 ^ k - 1 <=? hugetlb_size (2 ^ k))).
  assert (Hall : forallb ok (seqZ 3 60) = true) by (vm_compute; reflexivity).
  rewrite forallb_forall in Hall. specialize (Hall k).
  assert (Hok : ok k = true) by (apply Hall, list_elem_of_In, elem_of_seqZ; lia). subst ok. cbn beta in Hok. clear Hall.
  assert (Hlow : 2 ^ k - 1 <= hugetlb_size (2 ^ k)).
  { apply andb_prop in Hok as [_ H]. destruct (22 <? k); bool_to_prop; lia. }
  apply andb_prop in Hok as [H1 H2]. split; [|split].
  - by bool_to_prop.
  - intros Hk2. rewrite (proj2 (Z.ltb_lt 22 k) Hk2) in H2. bool_to_prop. lia.
  - intros page Hp [q Hq]. assert (q <= (hugetlb_size (2 ^ k) + page - 1) / page); [|nia].
    apply Z.div_le_lower_bound; lia.
Qed.

(** ** Witnesses *)

Definition example_memory_options : list option_t :=
  foldl (fun options '(name, value, ty) => fst (set_option (fun _ => None) options name (Some value) ty))
    (fst (sb_register_arg_set (fun _ => None) memory_args []))
    [("memory-block-size", "32", SB_ARG_TYPE_SIZE); ("memory-total-size", "200", SB_ARG_TYPE_SIZE);
     ("memory-scope", "local", SB_ARG_TYPE_STRING); ("memory-access-mode", "rnd", SB_ARG_TYPE_STRING)]%string.
Definition example_memalign (i : nat) (alignment size : Z) : option (list Z) :=
  Some (replicate (Z.to_nat (size / 8)) 7).
Definition two_threads : sb_globals_t := Globals 0 0 3 0 2 2 0 0 0 [] 0 0 0 0 0 0 0 0.
Definition example_init : parsed (memory_conf * memory_state * sb_globals_t) :=
  memory_init example_memalign (fun _ _ => false) (fun _ _ => None) 4096 true example_memory_options two_threads.
Definition example_memory_conf : memory_conf := MemoryConf 32 200 SB_MEM_SCOPE_LOCAL SB_MEM_OP_WRITE true 0 3.
Definition example_memory : memory_state := MemoryState [[0; 0; 0; 0]; [0; 0; 0; 0]] [0; 1]%nat [3; 3].

Lemma example_init_result : example_init = POk (example_memory_conf, example_memory, no_max_events two_threads).
Proof. vm_compute. reflexivity. Qed.

Lemma memory_init_valid_witness :
  conf_valid example_memory_conf /\ state_valid example_memory_conf 2 example_memory
  /\ max_events (no_max_events two_threads) = 0 /\ threads (no_max_events two_threads) = 2.
Proof. exact (memory_init_valid _ _ _ _ _ _ _ _ _ _ example_init_result). Defined.

Definition calls_demo : list nat := [0; 1; 1; 0; 0; 1; 0]%nat.

Lemma memory_transfers_total_witness :
  exists es st', next_events example_memory_conf calls_demo example_memory = Some (es, st')
    /\ (forall t, Z.of_nat t < 2 -> granted t es = Z.min (calls_of t calls_demo) 3)
    /\ 2 * 3 * 32 <= 200 < 2 * (3 + 1) * 32.
Proof.
  apply (memory_transfers_total _ _ _ _ _ _ _ _ _ _ calls_demo example_init_result).
  - reflexivity.
  - cbn. lia.
  - repeat (constructor; [cbn; lia|]). constructor.
  - intros [|[|t]] Ht; [vm_compute; discriminate..|cbn in Ht; lia].
Defined.

Definition uniform_conf : rand_conf := RandConf 0 DIST_TYPE_UNIFORM 12 1 1 (Fin 0) (Fin 0) (Fin 0) (Fin 0) (Fin 0) (Fin 0) (Fin 0) (Fin 0) (Fin 0).

Lemma memory_event_in_bounds_witness :
  exists h' s', execute_event (fun x => x) (fun x => x) (fun x => x) (fun x => x) (fun x _ => x) 1 uniform_conf
      example_memory_conf [0; 1]%nat 1 [[0; 0; 0; 0]; [0; 0; 0; 0]] (1, 2) = Ran 0 h' s'
    /\ map length h' = [4; 4]%nat
    /\ (SB_MEM_SCOPE_LOCAL = SB_MEM_SCOPE_LOCAL -> forall q, q <> 1%nat -> h' !! q = [[0; 0; 0; 0]; [0; 0; 0; 0]] !! q).
Proof.
  refine (memory_event_in_bounds _ _ _ _ _ _ _ _ _ _ _ _ _ _ _ 1 uniform_conf 1 _ _ example_init_result _ _ _);
    reflexivity.
Defined.

Lemma seq_write_skips_last_witness :
  event_seq_write example_memory_conf [0; 1]%nat 1 [[0; 0; 0; 0]; [9; 9; 9; 9]] (1, 2)
  = Ran 0 [[0; 0; 0; 0]; [1; 1; 1; 9]] (1, 2).
Proof.
  apply (seq_write_skips_last example_memory_conf [0; 1]%nat 1 1 [9; 9; 9; 9] [[0; 0; 0; 0]; [9; 9; 9; 9]]);
    [reflexivity|reflexivity|cbn; lia].
Defined.
