(* ===== verification/CpuTest.v ===== *)
(** * The cpu test ([tests/cpu/sb_cpu.c])

    An event counts primes by trial division up to the square root.  [sqrt(3)] is
    correctly rounded, as IEEE 754 requires, so the test is modelled without a
    parameter, and the theorem is that it does find the primes. *)

From Stdlib Require Import Znumtheory.
From S2P Require Import Prelude Double Options Rand Counter Timer Histogram Reports.

Definition cpu_args : list sb_arg_t :=
  [SB_OPT "cpu-max-prime" "upper limit for primes generator" (Some "10000") SB_ARG_TYPE_INT None].

(** ** The square root

    The root of [v / D1] is [sqrt (v * D1) / D1]; it is computed to a quarter of a
    unit, with a sticky bit for the rest, and rounded. *)
Definition dsqrt (x : dbl) : dbl :=
  match x with
  | Fin v =>
      if v <? 0 then NaN
      else
        let n := v * D1 * 16 in
        let r := Z.sqrt n in
        rnd (2 * r + b2z (negb (r * r =? n))) 8
  | Inf s => if s then NaN else Inf false
  | NaN => NaN
  end.

(** ** The test *)

#[local] Open Scope parse_scope.

(** The value of [max_prime]. *)
Definition cpu_init (options : list option_t) : parsed Z :=
  prime_option <-p p_int (sb_get_value_int options "cpu-max-prime");
  _ <-p check (negb (prime_option <=? 0));
  POk (u32 prime_option).

(** The inner loop: the value of [l] when it ends. *)
Fixpoint trial_division (fuel : nat) (c : Z) (t : dbl) (l : Z) : option Z :=
  match fuel with
  | O => None
  | S fuel =>
      if dleb (d_of_Z l) t then
        if c mod l =? 0 then Some l else trial_division fuel c t (u64 (l + 1))
      else Some l
  end.

(** The outer loop from [c] on; [limit] is the fuel of each inner loop. *)
Fixpoint count_primes (limit fuel : nat) (max_prime c n : Z) : option Z :=
  match fuel with
  | O => None
  | S fuel =>
      if c <? max_prime then
        let t := dsqrt (d_of_Z c) in
        l ← trial_division limit c t 2;
        count_primes limit fuel max_prime (u64 (c + 1)) (if dltb t (d_of_Z l) then u64 (n + 1) else n)
      else Some n
  end.

(** The number of primes counted; the event itself returns 0. *)
Definition cpu_execute_event (fuel : nat) (max_prime : Z) : option (Z * Z) :=
  n ← count_primes fuel fuel max_prime 3 0; Some (0, n).

Definition cpu_report_cumulative (sqrt : dbl -> dbl) (now : nat -> timespec) (stat : sb_stat_t) (w : world) :=
  (ddiv (d_of_Z (st_events stat)) (time_interval stat), sb_report_cumulative sqrt now stat w).

(** ** The comparison with the root is exact *)

(** The largest double below the integer [l]. *)
Lemma below_integer l :
  0 < l <= 2 ^ 26 -> exists e, 0 < e /\ 2 * l * e <= D1 /\ e <= l * D1 /\ representable (l * D1 - e).
Proof.
  intros Hl. destruct (log_bracket l) as (j & Hj & Hlo & Hhi); [lia|].
  assert (Hj26 : j <= 26) by (apply (bracket_le l); lia).
  assert (ED : D1 = 2 ^ (53 - j) * 2 ^ (j + 1021)) by (rewrite D1_split, <- !Z.pow_add_r by lia; f_equal; lia).
  assert (He : 0 < 2 ^ (j + 1021)) by (apply Z.pow_pos_nonneg; lia).
  assert (Hp : 2 ^ (j + 1) <= 2 ^ (53 - j)) by (apply Z.pow_le_mono_r; lia).
  assert (E1 : 2 ^ (j + 1) = 2 * 2 ^ j) by (rewrite Z.pow_add_r by lia; lia).
  assert (Hq : 2 * l <= 2 ^ (53 - j)) by lia. assert (Hl1 : 1 <= l * 2 ^ (53 - j)) by (clear - Hq Hl; nia).
  exists (2 ^ (j + 1021)). split_and!; [done|rewrite ED; clear - Hq He; nia|rewrite ED; clear - Hl1 He; nia|].
  replace (l * D1 - 2 ^ (j + 1021)) with ((l * 2 ^ (53 - j) - 1) * 2 ^ (j + 1021)) by (rewrite ED; ring).
  apply representable_scale; [lia|].
  assert (2 ^ 53 = 2 ^ j * 2 ^ (53 - j)) as -> by (rewrite <- Z.pow_add_r by lia; f_equal; lia). nia.
Qed.

Lemma dsqrt_spec c :
  0 <= c < 2 ^ 32 ->
  exists v, dsqrt (d_of_Z c) = Fin v /\ forall l, 0 <= l < 2 ^ 26 -> (l * D1 <= v <-> l * l <= c).
Proof.
  intros Hc. pose proof D1_pos as HD. rewrite d_of_Z_exact by lia. unfold dsqrt.
  rewrite (proj2 (Z.ltb_ge (c * D1) 0)) by nia. cbv zeta.
  set (n := c * D1 * D1 * 16). set (r := Z.sqrt n). set (m := 2 * r + _).
  assert (Hn : 0 <= n) by (subst n; nia). destruct (Z.sqrt_spec n Hn) as [Hlo Hhi]. fold r in Hlo, Hhi.
  assert (Hr : 0 <= r) by apply Z.sqrt_nonneg.
  assert (Hm : 2 * r <= m <= 2 * r + 1) by (subst m; destruct (negb _); cbn [b2z]; lia).
  assert (Hbig : r < 4 * (65537 * D1)) by (apply Z.square_lt_simpl_nonneg; subst n; nia).
  assert (Hfin : forall lo hi, 0 <= lo -> representable lo -> representable hi -> hi <= 65537 * D1 ->
            lo * 8 <= 2 * r -> 2 * r + 1 <= hi * 8 -> exists v, rnd m 8 = Fin v /\ lo <= v <= hi).
  { intros lo hi H0 H1 H2 H3 H4 H5. apply rnd_bounds; try done; try lia.
    eapply Z.le_lt_trans; [exact H3|]. apply D1_mul_lt. by apply Z.le_lt_trans with (2 ^ 17). }
  assert (Hzero : representable 0) by by apply (representable_int 0).
  assert (Htop : representable (65537 * D1)) by by apply representable_int.
  destruct (Hfin 0 (65537 * D1)) as (v & Ev & _); try done; try lia.
  exists v. split; [done|]. intros l Hl. split; intros H.
  - apply Z.nlt_ge. intros Hlt.
    destruct (below_integer l) as (e & He & Hel & Hle & Hrep); [lia|].
    assert (Hlow : r < 4 * (l * D1 - e)).
    { apply Z.square_lt_simpl_nonneg; [lia|]. apply Z.le_lt_trans with n; [done|]. subst n.
      apply Z.le_lt_trans with ((l * l - 1) * (D1 * D1) * 16); nia. }
    assert (l * D1 - e <= 65537 * D1 \/ 65537 * D1 <= l * D1 - e) as [Hs|Hs] by lia.
    + destruct (Hfin 0 (l * D1 - e)) as (v' & Ev' & Hv'); try done; try lia. rewrite Ev in Ev'. injection Ev' as <-. lia.
    + destruct (Hfin 0 (65537 * D1)) as (v' & Ev' & Hv'); try done; try lia. rewrite Ev in Ev'. injection Ev' as <-. lia.
  - assert (l <= 65536) by nia.
    assert (4 * (l * D1) <= r).
    { apply Z.sqrt_le_square; [done|lia|]. subst n. nia. }
    destruct (Hfin (l * D1) (65537 * D1)) as (v' & Ev' & Hv'); try done; try lia.
    + apply representable_int. lia.
    + rewrite Ev in Ev'. injection Ev' as <-. lia.
Qed.

Lemma dsqrt_compare c :
  0 <= c < 2 ^ 32 ->
  forall l, 0 <= l < 2 ^ 26 ->
    dleb (d_of_Z l) (dsqrt (d_of_Z c)) = (l * l <=? c) /\ dltb (dsqrt (d_of_Z c)) (d_of_Z l) = (c <? l * l).
Proof.
  intros Hc l Hl. destruct (dsqrt_spec c Hc) as (v & -> & H). rewrite d_of_Z_exact by lia. cbn [dleb dltb].
  specialize (H l Hl). split; apply Bool.eq_iff_eq_true; rewrite ?Z.leb_le, ?Z.ltb_lt; lia.
Qed.

(** ** The loops *)

Definition no_divisor_below (c l : Z) : Prop := forall d, 2 <= d < l -> ~ (d | c).

Lemma no_divisor_prime c l : 1 < c -> 2 <= l -> c < l * l -> no_divisor_below c l -> Z.prime c.
Proof.
  intros Hc Hl Hlt H. split; [done|]. intros n Hn [q Hq].
  destruct (Z.lt_ge_cases n l) as [Hs|Hs]; [apply (H n); [lia|by exists q]|].
  apply (H q); [nia|]. exists n. lia.
Qed.

Lemma trial_division_spec fuel c l :
  3 <= c < 2 ^ 31 -> 2 <= l -> (l - 1) * (l - 1) <= c -> no_divisor_below c l -> c - l < Z.of_nat fuel ->
  exists l', trial_division fuel c (dsqrt (d_of_Z c)) l = Some l' /\
    (dltb (dsqrt (d_of_Z c)) (d_of_Z l') = true <-> Z.prime c).
Proof.
  intros Hc. revert l. induction fuel as [|fuel IH]; intros l Hl Hlc Hd Hf; [nia|]. cbn [trial_division].
  assert (Hl26 : l <= 2 ^ 16) by nia.
  destruct (dsqrt_compare c ltac:(lia) l ltac:(lia)) as [Eleb Eltb]. rewrite Eleb.
  destruct (Z.leb_spec (l * l) c) as [Hle|Hgt].
  - destruct (Z.eqb_spec (c mod l) 0) as [Hm|Hm].
    + exists l. split; [done|]. rewrite Eltb. split; [intros H%Z.ltb_lt; lia|].
      intros [_ Hp]. exfalso. apply (Hp l); [nia|]. apply Z.mod_divide; [lia|done].
    + rewrite u64_small by (unfold is_u64; lia).
      destruct (IH (l + 1)) as (l' & -> & H); [lia..| |lia|by exists l'].
      intros d Hdr. destruct (Z.eq_dec d l) as [->|]; [|apply Hd; lia]. by rewrite <- Z.mod_divide by lia.
  - exists l. split; [done|]. rewrite Eltb. split; intros; [|by apply Z.ltb_lt].
    by apply (no_divisor_prime c l); try lia.
Qed.

#[local] Instance prime_decision c : Decision (Z.prime c).
Proof. destruct (prime_dec c) as [H|H]; [left|right]; by rewrite prime_alt. Defined.

(** The primes of [a .. a + n - 1]. *)
Definition primes_from (a n : Z) : Z := Z.of_nat (length (filter Z.prime (seqZ a n))).

Lemma primes_from_range a n : 0 <= n -> 0 <= primes_from a n <= n.
Proof.
  intros Hn. unfold primes_from. pose proof (length_filter Z.prime (seqZ a n)) as H. rewrite length_seqZ in H. lia.
Qed.

Lemma primes_from_cons a n : 0 < n -> primes_from a n = b2z (bool_decide (Z.prime a)) + primes_from (a + 1) (n - 1).
Proof.
  intros Hn. unfold primes_from. rewrite seqZ_cons by lia. rewrite Z.add_1_r, Z.sub_1_r.
  rewrite filter_cons. case_decide as H.
  - rewrite bool_decide_true by done. cbn [length b2z]. lia.
  - rewrite bool_decide_false by done. done.
Qed.

Lemma count_primes_spec limit fuel max_prime c n :
  max_prime < 2 ^ 31 -> 3 <= c -> max_prime <= Z.of_nat limit -> Z.max 0 (max_prime - c) < Z.of_nat fuel -> 0 <= n -> n <= c ->
  count_primes limit fuel max_prime c n = Some (n + primes_from c (max_prime - c)).
Proof.
  intros Hm. revert c n. induction fuel as [|fuel IH]; intros c n Hc Hl Hf Hn Hnc; cbn [count_primes].
  - lia.
  - destruct (Z.ltb_spec c max_prime) as [Hlt|Hge].
    + destruct (trial_division_spec limit c 2) as (l & -> & Hp); try lia; [intros d Hd; lia|]. cbn [mbind option_bind].
      rewrite (u64_small (c + 1)) by (unfold is_u64; lia).
      rewrite (primes_from_cons c) by lia. replace (max_prime - c - 1) with (max_prime - (c + 1)) by lia.
      destruct (dltb _ _) eqn:E.
      * rewrite (u64_small (n + 1)) by (unfold is_u64; lia). rewrite IH by lia.
        rewrite bool_decide_true by by apply Hp. cbn [b2z]. f_equal. lia.
      * rewrite IH by lia. rewrite bool_decide_false; [cbn [b2z]; f_equal; lia|]. intros H%Hp. congruence.
    + f_equal. unfold primes_from. rewrite (seqZ_nil c) by lia. cbn. lia.
Qed.

(** ** Properties *)

(** With a limit that [cpu_init] accepts, an event ends, succeeds, and counts
    exactly the primes from 3 up to the limit, not included: the rounding of the
    square root and of the comparison with it is harmless. *)
Theorem cpu_counts_primes options max_prime fuel :
  cpu_init options = POk max_prime -> max_prime <= Z.of_nat fuel ->
  0 < max_prime < 2 ^ 31 /\ cpu_execute_event fuel max_prime = Some (0, primes_from 3 (max_prime - 3)).
Proof.
  intros H Hf. unfold cpu_init in H. parse_inv. injection H as <-.
  pose proof (opt_to_int_range _ _ _ E) as Hr. unfold is_s32 in Hr.
  rewrite u32_small in * by (unfold is_u32; lia). split; [lia|].
  unfold cpu_execute_event. rewrite count_primes_spec by lia. done.
Qed.

Definition example_cpu_options : list option_t :=
  fst (set_option (fun _ => None) (fst (sb_register_arg_set (fun _ => None) cpu_args []))
         "cpu-max-prime" (Some "20"%string) SB_ARG_TYPE_INT).

Lemma cpu_counts_primes_witness :
  0 < 20 < 2 ^ 31 /\ cpu_execute_event 20 20 = Some (0, primes_from 3 (20 - 3)).
Proof. apply (cpu_counts_primes example_cpu_options 20 20); [vm_compute; reflexivity|lia]. Defined.
