(* ===== verification/ThreadTests.v ===== *)
(** * The threads and mutex tests ([tests/threads/sb_threads.c], [tests/mutex/sb_mutex.c])

    Both tests contend for an array of mutexes.  A mutex is the thread that holds
    it; the calls of the threads interleave freely. *)

From S2P Require Import Prelude Double Options Xoroshiro Rand.

(** [pthread_mutex_destroy] of every mutex and [free]; destroying a locked mutex is
    undefined. *)
Definition destroy_all (ms : list (option nat)) : option Z :=
  if forallb (fun o => bool_decide (o = None)) ms then Some 0 else None.

Lemma destroy_all_free ms : Forall (fun o => o = None) ms -> destroy_all ms = Some 0.
Proof.
  intros H. unfold destroy_all. replace (forallb _ ms) with true; [done|]. symmetry. apply forallb_forall.
  rewrite Forall_forall in H. intros o Ho%list_elem_of_In. apply bool_decide_eq_true_2. by apply H.
Qed.

(** ** Ownership

    The mutexes and the program counters agree on who holds what. *)
Section ownership.
Context {P : Type} (holds : P -> option Z) (size : Z).

Definition owned (ms : list (option nat)) (l : list P) : Prop :=
  forall t k, 0 <= k < size -> ms !! Z.to_nat k = Some (Some t) <-> (l !! t ≫= holds) = Some k.

Lemma owned_same (t : nat) p q ms l :
  owned ms l -> l !! t = Some p -> holds q = holds p -> owned ms (<[t := q]> l).
Proof.
  intros Ho Hp Hq u k Hk. rewrite (Ho u k Hk). destruct (decide (u = t)) as [->|Hne].
  - rewrite list_lookup_insert_eq, Hp by (by eapply lookup_lt_Some). cbn. by rewrite Hq.
  - by rewrite list_lookup_insert_ne.
Qed.

(** Thread [t] takes or releases lock [k]. *)
Lemma owned_update (t : nat) k p q (o : option nat) ms l :
  owned ms l -> l !! t = Some p -> length ms = Z.to_nat size -> 0 <= k < size ->
  (o = Some t /\ holds p = None /\ holds q = Some k /\ ms !! Z.to_nat k = Some None
   \/ o = None /\ holds p = Some k /\ holds q = None) ->
  owned (<[Z.to_nat k := o]> ms) (<[t := q]> l).
Proof.
  intros Hown Hp Hlen Hk Hc u j Hj. specialize (Hown u j Hj) as Hu.
  assert (Ht : <[t := q]> l !! t = Some q) by (apply list_lookup_insert_eq; by eapply lookup_lt_Some).
  destruct (decide (j = k)) as [->|Hjk].
  - rewrite list_lookup_insert_eq by lia. destruct (decide (u = t)) as [->|Hut].
    + rewrite Ht. cbn [mbind option_bind]. destruct Hc as [(-> & _ & -> & _)|(-> & _ & ->)]; by split; congruence.
    + rewrite list_lookup_insert_ne, <- Hu by done.
      destruct Hc as [(-> & _ & _ & Hm)|(-> & Hh & _)]; split; try congruence.
      intros Hx. assert (ms !! Z.to_nat k = Some (Some t)) by (apply Hown; [done|]; by rewrite Hp). congruence.
  - rewrite list_lookup_insert_ne, Hu by lia. destruct (decide (u = t)) as [->|Hut].
    + rewrite Ht, Hp. cbn [mbind option_bind]. destruct Hc as [(_ & -> & -> & _)|(_ & -> & ->)]; split; congruence.
    + by rewrite list_lookup_insert_ne.
Qed.

Lemma owned_unique ms l t u k p q :
  owned ms l -> 0 <= k < size -> l !! t = Some p -> l !! u = Some q -> holds p = Some k -> holds q = Some k -> t = u.
Proof.
  intros Ho Hk Hp Hq Hhp Hhq.
  assert (H1 : ms !! Z.to_nat k = Some (Some t)) by (apply Ho; [done|by rewrite Hp]).
  assert (H2 : ms !! Z.to_nat k = Some (Some u)) by (apply Ho; [done|by rewrite Hq]). congruence.
Qed.
End ownership.

Lemma pcs_insert {A} (P : A -> Prop) (t : nat) q (l : list A) :
  (forall u p, l !! u = Some p -> P p) -> P q -> forall u p, <[t := q]> l !! u = Some p -> P p.
Proof. intros Hl Hq u p [(<- & <- & _)|[_ H]]%list_lookup_insert_Some; [done|by eapply Hl]. Qed.

Module Threads.

Definition threads_args : list sb_arg_t :=
  [SB_OPT "thread-yields" "number of yields to do per request" (Some "1000") SB_ARG_TYPE_INT None;
   SB_OPT "thread-locks" "number of locks per thread" (Some "8") SB_ARG_TYPE_INT None].

Record threads_conf := ThreadsConf { thread_yields : Z; thread_locks : Z }.

#[local] Open Scope parse_scope.

(** The configuration and [req_performed]. *)
Definition threads_init (options : list option_t) : parsed (threads_conf * Z) :=
  yields <-p p_int (sb_get_value_int options "thread-yields");
  locks <-p p_int (sb_get_value_int options "thread-locks");
  POk (ThreadsConf (u32 yields) (u32 locks), 0).

(** [None]: the allocation failed.  The mutexes are free. *)
Definition threads_prepare (malloc_ok : bool) (c : threads_conf) : option (list (option nat)) :=
  if malloc_ok then Some (replicate (Z.to_nat (thread_locks c)) None) else None.

(** The lock of the request and the new [req_performed]; [None]: division by zero. *)
Definition threads_next_event (c : threads_conf) (req_performed : Z) : option (Z * Z) :=
  if thread_locks c =? 0 then None else Some (req_performed mod thread_locks c, u32 (req_performed + 1)).

Definition threads_cleanup (test_mutexes : list (option nat)) : option Z := destroy_all test_mutexes.

(** Where a thread is: asking for an event or done, or in iteration [i] of
    [threads_execute_event] for the lock [lock_num], before [pthread_mutex_lock],
    before the yield, before [pthread_mutex_unlock]. *)
Inductive tpc :=
| TNext
| TLoop (lock_num : Z) (i : Z)
| TYield (lock_num : Z) (i : Z)
| TUnlock (lock_num : Z) (i : Z)
| TExit.

Record tconfig := TConfig {
  req_performed : Z;
  test_mutexes : list (option nat);
  tpcs : list tpc;
  requests : list Z
}.

Section step.
Context (c : threads_conf).

Definition set_tpc (t : nat) (p : tpc) (s : tconfig) : tconfig :=
  TConfig (req_performed s) (test_mutexes s) (<[t := p]> (tpcs s)) (requests s).
Definition set_mutex (k : Z) (o : option nat) (s : tconfig) : tconfig :=
  TConfig (req_performed s) (<[Z.to_nat k := o]> (test_mutexes s)) (tpcs s) (requests s).

(** A thread takes an event while the event loop lets it; [requests] lists the
    locks of the requests made, the last one first. *)
Inductive tstep : tconfig -> tconfig -> Prop :=
| t_next s t lock_num r :
    tpcs s !! t = Some TNext -> threads_next_event c (req_performed s) = Some (lock_num, r) ->
    tstep s (TConfig r (test_mutexes s) (<[t := TLoop lock_num 0]> (tpcs s)) (lock_num :: requests s))
| t_stop s t :
    tpcs s !! t = Some TNext -> tstep s (set_tpc t TExit s)
| t_lock s t k i :
    tpcs s !! t = Some (TLoop k i) -> i < thread_yields c -> test_mutexes s !! Z.to_nat k = Some None ->
    tstep s (set_mutex k (Some t) (set_tpc t (TYield k i) s))
| t_yield s t k i :
    tpcs s !! t = Some (TYield k i) -> tstep s (set_tpc t (TUnlock k i) s)
| t_unlock s t k i :
    tpcs s !! t = Some (TUnlock k i) ->
    tstep s (set_mutex k None (set_tpc t (TLoop k (u32 (i + 1))) s))
| t_return s t k i :
    tpcs s !! t = Some (TLoop k i) -> thread_yields c <= i -> tstep s (set_tpc t TNext s).

Definition threads_start (n : nat) : tconfig :=
  TConfig 0 (replicate (Z.to_nat (thread_locks c)) None) (replicate n TNext) [].

(** ** Invariant: a mutex is held by the thread inside its critical section *)

(** The lock a thread holds. *)
Definition holds (p : tpc) : option Z :=
  match p with TYield k _ | TUnlock k _ => Some k | _ => None end.
Definition lock_of (p : tpc) : option Z :=
  match p with TLoop k _ | TYield k _ | TUnlock k _ => Some k | _ => None end.
Definition iteration_ok (p : tpc) : Prop :=
  match p with
  | TLoop _ i => 0 <= i <= thread_yields c
  | TYield _ i | TUnlock _ i => 0 <= i < thread_yields c
  | _ => True
  end.
Definition pc_ok (p : tpc) : Prop := iteration_ok p /\ forall k, lock_of p = Some k -> 0 <= k < thread_locks c.

Definition t_inv (s : tconfig) : Prop :=
  length (test_mutexes s) = Z.to_nat (thread_locks c)
  /\ (forall t p, tpcs s !! t = Some p -> pc_ok p)
  /\ owned holds (thread_locks c) (test_mutexes s) (tpcs s)
  /\ req_performed s = u32 (Z.of_nat (length (requests s)))
  /\ requests s = rev (map (fun j => u32 j mod thread_locks c) (seqZ 0 (Z.of_nat (length (requests s))))).

(** The steps a thread has left until it exits, if it takes no further event. *)
Definition steps_left (p : tpc) : Z :=
  match p with
  | TExit => 0
  | TNext => 1
  | TLoop _ i => 3 * (thread_yields c - i) + 2
  | TYield _ i => 3 * (thread_yields c - i) + 1
  | TUnlock _ i => 3 * (thread_yields c - i)
  end.
Definition work (s : tconfig) : Z := sumZ (map steps_left (tpcs s)).

Hypothesis locks_pos : 0 < thread_locks c < 2 ^ 32.
Hypothesis yields_u32 : is_u32 (thread_yields c).

Lemma t_step_inv s s' : t_inv s -> tstep s s' -> t_inv s'.
Proof.
  intros (Hlen & Hpc & Hown & Hreq & Hlist) Hs.
  assert (Hsame : forall t p q, tpcs s !! t = Some p -> holds q = holds p -> pc_ok q -> t_inv (set_tpc t q s)).
  { intros t p q Hp Hh Hq. split_and!; try done; cbn [set_tpc tpcs test_mutexes].
    - by apply pcs_insert.
    - by apply (owned_same _ _ t p). }
  assert (Hmut : forall t p q k o, tpcs s !! t = Some p -> pc_ok q -> 0 <= k < thread_locks c ->
            (o = Some t /\ holds p = None /\ holds q = Some k /\ test_mutexes s !! Z.to_nat k = Some None
             \/ o = None /\ holds p = Some k /\ holds q = None) ->
            t_inv (set_mutex k o (set_tpc t q s))).
  { intros t p q k o Hp Hq Hk Hc. split_and!; try done; cbn [set_mutex set_tpc tpcs test_mutexes].
    - by rewrite length_insert.
    - by apply pcs_insert.
    - by apply (owned_update _ _ t k p). }
  unfold is_u32 in *.
  destruct Hs as [s t lock_num r Ht Hn|s t Ht|s t k i Ht Hi Hm|s t k i Ht|s t k i Ht|s t k i Ht Hi];
    destruct (Hpc _ _ Ht) as [Hit Hlk]; cbn [iteration_ok] in Hit.
  - unfold threads_next_event in Hn. rewrite (proj2 (Z.eqb_neq (thread_locks c) 0)) in Hn by lia. injection Hn as <- <-.
    destruct (Hsame t TNext (TLoop (req_performed s mod thread_locks c) 0) Ht) as (_ & H1 & H2 & _); [done| |].
    { split; [cbn; lia|]. intros k [= <-]. apply Z.mod_pos_bound. lia. }
    split_and!; try done; cbn [req_performed requests length].
    + rewrite Hreq, u32_add_l. f_equal. lia.
    + rewrite Nat2Z.inj_succ, <- Z.add_1_r, seqZ_app, map_app, rev_app_distr, <- Hlist by lia.
      cbn. by rewrite Hreq.
  - by apply (Hsame t TNext).
  - apply (Hmut t (TLoop k i)); try done; [split; [cbn; lia|done]|by apply Hlk|]. left. done.
  - by apply (Hsame t (TYield k i)).
  - apply (Hmut t (TUnlock k i)); try done; [|by apply Hlk|by right].
    rewrite u32_small by (unfold is_u32; lia). split; [cbn; lia|done].
  - by apply (Hsame t (TLoop k i)).
Qed.

Lemma t_start_inv n : t_inv (threads_start n).
Proof.
  split_and!; try done; cbn [threads_start test_mutexes tpcs].
  - apply length_replicate.
  - intros t p [-> _]%lookup_replicate. by split.
  - intros t k Hk. rewrite lookup_replicate_2 by lia.
    destruct (replicate n TNext !! t) as [p|] eqn:E; [|done]. apply lookup_replicate in E as [-> _]. done.
Qed.

(** ** The length of a run *)

Lemma work_insert t p q s : tpcs s !! t = Some p -> sumZ (map steps_left (<[t := q]> (tpcs s))) = work s - steps_left p + steps_left q.
Proof.
  intros Hp. unfold work. change (map steps_left (<[t := q]> (tpcs s))) with (steps_left <$> <[t := q]> (tpcs s)).
  rewrite list_fmap_insert, (sumZ_insert _ t (steps_left p)); [done|]. by rewrite list_lookup_fmap, Hp.
Qed.

(** A request costs its iterations and the step that returns from it. *)
Definition cost : Z := 3 * thread_yields c + 2.

Lemma t_step_work s s' :
  t_inv s -> tstep s s' ->
  1 + work s' = work s + cost * (Z.of_nat (length (requests s')) - Z.of_nat (length (requests s))).
Proof.
  intros (_ & Hpc & _) Hs. unfold cost, is_u32 in *.
  destruct Hs as [s t lock_num r Ht Hn|s t Ht|s t k i Ht Hi Hm|s t k i Ht|s t k i Ht|s t k i Ht Hi];
    destruct (Hpc _ _ Ht) as [Hit _]; cbn [iteration_ok] in Hit;
    unfold work at 1; cbn [set_tpc set_mutex tpcs requests length]; rewrite (work_insert t _ _ s Ht); cbn [steps_left]; try lia.
  rewrite u32_small by (unfold is_u32; lia). lia.
Qed.
Lemma run_work m s s' :
  nsteps tstep m s s' -> t_inv s ->
  t_inv s' /\ Z.of_nat m + work s' = work s + cost * (Z.of_nat (length (requests s')) - Z.of_nat (length (requests s))).
Proof.
  induction 1 as [s|m s s1 s' Hs Hr IH]; intros Hi; [split; [done|lia]|].
  destruct IH as [Hi' E]; [by eapply t_step_inv|]. split; [done|]. pose proof (t_step_work s s1 Hi Hs). nia.
Qed.

Lemma work_nonneg s : t_inv s -> 0 <= work s.
Proof.
  intros (_ & Hpc & _). apply sumZ_nonneg, Forall_lookup. intros t x Hx.
  change (map steps_left (tpcs s)) with (steps_left <$> tpcs s) in Hx.
  apply list_lookup_fmap_Some in Hx as (p & -> & Hp). destruct (Hpc _ _ Hp) as [Hit _].
  destruct p; cbn [steps_left iteration_ok] in *; lia.
Qed.

(** ** Progress *)

Definition t_blocked (s : tconfig) : Prop := forall s', ~ tstep s s'.

Lemma holder_steps s t k : (tpcs s !! t ≫= holds) = Some k -> ~ t_blocked s.
Proof.
  destruct (tpcs s !! t) as [p|] eqn:Hp; [|done]. cbn [mbind option_bind]. intros Hh Hb.
  destruct p; try done; (eapply Hb; first [by eapply t_yield|by eapply t_unlock]).
Qed.

Lemma t_progress s : t_inv s -> t_blocked s -> Forall (fun p => p = TExit) (tpcs s) /\ Forall (fun o => o = None) (test_mutexes s).
Proof.
  intros (Hlen & Hpc & Hown & _) Hb.
  assert (Hfree : forall j o, test_mutexes s !! j = Some o -> o = None).
  { intros j [u|] Hj; [|done]. exfalso. pose proof (lookup_lt_Some _ _ _ Hj).
    apply (holder_steps s u (Z.of_nat j)); [|done]. apply Hown; [lia|]. by rewrite Nat2Z.id. }
  split; apply Forall_lookup; [|by apply Hfree]. intros t p Hp.
  destruct (Hpc _ _ Hp) as [_ Hk]. destruct p as [|k i|k i|k i|]; [| | | |done]; exfalso.
  - eapply Hb. by apply t_stop.
  - destruct (Z.lt_ge_cases i (thread_yields c)) as [Hi|Hi]; [|eapply Hb; by eapply t_return].
    specialize (Hk k eq_refl). destruct (lookup_lt_is_Some_2 (test_mutexes s) (Z.to_nat k)) as [o Ho]; [lia|].
    rewrite (Hfree _ _ Ho) in Ho. eapply Hb. by eapply t_lock.
  - eapply Hb. by eapply t_yield.
  - eapply Hb. by eapply t_unlock.
Qed.
End step.

(** ** Properties *)

(** C40: with at least one lock, in every run of the threads test no two threads
    hold the same mutex; the requests go through the locks in turn; the threads
    cannot deadlock: when no step is possible all of them have exited and every
    mutex can be destroyed; and a run has at most one step per thread and
    [3 * thread_yields + 2] per request, so with finitely many events it ends. *)
Theorem threads_test_runs c n m s :
  0 < thread_locks c < 2 ^ 32 -> is_u32 (thread_yields c) ->
  nsteps (tstep c) m (threads_start c n) s ->
  (forall t u p q k, tpcs s !! t = Some p -> tpcs s !! u = Some q -> holds p = Some k -> holds q = Some k -> t = u)
  /\ requests s = rev (map (fun j => u32 j mod thread_locks c) (seqZ 0 (Z.of_nat (length (requests s)))))
  /\ (t_blocked c s -> Forall (fun p => p = TExit) (tpcs s) /\ threads_cleanup (test_mutexes s) = Some 0)
  /\ Z.of_nat m <= Z.of_nat n + cost c * Z.of_nat (length (requests s)).
Proof.
  intros Hl Hy Hr. destruct (run_work c Hl Hy m _ s Hr (t_start_inv c Hl n)) as [Hi Hm].
  pose proof (work_nonneg c s Hi) as Hw. pose proof Hi as (_ & Hpc & Hown & _ & Hreq).
  split_and!; [|done| |].
  - intros t u p q k Hp Hq Hhp Hhq. destruct (Hpc _ _ Hp) as [_ Hk].
    apply (owned_unique _ _ _ _ t u k p q Hown); try done. apply Hk. destruct p; try done; by injection Hhp as ->.
  - intros Hb. destruct (t_progress c Hl s Hi Hb) as [He Hf]. split; [done|by apply destroy_all_free].
  - assert (work c (threads_start c n) = Z.of_nat n) as E.
    { unfold work, threads_start. cbn [tpcs]. change (map ?f (replicate n TNext)) with (f <$> replicate n TNext).
      rewrite fmap_replicate, sumZ_replicate. cbn. lia. }
    rewrite E in Hm. cbn [threads_start requests length] in Hm. lia.
Qed.

Definition one_lock : threads_conf := ThreadsConf 1 1.

Lemma one_thread_run : nsteps (tstep one_lock) 6 (threads_start one_lock 1) (TConfig 1 [None] [TExit] [0]).
Proof.
  eapply nsteps_l; [eapply (t_next _ _ 0); reflexivity|].
  eapply nsteps_l; [eapply (t_lock _ _ 0); reflexivity|].
  eapply nsteps_l; [eapply (t_yield _ _ 0); reflexivity|].
  eapply nsteps_l; [eapply (t_unlock _ _ 0); reflexivity|].
  eapply nsteps_l; [eapply (t_return _ _ 0); [reflexivity|vm_compute; discriminate]|].
  eapply nsteps_l; [eapply (t_stop _ _ 0); reflexivity|]. apply nsteps_O.
Qed.

Lemma threads_test_runs_witness :
  let s := TConfig 1 [None] [TExit] [0] in
  (forall t u p q k, tpcs s !! t = Some p -> tpcs s !! u = Some q -> holds p = Some k -> holds q = Some k -> t = u)
  /\ requests s = rev (map (fun j => u32 j mod 1) (seqZ 0 1))
  /\ (t_blocked one_lock s -> Forall (fun p => p = TExit) (tpcs s) /\ threads_cleanup (test_mutexes s) = Some 0)
  /\ 6 <= 1 + 5 * 1.
Proof. apply (threads_test_runs one_lock 1 6); [cbn; lia|cbv; done|apply one_thread_run]. Defined.

Definition threads_options (locks : string) : list option_t :=
  fst (set_option (fun _ => None) (fst (sb_register_arg_set (fun _ => None) threads_args []))
         "thread-locks" (Some locks) SB_ARG_TYPE_INT).

(** [threads_init] checks nothing: without locks the first event divides by zero,
    and a negative number asks for almost 2^32 mutexes. *)
Theorem thread_locks_unchecked :
  (exists c r, threads_init (threads_options "0") = POk (c, r) /\ threads_next_event c r = None)
  /\ (exists c r, threads_init (threads_options "-1") = POk (c, r) /\ thread_locks c = UINT32_MAX).
Proof. split; eexists _, _; (split; [vm_compute; reflexivity|reflexivity]). Qed.
End Threads.

Module Mutex.

Definition mutex_args : list sb_arg_t :=
  [SB_OPT "mutex-num" "total size of mutex array" (Some "4096") SB_ARG_TYPE_INT None;
   SB_OPT "mutex-locks" "number of mutex locks to do per thread" (Some "50000") SB_ARG_TYPE_INT None;
   SB_OPT "mutex-loops" "number of empty loops to do outside mutex lock" (Some "10000") SB_ARG_TYPE_INT None].

Record mutex_conf := MutexConf { mutex_num : Z; mutex_loops : Z; mutex_locks : Z }.

#[local] Open Scope parse_scope.

(** The configuration and the array of free mutexes. *)
Definition mutex_init (malloc_ok : bool) (options : list option_t) : parsed (mutex_conf * list (option nat)) :=
  num <-p p_int (sb_get_value_int options "mutex-num");
  loops <-p p_int (sb_get_value_int options "mutex-loops");
  locks <-p p_int (sb_get_value_int options "mutex-locks");
  _ <-p check malloc_ok;
  POk (MutexConf (u32 num) (u32 loops) (u32 locks), replicate (Z.to_nat (u32 num)) None).

Definition mutex_done (thread_locks : list (option nat)) : option Z := destroy_all thread_locks.

Record sb_mutex_request_t := MutexRequest { nlocks : Z; nloops : Z }.

(** The thread's counter and its only request; the increment of the signed counter
    overflows at [INT_MAX]. *)
Definition mutex_next_event (c : mutex_conf) (tls_counter : Z) : option (option sb_mutex_request_t * Z) :=
  if tls_counter =? INT_MAX then None
  else Some (if 0 <? tls_counter then None else Some (MutexRequest (mutex_locks c) (mutex_loops c)), tls_counter + 1).

#[local] Open Scope rand_scope.

(** The [do] loop of [mutex_execute_event]: the locks it takes in turn; [None]
    inside: still running.  The empty loop over [nloops] has no effect.  An index
    outside the array is undefined. *)
Fixpoint mutex_loop (fuel : nat) (c : mutex_conf) (nlocks : Z) : rand (option (list Z)) :=
  match fuel with
  | O => rret None
  | S fuel =>
      current_lock <-r sb_rand_uniform 0 (u32 (mutex_num c - 1));
      _ <-r rcast (if current_lock <? mutex_num c then Some tt else None);
      let nlocks := u32 (nlocks - 1) in
      if 0 <? nlocks then rest <-r mutex_loop fuel c nlocks; rret (cons current_lock <$> rest)
      else rret (Some [current_lock])
  end.

Definition mutex_execute_event (fuel : nat) (c : mutex_conf) (r : sb_mutex_request_t) : rand (option (list Z)) :=
  mutex_loop fuel c (nlocks r).

(** The increments of [global_var], which the threads make under the locks of their
    events: before the lock, holding it, after reading the variable, after writing. *)
Inductive mpc :=
| MLoop (todo : list Z)
| MHold (lock : Z) (todo : list Z)
| MRead (lock : Z) (value : Z) (todo : list Z)
| MWrote (lock : Z) (todo : list Z).

Record mconfig := MConfig { global_var : Z; thread_locks : list (option nat); mpcs : list mpc }.

Inductive mstep : mconfig -> mconfig -> Prop :=
| m_lock g ms l t k todo :
    l !! t = Some (MLoop (k :: todo)) -> ms !! Z.to_nat k = Some None ->
    mstep (MConfig g ms l) (MConfig g (<[Z.to_nat k := Some t]> ms) (<[t := MHold k todo]> l))
| m_read g ms l t k todo :
    l !! t = Some (MHold k todo) -> mstep (MConfig g ms l) (MConfig g ms (<[t := MRead k g todo]> l))
| m_write g ms l t k v todo :
    l !! t = Some (MRead k v todo) -> mstep (MConfig g ms l) (MConfig (u32 (v + 1)) ms (<[t := MWrote k todo]> l))
| m_unlock g ms l t k todo :
    l !! t = Some (MWrote k todo) ->
    mstep (MConfig g ms l) (MConfig g (<[Z.to_nat k := None]> ms) (<[t := MLoop todo]> l)).

(** The threads have drawn the locks [ls]. *)
Definition mutex_start (num : nat) (ls : list (list Z)) : mconfig := MConfig 0 (replicate num None) (map MLoop ls).

Definition finished (s : mconfig) : Prop := Forall (fun p => p = MLoop []) (mpcs s).

(** ** The loop *)

Definition iterations (n : Z) : Z := if n =? 0 then 2 ^ 32 else n.

Lemma mutex_loop_spec c n fuel s :
  0 < mutex_num c < 2 ^ 32 -> (0 < n)%nat -> Z.of_nat n <= 2 ^ 32 -> (n <= fuel)%nat ->
  exists l s', mutex_loop fuel c (u32 (Z.of_nat n)) s = Some (Some l, s') /\ length l = n
    /\ Forall (fun k => 0 <= k < mutex_num c) l.
Proof.
  intros Hc Hn. revert fuel s. induction n as [|n IH]; intros fuel s Hr Hf; [lia|].
  destruct fuel as [|fuel]; [lia|]. cbn [mutex_loop]. unfold rbind, rcast, rret.
  rewrite (u32_small (mutex_num c - 1)) by (unfold is_u32; lia).
  destruct (uniform_from_zero (mutex_num c - 1) s) as (k & -> & Hk); [unfold is_u32; lia|].
  rewrite (proj2 (Z.ltb_lt k (mutex_num c))) by lia. rewrite u32_sub_l.
  replace (Z.of_nat (S n) - 1) with (Z.of_nat n) by lia.
  destruct n as [|n].
  - exists [k], (next_state s). cbn. split_and!; try done. constructor; [lia|done].
  - rewrite (u32_small (Z.of_nat (S n))) by (unfold is_u32; lia). rewrite (proj2 (Z.ltb_lt 0 (Z.of_nat (S n)))) by lia.
    destruct (IH ltac:(lia) fuel (next_state s)) as (l & s' & E & El & Hl); [lia..|].
    rewrite (u32_small (Z.of_nat (S n))) in E by (unfold is_u32; lia). rewrite E.
    exists (k :: l), s'. split_and!; [done|cbn; lia|]. constructor; [lia|done].
Qed.

(** ** The count under one mutex *)

Definition m_holds (p : mpc) : option Z :=
  match p with MLoop _ => None | MHold k _ | MRead k _ _ | MWrote k _ => Some k end.
(** The increments still to be written. *)
Definition m_left (p : mpc) : Z :=
  match p with
  | MLoop todo | MWrote _ todo => Z.of_nat (length todo)
  | MHold _ todo | MRead _ _ todo => Z.of_nat (length todo) + 1
  end.
Definition only_lock (p : mpc) : Prop :=
  match p with
  | MLoop todo => Forall (fun k => k = 0) todo
  | MHold k todo | MRead k _ todo | MWrote k todo => k = 0 /\ Forall (fun k => k = 0) todo
  end.
Definition left_of (l : list mpc) : Z := sumZ (map m_left l).

Definition m_inv (total : Z) (s : mconfig) : Prop :=
  length (thread_locks s) = 1%nat
  /\ (forall t p, mpcs s !! t = Some p -> only_lock p)
  /\ owned m_holds 1 (thread_locks s) (mpcs s)
  /\ (forall t k v todo, mpcs s !! t = Some (MRead k v todo) -> v = global_var s)
  /\ global_var s = u32 (total - left_of (mpcs s)).

Lemma left_insert (t : nat) p q l :
  l !! t = Some p -> left_of (<[t := q]> l) = left_of l - m_left p + m_left q.
Proof.
  intros Hp. unfold left_of. change (map m_left (<[t := q]> l)) with (m_left <$> <[t := q]> l).
  rewrite list_fmap_insert, (sumZ_insert _ t (m_left p)); [done|]. by rewrite list_lookup_fmap, Hp.
Qed.

Lemma m_step_inv total s s' : m_inv total s -> mstep s s' -> m_inv total s'.
Proof.
  intros (Hlen & Hpc & Hown & Hread & Hg) Hs. destruct Hs as [g ms l t k todo Ht Hm|g ms l t k todo Ht|g ms l t k v todo Ht|g ms l t k todo Ht];
    cbn [global_var thread_locks mpcs] in *; pose proof (Hpc _ _ Ht) as Hk; cbn [only_lock] in Hk;
    unfold m_inv; cbn [global_var thread_locks mpcs]; rewrite (left_insert t _ _ _ Ht); cbn [m_left].
  - apply Forall_cons in Hk as [-> Hk]. split_and!.
    + by rewrite length_insert.
    + by apply pcs_insert.
    + apply (owned_update _ _ t 0 (MLoop (0 :: todo))); try done. by left.
    + intros u k v todo' [(_ & [=] & _)|[_ H]]%list_lookup_insert_Some. by eapply Hread.
    + rewrite Hg. f_equal. cbn [length]. lia.
  - split_and!; try done.
    + by apply pcs_insert.
    + by apply (owned_same _ _ t (MHold k todo)).
    + intros u k' v todo' [(_ & [= <- <- <-] & _)|[_ H]]%list_lookup_insert_Some; [done|by eapply Hread].
    + rewrite Hg. f_equal. lia.
  - destruct Hk as [-> Hk]. split_and!; try done.
    + by apply pcs_insert.
    + by apply (owned_same _ _ t (MRead 0 v todo)).
    + intros u k' v' todo' [(_ & [=] & _)|[Hne H]]%list_lookup_insert_Some. destruct Hne.
      destruct (Hpc _ _ H) as [-> _]. by eapply (owned_unique m_holds 1 ms l t u 0 (MRead 0 v todo) (MRead 0 v' todo')).
    + rewrite (Hread _ _ _ _ Ht), Hg, u32_add_l. f_equal. lia.
  - destruct Hk as [-> Hk]. split_and!.
    + by rewrite length_insert.
    + by apply pcs_insert.
    + apply (owned_update _ _ t 0 (MWrote 0 todo)); try done. by right.
    + intros u k v todo' [(_ & [=] & _)|[_ H]]%list_lookup_insert_Some. by eapply Hread.
    + rewrite Hg. f_equal. lia.
Qed.

Definition all_locks (ls : list (list Z)) : Z := sumZ (map (fun l => Z.of_nat (length l)) ls).

Lemma m_start_inv ls : Forall (Forall (fun k => k = 0)) ls -> m_inv (all_locks ls) (mutex_start 1 ls).
Proof.
  intros Hls. rewrite Forall_lookup in Hls.
  assert (Hl : forall t p, map MLoop ls !! t = Some p -> exists todo, p = MLoop todo /\ Forall (fun k => k = 0) todo).
  { intros t p Hp. change (map MLoop ls) with (MLoop <$> ls) in Hp.
    apply list_lookup_fmap_Some in Hp as (todo & -> & Hp). exists todo. split; [done|by eapply Hls]. }
  split_and!; cbn [mutex_start thread_locks mpcs global_var].
  - done.
  - intros t p Hp. destruct (Hl _ _ Hp) as (todo & -> & H). done.
  - intros t k Hk. rewrite lookup_replicate_2 by lia. split; [done|].
    destruct (map MLoop ls !! t) as [p|] eqn:E; [|done]. destruct (Hl _ _ E) as (todo & -> & _). done.
  - intros t k v todo Ht. by destruct (Hl _ _ Ht) as (? & ? & _).
  - unfold left_of, all_locks. rewrite map_map. cbn [m_left]. by rewrite Z.sub_diag.
Qed.

(** ** Properties *)

(** A thread makes one request; it ends after [mutex-locks] rounds, and 2^32
    rounds when that is 0, and each round takes a mutex of the array. *)
Theorem mutex_event_ends options c ms fuel s :
  mutex_init true options = POk (c, ms) -> mutex_num c <> 0 -> iterations (mutex_locks c) <= Z.of_nat fuel ->
  exists r, mutex_next_event c 0 = Some (Some r, 1) /\ mutex_next_event c 1 = Some (None, 2)
    /\ exists l s', mutex_execute_event fuel c r s = Some (Some l, s')
        /\ Z.of_nat (length l) = iterations (mutex_locks c)
        /\ Forall (fun k => 0 <= k /\ ms !! Z.to_nat k = Some None) l.
Proof.
  intros H Hn Hf. unfold mutex_init in H. parse_inv. injection H as <- <-. cbn [mutex_num mutex_locks] in *.
  pose proof (u32_range a) as Ha. pose proof (u32_range a1) as Hl. unfold is_u32 in *.
  set (n := u32 a1) in *. exists (MutexRequest n (u32 a0)). split_and!; [done..|].
  destruct (mutex_loop_spec (MutexConf (u32 a) (u32 a0) n) (Z.to_nat (iterations n)) fuel s)
    as (l & s' & Er & El & Ef); try (cbn [mutex_num]; unfold iterations in *; case_bool; bool_to_prop; lia).
  assert (En : u32 (Z.of_nat (Z.to_nat (iterations n))) = n).
  { unfold iterations. case_bool; bool_to_prop; rewrite Z2Nat.id by lia; [by subst|]. apply u32_small. unfold is_u32. lia. }
  rewrite En in Er. exists l, s'. split; [exact Er|]. split; [rewrite El; unfold iterations; case_bool; bool_to_prop; lia|].
  eapply Forall_impl; [exact Ef|]. intros k Hk. cbn [mutex_num] in Hk. split; [lia|]. apply lookup_replicate.
  split; [done|lia].
Qed.

Definition mutex_options : list option_t :=
  foldl (fun options '(name, value) => fst (set_option (fun _ => None) options name (Some value) SB_ARG_TYPE_INT))
    (fst (sb_register_arg_set (fun _ => None) mutex_args [])) [("mutex-num", "2"); ("mutex-locks", "3")]%string.

Lemma mutex_event_ends_witness :
  exists r, mutex_next_event (MutexConf 2 10000 3) 0 = Some (Some r, 1) /\ mutex_next_event (MutexConf 2 10000 3) 1 = Some (None, 2)
    /\ exists l s', mutex_execute_event 3 (MutexConf 2 10000 3) r (1, 2) = Some (Some l, s')
        /\ Z.of_nat (length l) = 3
        /\ Forall (fun k => 0 <= k /\ [@None nat; None] !! Z.to_nat k = Some None) l.
Proof.
  apply (mutex_event_ends mutex_options (MutexConf 2 10000 3) [None; None] 3 (1, 2));
    [vm_compute; reflexivity|discriminate|vm_compute; discriminate].
Defined.

(** With a single mutex the increments of the threads do not interfere: when
    all have finished, [global_var] is their number. *)
Theorem one_mutex_counts_all ls s :
  Forall (Forall (fun k => k = 0)) ls -> rtc mstep (mutex_start 1 ls) s -> finished s ->
  global_var s = u32 (all_locks ls).
Proof.
  intros Hls Hr Hf. assert (Hi : m_inv (all_locks ls) s).
  { pose proof (m_start_inv ls Hls) as H0. clear Hf. induction Hr as [|s0 s1 s2 Hs _ IH]; [done|].
    by apply IH, (m_step_inv _ s0). }
  destruct Hi as (_ & _ & _ & _ & ->). f_equal. unfold left_of.
  assert (sumZ (map m_left (mpcs s)) = 0); [|lia].
  induction Hf as [|p l -> _ IH]; [done|]. cbn [map]. by rewrite sumZ_cons, IH.
Qed.

Ltac m_do rule n := eapply rtc_l; [eapply rule with (t := n); reflexivity|].

Lemma one_mutex_counts_all_witness :
  exists s, rtc mstep (mutex_start 1 [[0]; [0]]) s /\ finished s /\ global_var s = 2.
Proof.
  exists (MConfig 2 [None] [MLoop []; MLoop []]).
  assert (Hr : rtc mstep (mutex_start 1 [[0]; [0]]) (MConfig 2 [None] [MLoop []; MLoop []])).
  { m_do m_lock 0%nat. m_do m_read 0%nat. m_do m_write 0%nat. m_do m_unlock 0%nat.
    m_do m_lock 1%nat. m_do m_read 1%nat. m_do m_write 1%nat. m_do m_unlock 1%nat. apply rtc_refl. }
  assert (Hf : finished (MConfig 2 [None] [MLoop []; MLoop []])) by repeat constructor.
  split; [exact Hr|]. split; [exact Hf|].
  apply (one_mutex_counts_all [[0]; [0]]); [repeat constructor|exact Hr|exact Hf].
Defined.

(** With several mutexes, which is what the test is for, [global_var++] is not
    protected: two threads under different mutexes can lose an increment. *)
Theorem global_var_loses_updates :
  exists s, rtc mstep (mutex_start 2 [[0]; [1]]) s /\ finished s /\ global_var s = 1 /\ all_locks [[0]; [1]] = 2.
Proof.
  exists (MConfig 1 [None; None] [MLoop []; MLoop []]). split; [|split; [repeat constructor|done]].
  m_do m_lock 0%nat. m_do m_read 0%nat. m_do m_lock 1%nat. m_do m_read 1%nat.
  m_do m_write 0%nat. m_do m_write 1%nat. m_do m_unlock 0%nat. m_do m_unlock 1%nat. apply rtc_refl.
Qed.
End Mutex.
