(* ===== verification/Db.v ===== *)
(** * The database layer ([db_driver.c], [db_driver.h])

    The interface between the Lua API and the database drivers: connections
    with their state, queries and result sets, and multi-row inserts.  A driver
    is a record of operations [drv_ops_t] on a state of its own, as in C; the
    theorems about connections hold for every driver that satisfies the laws
    they name. *)

From stdpp Require Import pretty.
From S2P Require Import Prelude Double Options Counter Timer Reports.

(** ** Data *)

Inductive db_ps_mode_t := DB_PS_MODE_AUTO | DB_PS_MODE_DISABLE.

Inductive db_error_t := DB_ERROR_NONE | DB_ERROR_IGNORABLE | DB_ERROR_FATAL.

Inductive db_conn_state_t := DB_CONN_READY | DB_CONN_RESULT_SET | DB_CONN_INVALID.

#[export] Instance db_error_eq_dec : EqDecision db_error_t.
Proof. solve_decision. Defined.
#[export] Instance db_conn_state_eq_dec : EqDecision db_conn_state_t.
Proof. solve_decision. Defined.
#[export] Instance db_ps_mode_eq_dec : EqDecision db_ps_mode_t.
Proof. solve_decision. Defined.

Record db_globals_t := DbGlobals {
  ps_mode : db_ps_mode_t;
  g_driver : option string;
  g_debug : Z
}.

Record drv_caps_t := DrvCaps {
  multi_rows_insert : bool;
  prepared_statements : bool;
  auto_increment : bool;
  needs_commit : bool;
  cap_serial : bool;
  unsigned_int : bool
}.

(** A result set; [row_values] tells whether [row.values] is allocated. *)
Record db_result_t := DbResult {
  counter : sb_counter_type_t;
  nrows : Z;
  nfields : Z;
  statement : option nat;
  row_values : bool
}.

Inductive db_bind_type_t :=
| DB_TYPE_NONE | DB_TYPE_TINYINT | DB_TYPE_SMALLINT | DB_TYPE_INT | DB_TYPE_BIGINT | DB_TYPE_FLOAT
| DB_TYPE_DOUBLE | DB_TYPE_TIME | DB_TYPE_DATE | DB_TYPE_DATETIME | DB_TYPE_TIMESTAMP | DB_TYPE_CHAR
| DB_TYPE_VARCHAR.

#[export] Instance db_bind_type_eq_dec : EqDecision db_bind_type_t.
Proof. solve_decision. Defined.

Record db_time_t := DbTime { year : Z; month : Z; day : Z; hour : Z; minute : Z; second : Z }.

(** What the buffer of a bound variable holds; [FLOAT] and [DOUBLE] are read
    through a pointer of their own type. *)
Inductive bind_data := BInt (z : Z) | BDouble (x : dbl) | BString (s : string) | BTime (t : db_time_t).

(** Strings are in the buffer up to their terminator; [data_len] and [is_null] are
    what the pointers point to. *)
Record db_bind_t := DbBind {
  bind_type : db_bind_type_t;
  bind_buffer : bind_data;
  data_len : option Z;
  max_len : Z;
  is_null : option bool
}.

(** The operations of a driver that the layer calls.  Those the code tests for
    [NULL] are optional; an operation gets the result set it may fill in and
    returns it. Statements are named by numbers. *)
Record drv_ops_t (d : Type) := DrvOps {
  op_init : d -> Z * d;
  op_thread_init : option (Z -> d -> Z * d);
  op_thread_done : option (Z -> d -> Z * d);
  op_describe : option (d -> Z * drv_caps_t * d);
  op_connect : d -> Z * d;
  op_disconnect : d -> Z * d;
  op_reconnect : option (d -> db_error_t * d);
  op_prepare : nat -> string -> d -> Z * d;
  op_bind_param : nat -> list db_bind_t -> d -> Z * d;
  op_bind_result : nat -> list db_bind_t -> d -> Z * d;
  op_execute : nat -> db_result_t -> d -> db_error_t * db_result_t * d;
  op_stmt_next_result : option (nat -> db_result_t -> d -> db_error_t * db_result_t * d);
  op_fetch_row : option (db_result_t -> d -> Z * d);
  op_query : string -> db_result_t -> d -> db_error_t * db_result_t * d;
  op_more_results : option (d -> bool);
  op_next_result : option (db_result_t -> d -> db_error_t * db_result_t * d);
  op_free_results : db_result_t -> d -> Z * d;
  op_close : nat -> d -> Z * d;
  op_done : d -> Z * d
}.
Arguments DrvOps {d}.
Arguments op_init {d}.
Arguments op_thread_init {d}.
Arguments op_thread_done {d}.
Arguments op_describe {d}.
Arguments op_connect {d}.
Arguments op_disconnect {d}.
Arguments op_reconnect {d}.
Arguments op_prepare {d}.
Arguments op_bind_param {d}.
Arguments op_bind_result {d}.
Arguments op_execute {d}.
Arguments op_stmt_next_result {d}.
Arguments op_fetch_row {d}.
Arguments op_query {d}.
Arguments op_more_results {d}.
Arguments op_next_result {d}.
Arguments op_free_results {d}.
Arguments op_close {d}.
Arguments op_done {d}.

(** A connection; the buffer is [None] for [NULL], and else the C string in it. *)
Record db_conn_t := DbConn {
  error : db_error_t;
  rs : db_result_t;
  state : db_conn_state_t;
  thread_id : nat;
  bulk_cnt : Z;
  bulk_buflen : Z;
  bulk_buffer : option string;
  bulk_ptr : Z;
  bulk_values : Z;
  bulk_commit_cnt : Z;
  bulk_commit_max : Z
}.

(** A connection with the driver's state, the statistics and the statements
    that exist. *)
Record db_world (d : Type) := Db {
  con : db_conn_t;
  drv : d;
  cnts : counters;
  stmts : gset nat
}.
Arguments Db {d}.
Arguments con {d}.
Arguments drv {d}.
Arguments cnts {d}.
Arguments stmts {d}.

Definition set_error (e : db_error_t) (c : db_conn_t) : db_conn_t :=
  DbConn e (rs c) (state c) (thread_id c) (bulk_cnt c) (bulk_buflen c) (bulk_buffer c) (bulk_ptr c)
    (bulk_values c) (bulk_commit_cnt c) (bulk_commit_max c).
Definition set_rs (r : db_result_t) (c : db_conn_t) : db_conn_t :=
  DbConn (error c) r (state c) (thread_id c) (bulk_cnt c) (bulk_buflen c) (bulk_buffer c) (bulk_ptr c)
    (bulk_values c) (bulk_commit_cnt c) (bulk_commit_max c).
Definition set_state (s : db_conn_state_t) (c : db_conn_t) : db_conn_t :=
  DbConn (error c) (rs c) s (thread_id c) (bulk_cnt c) (bulk_buflen c) (bulk_buffer c) (bulk_ptr c)
    (bulk_values c) (bulk_commit_cnt c) (bulk_commit_max c).
(** The fields of the multi-row insert. *)
Definition set_bulk (cnt buflen : Z) (buffer : option string) (ptr values commit_cnt commit_max : Z)
    (c : db_conn_t) : db_conn_t :=
  DbConn (error c) (rs c) (state c) (thread_id c) cnt buflen buffer ptr values commit_cnt commit_max.

Definition set_statement (s : option nat) (r : db_result_t) : db_result_t :=
  DbResult (counter r) (nrows r) (nfields r) s (row_values r).

Section layer.
Context {d : Type} (ops : drv_ops_t d).

Definition with_con (f : db_conn_t -> db_conn_t) (w : db_world d) : db_world d :=
  Db (f (con w)) (drv w) (cnts w) (stmts w).
Definition with_drv (k : d) (w : db_world d) : db_world d := Db (con w) k (cnts w) (stmts w).
Definition with_cnts (k : counters) (w : db_world d) : db_world d := Db (con w) (drv w) k (stmts w).
Definition with_stmts (s : gset nat) (w : db_world d) : db_world d := Db (con w) (drv w) (cnts w) s.

(** ** Result sets *)

Definition db_free_results_int (w : db_world d) : Z * db_world d :=
  let '(rc, k) := op_free_results ops (rs (con w)) (drv w) in
  let r := DbResult (counter (rs (con w))) 0 0 None false in
  (rc, with_con (fun c => set_state DB_CONN_READY (set_rs r c)) (with_drv k w)).

Definition db_free_results (w : db_world d) : Z * db_world d :=
  match state (con w) with
  | DB_CONN_RESULT_SET => db_free_results_int w
  | _ => (1, w)
  end.

(** How the operations start: refuse a closed connection, release the results
    of the previous query. *)
Inductive entry := Closed | FreeFailed (w : db_world d) | Entered (w : db_world d).
Definition enter (w : db_world d) : entry :=
  match state (con w) with
  | DB_CONN_INVALID => Closed
  | DB_CONN_RESULT_SET =>
      let '(rc, w) := db_free_results_int w in if rc =? 0 then Entered w else FreeFailed w
  | DB_CONN_READY => Entered w
  end.

(** How a query ends: store the error, count it, and keep the result set of a
    read.  [true] when a result set is returned, [false] for [NULL]. *)
Definition conclude (out : db_error_t * db_result_t * d) (w : db_world d) : bool * db_world d :=
  let '(e, r, k) := out in
  let w := with_con (fun c => set_error e (set_rs r c)) (with_drv k w) in
  let w := with_cnts (sb_counter_inc (cnts w) (thread_id (con w)) (counter r)) w in
  if bool_decide (e = DB_ERROR_NONE) then
    if bool_decide (counter r = SB_CNT_READ) then (true, with_con (set_state DB_CONN_RESULT_SET) w)
    else (false, with_con (set_state DB_CONN_READY) w)
  else (false, w).

(** ** Queries *)

Definition db_query (query : string) (w : db_world d) : bool * db_world d :=
  match enter w with
  | Closed => (false, with_con (set_error DB_ERROR_FATAL) w)
  | FreeFailed w => (false, with_con (set_error DB_ERROR_FATAL) w)
  | Entered w => conclude (op_query ops query (rs (con w)) (drv w)) w
  end.

Definition db_more_results (w : db_world d) : bool :=
  match state (con w), op_more_results ops with
  | DB_CONN_RESULT_SET, Some f => f (drv w)
  | _, _ => false
  end.

Definition db_next_result (w : db_world d) : bool * db_world d :=
  match enter w with
  | Closed => (false, with_con (set_error DB_ERROR_FATAL) w)
  | FreeFailed w => (false, with_con (set_error DB_ERROR_FATAL) w)
  | Entered w =>
      match op_next_result ops with
      | None => (false, with_con (set_error DB_ERROR_NONE) w)
      | Some f => conclude (f (rs (con w)) (drv w)) w
      end
  end.

(** The row or [NULL]; [None] is the call through a null pointer that follows
    the message when the driver has no [fetch_row]. *)
Definition db_fetch_row (w : db_world d) : option (bool * db_world d) :=
  match state (con w) with
  | DB_CONN_RESULT_SET =>
      let r := rs (con w) in
      if (nrows r =? 0) || (nfields r =? 0) then Some (false, w)
      else
        match op_fetch_row ops with
        | None => None
        | Some f =>
            let r := DbResult (counter r) (nrows r) (nfields r) (statement r) true in
            let '(rc, k) := f r (drv w) in
            Some (rc =? 0, with_con (set_rs r) (with_drv k w))
        end
  | _ => Some (false, w)
  end.

(** ** Prepared statements *)

(** The new statement or [NULL]. *)
Definition db_prepare (query : string) (w : db_world d) : option nat * db_world d :=
  match state (con w) with
  | DB_CONN_INVALID => (None, w)
  | _ =>
      let stmt := fresh (stmts w) in
      let '(rc, k) := op_prepare ops stmt query (drv w) in
      let w := with_drv k w in
      if negb (rc =? 0) then (None, with_con (set_error DB_ERROR_FATAL) w)
      else (Some stmt, with_stmts ({[stmt]} ∪ stmts w) w)
  end.

(** The operations on a statement read it: undefined once it has been freed. *)
Definition alive {A} (stmt : nat) (w : db_world d) (k : option A) : option A :=
  if bool_decide (stmt ∈ stmts w) then k else None.

Definition db_bind_param (stmt : nat) (params : list db_bind_t) (w : db_world d) : option (Z * db_world d) :=
  alive stmt w (Some
    match state (con w) with
    | DB_CONN_INVALID => (1, w)
    | _ => let '(rc, k) := op_bind_param ops stmt params (drv w) in (rc, with_drv k w)
    end).

Definition db_bind_result (stmt : nat) (results : list db_bind_t) (w : db_world d) : option (Z * db_world d) :=
  alive stmt w (Some
    match state (con w) with
    | DB_CONN_INVALID => (1, w)
    | _ => let '(rc, k) := op_bind_result ops stmt results (drv w) in (rc, with_drv k w)
    end).

Definition db_execute (stmt : nat) (w : db_world d) : option (bool * db_world d) :=
  alive stmt w (Some
    match enter w with
    | Closed => (false, w)
    | FreeFailed w => (false, w)
    | Entered w =>
        let w := with_con (fun c => set_rs (set_statement (Some stmt) (rs c)) c) w in
        conclude (op_execute ops stmt (rs (con w)) (drv w)) w
    end).

Definition db_stmt_next_result (stmt : nat) (w : db_world d) : option (bool * db_world d) :=
  alive stmt w (Some
    match enter w with
    | Closed => (false, w)
    | FreeFailed w => (false, w)
    | Entered w =>
        let w := with_con (fun c => set_rs (set_statement (Some stmt) (rs c)) c) w in
        match op_stmt_next_result ops with
        | None => (false, with_con (set_error DB_ERROR_NONE) w)
        | Some f => conclude (f stmt (rs (con w)) (drv w)) w
        end
    end).

(** [db_close]; the second test of the state in the code never fires, as the
    results have been released by then. *)
Definition db_close (stmt : nat) (w : db_world d) : option (Z * db_world d) :=
  alive stmt w (Some
    match enter w with
    | Closed => (0, w)
    | FreeFailed w => (2, w)
    | Entered w =>
        let '(rc, k) := op_close ops stmt (drv w) in
        (rc, with_stmts (stmts w ∖ {[stmt]}) (with_drv k w))
    end).

(** ** Connections *)

Definition new_rs : db_result_t := DbResult SB_CNT_OTHER 0 0 None false.
(** [calloc] and the first assignments; the first counter type has value 0. *)
Definition db_connection_create (thread : nat) (k : d) (cn : counters) : option (db_world d) * d :=
  let c := DbConn DB_ERROR_NONE new_rs DB_CONN_READY thread 0 0 None 0 0 0 0 in
  let '(rc, k) := op_connect ops k in
  if negb (rc =? 0) then (None, k) else (Some (Db c k cn ∅), k).

Definition db_connection_close (w : db_world d) : Z * db_world d :=
  match state (con w) with
  | DB_CONN_INVALID => (0, w)
  | s =>
      let w := match s with DB_CONN_RESULT_SET => snd (db_free_results_int w) | _ => w end in
      let '(rc, k) := op_disconnect ops (drv w) in
      (rc, with_con (set_state DB_CONN_INVALID) (with_drv k w))
  end.

Definition db_error_code (e : db_error_t) : Z :=
  match e with DB_ERROR_NONE => 0 | DB_ERROR_IGNORABLE => 1 | DB_ERROR_FATAL => 2 end.

Definition db_connection_reconnect (w : db_world d) : Z * db_world d :=
  match op_reconnect ops with
  | None => (0, w)
  | Some f =>
      match state (con w) with
      | DB_CONN_INVALID => (0, w)
      | s =>
          let w := match s with DB_CONN_RESULT_SET => snd (db_free_results_int w) | _ => w end in
          let '(rc, k) := f (drv w) in
          let w := with_drv k w in
          let t := thread_id (con w) in
          if bool_decide (rc = DB_ERROR_FATAL) then
            (2, with_con (set_state DB_CONN_INVALID) (with_cnts (sb_counter_inc (cnts w) t SB_CNT_ERROR) w))
          else
            (0, with_con (set_state DB_CONN_READY) (with_cnts (sb_counter_inc (cnts w) t SB_CNT_RECONNECT) w))
      end
  end.

(** [db_connection_free]: what is left once the connection object is released. *)
Definition db_connection_free (w : db_world d) : d * counters :=
  let w := match state (con w) with DB_CONN_INVALID => w | _ => snd (db_connection_close w) end in
  (drv w, cnts w).

Definition db_describe (k : d) : Z * option drv_caps_t * d :=
  match op_describe ops with
  | None => (1, None, k)
  | Some f => let '(rc, caps, k) := f k in (rc, Some caps, k)
  end.

(** ** Multi-row inserts *)

Definition BULK_PACKET_SIZE : Z := 512 * 1024.
Definition ROWS_BEFORE_COMMIT : Z := 1000.

(** [strcpy(buffer + pos, s)]; undefined when the string and its terminator do
    not fit. *)
Definition strcpy_at (buffer : string) (buflen pos : Z) (s : string) : option string :=
  if buflen <? pos + strlen s + 1 then None
  else Some (String.substring 0 (Z.to_nat pos) buffer +:+ s).

Definition db_bulk_insert_init (query : string) (query_len : Z) (w : db_world d)
    : option (Z * db_world d) :=
  match enter w with
  | Closed => Some (0, w)
  | FreeFailed w => Some (0, w)
  | Entered w =>
      let '(rc, caps, k) := db_describe (drv w) in
      let w := with_drv k w in
      if negb (rc =? 0) then Some (1, w)
      else if BULK_PACKET_SIZE <? u64 (query_len + 1) then Some (1, w)
      else
        let max := match caps with Some caps => if needs_commit caps then ROWS_BEFORE_COMMIT else 0 | None => 0 end in
        buffer ← strcpy_at "" BULK_PACKET_SIZE 0 query;
        Some (0, with_con (set_bulk 0 BULK_PACKET_SIZE (Some buffer) (u32 query_len) (u32 query_len) 0 max) w)
  end.

(** The text of the query under construction. *)
Definition bulk_query (c : db_conn_t) : string :=
  String.substring 0 (Z.to_nat (bulk_ptr c)) (default "" (bulk_buffer c)).

Definition query_failed (out : bool * db_world d) : bool :=
  negb (fst out) && negb (bool_decide (error (con (snd out)) = DB_ERROR_NONE)).

(** Back to the end of the header, after a flush. *)
Definition rewind (c : db_conn_t) : db_conn_t :=
  set_bulk 0 (bulk_buflen c) (bulk_buffer c) (bulk_values c) (bulk_values c) (bulk_commit_cnt c) (bulk_commit_max c) c.
Definition set_commit_cnt (n : Z) (c : db_conn_t) : db_conn_t :=
  set_bulk (bulk_cnt c) (bulk_buflen c) (bulk_buffer c) (bulk_ptr c) (bulk_values c) n (bulk_commit_max c) c.

(** The end of [db_bulk_do_insert], once the packet has been sent: count its
    rows, COMMIT when it is due, and go back to the end of the header. *)
Definition bulk_commit (is_last : bool) (w : db_world d) : Z * db_world d :=
  if negb (bulk_commit_max (con w) =? 0) then
    let n := u32 (bulk_commit_cnt (con w) + bulk_cnt (con w)) in
    let w := with_con (set_commit_cnt n) w in
    if is_last || (bulk_commit_max (con w) <=? n) then
      let out := db_query "COMMIT" w in
      if query_failed out then (1, snd out)
      else (0, with_con (fun c => rewind (set_commit_cnt 0 c)) (snd out))
    else (0, with_con rewind w)
  else (0, with_con rewind w).

Definition db_bulk_do_insert (is_last : bool) (w : db_world d) : Z * db_world d :=
  if bulk_cnt (con w) =? 0 then (0, w)
  else
    let out := db_query (bulk_query (con w)) w in
    if query_failed out then (1, snd out) else bulk_commit is_last (snd out).

Definition db_bulk_insert_next (query : string) (query_len : Z) (w : db_world d)
    : option (Z * db_world d) :=
  match enter w with
  | Closed => Some (0, w)
  | FreeFailed w => Some (0, w)
  | Entered w =>
      match bulk_buffer (con w) with
      | None => Some (1, w)
      | Some _ =>
          let c := con w in
          let more := b2z (0 <? bulk_cnt c) in
          let full := bulk_buflen c <? u64 (bulk_ptr c + query_len + 1 + more) in
          if full && (bulk_cnt c =? 0) then Some (1, w)
          else
            let '(rc, w) := if full then db_bulk_do_insert false w else (0, w) in
            if negb (rc =? 0) then Some (1, w)
            else
              let c := con w in
              let more := 0 <? bulk_cnt c in
              buffer ← strcpy_at (bulk_query c) (bulk_buflen c) (bulk_ptr c)
                         (if more then "," +:+ query else query);
              Some (0, with_con (set_bulk (u32 (bulk_cnt c + 1)) (bulk_buflen c) (Some buffer)
                                   (u32 (bulk_ptr c + query_len + b2z more)) (bulk_values c)
                                   (bulk_commit_cnt c) (bulk_commit_max c)) w)
      end
  end.

Definition db_bulk_insert_done (w : db_world d) : Z * db_world d :=
  let '(rc, w) := db_bulk_do_insert true w in
  if negb (rc =? 0) then (1, w)
  else (0, with_con (fun c => set_bulk (bulk_cnt c) (bulk_buflen c) None (bulk_ptr c) (bulk_values c)
                                (bulk_commit_cnt c) (bulk_commit_max c) c) w).
End layer.
Arguments Closed {d}.
Arguments FreeFailed {d}.
Arguments Entered {d}.

(** ** Drivers *)

Record db_driver_t (d : Type) := DbDriver {
  sname : string;
  drv_args : option (list sb_arg_t);
  drv_ops : drv_ops_t d;
  initialized : bool;
  drv_state : d
}.
Arguments DbDriver {d}.
Arguments sname {d}.
Arguments drv_args {d}.
Arguments drv_ops {d}.
Arguments initialized {d}.
Arguments drv_state {d}.

(** The file-scope variables and [sb_intermediate_timer] of [sysbench.c], which
    [db_reset_stats] restarts; [db_global_once] tells whether [db_init] has run.
    The timers of the debug mode are empty for [NULL]. *)
Record db_module (d : Type) := DbModule {
  drivers : list (db_driver_t d);
  db_global_once : bool;
  db_global_initialized : bool;
  db_globals : db_globals_t;
  stats_enabled : bool;
  exec_timers : list sb_timer_t;
  fetch_timers : list sb_timer_t;
  intermediate : sb_timer_t
}.
Arguments DbModule {d}.
Arguments drivers {d}.
Arguments db_global_once {d}.
Arguments db_global_initialized {d}.
Arguments db_globals {d}.
Arguments stats_enabled {d}.
Arguments exec_timers {d}.
Arguments fetch_timers {d}.
Arguments intermediate {d}.

(** [db_args] as compiled with the MySQL driver. *)
Definition db_args : list sb_arg_t :=
  [SB_OPT "db-driver" ("specifies database driver to use " +:+ "('help' to get list of available drivers)")%string
     (Some "mysql") SB_ARG_TYPE_STRING None;
   SB_OPT "db-ps-mode" "prepared statements usage mode {auto, disable}" (Some "auto") SB_ARG_TYPE_STRING None;
   SB_OPT "db-debug" "print database-specific debug information" (Some "off") SB_ARG_TYPE_BOOL None].

(** [None] is [strcmp] of a null pointer; [Some None] a returned 1. *)
Definition db_parse_arguments (options : list option_t) : option (option db_globals_t) :=
  s ← sb_get_value_string options "db-ps-mode";
  let rest mode := Some (Some (DbGlobals mode (sb_get_value_string options "db-driver")
                                 (sb_get_value_flag options "db-debug"))) in
  if String.eqb s "auto" then rest DB_PS_MODE_AUTO
  else if String.eqb s "disable" then rest DB_PS_MODE_DISABLE
  else Some None.

Section drivers.
Context {d : Type}.

Definition with_drivers (f : db_driver_t d -> db_driver_t d) (m : db_module d) : db_module d :=
  DbModule (map f (drivers m)) (db_global_once m) (db_global_initialized m) (db_globals m) (stats_enabled m)
    (exec_timers m) (fetch_timers m) (intermediate m).

(** The options of every driver, then those of the layer. *)
Definition db_register (fopen : string -> option string) (options : list option_t) (m : db_module d)
    : list option_t * db_module d :=
  let register args o := fst (sb_register_arg_set fopen args o) in
  let options := foldl (fun o v => match drv_args v with Some args => register args o | None => o end)
                   options (drivers m) in
  (register db_args options,
   with_drivers (fun v => DbDriver (sname v) (drv_args v) (drv_ops v) false (drv_state v)) m).

(** Restart the intermediate statistics; in debug mode, initialize the timers. *)
Definition db_reset_stats (now : timespec) (m : db_module d) : db_module d :=
  let init ts := if g_debug (db_globals m) =? 0 then ts else map sb_timer_init ts in
  DbModule (drivers m) (db_global_once m) (db_global_initialized m) (db_globals m) (stats_enabled m)
    (init (exec_timers m)) (init (fetch_timers m)) (snd (sb_timer_current now (intermediate m))).

(** The timers allocated are overwritten by [db_reset_stats]. *)
Definition db_init (options : list option_t) (now : timespec) (nthreads : nat) (m : db_module d)
    : option (db_module d) :=
  let m := DbModule (drivers m) true (db_global_initialized m) (db_globals m) (stats_enabled m)
             (exec_timers m) (fetch_timers m) (intermediate m) in
  match drivers m with
  | [] => Some m
  | _ =>
      g ← db_parse_arguments options;
      Some match g with
           | None => m
           | Some g =>
               let alloc ts := if g_debug g =? 0 then ts
                               else repeat (Timer zero_time zero_time 0 0 0 0 0) nthreads in
               let m := db_reset_stats now
                          (DbModule (drivers m) true (db_global_initialized m) g (stats_enabled m)
                             (alloc (exec_timers m)) (alloc (fetch_timers m)) (intermediate m)) in
               DbModule (drivers m) true true g true (exec_timers m) (fetch_timers m) (intermediate m)
           end
  end.

Definition find_driver (name : string) (l : list (db_driver_t d)) : option nat :=
  fst <$> list_find (fun v => sname v = name) l.

Definition set_driver (i : nat) (b : bool) (k : d) (m : db_module d) : db_module d :=
  DbModule (alter (fun v => DbDriver (sname v) (drv_args v) (drv_ops v) b k) i (drivers m)) (db_global_once m)
    (db_global_initialized m) (db_globals m) (stats_enabled m) (exec_timers m) (fetch_timers m) (intermediate m).

(** The driver chosen: the only one when none is named. *)
Definition choose_driver (name : option string) (m : db_module d) : option nat :=
  match name, g_driver (db_globals m) with
  | None, None => match drivers m with [_] => Some 0%nat | _ => None end
  | Some n, _ | None, Some n => find_driver n (drivers m)
  end.

(** Returns the index of the driver, or [None] for [NULL]. *)
Definition db_create (options : list option_t) (now : timespec) (nthreads : nat) (name : option string)
    (tls_thread_id : Z) (m : db_module d) : option (option nat * db_module d) :=
  m ← (if db_global_once m then Some m else db_init options now nthreads m);
  Some
    (if negb (db_global_initialized m) then (None, m)
     else
       match choose_driver name m with
       | None => (None, m)
       | Some i =>
           match drivers m !! i with
           | None => (None, m)
           | Some v =>
               let '(rc, m) :=
                 if initialized v then (0, m)
                 else let '(rc, k) := op_init (drv_ops v) (drv_state v) in
                      (rc, set_driver i (rc =? 0) k m) in
               if negb (rc =? 0) then (None, m)
               else
                 match op_thread_init (drv_ops v), drivers m !! i with
                 | Some f, Some v =>
                     let '(rc, k) := f tls_thread_id (drv_state v) in
                     (if rc =? 0 then Some i else None, set_driver i true k m)
                 | _, _ => (Some i, m)
                 end
           end
       end).

Definition db_destroy (i : nat) (tls_thread_id : Z) (m : db_module d) : Z * db_module d :=
  match drivers m !! i with
  | None => (0, m)
  | Some v =>
      match op_thread_done (drv_ops v) with
      | None => (0, m)
      | Some f => let '(rc, k) := f tls_thread_id (drv_state v) in (rc, set_driver i (initialized v) k m)
      end
  end.

Definition db_done (m : db_module d) : db_module d :=
  if negb (db_global_initialized m) then m
  else
    let free (ts : list sb_timer_t) := if g_debug (db_globals m) =? 0 then ts else [] in
    let m := with_drivers (fun v => if initialized v
                                    then DbDriver (sname v) (drv_args v) (drv_ops v) true
                                           (snd (op_done (drv_ops v) (drv_state v)))
                                    else v) m in
    DbModule (drivers m) (db_global_once m) (db_global_initialized m) (db_globals m) false
      (free (exec_timers m)) (free (fetch_timers m)) (intermediate m).
End drivers.

(** ** Printing bound values *)

Section printing.
(** ["%f"] of [printf(3)]. *)
Context (fmt_f : dbl -> string).

Definition s8 (x : Z) : Z := (x + 2 ^ 7) mod 2 ^ 8 - 2 ^ 7.
Definition s16 (x : Z) : Z := (x + 2 ^ 15) mod 2 ^ 16 - 2 ^ 15.

Definition date_text (t : db_time_t) : string :=
  pretty (s32 (year t)) +:+ "-" +:+ pretty (s32 (month t)) +:+ "-" +:+ pretty (s32 (day t)).
Definition time_text (t : db_time_t) : string :=
  pretty (s32 (hour t)) +:+ ":" +:+ pretty (s32 (minute t)) +:+ ":" +:+ pretty (s32 (second t)).

(** The text that is formatted, or [None] for a type that formats nothing;
    undefined when the buffer holds something else than the type says. *)
Definition value_text (var : db_bind_t) : option (option string) :=
  if default false (is_null var) then Some (Some "NULL"%string)
  else
    match bind_type var, bind_buffer var with
    | DB_TYPE_TINYINT, BInt z => Some (Some (pretty (s8 z)))
    | DB_TYPE_SMALLINT, BInt z => Some (Some (pretty (s16 z)))
    | DB_TYPE_INT, BInt z => Some (Some (pretty (s32 z)))
    | DB_TYPE_BIGINT, BInt z => Some (Some (pretty (s64 z)))
    | DB_TYPE_FLOAT, BDouble x | DB_TYPE_DOUBLE, BDouble x => Some (Some (fmt_f x))
    | DB_TYPE_CHAR, BString s | DB_TYPE_VARCHAR, BString s => Some (Some ("'" +:+ s +:+ "'")%string)
    | DB_TYPE_DATE, BTime t => Some (Some ("'" +:+ date_text t +:+ "'")%string)
    | DB_TYPE_TIME, BTime t => Some (Some ("'" +:+ time_text t +:+ "'")%string)
    | DB_TYPE_DATETIME, BTime t | DB_TYPE_TIMESTAMP, BTime t =>
        Some (Some ("'" +:+ date_text t +:+ " " +:+ time_text t +:+ "'")%string)
    | DB_TYPE_NONE, _ => Some None
    | _, _ => None
    end.

(** The return value and the text left in the buffer. *)
Definition db_print_value (var : db_bind_t) (buflen : Z) : option (Z * option string) :=
  text ← value_text var;
  let n := from_option strlen 0 text in
  Some (if n <? buflen then n else -1, t ← text; snprintf (u64 buflen) t).
End printing.

(** ** Reports *)

Record db_intermediate_line := DbIntermediateLine {
  di_time : dbl;
  di_threads : Z;
  di_tps : dbl;
  di_qps : dbl;
  di_reads : dbl;
  di_writes : dbl;
  di_other : dbl;
  di_percentile : Z;
  di_latency : dbl;
  di_errors : dbl;
  di_reconnects : dbl;
  di_queue : option (Z * Z)
}.

Definition db_report_intermediate (g : sb_globals_t) (enabled : bool) (stat : sb_stat_t)
    : intermediate_line + db_intermediate_line :=
  if negb enabled then inl (sb_report_intermediate g stat)
  else
    let per x := ddiv (d_of_Z x) (time_interval stat) in
    inr (DbIntermediateLine (time_total stat) (st_threads_running stat) (per (st_events stat))
           (per (u64 (st_reads stat + st_writes stat + st_other stat)))
           (per (st_reads stat)) (per (st_writes stat)) (per (st_other stat))
           (percentile g) (SEC2MS (latency_pct stat)) (per (st_errors stat)) (per (st_reconnects stat))
           (if 0 <? tx_rate g then Some (queue_length stat, st_concurrency stat) else None)).

(** The SQL statistics of the cumulative report: counts with their rates, and in
    debug mode the timers of query execution and of fetching: minimum, average,
    maximum and sum in seconds. *)
Record db_cumulative_lines := DbCumulativeLines {
  dc_reads : Z;
  dc_writes : Z;
  dc_other : Z;
  dc_total : Z;
  dc_transactions : Z * dbl;
  dc_queries : Z * dbl;
  dc_ignored_errors : Z * dbl;
  dc_reconnects : Z * dbl;
  dc_timers : list (dbl * dbl * dbl * dbl)
}.

Definition timer_lines (t : sb_timer_t) : dbl * dbl * dbl * dbl :=
  (NS2SEC (sb_timer_min t), NS2SEC (sb_timer_avg t), NS2SEC (sb_timer_max t), NS2SEC (sb_timer_sum t)).

Section cumulative.
(** [sqrt(3)], as in [sb_report_cumulative]. *)
Context (sqrt : dbl -> dbl).

Definition db_report_cumulative (enabled : bool) (debug : Z) (exec_timers fetch_timers : list sb_timer_t)
    (now : nat -> timespec) (stat : sb_stat_t) (w : world) : option db_cumulative_lines * cumulative_lines * world :=
  let '(general, w') := sb_report_cumulative sqrt now stat w in
  if negb enabled then (None, general, w')
  else
    let n := nthreads w in
    let with_rate x := (x, ddiv (d_of_Z x) (time_interval stat)) in
    let queries := u64 (st_reads stat + st_writes stat + st_other stat) in
    (Some (DbCumulativeLines (st_reads stat) (st_writes stat) (st_other stat) queries
             (with_rate (st_events stat)) (with_rate queries) (with_rate (st_errors stat))
             (with_rate (st_reconnects stat))
             (if debug =? 0 then []
              else [timer_lines (merge_timers n exec_timers); timer_lines (merge_timers n fetch_timers)])),
     general, w').
End cumulative.

(** ** Every result set is released exactly once *)

(** One result set is opened by an operation that succeeds on a read. *)
Definition opened (e : db_error_t) (r : db_result_t) : Z :=
  b2z (bool_decide (e = DB_ERROR_NONE) && bool_decide (counter r = SB_CNT_READ)).

(** A client that uses prepared statements ([stm]) leaves their names in the result
    set of the connection, and no query takes them away. *)
Definition usable (stm : bool) (r : db_result_t) : Prop := stm = true \/ statement r = None.

Section laws.
Context {d : Type} (ok : d -> Prop) (open : d -> Z) (stm : bool).

(** A step that neither opens nor releases a result set. *)
Definition keeps_sets (k k' : d) : Prop := ok k' /\ open k' = open k.
(** A query of a driver without open result sets. *)
Definition answers (out : db_error_t * db_result_t * d) : Prop :=
  let '(e, r, k) := out in ok k /\ open k = opened e r /\ usable stm r.
End laws.

(** What the layer relies on of a driver: a successful read opens one result set, a
    release closes it, and no other operation changes their number.  [driver_ok] is
    an invariant of the driver's own, while the connection is open, and
    [driver_closed] once it is not; the laws of the statements are needed only for clients that use them. *)
Class DriverLaws {d : Type} (stm : bool) (ops : drv_ops_t d) := {
  open_sets : d -> Z;
  driver_ok : d -> Prop;
  driver_closed : d -> Prop;
  query_law q r k : driver_ok k -> open_sets k = 0 -> usable stm r ->
    answers driver_ok open_sets stm (op_query ops q r k);
  execute_law s r k : stm = true -> driver_ok k -> open_sets k = 0 ->
    answers driver_ok open_sets stm (op_execute ops s r k);
  next_law f r k : op_next_result ops = Some f -> driver_ok k -> open_sets k = 0 -> usable stm r ->
    answers driver_ok open_sets stm (f r k);
  stmt_next_law f s r k : op_stmt_next_result ops = Some f -> stm = true -> driver_ok k -> open_sets k = 0 ->
    answers driver_ok open_sets stm (f s r k);
  free_law r k : driver_ok k -> open_sets k = 1 -> usable stm r ->
    driver_ok (snd (op_free_results ops r k)) /\ open_sets (snd (op_free_results ops r k)) = 0;
  fetch_law f r k : op_fetch_row ops = Some f -> driver_ok k -> keeps_sets driver_ok open_sets k (snd (f r k));
  describe_law f k : op_describe ops = Some f -> driver_ok k -> keeps_sets driver_ok open_sets k (snd (f k));
  prepare_law s q k : stm = true -> driver_ok k -> keeps_sets driver_ok open_sets k (snd (op_prepare ops s q k));
  bind_param_law s l k : stm = true -> driver_ok k -> keeps_sets driver_ok open_sets k (snd (op_bind_param ops s l k));
  bind_result_law s l k : stm = true -> driver_ok k -> keeps_sets driver_ok open_sets k (snd (op_bind_result ops s l k));
  close_law s k : stm = true -> driver_ok k -> keeps_sets driver_ok open_sets k (snd (op_close ops s k));
  disconnect_law k : driver_ok k -> driver_closed (snd (op_disconnect ops k)) /\ open_sets (snd (op_disconnect ops k)) = open_sets k;
  reconnect_law f k : op_reconnect ops = Some f -> driver_ok k ->
    open_sets (snd (f k)) = open_sets k /\
    if bool_decide (fst (f k) = DB_ERROR_FATAL) then driver_closed (snd (f k)) else driver_ok (snd (f k))
}.

(** The calls a client can make on a connection and its statements. *)
Inductive call :=
| Query (q : string)
| NextResult
| FreeResults
| FetchRow
| Prepare (q : string)
| BindParam (s : nat) (l : list db_bind_t)
| BindResult (s : nat) (l : list db_bind_t)
| Execute (s : nat)
| StmtNextResult (s : nat)
| CloseStmt (s : nat)
| Reconnect
| CloseConnection
| BulkInit (q : string) (len : Z)
| BulkNext (q : string) (len : Z)
| BulkDone.

Section lifecycle.
Context {d : Type} (ops : drv_ops_t d).

Definition run_call (a : call) (w : db_world d) : option (db_world d) :=
  match a with
  | Query q => Some (snd (db_query ops q w))
  | NextResult => Some (snd (db_next_result ops w))
  | FreeResults => Some (snd (db_free_results ops w))
  | FetchRow => snd <$> db_fetch_row ops w
  | Prepare q => Some (snd (db_prepare ops q w))
  | BindParam s l => snd <$> db_bind_param ops s l w
  | BindResult s l => snd <$> db_bind_result ops s l w
  | Execute s => snd <$> db_execute ops s w
  | StmtNextResult s => snd <$> db_stmt_next_result ops s w
  | CloseStmt s => snd <$> db_close ops s w
  | Reconnect => Some (snd (db_connection_reconnect ops w))
  | CloseConnection => Some (snd (db_connection_close ops w))
  | BulkInit q len => snd <$> db_bulk_insert_init ops q len w
  | BulkNext q len => snd <$> db_bulk_insert_next ops q len w
  | BulkDone => Some (snd (db_bulk_insert_done ops w))
  end.

Fixpoint run_calls (l : list call) (w : db_world d) : option (db_world d) :=
  match l with [] => Some w | a :: l => w ← run_call a w; run_calls l w end.

Context (stm : bool) `{!DriverLaws stm ops}.

(** Calls of clients without prepared statements. *)
Definition allowed (a : call) : Prop :=
  match a with
  | Prepare _ | BindParam _ _ | BindResult _ _ | Execute _ | StmtNextResult _ | CloseStmt _ => stm = true
  | _ => True
  end.

(** The driver holds a result set exactly in the state [DB_CONN_RESULT_SET]. *)
Definition sets_ok (w : db_world d) : Prop :=
  (if bool_decide (state (con w) = DB_CONN_INVALID) then driver_closed (drv w) else driver_ok (drv w))
  /\ usable stm (rs (con w)) /\ open_sets (drv w) = b2z (bool_decide (state (con w) = DB_CONN_RESULT_SET)).

Lemma sets_none w : sets_ok w -> state (con w) <> DB_CONN_RESULT_SET -> open_sets (drv w) = 0.
Proof using Type. intros (_ & _ & E) Hs. by rewrite bool_decide_false in E. Qed.

Lemma free_sets w : sets_ok w -> state (con w) = DB_CONN_RESULT_SET ->
  let '(rc, w') := db_free_results_int ops w in sets_ok w' /\ state (con w') = DB_CONN_READY.
Proof using Type*.
  intros (Hk & Hu & Hw) Hs. unfold db_free_results_int. rewrite Hs in Hw, Hk.
  destruct (free_law (rs (con w)) (drv w) Hk Hw Hu) as [H1 H2].
  destruct (op_free_results ops (rs (con w)) (drv w)) as [rc k]. split; [|reflexivity].
  split_and!; [exact H1|by right|exact H2].
Qed.

Lemma enter_sets w : sets_ok w ->
  match enter ops w with
  | Closed => True
  | FreeFailed w' | Entered w' => sets_ok w' /\ state (con w') = DB_CONN_READY
  end.
Proof using Type*.
  intros Hw. unfold enter. destruct (state (con w)) eqn:Hs; [by split| |done].
  pose proof (free_sets w Hw Hs) as H. destruct (db_free_results_int ops w) as [rc w']. by destruct (rc =? 0).
Qed.

Lemma conclude_sets out w : state (con w) = DB_CONN_READY -> answers driver_ok open_sets stm out ->
  sets_ok (snd (conclude out w)).
Proof using Type*.
  destruct out as [[e r] k]. intros Hs (H1 & H2 & H3). unfold conclude, opened in *.
  destruct (bool_decide (e = DB_ERROR_NONE)); cbn [andb] in H2;
    [destruct (bool_decide (counter r = SB_CNT_READ))|]; split_and!; cbn; rewrite ?Hs; done.
Qed.

(** What an operation finds once it has started. *)
Lemma ready_sets w : sets_ok w /\ state (con w) = DB_CONN_READY ->
  driver_ok (drv w) /\ open_sets (drv w) = 0 /\ usable stm (rs (con w)).
Proof using Type.
  intros [Hw Hs]. pose proof Hw as (H1 & H2 & _). rewrite Hs in H1. split_and!; [exact H1| |done].
  apply sets_none; [done|]. by rewrite Hs.
Qed.

(** Changes of the connection that keep its state. *)
Lemma with_con_sets f w :
  (forall c, state (f c) = state c /\ (usable stm (rs c) -> usable stm (rs (f c)))) -> sets_ok w -> sets_ok (with_con f w).
Proof using Type.
  intros Hf (H1 & H2 & H3). destruct (Hf (con w)) as [Es Hu]. split_and!; cbn; [by rewrite Es|by apply Hu|by rewrite Es].
Qed.
Lemma open_ok w : sets_ok w ->
  state (con w) = DB_CONN_INVALID \/ state (con w) <> DB_CONN_INVALID /\ driver_ok (drv w).
Proof using Type. intros (H & _). destruct (state (con w)); [by right|by right|by left]. Qed.
Lemma with_drv_sets k w : state (con w) <> DB_CONN_INVALID ->
  keeps_sets driver_ok open_sets (drv w) k -> sets_ok w -> sets_ok (with_drv k w).
Proof using Type. intros Hs [H1 H2] (_ & H3 & H4). split_and!; cbn; [by rewrite bool_decide_false|done|by rewrite H2]. Qed.

Lemma query_sets q w : sets_ok w -> sets_ok (snd (db_query ops q w)).
Proof using Type*.
  intros Hw. unfold db_query. pose proof (enter_sets w Hw) as He.
  destruct (enter ops w) as [|w'|w']; cbn [snd];
    [by apply with_con_sets|by apply with_con_sets; [|apply He]|].
  destruct (ready_sets w' He) as (H1 & H2 & H3). by apply conclude_sets; [apply He|apply query_law].
Qed.

Lemma bulk_commit_sets b w : sets_ok w -> sets_ok (snd (bulk_commit ops b w)).
Proof using Type*.
  intros Hw. unfold bulk_commit. destruct (negb _); [|by apply with_con_sets].
  set (w2 := with_con (set_commit_cnt _) _). assert (H2 : sets_ok w2) by (by apply with_con_sets).
  pose proof (query_sets "COMMIT" w2 H2) as H3. destruct (_ || _); [|by apply with_con_sets].
  destruct (query_failed _); [done|by apply with_con_sets].
Qed.

Lemma bulk_do_insert_sets b w : sets_ok w -> sets_ok (snd (db_bulk_do_insert ops b w)).
Proof using Type*.
  intros Hw. unfold db_bulk_do_insert. destruct (_ =? 0); [done|].
  pose proof (query_sets (bulk_query (con w)) w Hw) as H1.
  destruct (query_failed _); [done|]. by apply bulk_commit_sets.
Qed.

Lemma next_result_sets w : sets_ok w -> sets_ok (snd (db_next_result ops w)).
Proof using Type*.
  intros Hw. unfold db_next_result. pose proof (enter_sets w Hw) as He.
  destruct (enter ops w) as [|w'|w']; cbn [snd]; [by apply with_con_sets|by apply with_con_sets; [|apply He]|].
  destruct (op_next_result ops) as [f|] eqn:Ef; [|by apply with_con_sets; [|apply He]].
  destruct (ready_sets w' He) as (H1 & H2 & H3). by apply conclude_sets; [apply He|apply next_law].
Qed.

Lemma fetch_row_sets w out : sets_ok w -> db_fetch_row ops w = Some out -> sets_ok (snd out).
Proof using Type*.
  intros Hw H. unfold db_fetch_row in H. destruct (state (con w)) eqn:Hs; simplify_eq; try exact Hw.
  destruct (_ || _); simplify_eq; [exact Hw|]. destruct (op_fetch_row ops) as [f|] eqn:Ef; [|discriminate].
  set (r := DbResult _ _ _ _ _) in H. pose proof Hw as (_ & Hu & _).
  assert (Hk' : driver_ok (drv w)) by (destruct (open_ok w Hw) as [E|[_ ?]]; [by rewrite Hs in E|done]). pose proof (fetch_law f r (drv w) Ef Hk') as L.
  destruct (f r (drv w)) as [rc k]. injection H as <-. cbn [snd].
  assert (Hd : sets_ok (with_drv k w)) by (apply with_drv_sets; [by rewrite Hs|done..]). destruct Hd as (? & _ & ?). by split_and!.
Qed.

Lemma execute_sets s w out : stm = true -> sets_ok w -> db_execute ops s w = Some out -> sets_ok (snd out).
Proof using Type*.
  intros Hst Hw H. unfold db_execute, alive in H. destruct (bool_decide _); [|discriminate]. injection H as <-.
  pose proof (enter_sets w Hw) as He. destruct (enter ops w) as [|w'|w']; [exact Hw|apply He|].
  destruct (ready_sets w' He) as (H1 & H2 & H3). apply conclude_sets; [apply He|]. by apply execute_law.
Qed.

Lemma stmt_next_result_sets s w out :
  stm = true -> sets_ok w -> db_stmt_next_result ops s w = Some out -> sets_ok (snd out).
Proof using Type*.
  intros Hst Hw H. unfold db_stmt_next_result, alive in H. destruct (bool_decide _); [|discriminate]. injection H as <-.
  pose proof (enter_sets w Hw) as He. destruct (enter ops w) as [|w'|w']; [exact Hw|apply He|].
  destruct (ready_sets w' He) as (H1 & H2 & H3).
  assert (Hset : sets_ok (with_con (fun c => set_rs (set_statement (Some s) (rs c)) c) w')).
  { apply with_con_sets; [|apply He]. intros c. split; [done|]. intros _. by left. }
  destruct (op_stmt_next_result ops) as [f|] eqn:Ef; [|by apply with_con_sets].
  apply conclude_sets; [apply He|]. by apply stmt_next_law.
Qed.

Lemma prepare_sets q w : stm = true -> sets_ok w -> sets_ok (snd (db_prepare ops q w)).
Proof using Type*.
  intros Hst Hw. unfold db_prepare. destruct (open_ok w Hw) as [Hs|[Hs Hk]]; [by rewrite Hs|].
  pose proof (prepare_law (fresh (stmts w)) q (drv w) Hst Hk) as L. destruct (op_prepare _ _ _ _) as [rc k].
  pose proof (with_drv_sets k w Hs L Hw) as H.
  destruct (state (con w)); try exact Hw; (destruct (negb _); [by apply with_con_sets|exact H]).
Qed.

Lemma bind_sets s l w out : stm = true -> sets_ok w ->
  db_bind_param ops s l w = Some out \/ db_bind_result ops s l w = Some out -> sets_ok (snd out).
Proof using Type*.
  intros Hst Hw [H|H]; unfold db_bind_param, db_bind_result, alive in H; destruct (bool_decide _); try discriminate;
    injection H as <-.
  - destruct (open_ok w Hw) as [Hs|[Hs Hk]]; [by rewrite Hs|]. pose proof (bind_param_law s l (drv w) Hst Hk) as L.
    destruct (op_bind_param ops s l (drv w)) as [rc k]. pose proof (with_drv_sets k w Hs L Hw).
    by destruct (state (con w)).
  - destruct (open_ok w Hw) as [Hs|[Hs Hk]]; [by rewrite Hs|]. pose proof (bind_result_law s l (drv w) Hst Hk) as L.
    destruct (op_bind_result ops s l (drv w)) as [rc k]. pose proof (with_drv_sets k w Hs L Hw).
    by destruct (state (con w)).
Qed.

Lemma close_stmt_sets s w out : stm = true -> sets_ok w -> db_close ops s w = Some out -> sets_ok (snd out).
Proof using Type*.
  intros Hst Hw H. unfold db_close, alive in H. destruct (bool_decide _); [|discriminate]. injection H as <-.
  pose proof (enter_sets w Hw) as He. destruct (enter ops w) as [|w'|w']; [exact Hw|apply He|].
  destruct (ready_sets w' He) as (H1 & _).
  pose proof (close_law s (drv w') Hst H1) as L. destruct (op_close ops s (drv w')) as [rc k].
  apply (with_drv_sets k w'); [destruct He as [_ ->]|exact L|apply He]; done.
Qed.

(** Both ways a connection ends release the results first. *)
Definition released (w : db_world d) : db_world d :=
  match state (con w) with DB_CONN_RESULT_SET => snd (db_free_results_int ops w) | _ => w end.

Lemma released_none w : sets_ok w ->
  state (con w) = DB_CONN_INVALID \/
  driver_ok (drv (released w)) /\ open_sets (drv (released w)) = 0 /\ usable stm (rs (con (released w))).
Proof using Type*.
  intros Hw. unfold released. destruct (state (con w)) eqn:Hs; [right|right|by left].
  - by apply ready_sets.
  - pose proof (free_sets w Hw Hs) as H. destruct (db_free_results_int ops w) as [rc w']. by apply ready_sets.
Qed.

Lemma close_sets w : sets_ok w -> sets_ok (snd (db_connection_close ops w)).
Proof using Type*.
  intros Hw. unfold db_connection_close. destruct (released_none w Hw) as [Hs|(Hk & Hr & Hu)]; [by rewrite Hs|].
  unfold released in Hk, Hr, Hu. destruct (state (con w)); try exact Hw;
    match goal with |- context [op_disconnect ops (drv ?w1)] =>
      destruct (disconnect_law (drv w1) Hk) as [L1 L2]; destruct (op_disconnect ops (drv w1)) as [rc k] end;
    cbn in *; split_and!; cbn; by rewrite ?L2.
Qed.

Lemma reconnect_sets w : sets_ok w -> sets_ok (snd (db_connection_reconnect ops w)).
Proof using Type*.
  intros Hw. unfold db_connection_reconnect. destruct (op_reconnect ops) as [f|] eqn:Ef; [|exact Hw].
  destruct (released_none w Hw) as [Hs|(Hk & Hr & Hu)]; [by rewrite Hs|]. unfold released in Hk, Hr, Hu.
  destruct (state (con w)); try exact Hw;
    match goal with |- context [f (drv ?w1)] =>
      destruct (reconnect_law f (drv w1) Ef Hk) as [L1 L2]; destruct (f (drv w1)) as [rc k] end;
    cbn [fst snd] in *; revert L2; destruct (bool_decide (rc = DB_ERROR_FATAL)); intros L2; split_and!; cbn; by rewrite ?L1.
Qed.

Lemma bulk_init_sets q len w out : sets_ok w -> db_bulk_insert_init ops q len w = Some out -> sets_ok (snd out).
Proof using Type*.
  intros Hw H. pose proof (enter_sets w Hw) as He. unfold db_bulk_insert_init in H.
  destruct (enter ops w) as [|w'|w']; simplify_eq; [exact Hw|apply He|]. pose proof He as HeS. destruct He as [He _].
  assert (L : keeps_sets driver_ok open_sets (drv w') (snd (db_describe ops (drv w')))).
  { destruct (ready_sets w' HeS) as (Hk & _). unfold db_describe. destruct (op_describe ops) as [f|] eqn:Ef; [|by split].
    pose proof (describe_law f (drv w') Ef Hk). by destruct (f (drv w')) as [[? ?] ?]. }
  destruct (db_describe ops (drv w')) as [[rc caps] k]. cbn [snd] in L.
  assert (Hk : sets_ok (with_drv k w')) by (apply with_drv_sets; [destruct HeS as [_ ->]|..]; done).
  destruct (negb _); simplify_eq; [exact Hk|]. destruct (_ <? _); simplify_eq; [exact Hk|].
  apply bind_Some in H as (b & _ & H). injection H as <-. by apply with_con_sets.
Qed.

Lemma bulk_next_sets q len w out : sets_ok w -> db_bulk_insert_next ops q len w = Some out -> sets_ok (snd out).
Proof using Type*.
  intros Hw H. pose proof (enter_sets w Hw) as He. unfold db_bulk_insert_next in H.
  destruct (enter ops w) as [|w'|w']; simplify_eq; [exact Hw|apply He|]. destruct He as [He _].
  destruct (bulk_buffer (con w')); simplify_eq; [|exact He].
  destruct (_ && _); simplify_eq; [exact He|]. set (full := _ <? _) in H.
  assert (H1 : sets_ok (snd (if full then db_bulk_do_insert ops false w' else (0, w')))).
  { destruct full; [by apply bulk_do_insert_sets|exact He]. }
  destruct (if full then _ else _) as [rc w1]. cbn [snd] in H1.
  destruct (negb _); simplify_eq; [exact H1|].
  apply bind_Some in H as (b & _ & H). injection H as <-. by apply with_con_sets.
Qed.

Lemma bulk_done_sets w : sets_ok w -> sets_ok (snd (db_bulk_insert_done ops w)).
Proof using Type*.
  intros Hw. unfold db_bulk_insert_done. pose proof (bulk_do_insert_sets true w Hw) as H.
  destruct (db_bulk_do_insert ops true w) as [rc w1]. destruct (negb _); [exact H|by apply with_con_sets].
Qed.

Lemma free_results_sets w : sets_ok w -> sets_ok (snd (db_free_results ops w)).
Proof using Type*.
  intros Hw. unfold db_free_results. destruct (state (con w)) eqn:Hs; try exact Hw.
  pose proof (free_sets w Hw Hs) as H. destruct (db_free_results_int ops w). apply H.
Qed.

Lemma call_sets a w w' : allowed a -> sets_ok w -> run_call a w = Some w' -> sets_ok w'.
Proof using Type*.
  intros Ha Hw H. destruct a as [q| | | |q|s l|s l|s|s|s| | |q n|q n|]; cbn [run_call allowed] in *;
    try (apply fmap_Some in H as (out & H & ->)); try (injection H as <-);
    [exact (query_sets q w Hw)|exact (next_result_sets w Hw)|exact (free_results_sets w Hw)
    |exact (fetch_row_sets w out Hw H)|exact (prepare_sets q w Ha Hw)|exact (bind_sets s l w out Ha Hw (or_introl H))
    |exact (bind_sets s l w out Ha Hw (or_intror H))|exact (execute_sets s w out Ha Hw H)
    |exact (stmt_next_result_sets s w out Ha Hw H)|exact (close_stmt_sets s w out Ha Hw H)|exact (reconnect_sets w Hw)
    |exact (close_sets w Hw)|exact (bulk_init_sets q n w out Hw H)|exact (bulk_next_sets q n w out Hw H)
    |exact (bulk_done_sets w Hw)].
Qed.

(** A closed connection is left alone. *)
Lemma closed_call a w w' : state (con w) = DB_CONN_INVALID -> run_call a w = Some w' ->
  drv w' = drv w /\ cnts w' = cnts w /\ state (con w') = DB_CONN_INVALID.
Proof using Type.
  intros Hs H. assert (He : enter ops w = Closed) by (unfold enter; by rewrite Hs).
  destruct a; cbn [run_call] in H; try (apply fmap_Some in H as (out & H & ->)); simplify_eq;
    unfold db_next_result, db_free_results, db_fetch_row, db_prepare, db_bind_param, db_bind_result,
      db_execute, db_stmt_next_result, db_close, db_connection_reconnect, db_connection_close, db_bulk_insert_init,
      db_bulk_insert_next, db_bulk_insert_done, db_bulk_do_insert, bulk_commit, query_failed, db_query, alive in *;
    rewrite ?He, ?Hs in *; simplify_eq/=;
    try (destruct (bool_decide _); simplify_eq/=); try (destruct (op_reconnect ops); simplify_eq/=);
    try (destruct (bulk_cnt (con w) =? 0)); rewrite ?Hs; done.
Qed.

Lemma closed_calls l : forall w w', state (con w) = DB_CONN_INVALID -> run_calls l w = Some w' ->
  drv w' = drv w /\ cnts w' = cnts w /\ state (con w') = DB_CONN_INVALID.
Proof using Type.
  induction l as [|a l IH]; intros w w' Hs H; cbn in H; [by simplify_eq|].
  apply bind_Some in H as (w1 & H1 & H). destruct (closed_call a w w1 Hs H1) as (<- & <- & Hs1). by apply IH.
Qed.

Lemma calls_sets l : forall w w', Forall allowed l -> sets_ok w -> run_calls l w = Some w' -> sets_ok w'.
Proof using Type*.
  induction l as [|a l IH]; intros w w' Hl Hw H; cbn in H; [by simplify_eq|].
  apply Forall_cons in Hl as [Ha Hl]. apply bind_Some in H as (w1 & H1 & H).
  by apply (IH w1); [|eapply call_sets|].
Qed.

(** C13: whatever calls a client makes on a connection, in any order and with any
    errors, the driver holds one result set while the connection is in the state
    [DB_CONN_RESULT_SET] and none otherwise: each is released exactly once, before
    the next query, reconnect or close.  Once the connection is closed no call
    reaches the driver or the counters.  Drivers whose laws do not cover prepared
    statements promise it to clients that use none. *)
Theorem result_sets_released l w w' :
  Forall allowed l -> sets_ok w -> run_calls l w = Some w' ->
  sets_ok w' /\
  (state (con w') = DB_CONN_INVALID -> open_sets (drv w') = 0 /\
   forall l2 w2, run_calls l2 w' = Some w2 ->
     drv w2 = drv w' /\ cnts w2 = cnts w' /\ state (con w2) = DB_CONN_INVALID).
Proof using Type*.
  intros Hl Hw H. pose proof (calls_sets l w w' Hl Hw H) as Hw'. split; [exact Hw'|]. intros Hs.
  split; [apply sets_none; [done|by rewrite Hs]|]. intros l2 w2. by apply closed_calls.
Qed.
End lifecycle.

(** ** A driver in memory

    For the witnesses: it keeps the queries it got and counts its result sets;
    the query "SELECT" is a read. *)
Record memd := Memd { log : list string; open : Z }.

Definition mem_answer (q : string) (r : db_result_t) (k : memd) : db_error_t * db_result_t * memd :=
  if String.eqb q "SELECT"
  then (DB_ERROR_NONE, DbResult SB_CNT_READ 1 1 (statement r) (row_values r), Memd (log k ++ [q]) (open k + 1))
  else (DB_ERROR_NONE, DbResult SB_CNT_WRITE 0 0 (statement r) (row_values r), Memd (log k ++ [q]) (open k)).

Definition mem_ops : drv_ops_t memd := {|
  op_init k := (0, k);
  op_thread_init := None;
  op_thread_done := None;
  op_describe := Some (fun k => (0, DrvCaps true true true true false false, k));
  op_connect k := (0, k);
  op_disconnect k := (0, k);
  op_reconnect := None;
  op_prepare s q k := (0, k);
  op_bind_param s l k := (0, k);
  op_bind_result s l k := (0, k);
  op_execute s r k := mem_answer "SELECT" r k;
  op_stmt_next_result := None;
  op_fetch_row := None;
  op_query := mem_answer;
  op_more_results := None;
  op_next_result := None;
  op_free_results r k := (0, Memd (log k) (open k - 1));
  op_close s k := (0, k);
  op_done k := (0, k)
|}.

#[export] Instance mem_laws : DriverLaws true mem_ops.
Proof.
  assert (H : forall q r k, open k = 0 -> answers (fun _ => True) open true (mem_answer q r k)).
  { intros q r k Hk. unfold mem_answer. destruct (String.eqb q "SELECT"); (split_and!; [done| |by left]); cbn; by rewrite Hk. }
  refine {| open_sets := open : memd -> Z; driver_ok := fun _ => True; driver_closed := fun _ => True |}; try (intros; discriminate); try (intros; by split).
  - intros q r k _ Hk _. by apply H.
  - intros s r k _ _ Hk. by apply H.
  - intros r k _ Hk _. split; [done|]. cbn. lia.
  - intros f k [= <-] _. by split.
Defined.

Definition mem_world : db_world memd :=
  Db (DbConn DB_ERROR_NONE new_rs DB_CONN_READY 0 0 0 None 0 0 0 0) (Memd [] 0) (sb_counters_init 1) ∅.

Lemma result_sets_released_witness :
  exists w', run_calls mem_ops [Query "SELECT"; Query "SELECT"; Prepare "SELECT"; Execute 0; CloseConnection] mem_world
             = Some w' /\ sets_ok mem_ops true w' /\ log (drv w') = ["SELECT"; "SELECT"; "SELECT"]%string.
Proof.
  assert (exists w', run_calls mem_ops [Query "SELECT"; Query "SELECT"; Prepare "SELECT"; Execute 0; CloseConnection]
                       mem_world = Some w') as [w' E] by (eexists; vm_compute; reflexivity).
  exists w'. split; [exact E|]. split.
  - apply (result_sets_released mem_ops true [Query "SELECT"; Query "SELECT"; Prepare "SELECT"; Execute 0; CloseConnection]
             mem_world w'); [repeat constructor|split_and!; [done|by left|reflexivity]|exact E].
  - vm_compute in E. injection E as <-. reflexivity.
Defined.

(** ** Multi-row inserts deliver every row once *)

(** What the theorem relies on of a driver: a query reaches the server, the
    results of the previous query are released without error, and neither that
    nor the description of the driver sends anything. *)
Class QueryLaws {d : Type} (ops : drv_ops_t d) := {
  sent : d -> list string;
  query_sent q r k : sent (snd (op_query ops q r k)) = sent k ++ [q];
  free_sent r k : fst (op_free_results ops r k) = 0 /\ sent (snd (op_free_results ops r k)) = sent k;
  describe_sent f k : op_describe ops = Some f -> sent (snd (f k)) = sent k
}.

(** Rows separated by commas, after the header of the statement. *)
Fixpoint join (rows : list string) : string :=
  match rows with
  | [] => ""
  | [r] => r
  | r :: rows => r +:+ "," +:+ join rows
  end.
Definition packet (header : string) (rows : list string) : string := header +:+ join rows.

(** The queries for full packets: a COMMIT follows when enough rows have been
    sent since the last one. *)
Definition send_group (header : string) (max : Z) (st : list string * Z) (g : list string) : list string * Z :=
  let '(l, cnt) := st in
  let l := l ++ [packet header g] in
  if max =? 0 then (l, cnt)
  else
    let n := cnt + Z.of_nat (length g) in
    if max <=? n then (l ++ ["COMMIT"%string], 0) else (l, n).
Definition sent_for (header : string) (max : Z) (gs : list (list string)) : list string * Z :=
  foldl (send_group header max) ([], 0) gs.
(** The last packet, sent at the end and always committed. *)
Definition sent_last (header : string) (max : Z) (g : list string) : list string :=
  match g with
  | [] => []
  | _ => packet header g :: (if max =? 0 then [] else ["COMMIT"%string])
  end.

Lemma join_snoc g r : join (g ++ [r]) = if bool_decide (g = []) then r else join g +:+ "," +:+ r.
Proof.
  induction g as [|x g IH]; [done|]. destruct g as [|y g]; [done|].
  change (join ((x :: y :: g) ++ [r])) with (x +:+ "," +:+ join ((y :: g) ++ [r])). rewrite IH.
  rewrite !bool_decide_eq_false_2 by done.
  change (join (x :: y :: g)) with (x +:+ "," +:+ join (y :: g)). by rewrite !str_append_assoc.
Qed.

Section bulk.
Context {d : Type} (ops : drv_ops_t d) `{!QueryLaws ops}.
Context (header : string) (max : Z) (s0 : list string).
Hypothesis max_ok : 0 <= max <= ROWS_BEFORE_COMMIT.

(** Between two calls: packets for the groups [gs] have been sent, and the
    buffer holds the rows [g]. *)
Record bulk_inv (gs : list (list string)) (g : list string) (w : db_world d) : Prop := BulkInv {
  bi_open : state (con w) <> DB_CONN_INVALID;
  bi_cnt : bulk_cnt (con w) = Z.of_nat (length g);
  bi_len : bulk_buflen (con w) = BULK_PACKET_SIZE;
  bi_buffer : exists tail, bulk_buffer (con w) = Some (packet header g +:+ tail);
  bi_ptr : bulk_ptr (con w) = strlen (packet header g);
  bi_values : bulk_values (con w) = strlen header;
  bi_commit : bulk_commit_cnt (con w) = snd (sent_for header max gs);
  bi_max : bulk_commit_max (con w) = max;
  bi_sent : sent (drv w) = s0 ++ fst (sent_for header max gs);
  bi_fits : strlen (packet header g) + 1 <= BULK_PACKET_SIZE;
  bi_rows : Z.of_nat (length g) <= strlen (packet header g) + 1;
  bi_count : 0 <= snd (sent_for header max gs) <= max
}.

(** The insert's fields and the log do not change when a call starts. *)
Definition same_insert (c c' : db_conn_t) : Prop :=
  bulk_cnt c' = bulk_cnt c /\ bulk_buflen c' = bulk_buflen c /\ bulk_buffer c' = bulk_buffer c
  /\ bulk_ptr c' = bulk_ptr c /\ bulk_values c' = bulk_values c /\ bulk_commit_max c' = bulk_commit_max c.
Definition same_bulk (c c' : db_conn_t) : Prop := same_insert c c' /\ bulk_commit_cnt c' = bulk_commit_cnt c.

Lemma same_insert_trans c1 c2 c3 : same_insert c1 c2 -> same_insert c2 c3 -> same_insert c1 c3.
Proof using Type. unfold same_insert. intros (-> & -> & -> & -> & -> & ->). done. Qed.

Lemma enter_open w : state (con w) <> DB_CONN_INVALID ->
  exists w', enter ops w = Entered w' /\ state (con w') = DB_CONN_READY /\ same_bulk (con w) (con w')
    /\ sent (drv w') = sent (drv w).
Proof using Type*.
  intros Hs. unfold enter. destruct (state (con w)) eqn:E; [by exists w| |done].
  unfold db_free_results_int. destruct (free_sent (rs (con w)) (drv w)) as [L1 L2].
  destruct (op_free_results ops (rs (con w)) (drv w)) as [rc k]. cbn in L1, L2. subst rc. cbn [Z.eqb].
  eexists. split; [reflexivity|]. split; [reflexivity|]. split; [by repeat split|exact L2].
Qed.

(** A query of an open connection is sent; it fails or leaves the connection open. *)
Lemma query_open q w : state (con w) <> DB_CONN_INVALID ->
  let out := db_query ops q w in
  state (con (snd out)) <> DB_CONN_INVALID /\ same_bulk (con w) (con (snd out))
  /\ sent (drv (snd out)) = sent (drv w) ++ [q].
Proof using Type*.
  intros Hs out. unfold out, db_query. destruct (enter_open w Hs) as (w' & -> & Hr & Hb & E).
  unfold conclude. pose proof (query_sent q (rs (con w')) (drv w')) as L.
  destruct (op_query ops q (rs (con w')) (drv w')) as [[e r] k]. cbn in L. rewrite E in L.
  destruct (bool_decide (e = _)); [destruct (bool_decide (counter r = _))|]; cbn;
    (split; [first [discriminate|by rewrite Hr]|split; [exact Hb|exact L]]).
Qed.

Lemma bulk_query_packet gs g w : bulk_inv gs g w -> bulk_query (con w) = packet header g.
Proof using Type.
  intros [_ _ _ [tail Hb] Hp _ _ _ _ _ _ _]. unfold bulk_query. rewrite Hb, Hp. unfold strlen. rewrite Nat2Z.id.
  apply substring_prefix.
Qed.

Lemma sent_for_snoc gs g : sent_for header max (gs ++ [g]) = send_group header max (sent_for header max gs) g.
Proof using Type. unfold sent_for. by rewrite foldl_app. Qed.

(** After a flush the buffer still starts with the header. *)
Lemma rewound_inv gs g w w' :
  bulk_inv gs g w -> g <> [] -> same_insert (con w) (con w') ->
  state (con w') <> DB_CONN_INVALID -> sent (drv w') = s0 ++ fst (sent_for header max (gs ++ [g])) ->
  0 <= snd (sent_for header max (gs ++ [g])) <= max ->
  bulk_inv (gs ++ [g]) [] (with_con (fun c => rewind (set_commit_cnt (snd (sent_for header max (gs ++ [g]))) c)) w').
Proof using Type.
  intros [_ Hc Hl [tail Hb] Hp Hv Hcc Hm _ Hf Hr Hn] Hg (E1 & E2 & E3 & E4 & E5 & E7) Hs Hsent Hcnt.
  pose proof (strlen_nonneg (join g)) as Hj. unfold packet in *. rewrite strlen_app in *.
  split; cbn; unfold packet; cbn [join]; rewrite ?E2, ?E5, ?E7; try done.
  - exists (join g +:+ tail). rewrite E3, Hb. by rewrite !str_append_assoc.
  - rewrite strlen_app. unfold strlen at 2. cbn. lia.
  - rewrite strlen_app. unfold strlen at 2. cbn. lia.
  - rewrite strlen_app. pose proof (strlen_nonneg header). unfold strlen at 2. cbn. lia.
Qed.

Lemma sent_count gs g : 0 <= snd (sent_for header max gs) <= max -> 0 <= snd (sent_for header max (gs ++ [g])) <= max.
Proof using max_ok.
  intros H. rewrite sent_for_snoc. unfold send_group. destruct (sent_for header max gs) as [l cnt]. cbn [snd] in H.
  destruct (Z.eqb_spec max 0); [done|]. destruct (Z.leb_spec max (cnt + Z.of_nat (length g))); cbn; lia.
Qed.

Lemma not_failed (out : bool * db_world d) (w' : db_world d) (k : Z * db_world d) :
  (if query_failed out then (1, snd out) else k) = (0, w') -> k = (0, w').
Proof using Type. by destruct (query_failed out). Qed.

(** Whether a COMMIT follows a packet of [n] rows, and the count that is left. *)
Definition due (is_last : bool) (n : Z) : bool := negb (max =? 0) && (is_last || (max <=? n)).
Definition left (is_last : bool) (cnt n : Z) : Z :=
  if max =? 0 then cnt else if is_last || (max <=? n) then 0 else n.

Lemma commit_sent is_last (w w' : db_world d) :
  state (con w) <> DB_CONN_INVALID -> bulk_commit_max (con w) = max ->
  is_u32 (bulk_commit_cnt (con w) + bulk_cnt (con w)) -> bulk_commit ops is_last w = (0, w') ->
  let n := bulk_commit_cnt (con w) + bulk_cnt (con w) in
  exists w2, w' = with_con (fun c => rewind (set_commit_cnt (left is_last (bulk_commit_cnt (con w)) n) c)) w2
    /\ same_insert (con w) (con w2) /\ state (con w2) <> DB_CONN_INVALID
    /\ sent (drv w2) = sent (drv w) ++ (if due is_last n then ["COMMIT"%string] else []).
Proof using Type*.
  intros Hs Hm Hn H n. unfold bulk_commit in H. rewrite Hm, u32_small in H by done. fold n in H. unfold due, left.
  destruct (Z.eqb_spec max 0) as [E0|E0]; cbn [negb andb] in *.
  - injection H as <-. exists w. rewrite app_nil_r. split_and!; try done.
  - replace (bulk_commit_max (con (with_con (set_commit_cnt n) w))) with max in H by (cbn; by rewrite Hm).
    destruct (is_last || (max <=? n)).
    + apply not_failed in H. injection H as <-.
      destruct (query_open "COMMIT" (with_con (set_commit_cnt n) w)) as (Hs2 & [Hsame _] & Hsent); [exact Hs|].
      eexists. split_and!; [reflexivity|exact Hsame|exact Hs2|exact Hsent].
    + injection H as <-. exists w. rewrite app_nil_r. by split_and!.
Qed.

(** A flush that succeeds sends the packet, and a COMMIT when it is due. *)
Lemma flush_sent is_last gs g w w' :
  bulk_inv gs g w -> g <> [] -> db_bulk_do_insert ops is_last w = (0, w') ->
  sent (drv w') = s0 ++ (if is_last then fst (sent_for header max gs) ++ sent_last header max g
                         else fst (sent_for header max (gs ++ [g]))) /\
  bulk_commit_max (con w') = max /\
  (is_last = false -> bulk_inv (gs ++ [g]) [] w').
Proof using Type*.
  intros Hi Hg H. pose proof Hi as [Hs Hc _ _ _ _ Hcc Hm Hsent Hf Hr Hn].
  pose proof (sent_count gs g Hn) as Hn'. assert (Hlen : (0 < length g)%nat) by (destruct g; [done|cbn; lia]).
  unfold db_bulk_do_insert in H. rewrite Hc, (proj2 (Z.eqb_neq _ _)) in H by lia. apply not_failed in H.
  rewrite (bulk_query_packet gs g w Hi) in H.
  destruct (query_open (packet header g) w Hs) as (Hs1 & [Hsame Hcc1] & Hsent1).
  set (w1 := snd (db_query ops (packet header g) w)) in *. clearbody w1.
  pose proof Hsame as (Ec & _ & _ & _ & _ & Em). rewrite Hcc in Hcc1. rewrite Hc in Ec. rewrite Hm in Em.
  destruct (commit_sent is_last w1 w' Hs1 Em) as (w2 & -> & Hsame2 & Hs2 & Hsent2); [|exact H|].
  { rewrite Hcc1, Ec. unfold is_u32, ROWS_BEFORE_COMMIT, BULK_PACKET_SIZE in *. lia. }
  rewrite Hcc1, Ec in *. rewrite Hsent1, Hsent in Hsent2.
  pose proof (same_insert_trans _ _ _ Hsame Hsame2) as Hsame'.
  cbn [con drv with_con]. split; [|split].
  - rewrite Hsent2. unfold due. destruct is_last.
    + unfold sent_last. destruct g; [done|]. destruct (max =? 0); by rewrite <- !app_assoc.
    + rewrite sent_for_snoc. unfold send_group. destruct (sent_for header max gs) as [l cnt]. cbn [fst snd orb].
      destruct (max =? 0); [|destruct (max <=? _)]; cbn [negb andb fst]; by rewrite <- ?app_assoc.
  - cbn. destruct Hsame2 as (_ & _ & _ & _ & _ & ->). exact Em.
  - intros ->. replace (left _ _ _) with (snd (sent_for header max (gs ++ [g]))).
    + apply (rewound_inv gs g w w2); try done. rewrite Hsent2, sent_for_snoc. unfold send_group, due.
      destruct (sent_for header max gs) as [l cnt]. cbn [fst snd orb].
      destruct (max =? 0); [|destruct (max <=? _)]; cbn [negb andb fst]; by rewrite <- ?app_assoc.
    + rewrite sent_for_snoc. unfold send_group, left. destruct (sent_for header max gs) as [l cnt].
      cbn [fst snd orb]. by destruct (max =? 0); [|destruct (max <=? _)].
Qed.

Lemma packet_snoc g r :
  packet header (g ++ [r]) = packet header g +:+ (if bool_decide (g = []) then r else "," +:+ r).
Proof using Type.
  unfold packet. rewrite join_snoc. destruct g as [|x g].
  - rewrite bool_decide_eq_true_2 by done. cbn [join]. by rewrite str_append_assoc.
  - rewrite bool_decide_eq_false_2 by done. by rewrite str_append_assoc.
Qed.

Lemma first_row (g : list string) (w : db_world d) : bulk_cnt (con w) = Z.of_nat (length g) -> (0 <? bulk_cnt (con w)) = negb (bool_decide (g = [])).
Proof using Type. intros ->. by destruct g. Qed.

(** Appending a row that fits. *)
Lemma append_row gs g w r :
  bulk_inv gs g w -> strlen (packet header (g ++ [r])) + 1 <= BULK_PACKET_SIZE ->
  let more := 0 <? bulk_cnt (con w) in
  exists buffer,
    strcpy_at (bulk_query (con w)) (bulk_buflen (con w)) (bulk_ptr (con w)) (if more then "," +:+ r else r) = Some buffer
    /\ bulk_inv gs (g ++ [r])
         (with_con (set_bulk (u32 (bulk_cnt (con w) + 1)) (bulk_buflen (con w)) (Some buffer)
                      (u32 (bulk_ptr (con w) + strlen r + b2z more)) (bulk_values (con w))
                      (bulk_commit_cnt (con w)) (bulk_commit_max (con w))) w).
Proof using Type*.
  intros Hi Hfit more. pose proof (bulk_query_packet gs g w Hi) as Eq.
  destruct Hi as [Hs Hc Hl _ Hp Hv Hcc Hm Hsent Hf Hr Hn]. unfold more. rewrite (first_row g w Hc). clear more.
  set (text := if negb (bool_decide (g = [])) then "," +:+ r else r).
  assert (Etext : packet header (g ++ [r]) = packet header g +:+ text)
    by (rewrite packet_snoc; unfold text; by destruct (bool_decide (g = []))).
  assert (Elen : strlen text = strlen r + b2z (negb (bool_decide (g = [])))).
  { unfold text. destruct (bool_decide (g = [])); cbn [negb b2z]; [lia|]. rewrite strlen_app. unfold strlen at 1. cbn. lia. }
  rewrite Etext, strlen_app in Hfit. pose proof (strlen_nonneg r). pose proof (strlen_nonneg (packet header g)).
  assert (Hrows : Z.of_nat (length g) + 1 <= strlen (packet header g) + strlen text + 1).
  { rewrite Elen. destruct g; cbn in *; lia. }
  exists (packet header (g ++ [r])). rewrite Eq. unfold strcpy_at. rewrite Hl, Hp.
  destruct (Z.ltb_spec BULK_PACKET_SIZE (strlen (packet header g) + strlen text + 1)); [lia|].
  assert (Esub : String.substring 0 (Z.to_nat (strlen (packet header g))) (packet header g) = packet header g).
  { unfold strlen. rewrite Nat2Z.id. pose proof (substring_prefix (packet header g) "") as E.
    rewrite (str_append_nil_r (packet header g)) in E. exact E. }
  rewrite Esub, <- Etext. split; [reflexivity|].
  split; cbn; try done; rewrite ?Hc, ?length_app; cbn [length];
    rewrite ?u32_small by (unfold is_u32, BULK_PACKET_SIZE in *; lia).
  - lia.
  - exists "". by rewrite str_append_nil_r.
  - rewrite Etext, strlen_app, Elen. lia.
  - rewrite Etext, strlen_app. lia.
  - rewrite Etext, strlen_app. lia.
Qed.

(** What is known about the groups already sent. *)
Definition groups_ok (gs : list (list string)) : Prop :=
  Forall (fun g => g <> [] /\ strlen (packet header g) + 1 <= BULK_PACKET_SIZE) gs.

Lemma enter_inv gs g w : bulk_inv gs g w -> exists w', enter ops w = Entered w' /\ bulk_inv gs g w'.
Proof using Type*.
  intros [Hs Hc Hl Hb Hp Hv Hcc Hm Hsent Hf Hr Hn].
  destruct (enter_open w Hs) as (w' & E & Hr' & [(E1 & E2 & E3 & E4 & E5 & E6) E7] & E8).
  exists w'. split; [exact E|]. split; try congruence; try done.
  - by rewrite E3.
Qed.

Lemma next_row gs g w r :
  bulk_inv gs g w -> groups_ok gs -> strlen header + strlen r + 1 <= BULK_PACKET_SIZE ->
  exists rc w', db_bulk_insert_next ops r (strlen r) w = Some (rc, w') /\
    (rc = 0 -> exists gs' g', bulk_inv gs' g' w' /\ groups_ok gs' /\ concat gs' ++ g' = concat gs ++ g ++ [r] /\ g' <> []).
Proof using Type*.
  intros Hi0 Hok Hfit. destruct (enter_inv gs g w Hi0) as (w1 & Ee & Hi).
  unfold db_bulk_insert_next. rewrite Ee. clear w Hi0 Ee. pose proof Hi as [_ Hc Hl [tail Hb] Hp _ _ _ _ Hf Hr _]. rewrite Hb.
  assert (Etext : strlen (packet header (g ++ [r])) = bulk_ptr (con w1) + strlen r + b2z (0 <? bulk_cnt (con w1))).
  { rewrite packet_snoc, strlen_app, Hp, (first_row g w1 Hc). destruct (bool_decide (g = [])); cbn [negb b2z]; [lia|].
    rewrite strlen_app. unfold strlen at 2. cbn. lia. }
  pose proof (strlen_nonneg (packet header g)). pose proof (strlen_nonneg r).
  assert (0 <= b2z (0 <? bulk_cnt (con w1)) <= 1) by (destruct (0 <? _); cbn; lia).
  rewrite u64_small by (unfold is_u64, BULK_PACKET_SIZE in *; pose proof (strlen_nonneg header); lia).
  destruct (Z.ltb_spec (bulk_buflen (con w1)) (bulk_ptr (con w1) + strlen r + 1 + b2z (0 <? bulk_cnt (con w1)))) as [Hfull|Hroom].
  - destruct g as [|x g0].
    { rewrite Hc. cbn [length Z.of_nat Z.eqb andb]. by exists 1, w1. }
    set (g := x :: g0) in *. rewrite Hc, (proj2 (Z.eqb_neq _ _)) by (cbn; lia). cbn [andb].
    destruct (db_bulk_do_insert ops false w1) as [rc w2] eqn:Ed. destruct (Z.eqb_spec rc 0) as [->|]; cbn [negb];
      [|by exists 1, w2].
    destruct (flush_sent false gs g w1 w2 Hi ltac:(done) Ed) as (_ & _ & Hi2). specialize (Hi2 eq_refl).
    destruct (append_row (gs ++ [g]) [] w2 r Hi2) as (buffer & E & Hi3).
    { unfold packet. cbn. rewrite strlen_app. lia. }
    rewrite E. cbn [mbind option_bind]. eexists 0, _. split; [reflexivity|]. intros _. exists (gs ++ [g]), [r].
    split_and!; [exact Hi3| |by rewrite concat_app, <- !app_assoc; cbn; rewrite app_nil_r|done].
    apply Forall_app. split; [exact Hok|]. by apply Forall_singleton.
  - cbn [andb negb Z.eqb]. destruct (append_row gs g w1 r Hi) as (buffer & E & Hi3); [rewrite Etext; lia|].
    rewrite E. cbn [mbind option_bind]. eexists 0, _. split; [reflexivity|]. intros _. exists gs, (g ++ [r]).
    split_and!; [exact Hi3|exact Hok|done|]. by destruct g.
Qed.

(** The rows of an insert, until one fails. *)
Fixpoint insert_rows (rows : list string) (w : db_world d) : option (Z * db_world d) :=
  match rows with
  | [] => Some (0, w)
  | r :: rows =>
      out ← db_bulk_insert_next ops r (strlen r) w;
      if fst out =? 0 then insert_rows rows (snd out) else Some out
  end.

Lemma insert_rows_inv rows : forall gs g w rc w',
  bulk_inv gs g w -> groups_ok gs -> Forall (fun r => strlen header + strlen r + 1 <= BULK_PACKET_SIZE) rows ->
  (g = [] -> gs = []) -> insert_rows rows w = Some (rc, w') -> rc = 0 ->
  exists gs' g', bulk_inv gs' g' w' /\ groups_ok gs' /\ concat gs' ++ g' = concat gs ++ g ++ rows /\ (g' = [] -> gs' = []).
Proof using Type*.
  induction rows as [|r rows IH]; intros gs g w rc w' Hi Hok Hfit He H Hrc; cbn [insert_rows] in H.
  - simplify_eq. exists gs, g. by rewrite app_nil_r.
  - apply Forall_cons in Hfit as [Hr Hfit]. destruct (next_row gs g w r Hi Hok Hr) as (rc1 & w1 & E & H1).
    rewrite E in H. cbn [mbind option_bind fst snd] in H. destruct (Z.eqb_spec rc1 0) as [->|]; [|simplify_eq; done].
    destruct (H1 eq_refl) as (gs1 & g1 & Hi1 & Hok1 & Ec & Hne).
    destruct (IH gs1 g1 w1 rc w' Hi1 Hok1 Hfit) as (gs2 & g2 & ? & ? & Ec2 & ?); [done|done|done|].
    exists gs2, g2. split_and!; try done. rewrite Ec2, app_assoc, Ec. by rewrite <- !app_assoc.
Qed.

Lemma insert_rows_defined rows : forall gs g w,
  bulk_inv gs g w -> groups_ok gs -> Forall (fun r => strlen header + strlen r + 1 <= BULK_PACKET_SIZE) rows ->
  is_Some (insert_rows rows w).
Proof using Type*.
  induction rows as [|r rows IH]; intros gs g w Hi Hok Hfit; cbn [insert_rows]; [done|].
  apply Forall_cons in Hfit as [Hr Hfit]. destruct (next_row gs g w r Hi Hok Hr) as (rc1 & w1 & E & H1). rewrite E.
  cbn [mbind option_bind fst snd]. destruct (Z.eqb_spec rc1 0) as [->|]; [|done].
  destruct (H1 eq_refl) as (gs1 & g1 & Hi1 & Hok1 & _). by apply (IH gs1 g1).
Qed.
End bulk.

Section bulk_insert.
Context {d : Type} (ops : drv_ops_t d) `{!QueryLaws ops}.

(** A whole insert, as a client makes it. *)
Definition bulk_insert (header : string) (rows : list string) (w : db_world d) : option (Z * db_world d) :=
  out ← db_bulk_insert_init ops header (strlen header) w;
  if fst out =? 0 then
    out ← insert_rows ops rows (snd out);
    Some (if fst out =? 0 then db_bulk_insert_done ops (snd out) else out)
  else Some out.

(** [db_bulk_insert_init] of an open connection starts an empty packet. *)
Lemma init_inv header (w : db_world d) :
  state (con w) <> DB_CONN_INVALID -> strlen header + 1 <= BULK_PACKET_SIZE ->
  exists rc w', db_bulk_insert_init ops header (strlen header) w = Some (rc, w') /\
    (rc = 0 -> exists max, 0 <= max <= ROWS_BEFORE_COMMIT /\ bulk_inv ops header max (sent (drv w)) [] [] w').
Proof using Type*.
  intros Hs Hlen. destruct (enter_open ops w Hs) as (w1 & E & Hr & _ & Hsent). unfold db_bulk_insert_init. rewrite E.
  pose proof (strlen_nonneg header) as Hp. assert (strlen (packet header []) = strlen header) as Ep
    by (unfold packet; cbn [join]; by rewrite str_append_nil_r).
  assert (Ed : sent (snd (db_describe ops (drv w1))) = sent (drv w)).
  { unfold db_describe. destruct (op_describe ops) as [f|] eqn:Ef; [|done].
    pose proof (describe_sent f (drv w1) Ef). destruct (f (drv w1)) as [[? ?] ?]. cbn in *. congruence. }
  destruct (db_describe ops (drv w1)) as [[rc caps] k]. cbn [snd] in Ed.
  destruct (negb (rc =? 0)); [by eexists 1, _|].
  rewrite u64_small by (unfold is_u64, BULK_PACKET_SIZE in *; lia). rewrite (proj2 (Z.ltb_ge _ _)) by lia.
  unfold strcpy_at. rewrite (proj2 (Z.ltb_ge _ _)) by lia. cbn [mbind option_bind].
  eexists 0, _. split; [reflexivity|]. intros _. set (max := match caps with Some _ => _ | None => _ end).
  assert (0 <= max <= ROWS_BEFORE_COMMIT) by (unfold max, ROWS_BEFORE_COMMIT; destruct caps as [c|]; [destruct (needs_commit c)|]; lia).
  exists max. split; [done|].
  split; cbn; rewrite ?Ep, ?u32_small by (unfold is_u32, BULK_PACKET_SIZE in *; lia); try done; try lia.
  - by rewrite Hr.
  - exists "". unfold packet. cbn [join]. by rewrite !str_append_nil_r.
  - by rewrite app_nil_r.
Qed.

(** C14: a multi-row insert of rows that fit in a packet never writes past its
    buffer, and when its calls return 0 every row has been sent exactly once and
    in order: the rows are split into packets of at most [BULK_PACKET_SIZE] bytes,
    each the header and its rows, with a COMMIT after every packet that completes
    1000 rows (if the driver needs commits) and after the last one; the buffer has
    been released. *)
Theorem bulk_insert_delivers header rows (w : db_world d) :
  state (con w) <> DB_CONN_INVALID -> strlen header + 1 <= BULK_PACKET_SIZE ->
  Forall (fun r => strlen header + strlen r + 1 <= BULK_PACKET_SIZE) rows ->
  exists rc w', bulk_insert header rows w = Some (rc, w') /\
    (rc = 0 -> exists gs g,
       concat gs ++ g = rows
       /\ Forall (fun g => g <> [] /\ strlen (packet header g) + 1 <= BULK_PACKET_SIZE) gs
       /\ (g = [] -> rows = []) /\ strlen (packet header g) + 1 <= BULK_PACKET_SIZE
       /\ sent (drv w') = sent (drv w) ++ fst (sent_for header (bulk_commit_max (con w')) gs)
                          ++ sent_last header (bulk_commit_max (con w')) g
       /\ bulk_buffer (con w') = None).
Proof using Type*.
  intros Hs Hlen Hrows. destruct (init_inv header w Hs Hlen) as (rc0 & w0 & E0 & H0).
  unfold bulk_insert. rewrite E0. cbn [mbind option_bind fst snd].
  destruct (Z.eqb_spec rc0 0) as [->|]; [|by exists rc0, w0]. destruct (H0 eq_refl) as (max & Hmax & Hi).
  set (s0 := sent (drv w)) in *. assert (Hok : groups_ok header []) by constructor.
  destruct (insert_rows_defined ops header max s0 Hmax rows [] [] w0 Hi Hok Hrows) as [[rc1 w1] E1]. rewrite E1.
  cbn [mbind option_bind fst snd]. destruct (Z.eqb_spec rc1 0) as [->|]; [|by exists rc1, w1].
  destruct (insert_rows_inv ops header max s0 Hmax rows [] [] w0 0 w1 Hi Hok Hrows) as (gs & g & Hi1 & Hok1 & Ec & Hg);
    [done..|]. cbn [concat app] in Ec.
  unfold db_bulk_insert_done. destruct (db_bulk_do_insert ops true w1) as [rc w2] eqn:Ed.
  destruct (Z.eqb_spec rc 0) as [->|]; cbn [negb]; [|by exists 1, w2]. eexists 0, _. split; [reflexivity|]. intros _.
  exists gs, g. split_and!; [exact Ec|exact Hok1|intros ->; by rewrite <- Ec, (Hg eq_refl)|apply Hi1| |reflexivity].
  cbn [con drv with_con bulk_commit_max set_bulk]. destruct g as [|r g].
  - unfold db_bulk_do_insert in Ed. rewrite (bi_cnt _ _ _ _ _ _ _ Hi1) in Ed. cbn in Ed. injection Ed as <-.
    rewrite (bi_max _ _ _ _ _ _ _ Hi1), app_nil_r. apply Hi1.
  - destruct (flush_sent ops header max s0 Hmax true gs (r :: g) w1 w2 Hi1) as (-> & -> & _); [done|exact Ed|done].
Qed.
End bulk_insert.

#[export] Instance mem_queries : QueryLaws mem_ops.
Proof.
  refine {| sent := log : memd -> list string |}.
  - intros q r k. cbn. unfold mem_answer. by destruct (String.eqb q "SELECT").
  - done.
  - intros f k [= <-]. done.
Defined.

Lemma bulk_insert_delivers_witness :
  exists rc w', bulk_insert mem_ops "INSERT INTO t VALUES" ["(1)"; "(2)"; "(3)"]%string mem_world = Some (rc, w')
  /\ rc = 0
  /\ log (drv w') = ["INSERT INTO t VALUES(1),(2),(3)"; "COMMIT"]%string
  /\ exists gs g, concat gs ++ g = ["(1)"; "(2)"; "(3)"]%string.
Proof.
  destruct (bulk_insert_delivers mem_ops "INSERT INTO t VALUES" ["(1)"; "(2)"; "(3)"]%string mem_world)
    as (rc & w' & E & H); [discriminate|vm_compute; discriminate|repeat constructor; vm_compute; discriminate|].
  exists rc, w'. split; [exact E|]. vm_compute in E. injection E as <- <-.
  split; [reflexivity|]. split; [reflexivity|]. destruct (H eq_refl) as (gs & g & Hc & _). by exists gs, g.
Defined.

(** ** Defects of the multi-row insert *)

Section defects.
Context {d : Type} (ops : drv_ops_t d).

(** A call that cannot start returns 0, as a successful one does: the row of
    [db_bulk_insert_next] is dropped, and after [db_bulk_insert_init] there is no
    insert to add to. *)
Theorem insert_failure_hidden row len (w : db_world d) :
  state (con w) = DB_CONN_INVALID
  \/ (state (con w) = DB_CONN_RESULT_SET /\ fst (op_free_results ops (rs (con w)) (drv w)) <> 0) ->
  exists w', db_bulk_insert_next ops row len w = Some (0, w') /\ db_bulk_insert_init ops row len w = Some (0, w')
    /\ same_bulk (con w) (con w').
Proof.
  intros Hs. unfold db_bulk_insert_next, db_bulk_insert_init, enter.
  destruct Hs as [Hs|[Hs Hf]]; rewrite Hs; [by exists w|]. unfold db_free_results_int.
  destruct (op_free_results ops (rs (con w)) (drv w)) as [rc k]. cbn [fst] in Hf.
  rewrite (proj2 (Z.eqb_neq _ _)) by done. eexists. by split_and!.
Qed.

Context `{!QueryLaws ops}.

(** A row that does not fit in an empty packet is refused only when it is the
    first one.  After another row the packet is flushed and the row is copied
    without a second test, past the end of the buffer. *)
Theorem long_row_overflows header max s0 gs g row (w w' : db_world d) :
  0 <= max <= ROWS_BEFORE_COMMIT -> bulk_inv ops header max s0 gs g w -> state (con w) = DB_CONN_READY ->
  BULK_PACKET_SIZE < strlen header + strlen row + 1 -> strlen row < 2 ^ 32 ->
  (g = [] -> db_bulk_insert_next ops row (strlen row) w = Some (1, w)) /\
  (g <> [] -> db_bulk_do_insert ops false w = (0, w') -> db_bulk_insert_next ops row (strlen row) w = None).
Proof using Type*.
  intros Hmax Hi Hs Hlong Hrow. pose proof Hi as [_ Hc Hl [tail Hb] Hp _ _ _ _ Hf Hr _].
  pose proof (strlen_nonneg row). pose proof (strlen_nonneg (packet header g)).
  assert (strlen header <= strlen (packet header g))
    by (unfold packet; rewrite strlen_app; pose proof (strlen_nonneg (join g)); lia).
  unfold db_bulk_insert_next, enter. rewrite Hs, Hb, Hl, Hp.
  assert (0 <= b2z (0 <? bulk_cnt (con w)) <= 1) by (destruct (0 <? _); cbn; lia).
  rewrite u64_small by (unfold is_u64, BULK_PACKET_SIZE in *; lia). rewrite (proj2 (Z.ltb_lt _ _)) by lia.
  split.
  - intros ->. by rewrite Hc.
  - intros Hg Hd. rewrite Hc, (proj2 (Z.eqb_neq _ _)) by (destruct g; [done|cbn; lia]). cbn [andb].
    destruct (flush_sent ops header max s0 Hmax false gs g w w' Hi Hg Hd) as (_ & _ & Hi').
    destruct (Hi' eq_refl) as [_ Hc' Hl' _ Hp' _ _ _ _ _ _ _]. rewrite Hd. cbn [Z.eqb negb].
    rewrite Hc', Hl', Hp'. cbn [length Z.of_nat Z.ltb Z.compare]. unfold strcpy_at, packet. cbn [join].
    rewrite str_append_nil_r. change (0 <? Z.of_nat 0) with false. cbn [negb]. rewrite (proj2 (Z.ltb_lt _ _)) by lia. done.
Qed.
End defects.

(** A string of [n] spaces. *)
Fixpoint spaces (n : nat) : string :=
  match n with O => "" | S n => String.String " " (spaces n) end.

Lemma strlen_spaces n : strlen (spaces n) = Z.of_nat n.
Proof. unfold strlen. f_equal. induction n as [|n IH]; cbn; by rewrite ?IH. Qed.

Lemma long_row_overflows_witness :
  exists w, bulk_insert mem_ops "I" ["a"]%string mem_world <> None
  /\ (out ← db_bulk_insert_init mem_ops "I" 1 mem_world; db_bulk_insert_next mem_ops "a" 1 (snd out)) = Some (0, w)
  /\ db_bulk_insert_next mem_ops (spaces (N.to_nat 524288)) (strlen (spaces (N.to_nat 524288))) w = None.
Proof.
  assert (exists w w', (out ← db_bulk_insert_init mem_ops "I" 1 mem_world; db_bulk_insert_next mem_ops "a" 1 (snd out))
              = Some (0, w) /\ state (con w) = DB_CONN_READY /\ bulk_inv mem_ops "I" 1000 [] [] ["a"]%string w
              /\ db_bulk_do_insert mem_ops false w = (0, w')) as (w & w' & E & Hs & Hi & Hd).
  { eexists _, _. split; [vm_compute; reflexivity|]. split; [reflexivity|]. split; [|vm_compute; reflexivity].
    split; first [done|vm_compute; done|exists ""%string; reflexivity|vm_compute; split; discriminate]. }
  exists w. split; [vm_compute; discriminate|]. split; [exact E|].
  apply (long_row_overflows mem_ops "I" 1000 [] [] ["a"]%string (spaces (N.to_nat 524288)) w w');
    [vm_compute; split; discriminate|exact Hi|exact Hs|rewrite strlen_spaces, N_nat_Z; vm_compute; reflexivity
    |rewrite strlen_spaces, N_nat_Z; vm_compute; reflexivity|discriminate|exact Hd].
Defined.
