(* ===== verification/Driver.v ===== *)
(** * What the drivers share

    Statements, and a state monad: an operation of a driver reads and changes the state of the driver and can have
    undefined behaviour ([None]).  The rules below are those of a Hoare logic for
    total correctness: an operation that starts in [P] is defined and ends in [Q]. *)

From S2P Require Import Prelude Double Options Counter Timer Reports Db.

(** A pointer: [NULL], to memory that has been freed, or to a value. *)
Inductive pointer (A : Type) := Null | Freed | Valid (a : A).
Arguments Null {A}.
Arguments Freed {A}.
Arguments Valid {A}.

(** The fields of a statement that the drivers use, with [P] behind [ptr]. *)
Record db_stmt_t (P : Type) := Stmt {
  s_ptr : option P;
  emulated : bool;
  s_query : option string;
  bound_param : option (list db_bind_t)
}.
Arguments Stmt {P}.
Arguments s_ptr {P}.
Arguments emulated {P}.
Arguments s_query {P}.
Arguments bound_param {P}.
(** As [db_prepare] allocates it. *)
Definition new_stmt {P} : db_stmt_t P := Stmt None false None None.

(** ** The monad *)

Definition act (S A : Type) : Type := S -> option (A * S).

#[export] Instance act_ret {S} : MRet (act S) := fun A x s => Some (x, s).
#[export] Instance act_bind {S} : MBind (act S) := fun A B f m s => '(x, s) ← m s; f x s.

Definition reads {S A} (f : S -> A) : act S A := fun s => Some (f s, s).
Definition changes {S} (f : S -> S) : act S unit := fun s => Some (tt, f s).
Definition undefined {S A} : act S A := fun _ => None.
(** The value of a pointer that must not be [NULL]. *)
Definition the {S A} (x : option A) : act S A := match x with Some x => mret x | None => undefined end.

(** The operation as the layer calls it: undefined behaviour, of which nothing is
    said, leaves the state and returns the default. *)
Definition total {S A} (dflt : A) (m : act S A) (s : S) : A * S := default (dflt, s) (m s).

Definition triple {S A} (P : S -> Prop) (m : act S A) (Q : A -> S -> Prop) : Prop :=
  forall s, P s -> exists x s', m s = Some (x, s') /\ Q x s'.

Section rules.
Context {S : Type}.
Implicit Types P : S -> Prop.

Lemma triple_ret {A} P (x : A) (Q : A -> S -> Prop) : (forall s, P s -> Q x s) -> triple P (mret x) Q.
Proof. intros H s Hs. exists x, s. split; [done|auto]. Qed.
Lemma triple_bind {A B} P (R : A -> S -> Prop) Q (m : act S A) (f : A -> act S B) :
  triple P m R -> (forall x, triple (R x) (f x) Q) -> triple P (x ← m; f x) Q.
Proof.
  intros Hm Hf s Hs. destruct (Hm s Hs) as (x & s' & E & Hx). destruct (Hf x s' Hx) as (y & s2 & E2 & Hy).
  exists y, s2. split; [|done]. unfold mbind, act_bind. rewrite E. exact E2.
Qed.
Lemma triple_reads {A} P (f : S -> A) : triple P (reads f) (fun x s => P s /\ x = f s).
Proof. intros s Hs. by exists (f s), s. Qed.
Lemma triple_changes P (f : S -> S) (Q : unit -> S -> Prop) :
  (forall s, P s -> Q tt (f s)) -> triple P (changes f) Q.
Proof. intros H s Hs. exists tt, (f s). split; [done|auto]. Qed.
Lemma triple_the {A} P (x : A) : triple P (the (Some x)) (fun y s => P s /\ y = x).
Proof. by apply triple_ret. Qed.
Lemma triple_consequence {A} P P' (m : act S A) (Q Q' : A -> S -> Prop) :
  triple P' m Q' -> (forall s, P s -> P' s) -> (forall x s, Q' x s -> Q x s) -> triple P m Q.
Proof. intros Hm HP HQ s Hs. destruct (Hm s (HP s Hs)) as (x & s' & E & Hx). exists x, s'. auto. Qed.
(** What is known of the state can be used as a hypothesis. *)
Lemma triple_extract {A} (P : S -> Prop) (m : act S A) Q :
  (forall s, P s -> triple (fun s' => s' = s) m Q) -> triple P m Q.
Proof. intros H s Hs. by apply (H s Hs). Qed.
Lemma triple_total {A} P (m : act S A) (Q : A -> S -> Prop) (dflt : A) s :
  triple P m Q -> P s -> Q (fst (total dflt m s)) (snd (total dflt m s)).
Proof. intros Hm Hs. destruct (Hm s Hs) as (x & s' & E & Hx). unfold total. by rewrite E. Qed.
Lemma triple_pure {A} P (phi : Prop) (m : act S A) Q :
  (phi -> triple P m Q) -> triple (fun s => P s /\ phi) m Q.
Proof. intros H s [Hs Hp]. by apply H. Qed.
Lemma bind_some {A B} (m : act S A) (f : A -> act S B) s x s' : m s = Some (x, s') -> (x ← m; f x) s = f x s'.
Proof. unfold mbind, act_bind. by intros ->. Qed.
(** A defined operation gives the result that the layer sees. *)
Lemma total_some {A} (dflt : A) (m : act S A) s out : m s = Some out -> total dflt m s = out.
Proof. unfold total. by intros ->. Qed.
End rules.

(** Partial correctness: when an operation that starts in [P] is defined, it ends in
    [Q]. *)
Definition ptriple {S A} (P : S -> Prop) (m : act S A) (Q : A -> S -> Prop) : Prop :=
  forall s x s', P s -> m s = Some (x, s') -> Q x s'.

Section partial_rules.
Context {S : Type}.
Implicit Types P : S -> Prop.

Lemma ptriple_ret {A} P (x : A) (Q : A -> S -> Prop) : (forall s, P s -> Q x s) -> ptriple P (mret x) Q.
Proof. intros H s y s' Hs [= <- <-]. auto. Qed.
Lemma ptriple_bind {A B} P (R : A -> S -> Prop) Q (m : act S A) (f : A -> act S B) :
  ptriple P m R -> (forall x, ptriple (R x) (f x) Q) -> ptriple P (x ← m; f x) Q.
Proof.
  intros Hm Hf s y s' Hs H. unfold mbind, act_bind in H. destruct (m s) as [[x s1]|] eqn:E; [|done].
  apply (Hf x s1 y s'); [|done]. by apply (Hm s).
Qed.
Lemma ptriple_reads {A} P (f : S -> A) : ptriple P (reads f) (fun x s => P s /\ x = f s).
Proof. intros s x s' Hs [= <- <-]. done. Qed.
Lemma ptriple_changes P (f : S -> S) (Q : unit -> S -> Prop) :
  (forall s, P s -> Q tt (f s)) -> ptriple P (changes f) Q.
Proof. intros H s x s' Hs [= <- <-]. auto. Qed.
Lemma ptriple_the {A} P (x : option A) : ptriple P (the x) (fun _ => P).
Proof. intros s y s' Hs H. destruct x; [|done]. by injection H as _ <-. Qed.
Lemma ptriple_undefined {A} P (Q : A -> S -> Prop) : ptriple P undefined Q.
Proof. by intros s x s' Hs. Qed.
Lemma ptriple_consequence {A} P P' (m : act S A) (Q Q' : A -> S -> Prop) :
  ptriple P' m Q' -> (forall s, P s -> P' s) -> (forall x s, Q' x s -> Q x s) -> ptriple P m Q.
Proof. intros Hm HP HQ s x s' Hs H. apply HQ, (Hm s); auto. Qed.
Lemma ptriple_pure {A} P (phi : Prop) (m : act S A) Q :
  (phi -> ptriple P m Q) -> ptriple (fun s => P s /\ phi) m Q.
Proof. intros H s x s' [Hs Hp]. by apply H. Qed.
Lemma ptriple_total {A} P (m : act S A) (Q : A -> S -> Prop) (dflt : A) s :
  ptriple P m Q -> P s -> Q dflt s -> Q (fst (total dflt m s)) (snd (total dflt m s)).
Proof. intros Hm Hs Hd. unfold total. destruct (m s) as [[x s']|] eqn:E; [|done]. by apply (Hm s). Qed.
End partial_rules.

(** One step of an operation, by a rule of the database [act]; and the facts that
    the step leaves become hypotheses. *)
Create HintDb act.
Ltac act_step :=
  eapply triple_bind; [solve [eauto 3 with act]|cbv beta; intros ?];
  repeat (apply triple_pure; intros ?; subst).
Ltac pact_step :=
  eapply ptriple_bind; [solve [eauto 3 with act]|cbv beta; intros ?];
  repeat (apply ptriple_pure; intros ?; subst).
