(* ===== verification/Emulation.v ===== *)
(** * Statements with placeholders (the drivers' text buffers)

    [mysql_drv_execute] and [pgsql_drv_execute] build the text of an emulated
    statement, and [pgsql_drv_prepare] the text to prepare, with the same loop: the
    characters of the query are copied to a buffer that doubles when it is full, and
    each ['?'] is replaced by a text printed into the rest of the buffer.  The loop
    is modelled once, over the function that prints; the theorem is that it computes
    the substitution. *)

From stdpp Require Import pretty.
From S2P Require Import Prelude Double Options Counter Timer Reports Db.

(** A built value; or [realloc] has failed, the behaviour is undefined, or the loop
    has not ended within the fuel. *)
Inductive expansion (A : Type) := Expanded (a : A) | NoMemory | Undefined | Looping.
Arguments Expanded {A}.
Arguments NoMemory {A}.
Arguments Undefined {A}.
Arguments Looping {A}.

Definition placeholder : ascii := "?"%char.

Section expand.
(** Whether [realloc] can provide a size; and the printing of the [vcnt]-th value
    into the room that is left: undefined, too long ([Some None]), or its text. *)
Context (alloc : Z -> bool) (print : nat -> Z -> option (option string)).

(** The body of the loop from [again] on, for one character of the query: the text
    so far, the size of the buffer and the number of values used.  The text has to
    fit in the buffer with its terminator. *)
Fixpoint put_char (fuel : nat) (c : ascii) (vcnt : nat) (buf : string) (buflen : Z) (need_realloc : bool)
    : expansion (string * Z * nat) :=
  match fuel with
  | O => Looping
  | S fuel =>
      let j := strlen buf in
      let grows := (buflen <=? u32 (j + 1)) || need_realloc in
      let buflen := if grows then (if 0 <? buflen then u32 (buflen * 2) else 256) else buflen in
      if grows && negb (alloc buflen) then NoMemory
      else if buflen <=? j then Undefined
      else if negb (Ascii.eqb c placeholder) then Expanded (buf +:+ String c "", buflen, vcnt)
      else
        match print vcnt (u32 (buflen - j)) with
        | None => Undefined
        | Some None => put_char fuel c vcnt buf buflen true
        | Some (Some t) => Expanded (buf +:+ t, buflen, S vcnt)
        end
  end.

(** The loop over the query; at its end [buf[j] = '\0']. *)
Fixpoint put_query (fuel : nat) (query : string) (vcnt : nat) (buf : string) (buflen : Z) (need_realloc : bool)
    : expansion (string * nat) :=
  match query with
  | EmptyString => if buflen <=? strlen buf then Undefined else Expanded (buf, vcnt)
  | String c query =>
      match put_char fuel c vcnt buf buflen need_realloc with
      | Expanded (buf, buflen, vcnt) => put_query fuel query vcnt buf buflen false
      | NoMemory => NoMemory
      | Undefined => Undefined
      | Looping => Looping
      end
  end.

Definition expand (fuel : nat) (query : string) (vcnt : nat) : expansion (string * nat) :=
  put_query fuel query vcnt "" 0 true.
End expand.

(** ** The two printers *)

(** [db_print_value(bound_param + vcnt, buf + j, buflen - j)]: undefined without
    such a parameter. *)
Definition print_param (fmt_f : dbl -> string) (params : option (list db_bind_t)) (vcnt : nat) (room : Z)
    : option (option string) :=
  l ← params;
  var ← l !! vcnt;
  '(n, text) ← db_print_value fmt_f var (s32 room);
  Some (if n <? 0 then None else Some (default ""%string text)).

(** [snprintf(buf + j, buflen - j, "$%d", vcnt)] *)
Definition print_number (vcnt : nat) (room : Z) : option (option string) :=
  let text := "$" +:+ pretty (s32 (Z.of_nat vcnt)) in
  Some (if s32 room <=? strlen text then None else Some text).

(** ** The reference: substitution *)

Section subst.
Context (value : nat -> option string).

Fixpoint subst (query : string) (vcnt : nat) : option (string * nat) :=
  match query with
  | EmptyString => Some (EmptyString, vcnt)
  | String c query =>
      if Ascii.eqb c placeholder then
        t ← value vcnt; '(rest, n) ← subst query (S vcnt); Some (t +:+ rest, n)
      else '(rest, n) ← subst query vcnt; Some (String c rest, n)
  end.
End subst.

Definition value_param (fmt_f : dbl -> string) (params : option (list db_bind_t)) (vcnt : nat) : option string :=
  l ← params; var ← l !! vcnt; default ""%string <$> value_text fmt_f var.
Definition value_number (vcnt : nat) : option string := Some ("$" +:+ pretty (s32 (Z.of_nat vcnt))).

(** A printer that writes its values when they fit, with the terminator. *)
Definition prints (print : nat -> Z -> option (option string)) (value : nat -> option string) : Prop :=
  forall v room t, 0 < room < 2 ^ 31 -> value v = Some t ->
    print v room = Some (if strlen t <? room then Some t else None).

Section expand_facts.
Context (alloc : Z -> bool) (print : nat -> Z -> option (option string)) (value : nat -> option string).
Hypothesis memory : forall n, alloc n = true.
Hypothesis printer : prints print value.

(** The text that one character stands for, and the values it uses. *)
Definition piece (c : ascii) (vcnt : nat) : option (string * nat) :=
  if Ascii.eqb c placeholder then t ← value vcnt; Some (t, S vcnt) else Some (String c "", vcnt).

(** The size of the buffer between two characters: enough for the text so far, and
    no more than twice what the whole text of [m] characters needs. *)
Definition buffer_ok (m : Z) (buf : string) (buflen : Z) : Prop :=
  256 <= buflen <= 2 * m + 512 /\ strlen buf < buflen.

(** Before the next growth; [fuel] is enough to reach [m]. *)
Definition growing (m : Z) (fuel : nat) (t buf : string) (buflen : Z) (need : bool) : Prop :=
  if buflen =? 0 then need = true /\ buf = ""%string /\ (0 < fuel)%nat /\ m + 1 < 128 * 2 ^ Z.of_nat fuel
  else buffer_ok m buf buflen /\
       (if need then buflen <= strlen buf + strlen t /\ m + 1 < buflen * 2 ^ Z.of_nat fuel
        else (0 < fuel)%nat /\ m + 1 < buflen * 2 ^ (Z.of_nat fuel - 1)).

(** The growth at the start of an iteration. *)
Lemma grow_spec m fuel t buf buflen need :
  2 * m + 512 < 2 ^ 31 -> strlen buf + strlen t <= m -> growing m (S fuel) t buf buflen need ->
  let l := if (buflen <=? u32 (strlen buf + 1)) || need then if 0 <? buflen then u32 (buflen * 2) else 256 else buflen in
  buffer_ok m buf l /\ strlen buf + 1 < l /\ m + 1 < l * 2 ^ Z.of_nat fuel.
Proof using Type.
  intros Hm Hlen Hg. pose proof (strlen_nonneg buf). pose proof (strlen_nonneg t). unfold growing, buffer_ok in *.
  replace (Z.of_nat (S fuel) - 1) with (Z.of_nat fuel) in Hg by lia.
  rewrite Nat2Z.inj_succ, Z.pow_succ_r in Hg by lia. assert (0 < 2 ^ Z.of_nat fuel) by (apply Z.pow_pos_nonneg; lia).
  destruct (Z.eqb_spec buflen 0) as [->|Hne].
  - destruct Hg as (-> & -> & _ & Hf). rewrite orb_true_r. change (strlen "") with 0 in *. cbn [Z.ltb Z.compare]. lia.
  - destruct Hg as [[Hb Hj] Hg]. rewrite (u32_small (strlen buf + 1)) by (unfold is_u32; lia).
    assert (E2 : u32 (buflen * 2) = buflen * 2) by (apply u32_small; unfold is_u32; lia).
    rewrite (proj2 (Z.ltb_lt 0 buflen)), E2 by lia.
    destruct need; [rewrite orb_true_r|rewrite orb_false_r; destruct (Z.leb_spec buflen (strlen buf + 1))]; cbv zeta; nia.
Qed.

Lemma put_char_spec m fuel c vcnt buf buflen need t v :
  2 * m + 512 < 2 ^ 31 -> piece c vcnt = Some (t, v) -> strlen buf + strlen t <= m ->
  growing m fuel t buf buflen need ->
  exists l, put_char alloc print fuel c vcnt buf buflen need = Expanded (buf +:+ t, l, v) /\ buffer_ok m (buf +:+ t) l.
Proof using memory printer.
  intros Hm Hp Hlen. pose proof (strlen_nonneg buf). revert buflen need. induction fuel as [|fuel IH]; intros buflen need Hg.
  { unfold growing, buffer_ok in Hg. exfalso. destruct (Z.eqb_spec buflen 0); [lia|]. destruct need; cbn in Hg; lia. }
  pose proof (grow_spec m fuel t buf buflen need Hm Hlen Hg) as Hl. cbv zeta in Hl. cbn [put_char].
  set (l := if _ || _ then _ else _) in *. destruct Hl as ([Hb Hj] & Hj1 & Hf).
  rewrite memory, andb_false_r, (proj2 (Z.leb_gt l (strlen buf))) by lia. unfold piece in Hp.
  destruct (Ascii.eqb c placeholder) eqn:Ec; cbn [negb].
  - destruct (value vcnt) as [t'|] eqn:Ev; [|discriminate]. injection Hp as -> <-.
    rewrite u32_small by (unfold is_u32; lia). rewrite (printer vcnt (l - strlen buf) t) by (done || lia).
    destruct (Z.ltb_spec (strlen t) (l - strlen buf)).
    + exists l. split; [done|]. split; [done|]. rewrite strlen_app. lia.
    + apply IH. unfold growing, buffer_ok. rewrite (proj2 (Z.eqb_neq l 0)) by lia. split_and!; try done; lia.
  - injection Hp as <- <-. exists l. split; [done|]. split; [done|]. rewrite strlen_app.
    change (strlen (String c "")) with 1. lia.
Qed.

Lemma subst_cons c query vcnt text n :
  subst value (String c query) vcnt = Some (text, n) ->
  exists t v rest, piece c vcnt = Some (t, v) /\ subst value query v = Some (rest, n) /\ text = t +:+ rest.
Proof using Type.
  intros H. cbn [subst] in H. unfold piece. destruct (Ascii.eqb c placeholder).
  - apply bind_Some in H as (t & Ht & H). apply bind_Some in H as ([rest n'] & Hr & H). injection H as <- <-.
    exists t, (S vcnt), rest. by rewrite Ht.
  - apply bind_Some in H as ([rest n'] & Hr & H). injection H as <- <-. by exists (String c ""), vcnt, rest.
Qed.

Lemma put_query_spec m fuel query vcnt buf buflen need text n :
  2 * m + 512 < 2 ^ 31 -> m < 2 ^ (Z.of_nat fuel) -> (0 < fuel)%nat ->
  subst value query vcnt = Some (text, n) -> strlen buf + strlen text <= m ->
  (buflen = 0 /\ need = true /\ buf = ""%string /\ query <> ""%string \/ buffer_ok m buf buflen /\ need = false) ->
  put_query alloc print fuel query vcnt buf buflen need = Expanded (buf +:+ text, n).
Proof using memory printer.
  intros Hm Hf H0. revert vcnt buf buflen need text. induction query as [|c query IH]; intros vcnt buf buflen need text Hs Hlen Hb.
  - injection Hs as <- <-. destruct Hb as [(_ & _ & _ & Hq)|[[Hb Hj] _]]; [done|].
    cbn [put_query]. rewrite (proj2 (Z.leb_gt buflen (strlen buf))) by lia. by rewrite str_append_nil_r.
  - destruct (subst_cons c query vcnt text n Hs) as (t & v & rest & Hp & Hr & ->).
    rewrite strlen_app in Hlen. pose proof (strlen_nonneg rest). cbn [put_query].
    assert (Hpow : 2 ^ Z.of_nat fuel = 2 * 2 ^ (Z.of_nat fuel - 1)).
    { rewrite <- Z.pow_succ_r by lia. f_equal. lia. }
    destruct (put_char_spec m fuel c vcnt buf buflen need t v Hm Hp) as (l & -> & Hl); [lia| |].
    { unfold growing. destruct Hb as [(-> & -> & -> & _)|[[Hb Hj] ->]].
      - cbn. split_and!; try done. lia.
      - unfold buffer_ok. rewrite (proj2 (Z.eqb_neq buflen 0)) by lia. split_and!; try done; try lia. nia. }
    rewrite (IH v (buf +:+ t) l false rest Hr); [by rewrite str_append_assoc|rewrite strlen_app; lia|by right].
Qed.
End expand_facts.

(** ** The loop ends

    The sizes are 256, 512, ..., 2^31; the next one wraps around to 0, which holds
    nothing. *)

Definition grown (buflen : Z) : Prop := exists k, 0 <= k <= 23 /\ buflen = 256 * 2 ^ k.
(** The iterations that a character can take. *)
Definition rounds (buflen : Z) (need : bool) : Z := 24 - Z.log2 (buflen / 256) + (if need then 0 else 1).

Lemma grown_double buflen : grown buflen ->
  0 < buflen < 2 ^ 32 /\ (u32 (buflen * 2) = 0 \/ grown (u32 (buflen * 2)) /\ rounds (u32 (buflen * 2)) true = rounds buflen true - 1)
  /\ 1 <= rounds buflen true.
Proof.
  intros (k & Hk & ->). assert (H0 : 0 < 2 ^ k) by (apply Z.pow_pos_nonneg; lia).
  assert (Hlog : forall j, 0 <= j -> Z.log2 (256 * 2 ^ j / 256) = j).
  { intros j Hj. rewrite Z.mul_comm, Z.div_mul by lia. by apply Z.log2_pow2. }
  assert (Hlt : 2 ^ k <= 2 ^ 23) by (apply Z.pow_le_mono_r; lia).
  unfold rounds. rewrite (Hlog k) by lia. split; [lia|]. split; [|lia].
  destruct (Z.eq_dec k 23) as [->|Hne]; [left; vm_compute; reflexivity|right].
  assert (Hlt2 : 2 ^ (k + 1) <= 2 ^ 23) by (apply Z.pow_le_mono_r; lia).
  assert (E : u32 (256 * 2 ^ k * 2) = 256 * 2 ^ (k + 1)).
  { rewrite <- Z.mul_assoc, (Z.mul_comm (2 ^ k) 2), <- Z.pow_succ_r by lia. apply u32_small. unfold is_u32, Z.succ. lia. }
  rewrite E, (Hlog (k + 1)) by lia. split; [exists (k + 1); split; [lia|done]|lia].
Qed.

Section ends.
Context (alloc : Z -> bool) (print : nat -> Z -> option (option string)).

(** A character that ends: the buffer it leaves can grow as before. *)
Definition ends (out : expansion (string * Z * nat)) : Prop :=
  match out with Looping => False | Expanded (_, l, _) => grown l | _ => True end.

Lemma put_char_ends fuel c vcnt buf : forall buflen need,
  (grown buflen /\ rounds buflen need <= Z.of_nat fuel \/ buflen = 0 /\ (25 <= fuel)%nat /\ need = true) ->
  ends (put_char alloc print fuel c vcnt buf buflen need).
Proof using Type.
  induction fuel as [|fuel IH]; intros buflen need H.
  { destruct H as [[Hg Hr]|]; [|lia]. destruct (grown_double buflen Hg) as (_ & _ & H). unfold rounds in *. destruct need; lia. }
  cbn [put_char]. cbv zeta. set (l := if _ || _ then _ else _).
  assert (Hl : l = 0 \/ grown l /\ rounds l true <= Z.of_nat fuel).
  { subst l. destruct H as [[Hg Hr]|(-> & Hf & ->)].
    - destruct (grown_double buflen Hg) as (Hb & Hd & _). rewrite (proj2 (Z.ltb_lt 0 buflen)) by lia.
      destruct (_ || need) eqn:En; [|right; split; [done|]; apply orb_false_iff in En as [_ ->]; unfold rounds in *; lia].
      destruct Hd as [->|[Hd E]]; [by left|right]. split; [done|]. rewrite E. unfold rounds in *. destruct need; lia.
    - rewrite orb_true_r. right. split; [by exists 0|]. change (rounds _ true) with 24. lia. }
  destruct (_ && negb _); [done|]. destruct Hl as [->|[Hl Hr]].
  { pose proof (strlen_nonneg buf). by rewrite (proj2 (Z.leb_le 0 (strlen buf))). }
  destruct (l <=? strlen buf); [done|]. destruct (negb _); [exact Hl|].
  destruct (print _ _) as [[t|]|]; [exact Hl| |done]. apply IH. by left.
Qed.

Lemma put_query_ends fuel query : forall vcnt buf buflen need,
  (25 <= fuel)%nat -> (grown buflen \/ buflen = 0 /\ need = true) ->
  put_query alloc print fuel query vcnt buf buflen need <> Looping.
Proof using Type.
  induction query as [|c query IH]; intros vcnt buf buflen need Hf Hb; cbn [put_query]; [by destruct (_ <=? _)|].
  assert (H : ends (put_char alloc print fuel c vcnt buf buflen need)).
  { apply put_char_ends. destruct Hb as [Hg|[-> ->]]; [left|by right]. split; [done|].
    destruct Hg as (k & Hk & ->). unfold rounds. rewrite Z.mul_comm, Z.div_mul, Z.log2_pow2 by lia. destruct need; lia. }
  destruct (put_char _ _ _ _ _ _ _ _) as [[[b l] v]| | |]; try done. apply IH; [done|by left].
Qed.
End ends.

(** The loop ends for every query, whatever memory there is and whatever is
    printed. *)
Lemma expand_ends alloc print fuel query vcnt :
  (25 <= fuel)%nat -> expand alloc print fuel query vcnt <> Looping.
Proof. intros Hf. apply put_query_ends; [done|by right]. Qed.

(** ** The printers of the drivers *)

Lemma s32_room room : 0 < room < 2 ^ 31 -> s32 room = room.
Proof. intros. apply s32_small. unfold is_s32. lia. Qed.

Lemma print_number_prints : prints print_number value_number.
Proof.
  intros v room t Hr [= <-]. unfold print_number. rewrite s32_room by done. rewrite Z.leb_antisym.
  by destruct (_ <? _).
Qed.

Lemma print_param_prints fmt_f params : prints (print_param fmt_f params) (value_param fmt_f params).
Proof.
  intros v room t Hr H. unfold value_param, print_param in *. rewrite s32_room by done.
  apply bind_Some in H as (l & -> & H). apply bind_Some in H as (var & Hv & H). cbn [mbind option_bind].
  rewrite Hv. cbn [mbind option_bind]. apply fmap_Some in H as (text & Ht & ->).
  unfold db_print_value. rewrite Ht. cbn [mbind option_bind]. destruct text as [t|]; cbn [from_option default].
  - unfold id. pose proof (strlen_nonneg t). destruct (Z.ltb_spec (strlen t) room); [|reflexivity].
    rewrite (proj2 (Z.ltb_ge (strlen t) 0)) by lia. unfold snprintf. rewrite u64_small by (unfold is_u64; lia).
    rewrite (proj2 (Z.eqb_neq room 0)) by lia. cbn. by rewrite substring_all by lia.
  - rewrite (proj2 (Z.ltb_lt 0 room)) by lia. change (strlen "") with 0. by rewrite (proj2 (Z.ltb_lt 0 room)) by lia.
Qed.

(** The placeholders of a query. *)
Fixpoint placeholders (query : string) : nat :=
  match query with
  | EmptyString => 0
  | String c query => (if Ascii.eqb c placeholder then 1 else 0) + placeholders query
  end.

Lemma subst_count value query vcnt text n :
  subst value query vcnt = Some (text, n) -> n = (vcnt + placeholders query)%nat.
Proof.
  revert vcnt text. induction query as [|c query IH]; intros vcnt text H; [injection H as _ <-; cbn; lia|].
  destruct (subst_cons value c query vcnt text n H) as (t & v & rest & Hp & Hr & _). apply IH in Hr. subst n.
  unfold piece in Hp. cbn [placeholders]. destruct (Ascii.eqb c placeholder).
  - apply bind_Some in Hp as (t' & _ & [= _ <-]). lia.
  - injection Hp as _ <-. lia.
Qed.

(** ** Properties *)

(** The loop that builds the text of a statement computes the substitution of
    the values for the placeholders, in order: it grows its buffer as often as it
    takes, ends, and never writes outside it, for texts below 1 GB. *)
Theorem expand_substitutes alloc print value fuel query vcnt text n :
  (forall size, alloc size = true) -> prints print value ->
  query <> ""%string -> subst value query vcnt = Some (text, n) ->
  strlen text < 2 ^ 29 -> (30 <= fuel)%nat ->
  expand alloc print fuel query vcnt = Expanded (text, n).
Proof.
  intros Ha Hp Hq Hs Hl Hf. unfold expand. pose proof (strlen_nonneg text).
  rewrite (put_query_spec alloc print value Ha Hp (strlen text) fuel query vcnt "" 0 true text n); try done; try lia.
  - apply Z.lt_trans with (2 ^ 29); [done|]. apply Z.pow_lt_mono_r; lia.
  - by left.
Qed.

Lemma expand_substitutes_witness :
  expand (fun _ => true) print_number 30 "SELECT ? + ?" 1 = Expanded ("SELECT $1 + $2"%string, 3%nat).
Proof.
  apply (expand_substitutes (fun _ => true) print_number value_number);
    [done|exact print_number_prints|done|vm_compute; reflexivity|vm_compute; reflexivity|lia].
Defined.

(** An empty statement has no buffer when the terminator is written: a null pointer
    is written through. *)
Theorem empty_statement_undefined alloc print fuel vcnt : expand alloc print fuel "" vcnt = Undefined.
Proof. reflexivity. Qed.
