(* ===== verification/Mysql.v ===== *)
(** * The MySQL driver ([drivers/mysql/drv_mysql.c])

    The operations of the driver over the client library, which is a class of
    functions on a state of its own, with the documented laws that the theorems use
    in a second class.  Modelled as compiled for a client library of MySQL 8, where
    MYSQL_OPT_COMPRESSION_ALGORITHMS is no macro.  The messages of the log are left
    out; [None] is undefined behaviour; allocations of fixed size succeed. *)

From stdpp Require Import pretty.
From S2P Require Import Prelude Double Options Counter Timer Reports Db Driver Emulation.

#[local] Set Warnings "-clear-no-such-hyp".

(** ** The client library *)

Inductive mysql_ssl_mode :=
| SSL_MODE_DISABLED | SSL_MODE_PREFERRED | SSL_MODE_REQUIRED | SSL_MODE_VERIFY_CA | SSL_MODE_VERIFY_IDENTITY.

#[export] Instance mysql_ssl_mode_eq_dec : EqDecision mysql_ssl_mode.
Proof. solve_decision. Defined.

Inductive mysql_type :=
| MYSQL_TYPE_TINY | MYSQL_TYPE_SHORT | MYSQL_TYPE_LONG | MYSQL_TYPE_LONGLONG | MYSQL_TYPE_FLOAT | MYSQL_TYPE_DOUBLE
| MYSQL_TYPE_DATETIME | MYSQL_TYPE_TIMESTAMP | MYSQL_TYPE_STRING | MYSQL_TYPE_VAR_STRING.

(** [MYSQL_BIND]; no type for the value -1. *)
Record MYSQL_BIND := MysqlBind {
  buffer_type : option mysql_type;
  my_buffer : bind_data;
  buffer_length : Z;
  my_length : option Z;
  my_is_null : option bool
}.

(** What a connection is opened with. *)
Record db_mysql_conn_t := MysqlConn {
  host : option string;
  user : option string;
  password : option string;
  dbname : option string;
  port : Z;
  socket : option string
}.

(** The calls on one connection handle, and on results and statements by their
    handles; constants are those of [errmsg.h] and [mysqld_error.h]. *)
Class MysqlClient (L : Type) := {
  CR_SERVER_LOST : Z;
  CR_SERVER_GONE_ERROR : Z;
  CR_TCP_CONNECTION : Z;
  CR_SERVER_LOST_EXTENDED : Z;
  ER_UNSUPPORTED_PS : Z;
  mysql_library_init : L -> L;
  mysql_library_end : L -> L;
  mysql_thread_init : L -> Z * L;
  mysql_thread_end : L -> L;
  mysql_init : L -> L;
  mysql_options_ssl_mode : mysql_ssl_mode -> L -> L;
  mysql_ssl_set : option string -> option string -> option string -> option string -> L -> L;
  mysql_options_compress : L -> L;
  mysql_real_connect : db_mysql_conn_t -> L -> bool * L;
  mysql_close : L -> L;
  mysql_errno : L -> Z;
  mysql_sqlstate : L -> string;
  mysql_error : L -> string;
  mysql_real_query : string -> L -> Z * L;
  mysql_store_result : L -> option nat * L;
  mysql_field_count : L -> Z;
  mysql_affected_rows : L -> Z;
  mysql_num_rows : nat -> L -> Z;
  mysql_num_fields : nat -> L -> Z;
  mysql_fetch_row : nat -> L -> option (list (option string)) * L;
  mysql_fetch_lengths : nat -> L -> option (list Z);
  mysql_free_result : nat -> L -> L;
  mysql_more_results : L -> bool;
  mysql_next_result : L -> Z * L;
  mysql_stmt_init : L -> option nat * L;
  mysql_stmt_prepare : nat -> string -> L -> Z * L;
  mysql_stmt_param_count : nat -> L -> Z;
  mysql_stmt_bind_param : nat -> list MYSQL_BIND -> L -> bool * L;
  mysql_stmt_bind_result : nat -> list MYSQL_BIND -> L -> bool * L;
  mysql_stmt_execute : nat -> L -> Z * L;
  mysql_stmt_store_result : nat -> L -> Z * L;
  mysql_stmt_errno : nat -> L -> Z;
  mysql_stmt_field_count : nat -> L -> Z;
  mysql_stmt_affected_rows : nat -> L -> Z;
  mysql_stmt_num_rows : nat -> L -> Z;
  mysql_stmt_next_result : nat -> L -> Z * L;
  mysql_stmt_free_result : nat -> L -> L;
  mysql_stmt_close : nat -> L -> Z * L
}.

(** ** Options and global variables *)

Definition mysql_drv_args : list sb_arg_t :=
  [SB_OPT "mysql-host" "MySQL server host" (Some "localhost") SB_ARG_TYPE_LIST None;
   SB_OPT "mysql-port" "MySQL server port" (Some "3306") SB_ARG_TYPE_LIST None;
   SB_OPT "mysql-socket" "MySQL socket" None SB_ARG_TYPE_LIST None;
   SB_OPT "mysql-user" "MySQL user" (Some "sbtest") SB_ARG_TYPE_STRING None;
   SB_OPT "mysql-password" "MySQL password" (Some "") SB_ARG_TYPE_STRING None;
   SB_OPT "mysql-db" "MySQL database name" (Some "sbtest") SB_ARG_TYPE_STRING None;
   SB_OPT "mysql-ssl" ("SSL mode. This accepts the same values as the "
     +:+ "--ssl-mode option in the MySQL client utilities. Disabled by default")%string
     (Some "disabled") SB_ARG_TYPE_STRING None;
   SB_OPT "mysql-ssl-key" "path name of the client private key file" None SB_ARG_TYPE_STRING None;
   SB_OPT "mysql-ssl-ca" "path name of the CA file" None SB_ARG_TYPE_STRING None;
   SB_OPT "mysql-ssl-cert" "path name of the client public key certificate file" None SB_ARG_TYPE_STRING None;
   SB_OPT "mysql-ssl-cipher" "use specific cipher for SSL connections" (Some "") SB_ARG_TYPE_STRING None;
   SB_OPT "mysql-compression" "use compression, if available in the client library" (Some "off") SB_ARG_TYPE_BOOL None;
   SB_OPT "mysql-compression-algorithms" "compression algorithms to use" (Some "zlib") SB_ARG_TYPE_STRING None;
   SB_OPT "mysql-debug" "trace all client library calls" (Some "off") SB_ARG_TYPE_BOOL None;
   SB_OPT "mysql-ignore-errors" ("list of errors to ignore, or " +:+ String quote2 "all" +:+ String quote2 "")%string
     (Some "1213,1020,1205") SB_ARG_TYPE_LIST None;
   SB_OPT "mysql-dry-run" ("Dry run, pretend that all MySQL client API "
     +:+ "calls are successful without executing them")%string (Some "off") SB_ARG_TYPE_BOOL None].

Record mysql_drv_args_t := MysqlArgs {
  hosts : list string;
  ports : list string;
  sockets : list string;
  a_user : option string;
  a_password : option string;
  a_db : option string;
  ssl_mode : mysql_ssl_mode;
  use_ssl : bool;
  ssl_key : option string;
  ssl_cert : option string;
  ssl_ca : option string;
  ssl_cipher : option string;
  use_compression : Z;
  a_debug : Z;
  ignored_errors : list string;
  dry_run : Z
}.

(** Positions in the circular lists, with 0 for the head. *)
Record positions := Positions { hosts_pos : nat; ports_pos : nat; sockets_pos : nat }.

(** The state: the client library, the variables of the file, and of the connection
    its data ([sb_conn->ptr]), the error fields, [rs->ptr] with the values of the last row, and the
    statements that exist; [verbosity] is that of the log. *)
Record mysqld (L : Type) := Mysqld {
  client : L;
  args : mysql_drv_args_t;
  caps : drv_caps_t;
  use_ps : bool;
  pos : positions;
  verbosity : Z;
  conn : pointer db_mysql_conn_t;
  sql_error : Z * option string * option string;
  rs_ptr : option nat;
  values : list (Z * option string);
  statements : gmap nat (db_stmt_t nat)
}.
Arguments Mysqld {L}.
Arguments client {L}.
Arguments args {L}.
Arguments caps {L}.
Arguments use_ps {L}.
Arguments pos {L}.
Arguments verbosity {L}.
Arguments conn {L}.
Arguments sql_error {L}.
Arguments rs_ptr {L}.
Arguments values {L}.
Arguments statements {L}.

Section updates.
Context {L : Type}.
Implicit Types k : mysqld L.

Definition set_client (l : L) k := Mysqld l (args k) (caps k) (use_ps k) (pos k) (verbosity k) (conn k) (sql_error k)
  (rs_ptr k) (values k) (statements k).
Definition set_args a k := Mysqld (client k) a (caps k) (use_ps k) (pos k) (verbosity k) (conn k) (sql_error k)
  (rs_ptr k) (values k) (statements k).
Definition set_pos p k := Mysqld (client k) (args k) (caps k) (use_ps k) p (verbosity k) (conn k) (sql_error k)
  (rs_ptr k) (values k) (statements k).
Definition set_conn c k := Mysqld (client k) (args k) (caps k) (use_ps k) (pos k) (verbosity k) c (sql_error k)
  (rs_ptr k) (values k) (statements k).
Definition set_sql_error e k := Mysqld (client k) (args k) (caps k) (use_ps k) (pos k) (verbosity k) (conn k) e
  (rs_ptr k) (values k) (statements k).
Definition set_rs_ptr p k := Mysqld (client k) (args k) (caps k) (use_ps k) (pos k) (verbosity k) (conn k)
  (sql_error k) p (values k) (statements k).
Definition set_values v k := Mysqld (client k) (args k) (caps k) (use_ps k) (pos k) (verbosity k) (conn k)
  (sql_error k) (rs_ptr k) v (statements k).
Definition set_statements m k := Mysqld (client k) (args k) (caps k) (use_ps k) (pos k) (verbosity k) (conn k)
  (sql_error k) (rs_ptr k) (values k) m.
End updates.

Definition atoi (s : string) : Z := s32 (fst (strtol s)).

Definition ssl_mode_names : list (string * mysql_ssl_mode) :=
  [("DISABLED", SSL_MODE_DISABLED); ("PREFERRED", SSL_MODE_PREFERRED); ("REQUIRED", SSL_MODE_REQUIRED);
   ("VERIFY_CA", SSL_MODE_VERIFY_CA); ("VERIFY_IDENTITY", SSL_MODE_VERIFY_IDENTITY)]%string.

(** [!strcasecmp(s, t)] *)
Fixpoint strcaseeq (s t : string) : bool :=
  match s, t with
  | EmptyString, EmptyString => true
  | String a s, String b t => Ascii.eqb (toupper a) (toupper b) && strcaseeq s t
  | _, _ => false
  end.

Definition find_ssl_mode (s : string) : option mysql_ssl_mode :=
  snd <$> List.find (fun e => strcaseeq s (fst e)) ssl_mode_names.

Definition db_mysql_bind_map : list (db_bind_type_t * mysql_type) :=
  [(DB_TYPE_TINYINT, MYSQL_TYPE_TINY); (DB_TYPE_SMALLINT, MYSQL_TYPE_SHORT); (DB_TYPE_INT, MYSQL_TYPE_LONG);
   (DB_TYPE_BIGINT, MYSQL_TYPE_LONGLONG); (DB_TYPE_FLOAT, MYSQL_TYPE_FLOAT); (DB_TYPE_DOUBLE, MYSQL_TYPE_DOUBLE);
   (DB_TYPE_DATETIME, MYSQL_TYPE_DATETIME); (DB_TYPE_TIMESTAMP, MYSQL_TYPE_TIMESTAMP);
   (DB_TYPE_CHAR, MYSQL_TYPE_STRING); (DB_TYPE_VARCHAR, MYSQL_TYPE_VAR_STRING)].

Definition get_mysql_bind_type (t : db_bind_type_t) : option mysql_type :=
  snd <$> List.find (fun e => bool_decide (fst e = t)) db_mysql_bind_map.

Definition convert_to_mysql_bind (b : db_bind_t) : MYSQL_BIND :=
  MysqlBind (get_mysql_bind_type (bind_type b)) (bind_buffer b) (max_len b) (data_len b) (is_null b).

(** As initialized; [mysql_drv_init] sets [prepared_statements]. *)
Definition mysql_drv_caps : drv_caps_t := DrvCaps true false true false false true.

(** ** The next address *)

Definition list_next (l : list string) (i : nat) : nat := if (i =? length l)%nat then 0%nat else S i.
(** The data of an item; undefined for the head. *)
Definition entry (l : list string) (i : nat) : option string := match i with O => None | S i => l !! i end.

(** What [mysql_drv_connect] does under [pos_mutex]: host, port and socket. *)
Definition next_address (a : mysql_drv_args_t) (p : positions)
    : option (option string * Z * option string * positions) :=
  match sockets a with
  | [] =>
      h ← entry (hosts a) (hosts_pos p);
      q ← entry (ports a) (ports_pos p);
      let pp := list_next (ports a) (ports_pos p) in
      let p' :=
        if (pp =? 0)%nat then
          let hp := list_next (hosts a) (hosts_pos p) in
          let hp := if (hp =? 0)%nat then list_next (hosts a) hp else hp in
          Positions hp (list_next (ports a) pp) (sockets_pos p)
        else Positions (hosts_pos p) pp (sockets_pos p) in
      Some (Some h, u32 (atoi q), None, p')
  | _ =>
      let sp := list_next (sockets a) (sockets_pos p) in
      let sp := if (sp =? 0)%nat then list_next (sockets a) sp else sp in
      s ← entry (sockets a) sp;
      Some (Some "localhost"%string, 0, Some s, Positions (hosts_pos p) (ports_pos p) sp)
  end.

(** ** Operations *)

Definition set_counter (c : sb_counter_type_t) (r : db_result_t) : db_result_t :=
  DbResult c (nrows r) (nfields r) (statement r) (row_values r).
Definition set_nrows (n : Z) (r : db_result_t) : db_result_t :=
  DbResult (counter r) (u32 n) (nfields r) (statement r) (row_values r).
Definition set_nfields (n : Z) (r : db_result_t) : db_result_t :=
  DbResult (counter r) (nrows r) (u32 n) (statement r) (row_values r).

(** [mysql_drv_init]: the return value and the state; undefined without the options
    of the driver.  The lists of hosts, ports and sockets are those of the options.
    What a failed call has assigned is left out: nothing reads it before another
    call assigns it again. *)
Definition mysql_drv_init {L} `{!MysqlClient L} (options : list option_t) (mode : db_ps_mode_t) (k : mysqld L)
    : option (Z * mysqld L) :=
  let strings name := map val_data <$> sb_get_value_list options name in
  let str := sb_get_value_string options in
  h ← strings "mysql-host";
  if bool_decide (h = []) then Some (1, k)
  else
    p ← strings "mysql-port";
    if bool_decide (p = []) then Some (1, k)
    else
      s ← strings "mysql-socket";
      ssl ← str "mysql-ssl";
      match find_ssl_mode ssl with
      | None => Some (1, k)
      | Some m =>
          let debug := sb_get_value_flag options "mysql-debug" in
          e ← strings "mysql-ignore-errors";
          let a := MysqlArgs h p s (str "mysql-user") (str "mysql-password") (str "mysql-db") m
                     (negb (bool_decide (m = SSL_MODE_DISABLED)))
                     (str "mysql-ssl-key") (str "mysql-ssl-cert") (str "mysql-ssl-ca") (str "mysql-ssl-cipher")
                     (sb_get_value_flag options "mysql-compression") debug e
                     (sb_get_value_flag options "mysql-dry-run") in
          Some (0, Mysqld (mysql_library_init (client k)) a (DrvCaps true true true false false true)
                     (negb (bool_decide (mode = DB_PS_MODE_DISABLE))) (Positions 1 1 0)
                     (if debug =? 0 then verbosity k else 5) (conn k) (sql_error k) (rs_ptr k) (values k)
                     (statements k))
      end.

Section driver.
Context {L : Type} `{!MysqlClient L}.
(** How often [sb_globals.error] is read as 0 before it is found set, in the loop of
    [mysql_drv_reconnect]; whether [realloc] can provide a size; ["%f"] of
    [printf(3)]. *)
Context (error_after : nat) (alloc : Z -> bool) (fmt_f : dbl -> string).

Abbreviation M := (act (mysqld L)).

Definition api {A} (f : L -> A * L) : M A := fun k => let '(x, l) := f (client k) in Some (x, set_client l k).
Definition call (f : L -> L) : M unit := changes (fun k => set_client (f (client k)) k).
Definition ask {A} (f : L -> A) : M A := reads (fun k => f (client k)).
Definition dry : M bool := reads (fun k => negb (dry_run (args k) =? 0)).
(** The data behind [sb_conn->ptr]. *)
Definition connection : M db_mysql_conn_t := k ← reads conn; match k with Valid c => mret c | _ => undefined end.
(** The statement behind a pointer. *)
Definition stmt (s : nat) : M (db_stmt_t nat) := m ← reads statements; the (m !! s).
Definition put_stmt (s : nat) (st : db_stmt_t nat) : M unit := changes (fun k => set_statements (<[s := st]> (statements k)) k).
Definition reset_error : M unit := changes (set_sql_error (0, None, None)).

Definition mysql_drv_thread_init : M Z := rc ← api mysql_thread_init; mret (b2z (negb (rc =? 0))).
Definition mysql_drv_thread_done : M Z := call mysql_thread_end;; mret 0.
Definition mysql_drv_describe : M (Z * drv_caps_t) := c ← reads caps; mret (0, c).

(** [true] when it fails. *)
Definition mysql_drv_real_connect (c : db_mysql_conn_t) : M bool :=
  a ← reads args;
  call (mysql_options_ssl_mode (ssl_mode a));;
  (if use_ssl a then call (mysql_ssl_set (ssl_key a) (ssl_cert a) (ssl_ca a) (ssl_cipher a)) else mret tt);;
  (if use_compression a =? 0 then mret tt else call mysql_options_compress);;
  ok ← api (mysql_real_connect c);
  mret (negb ok).

Definition mysql_drv_connect : M Z :=
  d ← dry;
  if d : bool then mret 0
  else
    call mysql_init;;
    a ← reads args;
    p ← reads pos;
    addr ← the (next_address a p);
    let '(host, port, socket, p) := addr in
    changes (set_pos p);;
    let c := MysqlConn host (a_user a) (a_password a) (a_db a) port socket in
    failed ← mysql_drv_real_connect c;
    if failed : bool then mret 1 else changes (set_conn (Valid c));; mret 0.

Definition mysql_drv_disconnect : M Z :=
  d ← dry;
  if d : bool then mret 0
  else
    c ← reads conn;
    match c with
    | Null => mret 0
    | Freed => undefined
    | Valid _ => call mysql_close;; changes (set_conn Freed);; mret 0
    end.

Definition emulate (s : nat) (query : string) : M Z :=
  st ← stmt s;
  put_stmt s (Stmt (s_ptr st) true (Some query) (bound_param st));; mret 0.

Definition mysql_drv_prepare (s : nat) (query : string) : M Z :=
  d ← dry;
  if d : bool then mret 0
  else
    connection;;
    ps ← reads use_ps;
    if ps : bool then
      mystmt ← api mysql_stmt_init;
      match mystmt with
      | None => mret 1
      | Some p =>
          st ← stmt s;
          put_stmt s (Stmt (Some p) (emulated st) (s_query st) (bound_param st));;
          failed ← api (mysql_stmt_prepare p query);
          if negb (failed =? 0) then
            rc ← ask mysql_errno;
            if u32 rc =? ER_UNSUPPORTED_PS then emulate s query
            else api (mysql_stmt_close p);; mret 1
          else
            st ← stmt s;
            put_stmt s (Stmt (s_ptr st) (emulated st) (Some query) (bound_param st));; mret 0
      end
    else emulate s query.

Definition mysql_drv_bind_param (s : nat) (params : list db_bind_t) : M Z :=
  d ← dry;
  if d : bool then mret 0
  else
    connection;;
    st ← stmt s;
    if negb (emulated st) then
      match s_ptr st with
      | None => mret 1
      | Some p =>
          param_count ← ask (mysql_stmt_param_count p);
          if negb (param_count =? Z.of_nat (length params)) then mret 1
          else
            rc ← api (mysql_stmt_bind_param p (map convert_to_mysql_bind params));
            mret (b2z rc)
      end
    else put_stmt s (Stmt (s_ptr st) (emulated st) (s_query st) (Some params));; mret 0.

Definition mysql_drv_bind_result (s : nat) (params : list db_bind_t) : M Z :=
  d ← dry;
  if d : bool then mret 0
  else
    connection;;
    st ← stmt s;
    match s_ptr st with
    | None => mret 1
    | Some p => rc ← api (mysql_stmt_bind_result p (map convert_to_mysql_bind params)); mret (b2z rc)
    end.

(** [while (mysql_drv_real_connect(db_mysql_con))], with [n] readings of
    [sb_globals.error] that do not find it set. *)
Fixpoint connect_loop (n : nat) (c : db_mysql_conn_t) : M db_error_t :=
  failed ← mysql_drv_real_connect c;
  if failed : bool then match n with O => mret DB_ERROR_FATAL | S n => connect_loop n c end
  else mret DB_ERROR_IGNORABLE.

Definition mysql_drv_reconnect : M db_error_t :=
  c ← connection;
  call mysql_close;;
  connect_loop error_after c.

Definition ignores (error : Z) (val : string) : bool := (error =? u32 (atoi val)) || String.eqb val "all".
Definition connection_error (error : Z) : bool :=
  (error =? CR_SERVER_LOST) || (error =? CR_SERVER_GONE_ERROR) || (error =? CR_TCP_CONNECTION)
  || (error =? CR_SERVER_LOST_EXTENDED).

(** The error class and the counter; the texts of the error are those at the time of
    the call. *)
Definition check_error : M (db_error_t * sb_counter_type_t) :=
  connection;;
  e ← ask mysql_errno;
  let error := u32 e in
  sqlstate ← ask mysql_sqlstate;
  errmsg ← ask mysql_error;
  changes (set_sql_error (s32 error, Some sqlstate, Some errmsg));;
  a ← reads args;
  if existsb (ignores error) (ignored_errors a) then
    if connection_error error then rc ← mysql_drv_reconnect; mret (rc, SB_CNT_RECONNECT)
    else mret (DB_ERROR_IGNORABLE, SB_CNT_ERROR)
  else mret (DB_ERROR_FATAL, SB_CNT_ERROR).

(** [return check_error(con, ..., &rs->counter)] *)
Definition fail (r : db_result_t) : M (db_error_t * db_result_t) :=
  out ← check_error; mret (fst out, set_counter (snd out) r).

(** "Store results and get query type" *)
Definition store_result (r : db_result_t) : M (db_error_t * db_result_t) :=
  res ← api mysql_store_result;
  match res with
  | None =>
      e ← ask mysql_errno;
      f ← ask mysql_field_count;
      if (e =? 0) && (f =? 0) then
        nrows ← ask mysql_affected_rows;
        mret (DB_ERROR_NONE, if 0 <? u32 nrows then set_nrows nrows (set_counter SB_CNT_WRITE r)
                             else set_counter SB_CNT_OTHER r)
      else fail r
  | Some p =>
      changes (set_rs_ptr (Some p));;
      n ← ask (mysql_num_rows p);
      f ← ask (mysql_num_fields p);
      mret (DB_ERROR_NONE, set_nfields f (set_nrows n (set_counter SB_CNT_READ r)))
  end.

Definition mysql_drv_query (query : string) (r : db_result_t) : M (db_error_t * db_result_t) :=
  d ← dry;
  if d : bool then mret (DB_ERROR_NONE, r)
  else
    reset_error;;
    connection;;
    err ← api (mysql_real_query query);
    if negb (err =? 0) then fail r else store_result r.

Definition mysql_drv_more_results : M bool :=
  d ← dry; if d : bool then mret false else connection;; ask mysql_more_results.

Definition mysql_drv_next_result (r : db_result_t) : M (db_error_t * db_result_t) :=
  d ← dry;
  if d : bool then mret (DB_ERROR_NONE, r)
  else
    reset_error;;
    connection;;
    err ← api mysql_next_result;
    if 0 <? err then fail r
    else if err =? -1 then mret (DB_ERROR_NONE, set_counter SB_CNT_OTHER r)
    else store_result r.

(** The result of a server-side statement. *)
Definition stmt_store_result (p : nat) (r : db_result_t) : M (db_error_t * db_result_t) :=
  err ← api (mysql_stmt_store_result p);
  if negb (err =? 0) then fail r
  else
    e ← ask (mysql_stmt_errno p);
    f ← ask (mysql_stmt_field_count p);
    if (e =? 0) && (f =? 0) then
      n ← ask (mysql_stmt_affected_rows p);
      let r := set_nrows n r in
      mret (DB_ERROR_NONE, set_counter (if 0 <? nrows r then SB_CNT_WRITE else SB_CNT_OTHER) r)
    else
      n ← ask (mysql_stmt_num_rows p);
      mret (DB_ERROR_NONE, set_nfields f (set_nrows n (set_counter SB_CNT_READ r))).

(** The fuel is enough for every query ([Emulation.expand_ends]). *)
Definition mysql_drv_execute (s : nat) (r : db_result_t) : M (db_error_t * db_result_t) :=
  d ← dry;
  if d : bool then mret (DB_ERROR_NONE, r)
  else
    reset_error;;
    st ← stmt s;
    if negb (emulated st) then
      match s_ptr st with
      | None => mret (DB_ERROR_FATAL, r)
      | Some p =>
          err ← api (mysql_stmt_execute p);
          if negb (err =? 0) then fail r else stmt_store_result p r
      end
    else
      query ← the (s_query st);
      match expand alloc (print_param fmt_f (bound_param st)) 30 query 0 with
      | Expanded (buf, _) => mysql_drv_query buf r
      | NoMemory => mret (DB_ERROR_FATAL, r)
      | Undefined | Looping => undefined
      end.

Definition mysql_drv_stmt_next_result (s : nat) (r : db_result_t) : M (db_error_t * db_result_t) :=
  d ← dry;
  if d : bool then mret (DB_ERROR_NONE, r)
  else
    reset_error;;
    st ← stmt s;
    if emulated st then mysql_drv_next_result r
    else
      match s_ptr st with
      | None => mret (DB_ERROR_FATAL, r)
      | Some p =>
          err ← api (mysql_stmt_next_result p);
          if 0 <? err then fail r
          else if err =? -1 then mret (DB_ERROR_NONE, set_counter SB_CNT_OTHER r)
          else stmt_store_result p r
      end.

Definition mysql_drv_fetch : M Z := d ← dry; mret (if d : bool then 0 else 1).

(** [row->values], from the row and the lengths of its values. *)
Definition row_of (nfields : nat) (my_row : option (list (option string))) (lengths : list Z)
    : option (list (Z * option string)) :=
  mapM (fun i => len ← lengths !! i; row ← my_row; v ← row !! i; Some (u32 len, v)) (seq 0 nfields).

Definition mysql_drv_fetch_row (r : db_result_t) : M Z :=
  d ← dry;
  if d : bool then mret 0
  else
    ptr ← reads rs_ptr;
    p ← the ptr;
    my_row ← api (mysql_fetch_row p);
    lengths ← ask (mysql_fetch_lengths p);
    match lengths with
    | None => mret 1
    | Some lengths =>
        v ← the (row_of (Z.to_nat (nfields r)) my_row lengths);
        changes (set_values v);; mret 0
    end.

Definition mysql_drv_free_results (r : db_result_t) : M Z :=
  d ← dry;
  if d : bool then mret 0
  else
    (match statement r with
     | None => mret tt
     | Some s =>
         st ← stmt s;
         if negb (emulated st) then
           p ← the (s_ptr st);
           call (mysql_stmt_free_result p);;
           changes (set_rs_ptr None)
         else mret tt
     end);;
    ptr ← reads rs_ptr;
    match ptr with
    | None => mret 0
    | Some p => call (mysql_free_result p);; changes (set_rs_ptr None);; mret 0
    end.

Definition mysql_drv_close (s : nat) : M Z :=
  d ← dry;
  if d : bool then mret 0
  else
    st ← stmt s;
    put_stmt s (Stmt (s_ptr st) (emulated st) None (bound_param st));;
    match s_ptr st with
    | None => mret 1
    | Some p =>
        rc ← api (mysql_stmt_close p);
        put_stmt s (Stmt None (emulated st) None (bound_param st));;
        mret rc
    end.

Definition mysql_drv_done : M Z :=
  d ← dry; if d : bool then mret 0 else call mysql_library_end;; mret 0.

(** ** The driver

    With what [db_prepare] and [db_close] do to the statement: allocate it cleared,
    and free it. *)

Definition drop_stmt (s : nat) : M unit := changes (fun k => set_statements (delete s (statements k)) k).
Definition prepare_new (s : nat) (query : string) : M Z :=
  put_stmt s new_stmt;;
  rc ← mysql_drv_prepare s query;
  if rc =? 0 then mret rc else drop_stmt s;; mret rc.
Definition close_free (s : nat) : M Z := rc ← mysql_drv_close s; drop_stmt s;; mret rc.

Definition mysql_ops (options : list option_t) (mode : db_ps_mode_t) : drv_ops_t (mysqld L) := {|
  op_init k := default (1, k) (mysql_drv_init options mode k);
  op_thread_init := Some (fun _ => total 1 mysql_drv_thread_init);
  op_thread_done := Some (fun _ => total 1 mysql_drv_thread_done);
  op_describe := Some (total (0, mysql_drv_caps) mysql_drv_describe);
  op_connect := total 1 mysql_drv_connect;
  op_disconnect := total 1 mysql_drv_disconnect;
  op_reconnect := Some (total DB_ERROR_FATAL mysql_drv_reconnect);
  op_prepare s q := total 1 (prepare_new s q);
  op_bind_param s l := total 1 (mysql_drv_bind_param s l);
  op_bind_result s l := total 1 (mysql_drv_bind_result s l);
  op_execute s r := total (DB_ERROR_FATAL, r) (mysql_drv_execute s r);
  op_stmt_next_result := Some (fun s r => total (DB_ERROR_FATAL, r) (mysql_drv_stmt_next_result s r));
  op_fetch_row := Some (fun r => total 1 (mysql_drv_fetch_row r));
  op_query q r := total (DB_ERROR_FATAL, r) (mysql_drv_query q r);
  op_more_results := Some (fun k => fst (total false mysql_drv_more_results k));
  op_next_result := Some (fun r => total (DB_ERROR_FATAL, r) (mysql_drv_next_result r));
  op_free_results r := total 1 (mysql_drv_free_results r);
  op_close s := total 1 (close_free s);
  op_done := total 1 mysql_drv_done
|}.

Definition mysql_driver (options : list option_t) (mode : db_ps_mode_t) (k : mysqld L) : db_driver_t (mysqld L) :=
  DbDriver "mysql" (Some mysql_drv_args) (mysql_ops options mode) false k.

(** [register_driver_mysql] *)
Definition register_driver_mysql (options : list option_t) (mode : db_ps_mode_t) (k : mysqld L)
    (drivers : list (db_driver_t (mysqld L))) : Z * list (db_driver_t (mysqld L)) :=
  (0, drivers ++ [mysql_driver options mode k]).
End driver.

(** ** What the theorems use of the client library

    The result sets that are stored and not released are those of [mysql_store_result];
    only [mysql_free_result] releases one. *)

Class MysqlLaws (L : Type) `{!MysqlClient L} := {
  live : L -> gset nat;
  store_live l : live (snd (mysql_store_result l)) =
    match fst (mysql_store_result l) with Some p => {[p]} ∪ live l | None => live l end;
  free_live p l : p ∈ live l -> live (mysql_free_result p l) = live l ∖ {[p]};
  init_live l : live (mysql_init l) = live l;
  ssl_mode_live m l : live (mysql_options_ssl_mode m l) = live l;
  ssl_set_live a b c e l : live (mysql_ssl_set a b c e l) = live l;
  compress_live l : live (mysql_options_compress l) = live l;
  connect_live c l : live (snd (mysql_real_connect c l)) = live l;
  close_live l : live (mysql_close l) = live l;
  query_live q l : live (snd (mysql_real_query q l)) = live l;
  next_live l : live (snd (mysql_next_result l)) = live l;
  fetch_live p l : live (snd (mysql_fetch_row p l)) = live l;
  stmt_free_live p l : live (mysql_stmt_free_result p l) = live l
}.

Section results.
Context {L : Type} `{!MysqlClient L, !MysqlLaws L}.
Context (error_after : nat) (alloc : Z -> bool) (fmt_f : dbl -> string).

(** What the invariant is about. *)
Definition view (k : mysqld L) : Z * pointer db_mysql_conn_t * option nat * gset nat :=
  (dry_run (args k), conn k, rs_ptr k, live (client k)).
Definition sees (v : Z * pointer db_mysql_conn_t * option nat * gset nat) (k : mysqld L) : Prop := view k = v.

(** An operation that keeps [v], with a result in [Q]. *)
Definition keeps {A} v (m : act (mysqld L) A) (Q : A -> Prop) : Prop :=
  triple (sees v) m (fun x k => sees v k /\ Q x).

Lemma keeps_api {A} v (f : L -> A * L) : (forall l, live (snd (f l)) = live l) -> triple (sees v) (api f) (fun _ => sees v).
Proof using Type.
  intros Hf k Hk. specialize (Hf (client k)). unfold api. destruct (f (client k)) as [x l]. exists x, (set_client l k).
  split; [done|]. unfold sees, view in *. cbn in *. by rewrite Hf.
Qed.
Lemma keeps_call v (f : L -> L) : (forall l, live (f l) = live l) -> triple (sees v) (call f) (fun _ => sees v).
Proof using Type. intros Hf. apply triple_changes. intros k Hk. unfold sees, view in *. cbn. by rewrite Hf. Qed.
Lemma keeps_reads {A} v (f : mysqld L -> A) : triple (sees v) (reads f) (fun _ => sees v).
Proof using Type. intros k Hk. by exists (f k), k. Qed.
Lemma keeps_reset v : triple (sees v) reset_error (fun _ => sees v).
Proof using Type. by apply triple_changes. Qed.
Lemma keeps_sql_error v e : triple (sees v) (changes (set_sql_error e)) (fun _ => sees v).
Proof using Type. by apply triple_changes. Qed.
Lemma keeps_connection d c p s :
  triple (sees (d, Valid c, p, s)) connection (fun x k => sees (d, Valid c, p, s) k /\ x = c).
Proof using Type.
  intros k Hk. exists c, k. injection Hk as Hd Hc Hp Hl. split; [|split; [|done]].
  - unfold connection. unfold mbind, act_bind, reads. cbn. by rewrite Hc.
  - unfold sees, view. by rewrite Hd, Hc, Hp, Hl.
Qed.
Lemma sees_wet c p s : triple (sees (0, c, p, s)) dry (fun d k => sees (0, c, p, s) k /\ d = false).
Proof using Type.
  intros k Hk. exists false, k. split; [|done]. unfold dry, reads. unfold sees, view in Hk. injection Hk as -> _ _ _. done.
Qed.

#[local] Hint Resolve keeps_reads keeps_reset keeps_sql_error keeps_connection sees_wet : act.
#[local] Hint Extern 1 (triple _ (call _) _) => apply keeps_call; intros ? : act.
#[local] Hint Extern 1 (triple _ (api _) _) => apply keeps_api; intros ? : act.
#[local] Hint Extern 1 (triple _ (ask _) _) => apply keeps_reads : act.
#[local] Hint Extern 2 (triple _ (if ?b then _ else _) _) => destruct b : act.
#[local] Hint Extern 2 (triple _ (mret _) _) => apply triple_ret : act.
#[local] Hint Resolve ssl_mode_live ssl_set_live compress_live connect_live close_live query_live next_live
  fetch_live stmt_free_live init_live : act.

Lemma real_connect_keeps v c : triple (sees v) (mysql_drv_real_connect c) (fun _ => sees v).
Proof using Type. unfold mysql_drv_real_connect. do 5 act_step. by apply triple_ret. Qed.
#[local] Hint Resolve real_connect_keeps : act.

Lemma connect_loop_keeps v n c : keeps v (connect_loop n c) (fun e => e <> DB_ERROR_NONE).
Proof using Type.
  induction n as [|n IH]; cbn [connect_loop]; act_step; case_match; first [by apply triple_ret|done].
Qed.

Definition connected (v : Z * pointer db_mysql_conn_t * option nat * gset nat) : Prop := exists c, v.1.1.2 = Valid c.
Lemma connection_keeps v : connected v -> triple (sees v) connection (fun _ => sees v).
Proof using Type.
  destruct v as [[[d c0] p] s]. intros [c [= ->]]. eapply triple_consequence; [apply keeps_connection|done|].
  by intros x k [Hk _].
Qed.
#[local] Hint Resolve connection_keeps : act.

Lemma reconnect_keeps v : connected v -> keeps v (mysql_drv_reconnect error_after) (fun e => e <> DB_ERROR_NONE).
Proof using Type. intros Hv. unfold mysql_drv_reconnect. do 2 act_step. apply connect_loop_keeps. Qed.

Lemma fail_keeps v r : connected v ->
  keeps v (fail error_after r) (fun out => fst out <> DB_ERROR_NONE /\ statement (snd out) = statement r).
Proof using Type.
  intros Hv. unfold fail. apply (triple_bind _ (fun x k => sees v k /\ fst x <> DB_ERROR_NONE)).
  - unfold check_error. do 6 act_step. destruct (existsb _ _); [destruct (connection_error _)|]; try by apply triple_ret.
    eapply triple_bind; [by apply reconnect_keeps|]. intros e. by apply triple_ret.
  - intros x. apply triple_ret. by intros k [Hk He].
Qed.
(** Connected, with the results [p]. *)
Definition holding c (p : option nat) (k : mysqld L) : Prop :=
  sees (0, Valid c, p, match p with Some p => {[p]} | None => ∅ end) k.

(** What a query leaves: the results of a read, or none. *)
Definition answered c (r : db_result_t) (out : db_error_t * db_result_t) (k : mysqld L) : Prop :=
  statement (snd out) = statement r /\
  ((exists p, out.1 = DB_ERROR_NONE /\ counter out.2 = SB_CNT_READ /\ holding c (Some p) k)
   \/ opened out.1 out.2 = 0 /\ holding c None k).

Lemma fail_answered c r : triple (holding c None) (fail error_after r) (answered c r).
Proof using Type.
  eapply triple_consequence; [apply (fail_keeps (0, Valid c, None, ∅)); by exists c|done|].
  intros [e r'] k (Hk & He & Hs). split; [exact Hs|right]. split; [|exact Hk]. cbn in *. unfold opened.
  by rewrite bool_decide_false.
Qed.

Lemma store_result_answered c r : triple (holding c None) (store_result error_after r) (answered c r).
Proof using Type.
  unfold store_result.
  apply (triple_bind _ (fun x k => live (client k) = match x with Some p => {[p]} | None => ∅ end
    /\ (dry_run (args k), conn k, rs_ptr k) = (0, Valid c, None))).
  { intros k Hk. pose proof (store_live (client k)) as E. injection Hk as Hd Hc Hp Hl. rewrite Hl in E.
    unfold api. destruct (mysql_store_result (client k)) as [x l]. exists x, (set_client l k). split; [done|].
    cbn in *. rewrite Hd, Hc, Hp, E. split; [|done]. destruct x; set_solver. }
  intros [p|].
  - apply (triple_bind _ (fun _ => holding c (Some p))).
    { apply triple_changes. intros k [Hl H]. unfold holding, sees, view. cbn. injection H as -> -> _. by rewrite Hl. }
    intros _. unfold holding. do 2 act_step. apply triple_ret. intros k Hk. split; [done|left]. by exists p.
  - apply (triple_consequence _ (holding c None) _ _ (answered c r)); [|intros k [Hl H]; unfold holding, sees, view; injection H as -> -> ->; by rewrite Hl|done].
    unfold holding. do 2 act_step. destruct (_ && _); [|apply fail_answered].
    act_step. apply triple_ret. intros k Hk. split; [by destruct (_ <? _)|right]. split; [|done].
    unfold opened. by destruct (_ <? _).
Qed.

Lemma query_answered c q r : triple (holding c None) (mysql_drv_query error_after q r) (answered c r).
Proof using Type.
  unfold mysql_drv_query, holding. do 4 act_step.
  destruct (negb _); [apply fail_answered|apply store_result_answered].
Qed.

Lemma next_result_answered c r : triple (holding c None) (mysql_drv_next_result error_after r) (answered c r).
Proof using Type.
  unfold mysql_drv_next_result, holding. do 4 act_step. destruct (_ <? _); [apply fail_answered|].
  destruct (_ =? _); [|apply store_result_answered]. apply triple_ret. intros k Hk. split; [done|by right].
Qed.

Lemma free_results_none c p r : statement r = None ->
  triple (holding c (Some p)) (mysql_drv_free_results r) (fun _ => holding c None).
Proof using Type.
  intros Hr. unfold mysql_drv_free_results, holding. do 1 act_step. rewrite Hr.
  apply (triple_bind _ (fun _ => sees (0, Valid c, Some p, {[p]}))); [by apply triple_ret|intros _].
  apply (triple_bind _ (fun x k => sees (0, Valid c, Some p, {[p]}) k /\ x = Some p)).
  { intros k Hk. exists (Some p), k. injection Hk as Hd Hc Hp Hl. unfold reads, sees, view. by rewrite Hd, Hc, Hp, Hl. }
  intros x. apply triple_pure. intros ->.
  apply (triple_bind _ (fun _ => sees (0, Valid c, Some p, ∅))).
  { apply triple_changes. intros k Hk. injection Hk as Hd Hc Hp Hl. unfold sees, view. cbn. rewrite Hd, Hc, Hp.
    rewrite free_live by (rewrite Hl; set_solver). rewrite Hl. repeat f_equal. set_solver. }
  intros _. apply (triple_bind _ (fun _ => sees (0, Valid c, None, ∅))); [|intros _; by apply triple_ret].
  apply triple_changes. intros k Hk. unfold sees, view in *. cbn. by injection Hk as -> -> _ ->.
Qed.
(** ** The driver and the database layer *)

Definition mysql_ok (k : mysqld L) : Prop := exists c, holding c (rs_ptr k) k.
Definition mysql_open (k : mysqld L) : Z := Z.of_nat (size (live (client k))).

Lemma holding_ok c p k : holding c p k -> mysql_ok k /\ mysql_open k = b2z (bool_decide (is_Some p)).
Proof using Type.
  intros Hk. injection Hk as Hd Hc Hp Hl. unfold mysql_open. rewrite Hl. split.
  - exists c. unfold holding, sees, view. by rewrite Hd, Hc, Hp, Hl.
  - destruct p as [p|]; [|by rewrite size_empty]. by rewrite size_singleton, bool_decide_true.
Qed.
Lemma ok_holding k : mysql_ok k -> exists c p, holding c p k.
Proof using Type. intros [c H]. eauto. Qed.
Lemma holding_none c p k : holding c p k -> mysql_open k = 0 -> p = None.
Proof using Type.
  intros Hk Ho. destruct (holding_ok c p k Hk) as [_ E]. rewrite Ho in E. destruct p as [p|]; [|done].
  by rewrite bool_decide_true in E.
Qed.
Lemma holding_some c p k : holding c p k -> mysql_open k = 1 -> exists q, p = Some q.
Proof using Type.
  intros Hk Ho. destruct (holding_ok c p k Hk) as [_ E]. rewrite Ho in E. destruct p as [p|]; [eauto|done].
Qed.

Lemma answered_answers m r k c : statement r = None -> holding c None k ->
  triple (holding c None) m (answered c r) ->
  let '(e, r', k') := total (DB_ERROR_FATAL, r) m k in
  mysql_ok k' /\ mysql_open k' = opened e r' /\ usable false r'.
Proof using Type.
  intros Hr Hk Hm. pose proof (triple_total _ _ _ (DB_ERROR_FATAL, r) k Hm Hk) as [Hs H].
  destruct (total _ m k) as [[e r'] k']. cbn [fst snd] in *.
  destruct H as [(p & -> & Hc & H)|[Ho H]]; destruct (holding_ok _ _ _ H) as [H1 H2];
    (split; [done|]; split; [rewrite H2|right; congruence]); [|by rewrite Ho].
  unfold opened. by rewrite Hc.
Qed.

Lemma fetch_row_view r k : view (snd (total 1 (mysql_drv_fetch_row r) k)) = view k.
Proof using Type.
  unfold total, mysql_drv_fetch_row, mbind, act_bind, dry, reads. cbn. destruct (negb _); [done|].
  destruct (rs_ptr k) as [p|] eqn:Ep; [|done]. cbn. unfold api, ask, reads. pose proof (fetch_live p (client k)) as E.
  destruct (mysql_fetch_row p (client k)) as [row l]. cbn in *. destruct (mysql_fetch_lengths p l) as [ls|].
  - destruct (row_of _ row ls); cbn; [|done]. unfold view. cbn. by rewrite E.
  - unfold view. cbn. by rewrite E.
Qed.

(** The laws of the layer, for clients that do not prepare statements. *)
#[export] Instance mysql_laws options mode :
  DriverLaws false (mysql_ops error_after alloc fmt_f options mode).
Proof using Type*.
  refine {| open_sets := mysql_open; driver_ok := mysql_ok; driver_closed := fun _ => True |};
    cbn [mysql_ops op_query op_next_result op_free_results op_fetch_row op_describe op_disconnect op_reconnect]; try discriminate.
  - intros q r k Hk Ho [|Hr]; [done|]. destruct (ok_holding k Hk) as (c & p & H).
    pose proof (holding_none c p k H Ho) as ->. apply (answered_answers _ r k c Hr H). apply query_answered.
  - intros f r k [= <-] Hk Ho [|Hr]; [done|]. destruct (ok_holding k Hk) as (c & p & H).
    pose proof (holding_none c p k H Ho) as ->. apply (answered_answers _ r k c Hr H). apply next_result_answered.
  - intros r k Hk Ho [|Hr]; [done|]. destruct (ok_holding k Hk) as (c & p & H).
    destruct (holding_some c p k H Ho) as [q ->].
    pose proof (triple_total _ _ _ 1 k (free_results_none c q r Hr) H) as H2. by apply holding_ok in H2.
  - intros f r k [= <-] Hk. pose proof (fetch_row_view r k) as E. destruct (ok_holding k Hk) as (c & p & H).
    assert (H2 : holding c p (snd (total 1 (mysql_drv_fetch_row r) k))) by (unfold holding, sees in *; by rewrite E).
    destruct (holding_ok _ _ _ H) as [_ E1], (holding_ok _ _ _ H2) as [H3 E2]. split; [done|]. by rewrite E1, E2.
  - intros f k [= <-] Hk. by split.
  - intros k [c Hk]. unfold total, mysql_drv_disconnect, mbind, act_bind, dry, reads, call, changes, mret, act_ret.
    injection Hk as Hd Hc Hl. rewrite Hd. cbn. rewrite Hc. cbn. unfold mysql_open. cbn.
    by rewrite close_live.
  - intros f k [= <-] Hk. destruct (ok_holding k Hk) as (c & p & H).
    assert (Hv : connected (0, Valid c, p, match p with Some p => {[p]} | None => ∅ end)) by (by exists c).
    pose proof (triple_total _ _ _ DB_ERROR_FATAL k (reconnect_keeps _ Hv) H) as [H2 _].
    destruct (holding_ok _ _ _ H) as [_ E1], (holding_ok _ _ _ H2) as [H3 E2]. split; [by rewrite E1, E2|].
    by destruct (bool_decide (_ = DB_ERROR_FATAL)).
Defined.

(** C15: whatever a client without prepared statements does on a connection, in any
    order and with any errors of the server, the driver never leaks a result set and
    never releases one twice: the one stored is [rs->ptr] in the state
    [DB_CONN_RESULT_SET], and there is none otherwise, in particular when the
    connection has been closed.  While it is open the driver's own pointers are
    valid: releasing the results, and the next query, are defined. *)
Theorem mysql_results_released options mode c l (w w' : db_world (mysqld L)) :
  holding c None (drv w) -> state (con w) = DB_CONN_READY -> statement (rs (con w)) = None ->
  Forall (allowed false) l -> run_calls (mysql_ops error_after alloc fmt_f options mode) l w = Some w' ->
  match state (con w') with
  | DB_CONN_RESULT_SET =>
      (exists p, rs_ptr (drv w') = Some p /\ live (client (drv w')) = {[p]}) /\
      is_Some (mysql_drv_free_results (rs (con w')) (drv w'))
  | DB_CONN_READY =>
      live (client (drv w')) = ∅ /\ forall q, is_Some (mysql_drv_query error_after q (rs (con w')) (drv w'))
  | DB_CONN_INVALID => live (client (drv w')) = ∅
  end.
Proof using Type*.
  intros Hk Hs Hr Hl H. destruct (holding_ok _ _ _ Hk) as [H1 H2].
  assert (Hw : sets_ok (mysql_ops error_after alloc fmt_f options mode) false w).
  { split_and!; [|by right|]; rewrite Hs; [exact H1|exact H2]. }
  destruct (calls_sets _ false l w w' Hl Hw H) as (Hok & [|Hu] & Ho); [done|]. cbn [open_sets driver_ok mysql_laws] in *.
  assert (He : mysql_open (drv w') = 0 -> live (client (drv w')) = ∅).
  { unfold mysql_open. intros E. apply leibniz_equiv, size_empty_inv. lia. }
  destruct (state (con w')); [|destruct Hok as [c' Hc]|by apply He].
  - split; [by apply He|]. intros q. destruct Hok as [c' Hc].
    pose proof (holding_none _ _ _ Hc Ho) as E. rewrite E in Hc.
    destruct (query_answered c' q (rs (con w')) _ Hc) as (x & k' & -> & _). done.
  - destruct (holding_some _ _ _ Hc Ho) as [p E]. rewrite E in Hc. split.
    + exists p. split; [done|]. by injection Hc as _ _ _ ->.
    + destruct (free_results_none c' p (rs (con w')) Hu _ Hc) as (x & k' & -> & _). done.
Qed.
End results.

(** ** A client library in memory, for the witnesses

    "SELECT" returns a row, "LOST" loses the connection, and the attempts to
    connect succeed as listed. *)

Record memc := Memc { c_live : gset nat; c_next : nat; c_rows : bool; c_errno : Z; c_up : list bool; c_sent : list string }.

#[export] Instance memc_client : MysqlClient memc := {|
  CR_SERVER_LOST := 2013;
  CR_SERVER_GONE_ERROR := 2006;
  CR_TCP_CONNECTION := 2011;
  CR_SERVER_LOST_EXTENDED := 2055;
  ER_UNSUPPORTED_PS := 1295;
  mysql_library_init l := l;
  mysql_library_end l := l;
  mysql_thread_init l := (0, l);
  mysql_thread_end l := l;
  mysql_init l := l;
  mysql_options_ssl_mode _ l := l;
  mysql_ssl_set _ _ _ _ l := l;
  mysql_options_compress l := l;
  mysql_real_connect _ l := (default true (head (c_up l)),
    Memc (c_live l) (c_next l) (c_rows l) (c_errno l) (tail (c_up l)) (c_sent l));
  mysql_close l := l;
  mysql_errno := c_errno;
  mysql_sqlstate _ := "HY000"%string;
  mysql_error _ := ""%string;
  mysql_real_query q l :=
    let lost := String.eqb q "LOST" in
    (b2z lost, Memc (c_live l) (c_next l) (String.eqb q "SELECT") (if lost then 2013 else 0) (c_up l) (c_sent l ++ [q]));
  mysql_store_result l :=
    if c_rows l then (Some (c_next l), Memc ({[c_next l]} ∪ c_live l) (S (c_next l)) false (c_errno l) (c_up l) (c_sent l))
    else (None, l);
  mysql_field_count _ := 0;
  mysql_affected_rows _ := 1;
  mysql_num_rows _ _ := 1;
  mysql_num_fields _ _ := 1;
  mysql_fetch_row _ l := (Some [Some "1"%string], l);
  mysql_fetch_lengths _ _ := Some [1];
  mysql_free_result p l := Memc (c_live l ∖ {[p]}) (c_next l) (c_rows l) (c_errno l) (c_up l) (c_sent l);
  mysql_more_results _ := false;
  mysql_next_result l := (-1, l);
  mysql_stmt_init l := (Some 0%nat, l);
  mysql_stmt_prepare _ _ l := (0, l);
  mysql_stmt_param_count _ _ := 0;
  mysql_stmt_bind_param _ _ l := (false, l);
  mysql_stmt_bind_result _ _ l := (false, l);
  mysql_stmt_execute _ l := (0, l);
  mysql_stmt_store_result _ l := (0, l);
  mysql_stmt_errno _ _ := 0;
  mysql_stmt_field_count _ _ := 0;
  mysql_stmt_affected_rows _ _ := 1;
  mysql_stmt_num_rows _ _ := 0;
  mysql_stmt_next_result _ l := (-1, l);
  mysql_stmt_free_result _ l := l;
  mysql_stmt_close _ l := (0, l)
|}.

#[export] Instance memc_laws : MysqlLaws memc.
Proof. refine {| live := c_live : memc -> gset nat |}; try done. intros l. cbn. by destruct (c_rows l). Defined.

Definition mem_args (ports ignored : list string) : mysql_drv_args_t :=
  MysqlArgs ["db1"; "db2"]%string ports [] None None None SSL_MODE_DISABLED false None None None None 0 0 ignored 0.
Definition mem_conn : db_mysql_conn_t := MysqlConn (Some "db1"%string) None None None 3306 None.
(** Connected, with server-side statements. *)
Definition mem_state (ignored : list string) (up : list bool) : mysqld memc :=
  Mysqld (Memc ∅ 0 false 0 up []) (mem_args ["3306"] ignored) (DrvCaps true true true false false true) true
    (Positions 1 1 0) 3 (Valid mem_conn) (0, None, None) None [] ∅.
Definition mem_db (up : list bool) : db_world (mysqld memc) :=
  Db (DbConn DB_ERROR_NONE new_rs DB_CONN_READY 0 0 0 None 0 0 0 0) (mem_state ["2013"%string] up) (sb_counters_init 1) ∅.

Lemma mysql_results_released_witness :
  exists w', run_calls (mysql_ops 1 (fun _ => true) (fun _ => ""%string) [] DB_PS_MODE_AUTO)
               [Query "SELECT"; FetchRow; Query "LOST"; Query "SELECT"; CloseConnection] (mem_db [false; true]) = Some w'
    /\ state (con w') = DB_CONN_INVALID /\ c_live (client (drv w')) = ∅.
Proof.
  destruct (run_calls (mysql_ops 1 (fun _ => true) (fun _ => ""%string) [] DB_PS_MODE_AUTO)
    [Query "SELECT"; FetchRow; Query "LOST"; Query "SELECT"; CloseConnection] (mem_db [false; true])) as [w'|] eqn:E;
    [|vm_compute in E; discriminate].
  assert (Hs : state (con w') = DB_CONN_INVALID) by (vm_compute in E; injection E as <-; reflexivity).
  assert (Hk : holding mem_conn None (drv (mem_db [false; true]))) by reflexivity.
  exists w'. split; [done|]. split; [exact Hs|].
  pose proof (mysql_results_released 1 (fun _ => true) (fun _ => ""%string) [] DB_PS_MODE_AUTO mem_conn
    [Query "SELECT"; FetchRow; Query "LOST"; Query "SELECT"; CloseConnection] (mem_db [false; true]) w'
    Hk ltac:(reflexivity) ltac:(reflexivity) ltac:(repeat constructor) E) as H.
  rewrite Hs in H. exact H.
Defined.

(** ** Addresses *)

Section addresses.
Context (a : mysql_drv_args_t).

(** The addresses of [n] connections, from the positions [p] on. *)
Fixpoint addresses (n : nat) (p : positions) : option (list (option string * Z * option string)) :=
  match n with
  | O => Some []
  | S n => '(h, q, s, p) ← next_address a p; l ← addresses n p; Some ((h, q, s) :: l)
  end.

(** The reference: ports change fastest, then hosts; with sockets, only they count. *)
Definition address (i : nat) : option string * Z * option string :=
  match sockets a with
  | [] => (hosts a !! ((i / length (ports a)) mod length (hosts a))%nat,
           u32 (atoi (default ""%string (ports a !! (i mod length (ports a))%nat))), None)
  | l => (Some "localhost"%string, 0, l !! (i mod length l)%nat)
  end.

Definition pos_at (i : nat) : positions :=
  match sockets a with
  | [] => Positions (S ((i / length (ports a)) mod length (hosts a))) (S (i mod length (ports a))) 0
  | l => Positions 1 1 (match i with O => 0 | S i => S (i mod length l) end)
  end.

Lemma succ_divmod P i : (0 < P)%nat ->
  if (S (i mod P) =? P)%nat then (S i mod P = 0 /\ S i / P = S (i / P))%nat
  else (S i mod P = S (i mod P) /\ S i / P = i / P)%nat.
Proof.
  intros HP. pose proof (Nat.div_mod_eq i P) as E. pose proof (Nat.mod_upper_bound i P ltac:(lia)) as Hm.
  destruct (Nat.eqb_spec (S (i mod P)) P) as [Eq|Ne].
  - split; symmetry; [apply (Nat.mod_unique _ P (S (i / P)))|apply (Nat.div_unique _ P _ 0)]; nia.
  - split; symmetry; [apply (Nat.mod_unique _ P (i / P))|apply (Nat.div_unique _ P _ (S (i mod P)))]; nia.
Qed.

(** The position after an entry, wrapping around the head. *)
Lemma next_mod (l : list string) i : l <> [] ->
  let p := list_next l (S (i mod length l)) in
  (if (p =? 0)%nat then list_next l p else p) = S (S i mod length l).
Proof.
  intros Hl. assert (Hn : (0 < length l)%nat) by (destruct l; [done|cbn; lia]).
  pose proof (succ_divmod (length l) i Hn) as H. unfold list_next.
  destruct (S (i mod length l) =? length l)%nat eqn:E; cbn [Nat.eqb].
  - destruct H as [-> _]. by destruct l.
  - by destruct H as [-> _].
Qed.

Lemma next_address_at i : hosts a <> [] -> ports a <> [] ->
  next_address a (pos_at i) = Some (address i, pos_at (S i)).
Proof.
  intros Hh Hp. unfold next_address, pos_at, address. destruct (sockets a) as [|s0 ss] eqn:Es.
  - cbn [hosts_pos ports_pos sockets_pos entry]. assert (Hn : (0 < length (ports a))%nat) by (destruct (ports a); [done|cbn; lia]).
    pose proof (Nat.mod_upper_bound i (length (ports a)) ltac:(lia)) as Hi.
    assert (Hm : (0 < length (hosts a))%nat) by (destruct (hosts a); [done|cbn; lia]).
    pose proof (Nat.mod_upper_bound (i / length (ports a)) (length (hosts a)) ltac:(lia)) as Hj.
    destruct (lookup_lt_is_Some_2 (hosts a) _ Hj) as [h Eh]. destruct (lookup_lt_is_Some_2 (ports a) _ Hi) as [q Eq].
    rewrite Eh, Eq. cbn [mbind option_bind default from_option id]. pose proof (succ_divmod (length (ports a)) i Hn) as H.
    assert (Ep : list_next (ports a) (S (i mod length (ports a))) =
                 if (S (i mod length (ports a)) =? length (ports a))%nat then 0%nat else S (S (i mod length (ports a))))
      by reflexivity.
    destruct (S (i mod length (ports a)) =? length (ports a))%nat eqn:E; rewrite Ep; cbn [Nat.eqb]; destruct H as [-> ->].
    + rewrite (next_mod (hosts a) (i / length (ports a)) Hh). by destruct (ports a).
    + done.
  - set (l := s0 :: ss) in *. assert (Hl : l <> []) by done. cbn [hosts_pos ports_pos sockets_pos].
    pose proof (Nat.mod_upper_bound i (length l) ltac:(cbn; lia)) as Hi. destruct (lookup_lt_is_Some_2 l _ Hi) as [x Ex].
    rewrite Ex. destruct i as [|i].
    + change (list_next l 0) with 1%nat. cbn [Nat.eqb entry]. cbn in Ex. rewrite Nat.sub_diag in Ex. cbn. rewrite Nat.sub_diag. by injection Ex as ->.
    + rewrite (next_mod l i Hl). cbn [entry]. by rewrite Ex.
Qed.
End addresses.

(** Connections are spread over the addresses evenly and in order: the i-th one
    goes to the i-th pair of host and port, ports first, or to the i-th socket, all
    taken round-robin. *)
Theorem addresses_round_robin a n : hosts a <> [] -> ports a <> [] ->
  addresses a n (Positions 1 1 0) = Some (map (address a) (seq 0 n)).
Proof.
  intros Hh Hp. assert (E : Positions 1 1 0 = pos_at a 0).
  { unfold pos_at. destruct (sockets a); [|done]. rewrite Nat.Div0.div_0_l, !Nat.Div0.mod_0_l. done. }
  rewrite E. generalize 0%nat. induction n as [|n IH]; intros i; [done|].
  cbn [addresses seq map]. rewrite (next_address_at a i Hh Hp). destruct (address a i) as [[h q] s] eqn:Ea.
  cbn [mbind option_bind]. by rewrite IH.
Qed.

Lemma addresses_round_robin_witness :
  addresses (mem_args ["3306"; "3307"] [])%string 5 (Positions 1 1 0)
  = Some [(Some "db1", 3306, None); (Some "db1", 3307, None); (Some "db2", 3306, None); (Some "db2", 3307, None);
          (Some "db1", 3306, None)]%string.
Proof. apply (addresses_round_robin (mem_args ["3306"; "3307"] [])%string 5); discriminate. Defined.

(** ** Errors and reconnecting *)

Section errors.
Context {L : Type} `{!MysqlClient L}.
Context (error_after : nat).

Lemma real_connect_total c (k : mysqld L) : exists b l, mysql_drv_real_connect c k = Some (b, set_client l k).
Proof using Type.
  unfold mysql_drv_real_connect, mbind, act_bind, reads, call, changes, api, mret, act_ret. cbn.
  destruct (use_ssl (args k)), (use_compression (args k) =? 0); cbn; destruct (mysql_real_connect _ _); by eexists _, _.
Qed.

(** The state after [n] attempts to connect, and whether the next one succeeds. *)
Definition attempts (c : db_mysql_conn_t) (n : nat) (k : mysqld L) : mysqld L :=
  Nat.iter n (fun k => from_option snd k (mysql_drv_real_connect c k)) k.
Definition succeeds (c : db_mysql_conn_t) (k : mysqld L) : Prop := fst <$> mysql_drv_real_connect c k = Some false.

(** The outcome of reconnecting: the attempts go on until one succeeds, unless
    [sb_globals.error] is found set. *)
Definition reconnected (c : db_mysql_conn_t) (n : nat) (k : mysqld L) (e : db_error_t) (k' : mysqld L) : Prop :=
  exists i, (i <= n)%nat /\ k' = attempts c (S i) k /\ (forall j, (j < i)%nat -> ~ succeeds c (attempts c j k)) /\
    (e = DB_ERROR_IGNORABLE /\ succeeds c (attempts c i k)
     \/ e = DB_ERROR_FATAL /\ i = n /\ ~ succeeds c (attempts c i k)).

Lemma attempts_S c n k : attempts c (S n) k = attempts c n (from_option snd k (mysql_drv_real_connect c k)).
Proof using Type. unfold attempts. by rewrite Nat.iter_succ_r. Qed.

Lemma connect_loop_reconnected c n : forall k, exists e k', connect_loop n c k = Some (e, k') /\ reconnected c n k e k'.
Proof using Type.
  induction n as [|n IH]; intros k; cbn [connect_loop]; unfold mbind, act_bind, mret, act_ret;
    destruct (real_connect_total c k) as (b & l & E); rewrite E; cbn.
  - assert (Ek : attempts c 1 k = set_client l k) by (rewrite attempts_S, E; done).
    destruct b; eexists _, _; (split; [done|]); exists 0%nat; (split_and!; [lia|done|intros; lia|]).
    + right. split_and!; [done|done|]. unfold succeeds. cbn. by rewrite E.
    + left. split; [done|]. unfold succeeds. cbn. by rewrite E.
  - destruct b.
    + destruct (IH (set_client l k)) as (e & k' & E2 & i & Hi & Hk & Hf & He). exists e, k'. split; [exact E2|].
      assert (Ea : forall j, attempts c (S j) k = attempts c j (set_client l k)) by (intros j; rewrite attempts_S, E; done).
      exists (S i). split_and!; [lia|by rewrite Ea| |].
      * intros [|j] Hj; [unfold succeeds; cbn; by rewrite E|]. rewrite Ea. apply Hf. lia.
      * rewrite Ea. destruct He as [He|(-> & -> & He)]; [by left|by right].
    + eexists _, _. split; [done|]. exists 0%nat. split_and!; [lia|by rewrite attempts_S, E|intros; lia|].
      left. split; [done|]. unfold succeeds. cbn. by rewrite E.
Qed.

(** The state in which the error of the client library has been stored. *)
Definition noted (k : mysqld L) : mysqld L :=
  set_sql_error (s32 (u32 (mysql_errno (client k))), Some (mysql_sqlstate (client k)), Some (mysql_error (client k))) k.

(** C22: an error is stored in the connection and classified: one that
    --mysql-ignore-errors does not list, by number or with "all", is fatal and
    nothing else happens; one that it lists is ignorable, and when it means that the
    server was lost, the driver closes the connection and connects again, counting
    a reconnect: it makes no attempt after one that succeeds, and gives up only when
    the program has an error. *)
Theorem check_error_classifies c (k : mysqld L) :
  conn k = Valid c ->
  let error := u32 (mysql_errno (client k)) in
  let ignored := exists val, val ∈ ignored_errors (args k) /\ (u32 (atoi val) = error \/ val = "all"%string) in
  (~ ignored -> check_error error_after k = Some ((DB_ERROR_FATAL, SB_CNT_ERROR), noted k)) /\
  (ignored -> connection_error error = false ->
   check_error error_after k = Some ((DB_ERROR_IGNORABLE, SB_CNT_ERROR), noted k)) /\
  (ignored -> connection_error error = true ->
   exists e k', check_error error_after k = Some ((e, SB_CNT_RECONNECT), k') /\
     reconnected c error_after (set_client (mysql_close (client k)) (noted k)) e k').
Proof using Type.
  intros Hc error ignored.
  assert (Hi : ignored <-> existsb (ignores error) (ignored_errors (args k)) = true).
  { unfold ignored. rewrite existsb_exists. split; intros (v & Hv & H); exists v; rewrite list_elem_of_In in *; (split; [done|]);
      unfold ignores in *; rewrite orb_true_iff, Z.eqb_eq, String.eqb_eq in *; naive_solver. }
  assert (E : check_error error_after k =
    (if existsb (ignores error) (ignored_errors (args k)) then
       if connection_error error then rc ← mysql_drv_reconnect error_after; mret (rc, SB_CNT_RECONNECT)
       else mret (DB_ERROR_IGNORABLE, SB_CNT_ERROR)
     else mret (DB_ERROR_FATAL, SB_CNT_ERROR)) (noted k)).
  { unfold check_error, connection, ask, mbind, act_bind, reads, changes. rewrite Hc. reflexivity. }
  rewrite E. split_and!.
  - intros H. destruct (existsb _ _); [|done]. destruct H. by apply Hi.
  - intros H Hce. rewrite (proj1 Hi H), Hce. done.
  - intros H Hce. rewrite (proj1 Hi H), Hce.
    unfold mysql_drv_reconnect, connection, mbind, act_bind, reads, call, changes. cbn. rewrite Hc. cbn.
    destruct (connect_loop_reconnected c error_after (set_client (mysql_close (client k)) (noted k))) as (e & k' & E2 & H2).
    exists e, k'. split; [|done]. by rewrite E2.
Qed.

(** The rows of a server-side statement have no [rs->ptr]: fetching one passes a null
    pointer to the client library. *)
Theorem fetch_row_of_statement_undefined r (k : mysqld L) :
  dry_run (args k) = 0 -> rs_ptr k = None -> mysql_drv_fetch_row r k = None.
Proof using Type.
  intros Hd Hp. unfold mysql_drv_fetch_row, mbind, act_bind, dry, reads. cbn. rewrite Hd. cbn. by rewrite Hp.
Qed.

(** In the mode --mysql-dry-run there is no connection data, and reconnecting reads
    through a null pointer. *)
Theorem dry_run_reconnect_undefined (k : mysqld L) : dry_run (args k) <> 0 -> conn k = Null ->
  mysql_drv_connect k = Some (0, k) /\ mysql_drv_reconnect error_after k = None.
Proof using Type.
  intros Hd Hc. unfold mysql_drv_connect, mysql_drv_reconnect, connection, mbind, act_bind, dry, reads. cbn.
  rewrite (proj2 (Z.eqb_neq _ _) Hd), Hc. done.
Qed.
End errors.

Lemma check_error_classifies_witness :
  let k := Mysqld (Memc ∅ 0 false 2013 [false; false; true] []) (mem_args ["3306"] ["1213"; "2013"])%string
             mysql_drv_caps true (Positions 1 1 0) 3 (Valid mem_conn) (0, None, None) None [] ∅ in
  exists e k', check_error 5 k = Some ((e, SB_CNT_RECONNECT), k') /\
    reconnected mem_conn 5 (set_client (mysql_close (client k)) (noted k)) e k'.
Proof.
  intros k. apply (check_error_classifies 5 mem_conn k); [reflexivity| |vm_compute; reflexivity].
  exists "2013"%string. split; [by right; left|]. left. vm_compute. reflexivity.
Defined.

(** ** Emulated statements *)

Section emulation.
Context {L : Type} `{!MysqlClient L}.
Context (error_after : nat) (alloc : Z -> bool) (fmt_f : dbl -> string).

Lemma emulated_prepare s query c (k : mysqld L) : dry_run (args k) = 0 -> conn k = Valid c -> use_ps k = false ->
  prepare_new s query k = Some (0, set_statements (<[s := Stmt None true (Some query) None]> (statements k)) k).
Proof using Type.
  intros Hd Hc Hps. unfold prepare_new, mysql_drv_prepare, emulate, connection, stmt, mbind, act_bind, put_stmt, dry,
    reads, changes, mret, act_ret. cbn. rewrite Hd. cbn. rewrite Hc. cbn. rewrite Hps. cbn. rewrite lookup_insert_eq. cbn.
  by rewrite insert_insert_eq.
Qed.
Lemma emulated_bind s st params c (k : mysqld L) : dry_run (args k) = 0 -> conn k = Valid c ->
  statements k !! s = Some st -> emulated st = true ->
  mysql_drv_bind_param s params k =
    Some (0, set_statements (<[s := Stmt (s_ptr st) true (s_query st) (Some params)]> (statements k)) k).
Proof using Type.
  intros Hd Hc Hs He. unfold mysql_drv_bind_param, connection, stmt, mbind, act_bind, put_stmt, dry, reads, changes,
    mret, act_ret. cbn. rewrite Hd. cbn. rewrite Hc. cbn. rewrite Hs. cbn. by rewrite He.
Qed.
Lemma emulated_execute s st query r text n (k : mysqld L) : dry_run (args k) = 0 ->
  (forall size, alloc size = true) -> query <> ""%string ->
  statements k !! s = Some st -> emulated st = true -> s_query st = Some query ->
  subst (value_param fmt_f (bound_param st)) query 0 = Some (text, n) -> strlen text < 2 ^ 29 ->
  mysql_drv_execute error_after alloc fmt_f s r k = mysql_drv_query error_after text r (set_sql_error (0, None, None) k).
Proof using Type.
  intros Hd Ha Hq Hs He Hsq Ht Hl. unfold mysql_drv_execute.
  unfold stmt, mbind, act_bind, dry, reads, changes, reset_error. cbn -[expand]. rewrite Hd. cbn -[expand].
  rewrite Hs. cbn -[expand]. rewrite He, Hsq. cbn -[expand].
  by rewrite (expand_substitutes alloc _ (value_param fmt_f (bound_param st)) 30 query 0 text n);
    [|done|apply print_param_prints|..|lia].
Qed.

(** C17: without server-side statements, preparing a statement, binding its parameters
    and executing it is the query in which each placeholder, in order, is replaced by
    the text of its value; the bound values stay where they were. *)
Theorem emulated_execute_sends c s query params text n r (k : mysqld L) :
  dry_run (args k) = 0 -> conn k = Valid c -> use_ps k = false ->
  (forall size, alloc size = true) -> query <> ""%string ->
  subst (value_param fmt_f (Some params)) query 0 = Some (text, n) -> strlen text < 2 ^ 29 ->
  (prepare_new s query;; mysql_drv_bind_param s params;; mysql_drv_execute error_after alloc fmt_f s r) k
  = mysql_drv_query error_after text r
      (set_sql_error (0, None, None)
         (set_statements (<[s := Stmt None true (Some query) (Some params)]> (statements k)) k))
  /\ n = placeholders query.
Proof using Type.
  intros Hd Hc Hps Ha Hq Hs Hl. split; [|by apply subst_count in Hs].
  rewrite (bind_some _ _ _ _ _ (emulated_prepare s query c k Hd Hc Hps)).
  set (k1 := set_statements _ k).
  rewrite (bind_some _ _ _ _ _ (emulated_bind s (Stmt None true (Some query) None) params c k1 Hd Hc
    (lookup_insert_eq _ _ _) eq_refl)).
  rewrite (emulated_execute s (Stmt None true (Some query) (Some params)) query r text n); try done;
    cbn; by rewrite ?lookup_insert_eq, ?insert_insert_eq.
Qed.
End emulation.

Lemma emulated_execute_sends_witness :
  let k := Mysqld (Memc ∅ 0 false 0 [] []) (mem_args ["3306"] [])%string mysql_drv_caps false (Positions 1 1 0) 3
             (Valid mem_conn) (0, None, None) None [] ∅ in
  let r := DbResult SB_CNT_OTHER 0 0 (Some 0%nat) false in
  let params := [DbBind DB_TYPE_INT (BInt 5) None 0 None; DbBind DB_TYPE_CHAR (BString "x") (Some 1) 120 None] in
  exists out, (prepare_new 0 "UPDATE t SET c=? WHERE d=?";; mysql_drv_bind_param 0 params;;
               mysql_drv_execute 0 (fun _ => true) (fun _ => ""%string) 0 r) k = Some out /\
    c_sent (client (snd out)) = ["UPDATE t SET c=5 WHERE d='x'"]%string.
Proof.
  intros k r params.
  destruct (emulated_execute_sends 0 (fun _ => true) (fun _ => ""%string) mem_conn 0 "UPDATE t SET c=? WHERE d=?" params
    "UPDATE t SET c=5 WHERE d='x'" 2 r k) as [E _]; try (vm_compute; reflexivity); [discriminate|].
  rewrite E. eexists. split; vm_compute; reflexivity.
Defined.

(** ** The statement left in the result set

    [db_execute] stores its statement in the result set of the connection; it stays
    there when the statement returns no rows, and [db_query] does not take it away. *)

Section stale.
Context {L : Type} `{!MysqlClient L, !MysqlLaws L}.

(** The results of a text query are then released as those of the statement: the
    pointer to them is cleared and they are leaked; when the statement has been
    closed, freed memory is read. *)
Theorem stale_statement_leaks c q s r (k : mysqld L) : statement r = Some s -> holding c (Some q) k ->
  (forall st p, statements k !! s = Some st -> emulated st = false -> s_ptr st = Some p ->
    exists k', mysql_drv_free_results r k = Some (0, k') /\ rs_ptr k' = None /\ live (client k') = {[q]}) /\
  (statements k !! s = None -> mysql_drv_free_results r k = None).
Proof using Type.
  intros Hr Hk. injection Hk as Hd _ _ Hl.
  unfold mysql_drv_free_results, stmt, mbind, act_bind, dry, reads. cbn. rewrite Hd, Hr. cbn. split.
  - intros st p Hs He Hp. rewrite Hs. cbn. rewrite He, Hp. cbn. eexists. split; [done|]. split; [done|].
    cbn. by rewrite stmt_free_live.
  - intros Hs. by rewrite Hs.
Qed.
End stale.

(** A run of the layer that leaks, and one that ends with the use of a freed
    statement. *)
Theorem stale_statement_reached :
  let run l := run_calls (mysql_ops 0 (fun _ => true) (fun _ => ""%string) [] DB_PS_MODE_AUTO) l (mem_db []) in
  (exists w, run [Prepare "DELETE"; Execute 0; Query "SELECT"; CloseConnection] = Some w /\
     state (con w) = DB_CONN_INVALID /\ c_live (client (drv w)) = {[0%nat]}) /\
  (exists w, run [Prepare "DELETE"; Execute 0; CloseStmt 0; Query "SELECT"] = Some w /\
     state (con w) = DB_CONN_RESULT_SET /\ mysql_drv_free_results (rs (con w)) (drv w) = None).
Proof. split; eexists; split_and!; vm_compute; reflexivity. Qed.
