(* ===== verification/Pgsql.v ===== *)
(** * The PostgreSQL driver ([drivers/pgsql/drv_pgsql.c])

    The operations of the driver over libpq, which is a class of functions on a state
    of its own, with the documented laws that the theorems use in a second class.  The
    messages of the log are left out; [None] is undefined behaviour; allocations of
    fixed size succeed. *)

From stdpp Require Import pretty.
From S2P Require Import Prelude Double Options Xoroshiro Rand Counter Timer Reports Db Driver Emulation.

#[local] Set Warnings "-clear-no-such-hyp".

(** ** libpq *)

Inductive ExecStatusType :=
| PGRES_EMPTY_QUERY | PGRES_COMMAND_OK | PGRES_TUPLES_OK | PGRES_COPY_OUT | PGRES_COPY_IN | PGRES_BAD_RESPONSE
| PGRES_NONFATAL_ERROR | PGRES_FATAL_ERROR | PGRES_COPY_BOTH | PGRES_SINGLE_TUPLE | PGRES_PIPELINE_SYNC
| PGRES_PIPELINE_ABORTED.

#[export] Instance ExecStatusType_eq_dec : EqDecision ExecStatusType.
Proof. solve_decision. Defined.

(** Host, port, database, user and password. *)
Definition login : Type := option string * option string * option string * option string * option string.

(** Connections and results by their handles; [true] of [PQstatus] is
    [CONNECTION_OK].  The two error fields are [PG_DIAG_SQLSTATE] and
    [PG_DIAG_MESSAGE_PRIMARY]. *)
Class Libpq (L : Type) := {
  PQsetdbLogin : login -> L -> nat * L;
  PQstatus : nat -> L -> bool;
  PQserverVersion : nat -> L -> Z;
  PQsetNoticeProcessor : nat -> L -> L;
  PQfinish : nat -> L -> L;
  PQprepare : nat -> string -> string -> list Z -> L -> nat * L;
  PQexec : nat -> string -> L -> nat * L;
  PQexecPrepared : nat -> string -> list string -> L -> nat * L;
  PQresultStatus : nat -> L -> ExecStatusType;
  PQntuples : nat -> L -> Z;
  PQnfields : nat -> L -> Z;
  PQcmdTuples : nat -> L -> string;
  PQresultSqlstate : nat -> L -> option string;
  PQresultMessage : nat -> L -> option string;
  PQgetisnull : nat -> Z -> Z -> L -> bool;
  PQgetlength : nat -> Z -> Z -> L -> Z;
  PQgetvalue : nat -> Z -> Z -> L -> string;
  PQclear : nat -> L -> L
}.

(** ** Data *)

Definition pgsql_drv_args : list sb_arg_t :=
  [SB_OPT "pgsql-host" "PostgreSQL server host" (Some "localhost") SB_ARG_TYPE_STRING None;
   SB_OPT "pgsql-port" "PostgreSQL server port" (Some "5432") SB_ARG_TYPE_INT None;
   SB_OPT "pgsql-user" "PostgreSQL user" (Some "sbtest") SB_ARG_TYPE_STRING None;
   SB_OPT "pgsql-password" "PostgreSQL password" (Some "") SB_ARG_TYPE_STRING None;
   SB_OPT "pgsql-db" "PostgreSQL database name" (Some "sbtest") SB_ARG_TYPE_STRING None;
   SB_OPT "pgsql-sslmode" "PostgreSQL SSL mode (disable, allow, prefer, require, verify-ca, verify-full)"
     (Some "prefer") SB_ARG_TYPE_STRING None].

Record pgsql_drv_args_t := PgsqlArgs {
  host : option string;
  port : option string;
  user : option string;
  password : option string;
  db : option string
}.

Definition db_pgsql_bind_map : list (db_bind_type_t * Z) :=
  [(DB_TYPE_TINYINT, 0); (DB_TYPE_SMALLINT, 21); (DB_TYPE_INT, 23); (DB_TYPE_BIGINT, 20); (DB_TYPE_FLOAT, 700);
   (DB_TYPE_DOUBLE, 701); (DB_TYPE_DATETIME, 0); (DB_TYPE_TIMESTAMP, 1114); (DB_TYPE_CHAR, 18);
   (DB_TYPE_VARCHAR, 1043)].

Definition get_pgsql_bind_type (t : db_bind_type_t) : Z :=
  default (-1) (snd <$> List.find (fun e => bool_decide (fst e = t)) db_pgsql_bind_map).

Definition pgsql_drv_caps : drv_caps_t := DrvCaps true true false false true false.

Definition MAX_PARAM_LENGTH : Z := 256.

(** [pvalues[i]] is [None] until something has been written to the buffer. *)
Record pg_stmt_t := PgStmt {
  name : string;
  prepared : bool;
  nparams : nat;
  ptypes : option (list Z);
  pvalues : option (list (option string))
}.

(** The state: libpq, the variables of the file, the random number generator of the
    thread, and of the connection [sb_conn->ptr], the error texts, [rs->ptr],
    [rs->row.ptr] with the values of the row, and the statements that exist. *)
Record pgsqld (L : Type) := Pgsqld {
  client : L;
  args : pgsql_drv_args_t;
  caps : drv_caps_t;
  use_ps : bool;
  rng : Xoroshiro.state;
  conn : pointer nat;
  sql_error : option string * option string;
  rs_ptr : option nat;
  row_ptr : Z;
  values : list (Z * option string);
  statements : gmap nat (db_stmt_t pg_stmt_t)
}.
Arguments Pgsqld {L}.
Arguments client {L}.
Arguments args {L}.
Arguments caps {L}.
Arguments use_ps {L}.
Arguments rng {L}.
Arguments conn {L}.
Arguments sql_error {L}.
Arguments rs_ptr {L}.
Arguments row_ptr {L}.
Arguments values {L}.
Arguments statements {L}.

Section updates.
Context {L : Type}.
Implicit Types k : pgsqld L.

Definition set_client (l : L) k := Pgsqld l (args k) (caps k) (use_ps k) (rng k) (conn k) (sql_error k) (rs_ptr k)
  (row_ptr k) (values k) (statements k).
Definition set_rng s k := Pgsqld (client k) (args k) (caps k) (use_ps k) s (conn k) (sql_error k) (rs_ptr k)
  (row_ptr k) (values k) (statements k).
Definition set_conn c k := Pgsqld (client k) (args k) (caps k) (use_ps k) (rng k) c (sql_error k) (rs_ptr k)
  (row_ptr k) (values k) (statements k).
Definition set_sql_error e k := Pgsqld (client k) (args k) (caps k) (use_ps k) (rng k) (conn k) e (rs_ptr k)
  (row_ptr k) (values k) (statements k).
Definition set_rs_ptr p k := Pgsqld (client k) (args k) (caps k) (use_ps k) (rng k) (conn k) (sql_error k) p
  (row_ptr k) (values k) (statements k).
Definition set_row n v k := Pgsqld (client k) (args k) (caps k) (use_ps k) (rng k) (conn k) (sql_error k) (rs_ptr k)
  n v (statements k).
Definition set_statements m k := Pgsqld (client k) (args k) (caps k) (use_ps k) (rng k) (conn k) (sql_error k)
  (rs_ptr k) (row_ptr k) (values k) m.
End updates.

(** [strtoul(s, NULL, 10)] *)
Definition strtoul (s : string) : Z :=
  let t := skip_space s in
  let '(neg, t) :=
    match t with
    | String c t' =>
        if Ascii.eqb c "-"%char then (true, t') else if Ascii.eqb c "+"%char then (false, t') else (false, t)
    | EmptyString => (false, t)
    end in
  let '(v, _, _) := scan_digits t 0 false in
  if UINT64_MAX <? v then UINT64_MAX else u64 (if neg : bool then - v else v).

(** [get_unique_stmt_name(name, 32)]; the arguments are taken from left to right. *)
Definition get_unique_stmt_name (s : Xoroshiro.state) : string * Xoroshiro.state :=
  let '(a, s) := xoroshiro_next s in
  let '(b, s) := xoroshiro_next s in
  (default ""%string (snprintf 32 ("sbstmt" +:+ pretty (s32 a) +:+ pretty (s32 b))), s).

(** ** Operations *)

(** [pgsql_drv_init] always succeeds; undefined without the options of the driver. *)
Definition pgsql_drv_init {L} (options : list option_t) (mode : db_ps_mode_t) (k : pgsqld L) : option (Z * pgsqld L) :=
  let str := sb_get_value_string options in
  dbname ← str "pgsql-db";
  sslmode ← str "pgsql-sslmode";
  Some (0, Pgsqld (client k)
             (PgsqlArgs (str "pgsql-host") (str "pgsql-port") (str "pgsql-user") (str "pgsql-password")
                (Some ("dbname=" +:+ dbname +:+ " sslmode=" +:+ sslmode)))
             pgsql_drv_caps
             match mode with DB_PS_MODE_DISABLE => false | DB_PS_MODE_AUTO => true end
             (rng k) (conn k) (sql_error k) (rs_ptr k) (row_ptr k) (values k) (statements k)).

Section driver.
Context {L : Type} `{!Libpq L}.
(** How often [sb_globals.error] is read as 0 before it is found set, in the loop of
    [pgsql_drv_reconnect]; whether [realloc] can provide a size; ["%f"] of
    [printf(3)]. *)
Context (error_after : nat) (alloc : Z -> bool) (fmt_f : dbl -> string).

Abbreviation M := (act (pgsqld L)).

Definition api {A} (f : L -> A * L) : M A := fun k => let '(x, l) := f (client k) in Some (x, set_client l k).
Definition call (f : L -> L) : M unit := changes (fun k => set_client (f (client k)) k).
Definition ask {A} (f : L -> A) : M A := reads (fun k => f (client k)).
(** The connection that [sb_conn->ptr] points to. *)
Definition connection : M nat := c ← reads conn; match c with Valid c => mret c | _ => undefined end.
(** The statement behind a pointer, and what its own [ptr] points to. *)
Definition stmt (s : nat) : M (db_stmt_t pg_stmt_t) := m ← reads statements; the (m !! s).
Definition put_stmt (s : nat) (st : db_stmt_t pg_stmt_t) : M unit :=
  changes (fun k => set_statements (<[s := st]> (statements k)) k).
(** [xfree] of both texts *)
Definition reset_error : M unit := changes (set_sql_error (None, None)).

Definition login_of (a : pgsql_drv_args_t) : login := (host a, port a, db a, user a, password a).

(** The capabilities, for the version of the server. *)
Definition pgsql_drv_describe : M (Z * drv_caps_t) :=
  c ← reads caps;
  a ← reads args;
  con ← api (PQsetdbLogin (login_of a));
  ok ← ask (PQstatus con);
  if negb ok then call (PQfinish con);; mret (1, c)
  else
    version ← ask (PQserverVersion con);
    let c := if version <? 80200
             then DrvCaps false (prepared_statements c) (auto_increment c) (needs_commit c) (cap_serial c) (unsigned_int c)
             else c in
    call (PQfinish con);; mret (0, c).

Definition pgsql_drv_connect : M Z :=
  a ← reads args;
  con ← api (PQsetdbLogin (login_of a));
  ok ← ask (PQstatus con);
  if negb ok then call (PQfinish con);; mret 1
  else call (PQsetNoticeProcessor con);; changes (set_conn (Valid con));; mret 0.

(** The pointer to the connection is left to memory that is freed. *)
Definition pgsql_drv_disconnect : M Z :=
  c ← reads conn;
  reset_error;;
  match c with
  | Null => mret 0
  | Freed => undefined
  | Valid con => call (PQfinish con);; changes (set_conn Freed);; mret 0
  end.

(** [while (pgsql_drv_connect(sb_conn))], with [n] readings of [sb_globals.error]
    that do not find it set. *)
Fixpoint connect_loop (n : nat) : M db_error_t :=
  failed ← pgsql_drv_connect;
  if failed =? 0 then mret DB_ERROR_IGNORABLE
  else match n with O => mret DB_ERROR_FATAL | S n => connect_loop n end.

Definition pgsql_drv_reconnect : M db_error_t :=
  rc ← pgsql_drv_disconnect;
  if negb (rc =? 0) then mret DB_ERROR_FATAL else connect_loop error_after.

Definition stmt_name : M string :=
  fun k => let '(s, r) := get_unique_stmt_name (rng k) in Some (s, set_rng r k).

(** The fuel is enough for every query ([Emulation.expand_ends]). *)
Definition pgsql_drv_prepare (s : nat) (query : string) : M Z :=
  c ← reads conn;
  match c with
  | Null => mret 1
  | Freed => undefined
  | Valid con =>
      ps ← reads use_ps;
      st ← stmt s;
      if negb ps then put_stmt s (Stmt (s_ptr st) true (Some query) (bound_param st));; mret 0
      else
        match expand alloc print_number 30 query 1 with
        | NoMemory => mret 1
        | Undefined | Looping => undefined
        | Expanded (buf, vcnt) =>
            name ← stmt_name;
            let pgstmt := PgStmt name false (vcnt - 1) None None in
            if (nparams pgstmt =? 0)%nat then
              pgres ← api (PQprepare con name buf []);
              status ← ask (PQresultStatus pgres);
              call (PQclear pgres);;
              if negb (bool_decide (status = PGRES_COMMAND_OK)) then mret 1
              else
                put_stmt s (Stmt (Some (PgStmt name true (nparams pgstmt) None None)) (emulated st) (Some buf)
                              (bound_param st));;
                mret 0
            else put_stmt s (Stmt (Some pgstmt) (emulated st) (Some buf) (bound_param st));; mret 0
        end
  end.

Definition pgsql_drv_bind_param (s : nat) (params : list db_bind_t) : M Z :=
  c ← reads conn;
  match c with
  | Null => mret 1
  | Freed => undefined
  | Valid con =>
      st ← stmt s;
      put_stmt s (Stmt (s_ptr st) (emulated st) (s_query st) (Some params));;
      if emulated st then mret 0
      else
        pgstmt ← the (s_ptr st);
        if prepared pgstmt then mret 0
        else if negb (nparams pgstmt =? length params)%nat then mret 1
        else
          let types := map (fun b => u32 (get_pgsql_bind_type (bind_type b))) params in
          let set_pg pg := put_stmt s (Stmt (Some pg) (emulated st) (s_query st) (Some params)) in
          set_pg (PgStmt (name pgstmt) false (nparams pgstmt) (Some types) (pvalues pgstmt));;
          query ← the (s_query st);
          pgres ← api (PQprepare con (name pgstmt) query types);
          status ← ask (PQresultStatus pgres);
          if negb (bool_decide (status = PGRES_COMMAND_OK)) then mret 1
          else
            call (PQclear pgres);;
            set_pg (PgStmt (name pgstmt) true (nparams pgstmt) (Some types) (Some (replicate (length params) None)));;
            mret 0
  end.

Definition pgsql_drv_bind_result : M Z := mret 0.

Definition set_nrows (n : Z) (r : db_result_t) : db_result_t :=
  DbResult (counter r) (u32 n) (nfields r) (statement r) (row_values r).
Definition set_nfields (n : Z) (r : db_result_t) : db_result_t :=
  DbResult (counter r) (nrows r) (u32 n) (statement r) (row_values r).
Definition set_counter (c : sb_counter_type_t) (r : db_result_t) : db_result_t :=
  DbResult c (nrows r) (nfields r) (statement r) (row_values r).

(** Deadlock, unique violation, serialization failure. *)
Definition ignorable_state (s : string) : bool :=
  String.eqb s "40P01" || String.eqb s "23505" || String.eqb s "40001".

Definition pgsql_check_status (pgres : nat) (r : db_result_t) : M (db_error_t * db_result_t) :=
  status ← ask (PQresultStatus pgres);
  match status with
  | PGRES_TUPLES_OK =>
      n ← ask (PQntuples pgres);
      f ← ask (PQnfields pgres);
      mret (DB_ERROR_NONE, set_counter SB_CNT_READ (set_nfields f (set_nrows n r)))
  | PGRES_COMMAND_OK =>
      n ← ask (PQcmdTuples pgres);
      let r := set_nrows (strtoul n) r in
      let r := set_counter (if 0 <? nrows r then SB_CNT_WRITE else SB_CNT_OTHER) r in
      call (PQclear pgres);;
      mret (DB_ERROR_NONE, r)
  | PGRES_FATAL_ERROR =>
      let r := set_counter SB_CNT_ERROR (set_nrows 0 r) in
      reset_error;;
      sqlstate ← ask (PQresultSqlstate pgres);
      sqlstate ← the sqlstate;
      errmsg ← ask (PQresultMessage pgres);
      errmsg ← the errmsg;
      changes (set_sql_error (Some sqlstate, Some errmsg));;
      rc ← (if ignorable_state sqlstate then
              con ← connection;
              tmp ← api (PQexec con "ROLLBACK");
              call (PQclear tmp);;
              mret DB_ERROR_IGNORABLE
            else mret DB_ERROR_FATAL);
      call (PQclear pgres);;
      mret (rc, r)
  | _ => mret (DB_ERROR_FATAL, set_counter SB_CNT_ERROR (set_nrows 0 r))
  end.

(** How [pgsql_drv_query] and [pgsql_drv_execute] end. *)
Definition conclude (pgres : nat) (r : db_result_t) : M (db_error_t * db_result_t) :=
  out ← pgsql_check_status pgres r;
  changes (set_rs_ptr (if bool_decide (counter (snd out) = SB_CNT_READ) then Some pgres else None));;
  mret out.

Definition pgsql_drv_query (query : string) (r : db_result_t) : M (db_error_t * db_result_t) :=
  reset_error;;
  con ← connection;
  pgres ← api (PQexec con query);
  conclude pgres r.

(** What is written to the buffer of a parameter that holds [old]: undefined when it
    is written past its end, or read past the end of a string. *)
Definition param_value (b : db_bind_t) (old : option string) : option (option string) :=
  if default false (is_null b) then Some old
  else
    match bind_type b with
    | DB_TYPE_CHAR | DB_TYPE_VARCHAR =>
        len ← data_len b;
        match bind_buffer b with
        | BString t =>
            if (strlen t <? len) || (MAX_PARAM_LENGTH <=? len) then None
            else Some (Some (String.substring 0 (Z.to_nat len) t))
        | _ => None
        end
    | _ =>
        '(_, text) ← db_print_value fmt_f b MAX_PARAM_LENGTH;
        Some (match text with Some t => Some t | None => old end)
    end.

(** The values of [n] parameters. *)
Definition param_values (n : nat) (params : option (list db_bind_t)) (old : option (list (option string)))
    : option (list (option string)) :=
  mapM (fun i => l ← params; b ← l !! i; vs ← old; v ← vs !! i; param_value b v) (seq 0 n).

Definition pgsql_drv_execute (s : nat) (r : db_result_t) : M (db_error_t * db_result_t) :=
  reset_error;;
  st ← stmt s;
  if negb (emulated st) then
    match s_ptr st with
    | None => mret (DB_ERROR_FATAL, r)
    | Some pgstmt =>
        vs ← the (param_values (nparams pgstmt) (bound_param st) (pvalues pgstmt));
        put_stmt s (Stmt (Some (PgStmt (name pgstmt) (prepared pgstmt) (nparams pgstmt) (ptypes pgstmt)
                                  (vs' ← pvalues pgstmt; Some (vs ++ drop (nparams pgstmt) vs'))))
                      (emulated st) (s_query st) (bound_param st));;
        texts ← the (mapM id vs);
        con ← connection;
        pgres ← api (PQexecPrepared con (name pgstmt) texts);
        conclude pgres r
    end
  else
    query ← the (s_query st);
    match expand alloc (print_param fmt_f (bound_param st)) 30 query 0 with
    | Expanded (buf, _) => pgsql_drv_query buf r
    | NoMemory => mret (DB_ERROR_FATAL, r)
    | Undefined | Looping => undefined
    end.

Definition pgsql_drv_fetch : M Z := mret 1.

(** A value of the row; the length of a null field is left as it was. *)
Definition field (p : nat) (rownum : Z) (i : nat) (k : pgsqld L) : Z * option string :=
  if PQgetisnull p rownum (Z.of_nat i) (client k) then (default 0 (fst <$> values k !! i), None)
  else (u32 (PQgetlength p rownum (Z.of_nat i) (client k)), Some (PQgetvalue p rownum (Z.of_nat i) (client k))).

Definition pgsql_drv_fetch_row (r : db_result_t) : M Z :=
  rownum ← reads row_ptr;
  if s32 (nrows r) <=? rownum then mret 1
  else
    ptr ← reads rs_ptr;
    p ← the ptr;
    vs ← reads (fun k => map (fun i => field p rownum i k) (seq 0 (Z.to_nat (s32 (nfields r)))));
    changes (set_row (rownum + 1) vs);;
    mret 0.

Definition pgsql_drv_free_results : M Z :=
  ptr ← reads rs_ptr;
  match ptr with
  | Some p =>
      call (PQclear p);;
      changes (set_rs_ptr None);;
      changes (fun k => set_row 0 (values k) k);;
      mret 0
  | None => mret 1
  end.

Definition pgsql_drv_close (s : nat) : M Z :=
  st ← stmt s;
  match s_ptr st with
  | None => mret 1
  | Some _ => put_stmt s (Stmt None (emulated st) (s_query st) (bound_param st));; mret 0
  end.

Definition pgsql_drv_done : M Z := mret 0.

(** ** The driver

    With what [db_prepare] and [db_close] do to the statement: allocate it cleared,
    and free it. *)

Definition drop_stmt (s : nat) : M unit := changes (fun k => set_statements (delete s (statements k)) k).
Definition prepare_new (s : nat) (query : string) : M Z :=
  put_stmt s new_stmt;;
  rc ← pgsql_drv_prepare s query;
  if rc =? 0 then mret rc else drop_stmt s;; mret rc.
Definition close_free (s : nat) : M Z := rc ← pgsql_drv_close s; drop_stmt s;; mret rc.

Definition pgsql_ops (options : list option_t) (mode : db_ps_mode_t) : drv_ops_t (pgsqld L) := {|
  op_init k := default (1, k) (pgsql_drv_init options mode k);
  op_thread_init := None;
  op_thread_done := None;
  op_describe := Some (total (0, pgsql_drv_caps) pgsql_drv_describe);
  op_connect := total 1 pgsql_drv_connect;
  op_disconnect := total 1 pgsql_drv_disconnect;
  op_reconnect := Some (total DB_ERROR_FATAL pgsql_drv_reconnect);
  op_prepare s q := total 1 (prepare_new s q);
  op_bind_param s l := total 1 (pgsql_drv_bind_param s l);
  op_bind_result _ _ := total 1 pgsql_drv_bind_result;
  op_execute s r := total (DB_ERROR_FATAL, r) (pgsql_drv_execute s r);
  op_stmt_next_result := None;
  op_fetch_row := Some (fun r => total 1 (pgsql_drv_fetch_row r));
  op_query q r := total (DB_ERROR_FATAL, r) (pgsql_drv_query q r);
  op_more_results := None;
  op_next_result := None;
  op_free_results _ := total 1 pgsql_drv_free_results;
  op_close s := total 1 (close_free s);
  op_done := total 1 pgsql_drv_done
|}.

Definition pgsql_driver (options : list option_t) (mode : db_ps_mode_t) (k : pgsqld L) : db_driver_t (pgsqld L) :=
  DbDriver "pgsql" (Some pgsql_drv_args) (pgsql_ops options mode) false k.

(** [register_driver_pgsql] *)
Definition register_driver_pgsql (options : list option_t) (mode : db_ps_mode_t) (k : pgsqld L)
    (drivers : list (db_driver_t (pgsqld L))) : Z * list (db_driver_t (pgsqld L)) :=
  (0, drivers ++ [pgsql_driver options mode k]).
End driver.

(** ** What the theorems use of libpq

    Results live from the call that returns them until [PQclear], connections until
    [PQfinish]. *)

Class LibpqLaws (L : Type) `{!Libpq L} := {
  live : L -> gset nat;
  conns : L -> gset nat;
  login_law a l : let '(c, l') := PQsetdbLogin a l in
    (c ∉ conns l) /\ conns l' = {[c]} ∪ conns l /\ live l' = live l;
  finish_law c l : conns (PQfinish c l) = conns l ∖ {[c]} /\ live (PQfinish c l) = live l;
  notice_law c l : conns (PQsetNoticeProcessor c l) = conns l /\ live (PQsetNoticeProcessor c l) = live l;
  prepare_result_law c n q t l : let '(p, l') := PQprepare c n q t l in
    (p ∉ live l) /\ live l' = {[p]} ∪ live l /\ conns l' = conns l;
  exec_result_law c q l : let '(p, l') := PQexec c q l in
    (p ∉ live l) /\ live l' = {[p]} ∪ live l /\ conns l' = conns l;
  exec_prepared_result_law c n v l : let '(p, l') := PQexecPrepared c n v l in
    (p ∉ live l) /\ live l' = {[p]} ∪ live l /\ conns l' = conns l;
  clear_law p l : live (PQclear p l) = live l ∖ {[p]} /\ conns (PQclear p l) = conns l
}.

Section results.
Context {L : Type} `{!Libpq L, !LibpqLaws L}.
Context (error_after : nat) (alloc : Z -> bool) (fmt_f : dbl -> string).

(** The connection [c] is the only one, and [rs->ptr] is [o], a result that lives. *)
Definition holds (c : nat) (o : option nat) (k : pgsqld L) : Prop :=
  conn k = Valid c /\ conns (client k) = {[c]} /\ rs_ptr k = o /\ forall p, o = Some p -> p ∈ live (client k).
(** A result has been returned. *)
Definition got c o (p : nat) (k : pgsqld L) : Prop := holds c o k /\ p ∈ live (client k) /\ o <> Some p.

Definition answered c (out : db_error_t * db_result_t) (k : pgsqld L) : Prop :=
  if bool_decide (out.1 = DB_ERROR_NONE) && bool_decide (counter out.2 = SB_CNT_READ) then exists p, holds c (Some p) k
  else holds c None k.

Lemma holds_same c o (k k' : pgsqld L) :
  client k' = client k -> conn k' = conn k -> rs_ptr k' = rs_ptr k -> holds c o k -> holds c o k'.
Proof using Type. unfold holds. by intros -> -> ->. Qed.

Lemma holds_changes c o (f : pgsqld L -> pgsqld L) :
  (forall k, client (f k) = client k /\ conn (f k) = conn k /\ rs_ptr (f k) = rs_ptr k) ->
  ptriple (holds c o) (changes f) (fun _ => holds c o).
Proof using Type. intros Hf. apply ptriple_changes. intros k. destruct (Hf k) as (? & ? & ?). by apply holds_same. Qed.
Lemma got_changes c o p (f : pgsqld L -> pgsqld L) :
  (forall k, client (f k) = client k /\ conn (f k) = conn k /\ rs_ptr (f k) = rs_ptr k) ->
  ptriple (got c o p) (changes f) (fun _ => got c o p).
Proof using Type.
  intros Hf. apply ptriple_changes. intros k. destruct (Hf k) as (Ec & ? & ?). unfold got. rewrite Ec.
  intros [Hk Hp]. split; [|done]. by apply (holds_same c o k).
Qed.
Lemma keep_reads {A} (P : pgsqld L -> Prop) (f : pgsqld L -> A) : ptriple P (reads f) (fun _ => P).
Proof using Type. by intros k x k' Hk [= _ <-]. Qed.
Lemma keep_connection (P : pgsqld L -> Prop) : ptriple P connection (fun _ => P).
Proof using Type.
  intros k x k' Hk H. unfold connection, mbind, act_bind, reads in H. cbn in H. destruct (conn k); try done.
  by injection H as _ <-.
Qed.
Lemma keep_stmt (P : pgsqld L -> Prop) s : ptriple P (stmt s) (fun _ => P).
Proof using Type.
  intros k x k' Hk H. unfold stmt, mbind, act_bind, reads, the in H. cbn in H.
  destruct (statements k !! s); [|done]. by injection H as _ <-.
Qed.
Lemma holds_conn c o : ptriple (holds c o) (reads conn) (fun x k => holds c o k /\ x = Valid c).
Proof using Type. intros k x k' Hk [= <- <-]. split; [done|]. apply Hk. Qed.

(** A call that returns a result; and its release. *)
Lemma got_api c o (f : L -> nat * L) :
  (forall l, let '(p, l') := f l in (p ∉ live l) /\ live l' = {[p]} ∪ live l /\ conns l' = conns l) ->
  ptriple (holds c o) (api f) (got c o).
Proof using Type.
  intros Hf k p k' (Hc & Hs & Ho & Hl) H. unfold api in H. specialize (Hf (client k)).
  destruct (f (client k)) as [q l]. injection H as <- <-. destruct Hf as (Hq & El & Es). unfold got, holds. cbn.
  rewrite El, Es. split_and!; [done|done|done| |set_solver|].
  - intros p E. specialize (Hl p E). set_solver.
  - intros E. by apply Hq, Hl.
Qed.
Lemma got_clear c o p : ptriple (got c o p) (call (PQclear p)) (fun _ => holds c o).
Proof using Type.
  apply ptriple_changes. intros k [(Hc & Hs & Ho & Hl) [Hp Hn]]. destruct (clear_law p (client k)) as [El Es].
  unfold holds. cbn. rewrite El, Es. split_and!; try done. intros q E. specialize (Hl q E). set_solver.
Qed.
Lemma got_holds c o p (k : pgsqld L) : got c o p k -> holds c o k.
Proof using Type. by intros [H _]. Qed.

#[local] Hint Resolve keep_reads keep_connection keep_stmt got_clear ptriple_the : act.
#[local] Hint Extern 1 (ptriple _ (ask _) _) => apply keep_reads : act.
#[local] Hint Extern 1 (ptriple _ reset_error _) => first [apply holds_changes; done|apply got_changes; done] : act.
#[local] Hint Extern 1 (ptriple _ (put_stmt _ _) _) => first [apply holds_changes; done|apply got_changes; done] : act.
#[local] Hint Extern 1 (ptriple _ (drop_stmt _) _) => apply holds_changes; done : act.
#[local] Hint Extern 1 (ptriple _ (changes _) _) => first [apply holds_changes; done|apply got_changes; done] : act.
#[local] Hint Extern 1 (ptriple _ (api (PQexec _ _)) _) => apply got_api, exec_result_law : act.
#[local] Hint Extern 1 (ptriple _ (api (PQexecPrepared _ _ _)) _) => apply got_api, exec_prepared_result_law : act.
#[local] Hint Extern 1 (ptriple _ (api (PQprepare _ _ _ _)) _) => apply got_api, prepare_result_law : act.

(** The result is kept for a read, and else it may have been released. *)
Lemma check_status_got c p r :
  ptriple (got c None p) (pgsql_check_status p r) (fun out k =>
    if bool_decide (counter out.2 = SB_CNT_READ) then got c None p k /\ out.1 = DB_ERROR_NONE else holds c None k).
Proof using Type.
  assert (Hrb : forall s, ptriple (got c None p)
    (if ignorable_state s then con ← connection; tmp ← api (PQexec con "ROLLBACK"); call (PQclear tmp);; mret DB_ERROR_IGNORABLE
     else mret DB_ERROR_FATAL) (fun _ => holds c None)).
  { intros s. apply (ptriple_consequence _ (holds c None) _ _ (fun _ => holds c None)); [|apply got_holds|done].
    destruct (ignorable_state s); [do 3 pact_step|]; by apply ptriple_ret. }
  unfold pgsql_check_status. eapply ptriple_bind; [apply keep_reads|]. intros status.
  destruct status; try (apply ptriple_ret; intros k Hk; exact (got_holds c None p k Hk)).
  - pact_step. eapply ptriple_bind; [apply got_clear|]. intros []. apply ptriple_ret. intros k Hk.
    cbn [fst snd counter set_counter]. case_match; case_match; simplify_eq; done.
  - do 2 pact_step. by apply ptriple_ret.
  - do 6 pact_step. eapply ptriple_bind; [apply Hrb|]. intros e.
    eapply (ptriple_bind _ (fun _ => holds c None)); [|intros _; by apply ptriple_ret].
    apply ptriple_changes. intros k (Hc & Hs & Ho & Hl). destruct (clear_law p (client k)) as [El Es].
    unfold holds. cbn. by rewrite Es.
Qed.

Lemma conclude_answered c p r : ptriple (got c None p) (conclude p r) (answered c).
Proof using Type.
  unfold conclude. eapply ptriple_bind; [apply check_status_got|]. intros [e r']. cbn [fst snd].
  eapply (ptriple_bind _ (fun _ => answered c (e, r'))); [|intros _; by apply ptriple_ret].
  apply ptriple_changes. intros k. unfold answered. cbn [fst snd]. destruct (bool_decide (counter r' = SB_CNT_READ)).
  - intros [[(Hc & Hs & Ho & Hl) [Hp _]] ->]. exists p. split_and!; try done. intros q [= <-]. exact Hp.
  - rewrite andb_false_r. intros (Hc & Hs & Ho & Hl). by split_and!.
Qed.

Lemma pg_query_answered c q r : ptriple (holds c None) (pgsql_drv_query q r) (answered c).
Proof using Type. unfold pgsql_drv_query. do 3 pact_step. apply conclude_answered. Qed.

Lemma failed_answered c r : ptriple (holds c None) (mret (DB_ERROR_FATAL, r)) (answered c).
Proof using Type. by apply ptriple_ret. Qed.

Lemma execute_answered c s r : ptriple (holds c None) (pgsql_drv_execute alloc fmt_f s r) (answered c).
Proof using Type.
  unfold pgsql_drv_execute. do 2 pact_step. destruct (negb _).
  - destruct (s_ptr _); [|apply failed_answered]. do 5 pact_step. apply conclude_answered.
  - pact_step. destruct (expand _ _ _ _ _) as [[buf n]| | |];
      [apply pg_query_answered|apply failed_answered|apply ptriple_undefined..].
Qed.

Lemma free_results_holds c p : ptriple (holds c (Some p)) pgsql_drv_free_results (fun _ => holds c None).
Proof using Type.
  unfold pgsql_drv_free_results.
  apply (ptriple_bind _ (fun x k => holds c (Some p) k /\ x = Some p)); [intros k x k' Hk [= <- <-]; split; [done|apply Hk]|].
  intros x. apply ptriple_pure. intros ->. cbv beta.
  apply (ptriple_bind _ (fun _ k => conn k = Valid c /\ conns (client k) = {[c]})).
  { apply ptriple_changes. intros k (Hc & Hs & _). destruct (clear_law p (client k)) as [_ E]. cbn. by rewrite E. }
  intros _. apply (ptriple_bind _ (fun _ => holds c None)); [apply ptriple_changes; intros k [Hc Hs]; by split_and!|].
  intros _. pact_step. by apply ptriple_ret.
Qed.

(** The operations that leave connection and result as they are. *)
Lemma prepare_holds c o s q : ptriple (holds c o) (prepare_new alloc s q) (fun _ => holds c o).
Proof using Type.
  unfold prepare_new. pact_step. apply (ptriple_bind _ (fun _ => holds c o)).
  2: { intros rc. destruct (rc =? 0); [by apply ptriple_ret|]. pact_step. by apply ptriple_ret. }
  unfold pgsql_drv_prepare. eapply ptriple_bind; [apply holds_conn|]. intros x0. apply ptriple_pure. intros ->.
  do 2 pact_step. destruct (negb _); [pact_step; by apply ptriple_ret|].
  destruct (expand _ _ _ _ _) as [[buf n]| | |]; [|by apply ptriple_ret|apply ptriple_undefined..].
  apply (ptriple_bind _ (fun _ => holds c o)).
  { intros k y k' Hk H. unfold stmt_name in H. destruct (get_unique_stmt_name (rng k)). injection H as _ <-. exact Hk. }
  intros nm. cbv zeta. destruct (_ =? _)%nat; [|pact_step; by apply ptriple_ret].
  do 3 pact_step. destruct (negb _); [by apply ptriple_ret|]. pact_step. by apply ptriple_ret.
Qed.

Lemma bind_param_holds c o s l : ptriple (holds c o) (pgsql_drv_bind_param s l) (fun _ => holds c o).
Proof using Type.
  unfold pgsql_drv_bind_param. eapply ptriple_bind; [apply holds_conn|]. intros x. apply ptriple_pure. intros ->.
  do 2 pact_step. destruct (emulated _); [by apply ptriple_ret|]. pact_step.
  destruct (prepared _); [by apply ptriple_ret|]. destruct (negb _); [by apply ptriple_ret|].
  do 4 pact_step. destruct (negb _); [apply ptriple_ret; intros k Hk; by apply got_holds in Hk|].
  do 2 pact_step. by apply ptriple_ret.
Qed.

Lemma close_holds c o s : ptriple (holds c o) (close_free s) (fun _ => holds c o).
Proof using Type.
  unfold close_free, pgsql_drv_close. apply (ptriple_bind _ (fun _ => holds c o)).
  - pact_step. destruct (s_ptr _); [pact_step|]; by apply ptriple_ret.
  - intros rc. pact_step. by apply ptriple_ret.
Qed.

Lemma fetch_row_holds c o r : ptriple (holds c o) (pgsql_drv_fetch_row r) (fun _ => holds c o).
Proof using Type.
  unfold pgsql_drv_fetch_row. pact_step. destruct (_ <=? _); [by apply ptriple_ret|]. do 4 pact_step. by apply ptriple_ret.
Qed.

(** The open connections [cs], whatever [sb_conn->ptr] is. *)
Definition linked (cs : gset nat) (x : pointer nat) o (k : pgsqld L) : Prop :=
  conn k = x /\ conns (client k) = cs /\ rs_ptr k = o /\ forall p, o = Some p -> p ∈ live (client k).

Lemma linked_login cs x o a :
  ptriple (linked cs x o) (api (PQsetdbLogin a)) (fun con k => linked ({[con]} ∪ cs) x o k /\ con ∉ cs).
Proof using Type.
  intros k con k' (Hc & Hs & Ho & Hl) H. unfold api in H. pose proof (login_law a (client k)) as Hlaw.
  destruct (PQsetdbLogin a (client k)) as [y l]. injection H as <- <-. destruct Hlaw as (Hn & Es & El).
  unfold linked. cbn. rewrite Es, El, Hs. rewrite Hs in Hn. done.
Qed.
Lemma linked_finish cs x o con : con ∉ cs ->
  ptriple (linked ({[con]} ∪ cs) x o) (call (PQfinish con)) (fun _ => linked cs x o).
Proof using Type.
  intros Hn. apply ptriple_changes. intros k (Hc & Hs & Ho & Hl). destruct (finish_law con (client k)) as [Es El].
  unfold linked. cbn. rewrite Es, El, Hs. split_and!; try done. set_solver.
Qed.

Lemma describe_linked cs x o : ptriple (linked cs x o) pgsql_drv_describe (fun _ => linked cs x o).
Proof using Type.
  unfold pgsql_drv_describe. do 2 pact_step. eapply ptriple_bind; [apply linked_login|]. intros con.
  apply ptriple_pure. intros Hn. pact_step. destruct (negb _); [|pact_step];
    (eapply ptriple_bind; [by apply linked_finish|]; intros []; by apply ptriple_ret).
Qed.

(** Connecting opens one connection, or none when it fails. *)
Lemma connect_linked x o : ptriple (linked ∅ x o) pgsql_drv_connect
  (fun rc k => if rc =? 0 then exists c, holds c o k else linked ∅ x o k).
Proof using Type.
  unfold pgsql_drv_connect. pact_step. eapply ptriple_bind; [apply linked_login|]. intros con.
  apply ptriple_pure. intros Hn. pact_step. destruct (negb _).
  - eapply ptriple_bind; [by apply linked_finish|]. intros []. by apply ptriple_ret.
  - apply (ptriple_bind _ (fun _ => linked ({[con]} ∪ ∅) x o)).
    { apply ptriple_changes. intros k (Hc & Hs & Ho & Hl). destruct (notice_law con (client k)) as [Es El].
      unfold linked. cbn. by rewrite Es, El. }
    intros _. apply (ptriple_bind _ (fun _ => holds con o)); [|intros _; apply ptriple_ret; by exists con].
    apply ptriple_changes. intros k (Hc & Hs & Ho & Hl). unfold holds. cbn. rewrite Hs. split_and!; try done. set_solver.
Qed.

Lemma connect_loop_linked n o : ptriple (linked ∅ Freed o) (connect_loop n)
  (fun e k => if bool_decide (e = DB_ERROR_FATAL) then linked ∅ Freed o k else exists c, holds c o k).
Proof using Type.
  induction n as [|n IH]; cbn [connect_loop]; (eapply ptriple_bind; [apply connect_linked|]); intros rc; cbv beta;
    (destruct (rc =? 0); [apply ptriple_ret; intros k Hk; exact Hk|]);
    [apply ptriple_ret; intros k Hk; exact Hk|exact IH].
Qed.

Lemma disconnect_linked c o : ptriple (holds c o) pgsql_drv_disconnect (fun _ => linked ∅ Freed o).
Proof using Type.
  unfold pgsql_drv_disconnect. eapply ptriple_bind; [apply holds_conn|]. intros y. apply ptriple_pure. intros ->.
  pact_step. apply (ptriple_bind _ (fun _ => linked ∅ (Valid c) o)).
  { apply ptriple_changes. intros k (Hc & Hs & Ho & Hl). destruct (finish_law c (client k)) as [Es El].
    unfold linked. cbn. rewrite Es, El, Hs. split_and!; try done. set_solver. }
  intros _. apply (ptriple_bind _ (fun _ => linked ∅ Freed o)); [|intros _; by apply ptriple_ret].
  apply ptriple_changes. intros k (Hc & Hs & Ho & Hl). by split_and!.
Qed.

Lemma reconnect_linked c o : ptriple (holds c o) (pgsql_drv_reconnect error_after)
  (fun e k => if bool_decide (e = DB_ERROR_FATAL) then linked ∅ Freed o k else exists c, holds c o k).
Proof using Type.
  unfold pgsql_drv_reconnect. eapply ptriple_bind; [apply disconnect_linked|]. intros rc.
  destruct (negb _); [apply ptriple_ret; intros k Hk; exact Hk|apply connect_loop_linked].
Qed.

(** Disconnecting is always defined. *)
Lemma disconnect_defined c o (k : pgsqld L) : holds c o k -> linked ∅ Freed o (snd (total 1 pgsql_drv_disconnect k)).
Proof using Type.
  intros Hk. pose proof (disconnect_linked c o k) as H. destruct Hk as (Hc & Hk). unfold total.
  destruct (pgsql_drv_disconnect k) as [[rc k']|] eqn:E; [by apply (H rc k')|].
  unfold pgsql_drv_disconnect, mbind, act_bind, reads, reset_error, changes, call, mret, act_ret in E. cbn in E.
  by rewrite Hc in E.
Qed.
(** So is reconnecting. *)
Lemma connect_total (k : pgsqld L) : exists rc k', pgsql_drv_connect k = Some (rc, k').
Proof using Type.
  unfold pgsql_drv_connect, mbind, act_bind, reads, api, ask, call, changes, mret, act_ret. cbn.
  destruct (PQsetdbLogin _ _) as [con l]. unfold reads. cbn. destruct (negb _); cbn; by eexists _, _.
Qed.
Lemma connect_loop_total n : forall k : pgsqld L, exists e k', connect_loop n k = Some (e, k').
Proof using Type.
  induction n as [|n IH]; intros k; cbn [connect_loop]; destruct (connect_total k) as (rc & k1 & E);
    rewrite (bind_some _ _ _ _ _ E); (destruct (rc =? 0); [by eexists _, _|]); [by eexists _, _|apply IH].
Qed.
Lemma reconnect_defined c o (k : pgsqld L) : holds c o k ->
  let '(e, k') := total DB_ERROR_FATAL (pgsql_drv_reconnect error_after) k in
  if bool_decide (e = DB_ERROR_FATAL) then linked ∅ Freed o k' else exists c, holds c o k'.
Proof using Type.
  intros Hk. assert (exists e k', pgsql_drv_reconnect error_after k = Some (e, k')) as (e & k' & E).
  { unfold pgsql_drv_reconnect. pose proof (disconnect_defined c o k Hk) as Hd. unfold total in Hd.
    assert (exists rc k1, pgsql_drv_disconnect k = Some (rc, k1)) as (rc & k1 & E1).
    { destruct Hk as (Hc & _). unfold pgsql_drv_disconnect, mbind, act_bind, reads, reset_error, changes, call, mret, act_ret.
      cbn. rewrite Hc. cbn. by eexists _, _. }
    rewrite (bind_some _ _ _ _ _ E1). destruct (negb _); [by eexists _, _|apply connect_loop_total]. }
  unfold total. rewrite E. cbn [default from_option]. exact (reconnect_linked c o k e k' Hk E).
Qed.

(** ** The driver and the database layer *)

Definition pgsql_ok (k : pgsqld L) : Prop := exists c o, holds c o k.
(** No connection is open. *)
Definition pgsql_closed (k : pgsqld L) : Prop := conns (client k) = ∅.
Definition pgsql_open (k : pgsqld L) : Z := b2z (bool_decide (is_Some (rs_ptr k))).

Lemma holds_open c o (k : pgsqld L) : holds c o k -> pgsql_open k = b2z (bool_decide (is_Some o)).
Proof using Type. unfold pgsql_open. by intros (_ & _ & -> & _). Qed.
Lemma holds_ready c o (k : pgsqld L) : holds c o k -> pgsql_open k = 0 -> holds c None k.
Proof using Type. intros Hk Ho. rewrite (holds_open c o k Hk) in Ho. by destruct o. Qed.

Lemma pg_answered_answers c m r (k : pgsqld L) : holds c None k -> ptriple (holds c None) m (answered c) ->
  answers pgsql_ok pgsql_open true (total (DB_ERROR_FATAL, r) m k).
Proof using Type.
  intros Hk Hm. pose proof (ptriple_total _ _ _ (DB_ERROR_FATAL, r) k Hm Hk Hk) as H.
  destruct (total _ m k) as [[e r'] k']. unfold answers, answered, opened in *. cbn [fst snd] in *.
  destruct (_ && _); [destruct H as [p H]|]; (split_and!; [by eexists _, _|by rewrite (holds_open _ _ _ H)|by left]).
Qed.

Lemma holds_keeps {A} (m : act (pgsqld L) A) dflt (k : pgsqld L) :
  (forall c o, ptriple (holds c o) m (fun _ => holds c o)) -> pgsql_ok k ->
  keeps_sets pgsql_ok pgsql_open k (snd (total dflt m k)).
Proof using Type.
  intros Hm (c & o & Hk). pose proof (ptriple_total _ _ _ dflt k (Hm c o) Hk Hk) as H.
  split; [by exists c, o|]. by rewrite (holds_open c o k Hk), (holds_open c o _ H).
Qed.

Lemma describe_holds c o : ptriple (holds c o) pgsql_drv_describe (fun _ => holds c o).
Proof using Type. apply describe_linked. Qed.

(** The laws of the layer, for all clients. *)
#[export] Instance pgsql_laws options mode : DriverLaws true (pgsql_ops error_after alloc fmt_f options mode).
Proof using Type*.
  refine {| open_sets := pgsql_open; driver_ok := pgsql_ok; driver_closed := pgsql_closed |}; cbn [pgsql_ops op_query
    op_next_result op_stmt_next_result op_free_results op_fetch_row op_describe op_disconnect op_reconnect op_execute
    op_prepare op_bind_param op_bind_result op_close]; try discriminate.
  - intros q r k (c & o & Hk) Ho _. apply (pg_answered_answers c); [by apply (holds_ready c o)|apply pg_query_answered].
  - intros s r k _ (c & o & Hk) Ho. apply (pg_answered_answers c); [by apply (holds_ready c o)|apply execute_answered].
  - intros r k (c & o & Hk) Ho _. rewrite (holds_open c o k Hk) in Ho. destruct o as [p|]; [|done].
    unfold total. destruct (pgsql_drv_free_results k) as [[x k']|] eqn:E.
    + pose proof (free_results_holds c p k x k' Hk E) as H. split; [by exists c, None|exact (holds_open _ _ _ H)].
    + unfold pgsql_drv_free_results, mbind, act_bind, reads in E. cbn in E. destruct Hk as (_ & _ & Hp & _).
      by rewrite Hp in E.
  - intros f r k [= <-] Hk. apply holds_keeps; [intros; apply fetch_row_holds|done].
  - intros f k [= <-] Hk. apply holds_keeps; [intros; apply describe_holds|done].
  - intros s q k _ Hk. apply holds_keeps; [intros; apply prepare_holds|done].
  - intros s l k _ Hk. apply holds_keeps; [intros; apply bind_param_holds|done].
  - intros s l k _ Hk. apply holds_keeps; [intros; by apply ptriple_ret|done].
  - intros s k _ Hk. apply holds_keeps; [intros; apply close_holds|done].
  - intros k (c & o & Hk). destruct (disconnect_defined c o k Hk) as (_ & Hs & Ho & _). split; [exact Hs|].
    unfold pgsql_open. rewrite Ho. by destruct Hk as (_ & _ & -> & _).
  - intros f k [= <-] (c & o & Hk). pose proof (reconnect_defined c o k Hk) as H.
    destruct (total _ _ k) as [e k']. cbn [fst snd] in *. rewrite (holds_open c o k Hk).
    destruct (bool_decide (e = DB_ERROR_FATAL)).
    + destruct H as (_ & Hs & Ho & _). split; [|exact Hs]. unfold pgsql_open. by rewrite Ho.
    + destruct H as [c' H]. split; [by rewrite (holds_open c' o k' H)|by eexists _, _].
Defined.
End results.

Section results_theorem.
Context {L : Type} `{!Libpq L, !LibpqLaws L}.
Context (error_after : nat) (alloc : Z -> bool) (fmt_f : dbl -> string).

(** C16: whatever calls a client makes on a connection, prepared statements included,
    in any order and with any errors: while the connection is open exactly one
    connection to the server is, the one that [sb_conn->ptr] points to, although
    each description of the driver and each attempt to reconnect opens another;
    in the state [DB_CONN_RESULT_SET] the pointer [rs->ptr] is to a result that has
    not been released, and otherwise it is [NULL]; and once the connection is
    closed, no connection to the server is left. *)
Theorem pgsql_connections_and_results options mode c l (w w' : db_world (pgsqld L)) :
  holds c None (drv w) -> state (con w) = DB_CONN_READY ->
  run_calls (pgsql_ops error_after alloc fmt_f options mode) l w = Some w' ->
  match state (con w') with
  | DB_CONN_RESULT_SET => exists c p, conn (drv w') = Valid c /\ conns (client (drv w')) = {[c]} /\
      rs_ptr (drv w') = Some p /\ p ∈ live (client (drv w'))
  | DB_CONN_READY => exists c, conn (drv w') = Valid c /\ conns (client (drv w')) = {[c]} /\ rs_ptr (drv w') = None
  | DB_CONN_INVALID => conns (client (drv w')) = ∅ /\ rs_ptr (drv w') = None
  end.
Proof using Type*.
  intros Hk Hs H.
  assert (Hw : sets_ok (pgsql_ops error_after alloc fmt_f options mode) true w).
  { split_and!; [|by left|]; rewrite Hs; [by exists c, None|exact (holds_open _ _ _ Hk)]. }
  assert (Hl : Forall (allowed true) l) by (apply Forall_forall; intros a _; by destruct a).
  destruct (calls_sets _ true l w w' Hl Hw H) as (Hok & _ & Ho). cbn [open_sets driver_ok driver_closed pgsql_laws] in *.
  unfold pgsql_open in Ho. destruct (state (con w')).
  - destruct Hok as (c' & o & Hc & Hn & Hp & Hq). rewrite Hp in Ho. exists c'. by destruct o.
  - destruct Hok as (c' & o & Hc & Hn & Hp & Hq). rewrite Hp in Ho. destruct o as [p|]; [|done]. exists c', p. auto.
  - split; [exact Hok|]. by destruct (rs_ptr (drv w')).
Qed.
End results_theorem.

(** ** A libpq in memory, for the witnesses

    "SELECT" returns rows, "DUP" violates a unique key, "" is the empty query, and
    other commands succeed; what was sent is logged.  A result is known by its
    handle and the query it answers. *)

Record memq := Memq { q_live : gset nat; q_conns : gset nat; q_next : nat; q_last : string; q_sent : list string }.

Definition q_result (what : string) (k : memq) : nat * memq :=
  let n := fresh (q_live k) in
  (n, Memq ({[n]} ∪ q_live k) (q_conns k) (q_next k) what (q_sent k ++ [what])).

#[export] Instance memq_libpq : Libpq memq := {|
  PQsetdbLogin _ k := let n := fresh (q_conns k) in (n, Memq (q_live k) ({[n]} ∪ q_conns k) (q_next k) (q_last k) (q_sent k));
  PQstatus _ _ := true;
  PQserverVersion _ _ := 150000;
  PQsetNoticeProcessor _ k := k;
  PQfinish c k := Memq (q_live k) (q_conns k ∖ {[c]}) (q_next k) (q_last k) (q_sent k);
  PQprepare _ _ q _ k := q_result q k;
  PQexec _ q k := q_result q k;
  PQexecPrepared _ _ v k := q_result (String.concat "," v) k;
  PQresultStatus _ k :=
    if String.eqb (q_last k) "SELECT" then PGRES_TUPLES_OK
    else if String.eqb (q_last k) "DUP" then PGRES_FATAL_ERROR
    else if String.eqb (q_last k) "" then PGRES_EMPTY_QUERY
    else PGRES_COMMAND_OK;
  PQntuples _ _ := 1;
  PQnfields _ _ := 1;
  PQcmdTuples _ _ := "1"%string;
  PQresultSqlstate _ _ := Some "23505"%string;
  PQresultMessage _ _ := Some "duplicate key"%string;
  PQgetisnull _ _ _ _ := false;
  PQgetlength _ _ _ _ := 1;
  PQgetvalue _ _ _ _ := "1"%string;
  PQclear p k := Memq (q_live k ∖ {[p]}) (q_conns k) (q_next k) (q_last k) (q_sent k)
|}.

#[export] Instance memq_laws : LibpqLaws memq.
Proof.
  assert (H : forall (what : string) k, let '(p, k') := q_result what k in
    (p ∉ q_live k) /\ q_live k' = {[p]} ∪ q_live k /\ q_conns k' = q_conns k).
  { intros what k. cbn. split; [apply is_fresh|done]. }
  refine {| live := q_live : memq -> gset nat; conns := q_conns : memq -> gset nat |}; try done; try (intros; apply H).
  intros a k. cbn. split; [apply is_fresh|done].
Defined.

Definition memq_state : pgsqld memq :=
  Pgsqld (Memq ∅ {[0%nat]} 0 "" []) (PgsqlArgs None None None None None) pgsql_drv_caps true (1, 2) (Valid 0%nat)
    (None, None) None 0 [] ∅.
Definition memq_db : db_world (pgsqld memq) :=
  Db (DbConn DB_ERROR_NONE new_rs DB_CONN_READY 0 0 0 None 0 0 0 0) memq_state (sb_counters_init 1) ∅.

Definition int_param (z : Z) (null : bool) : db_bind_t := DbBind DB_TYPE_INT (BInt z) None 0 (Some null).

Lemma pgsql_connections_and_results_witness :
  exists w', run_calls (pgsql_ops 1 (fun _ => true) (fun _ => ""%string) [] DB_PS_MODE_AUTO)
               [Prepare "UPDATE t SET c=?"; BindParam 0 [int_param 5 false]; Execute 0; Query "DUP"; Reconnect;
                Query "SELECT"; FetchRow; CloseConnection] memq_db = Some w'
    /\ q_conns (client (drv w')) = ∅.
Proof.
  destruct (run_calls (pgsql_ops 1 (fun _ => true) (fun _ => ""%string) [] DB_PS_MODE_AUTO)
    [Prepare "UPDATE t SET c=?"; BindParam 0 [int_param 5 false]; Execute 0; Query "DUP"; Reconnect;
     Query "SELECT"; FetchRow; CloseConnection] memq_db) as [w'|] eqn:E; [|vm_compute in E; discriminate].
  assert (Hs : state (con w') = DB_CONN_INVALID) by (vm_compute in E; injection E as <-; reflexivity).
  assert (Hk : holds 0 None (drv memq_db)) by (split_and!; done).
  exists w'. split; [done|].
  pose proof (pgsql_connections_and_results 1 (fun _ => true) (fun _ => ""%string) [] DB_PS_MODE_AUTO 0
    [Prepare "UPDATE t SET c=?"; BindParam 0 [int_param 5 false]; Execute 0; Query "DUP"; Reconnect;
     Query "SELECT"; FetchRow; CloseConnection] memq_db w' Hk ltac:(reflexivity) E) as H.
  rewrite Hs in H. exact (proj1 H).
Defined.

(** ** The outcome of a query *)

Section outcomes.
Context {L : Type} `{!Libpq L}.

(** What [pgsql_drv_query] is to do with the answer [p] of the server: the class of
    the error, the counter and the numbers of the result set, the texts of the error,
    the result that is kept, and the libpq after the releases. *)
Definition outcome_of (c : nat) (q : string) (r : db_result_t) (l : L)
    : option ((db_error_t * db_result_t) * (option string * option string) * option nat * L) :=
  let '(p, l) := PQexec c q l in
  match PQresultStatus p l with
  | PGRES_TUPLES_OK =>
      Some (DB_ERROR_NONE, DbResult SB_CNT_READ (u32 (PQntuples p l)) (u32 (PQnfields p l)) (statement r) (row_values r),
            (None, None), Some p, l)
  | PGRES_COMMAND_OK =>
      let n := u32 (strtoul (PQcmdTuples p l)) in
      Some (DB_ERROR_NONE, DbResult (if 0 <? n then SB_CNT_WRITE else SB_CNT_OTHER) n (nfields r) (statement r) (row_values r),
            (None, None), None, PQclear p l)
  | PGRES_FATAL_ERROR =>
      st ← PQresultSqlstate p l;
      msg ← PQresultMessage p l;
      let failed := DbResult SB_CNT_ERROR 0 (nfields r) (statement r) (row_values r) in
      if bool_decide (st ∈ ["40P01"; "23505"; "40001"]%string) then
        let '(t, l) := PQexec c "ROLLBACK" l in
        Some (DB_ERROR_IGNORABLE, failed, (Some st, Some msg), None, PQclear p (PQclear t l))
      else Some (DB_ERROR_FATAL, failed, (Some st, Some msg), None, PQclear p l)
  | _ => Some (DB_ERROR_FATAL, DbResult SB_CNT_ERROR 0 (nfields r) (statement r) (row_values r), (None, None), None, l)
  end.

Lemma ignorable_states st : ignorable_state st = bool_decide (st ∈ ["40P01"; "23505"; "40001"]%string).
Proof using Type.
  unfold ignorable_state. apply eq_true_iff_eq. rewrite bool_decide_eq_true, !orb_true_iff, !String.eqb_eq.
  rewrite !elem_of_cons, elem_of_nil. tauto.
Qed.

(** C19: a query keeps the result of a read and releases every other one that reports
    success or an error; deadlocks, unique violations and serialization failures are
    ignorable and the transaction is rolled back, other errors are fatal; the texts
    of the error are those of the server, copied before its result is released.  An
    answer of any other kind, as to the empty query, is fatal and never released.
    An error without a code cannot be handled: the copy reads a null pointer. *)
Theorem pgsql_query_outcome c q r (k : pgsqld L) : conn k = Valid c ->
  pgsql_drv_query q r k =
    '(out, e, p, l) ← outcome_of c q r (client k);
    Some (out, set_rs_ptr p (set_client l (set_sql_error e k))).
Proof using Type.
  intros Hc. unfold pgsql_drv_query, outcome_of, conclude, pgsql_check_status, connection.
  unfold mbind, act_bind, reads, reset_error, api, ask, changes, call, mret, act_ret, the. cbn. rewrite Hc. cbn.
  destruct (PQexec c q (client k)) as [p l]. unfold reads. cbn.
  destruct (PQresultStatus p l); try reflexivity.
  - cbn. by destruct (0 <? _).
  - cbn. destruct (PQresultSqlstate p l) as [st|]; [|done]. cbn.
    destruct (PQresultMessage p l) as [msg|]; [|done]. cbn. rewrite ignorable_states.
    destruct (bool_decide _); cbn; [rewrite Hc; cbn; destruct (PQexec c "ROLLBACK" l)|]; reflexivity.
Qed.
End outcomes.

Lemma pgsql_query_outcome_witness :
  exists k, pgsql_drv_query "DUP" new_rs memq_state = Some ((DB_ERROR_IGNORABLE, DbResult SB_CNT_ERROR 0 0 None false), k) /\
    sql_error k = (Some "23505", Some "duplicate key")%string /\ q_sent (client k) = ["DUP"; "ROLLBACK"]%string.
Proof.
  rewrite (pgsql_query_outcome 0 "DUP" new_rs memq_state); [|reflexivity]. eexists. split; [vm_compute; reflexivity|].
  split; vm_compute; reflexivity.
Defined.

(** ** Server-side statements *)

Section prepared.
Context {L : Type} `{!Libpq L}.
Context (error_after : nat) (alloc : Z -> bool) (fmt_f : dbl -> string).

(** The text that a parameter which is not null stands for, when the driver can send
    it: strings as they are, up to 255 bytes. *)
Definition param_text (b : db_bind_t) : option string :=
  if default false (is_null b) then None
  else
    match bind_type b, bind_buffer b with
    | (DB_TYPE_CHAR | DB_TYPE_VARCHAR), BString t =>
        if bool_decide (data_len b = Some (strlen t)) && (strlen t <? 256) then Some t else None
    | (DB_TYPE_CHAR | DB_TYPE_VARCHAR), _ => None
    | _, _ => t ← value_text fmt_f b; t ← t; if strlen t <? 256 then Some t else None
    end.

Lemma substring_full t : String.substring 0 (Z.to_nat (strlen t)) t = t.
Proof using Type. apply substring_all. unfold strlen. lia. Qed.

Lemma print_value_text b t : value_text fmt_f b = Some (Some t) -> strlen t < 256 ->
  db_print_value fmt_f b MAX_PARAM_LENGTH = Some (strlen t, Some t).
Proof using Type.
  intros Hv Hl. unfold db_print_value, MAX_PARAM_LENGTH. rewrite Hv. cbn [mbind option_bind from_option].
  rewrite (proj2 (Z.ltb_lt (strlen t) 256)) by lia. unfold snprintf.
  change (u64 256) with 256. change (256 =? 0) with false. change (Z.to_nat (256 - 1)) with 255%nat.
  by rewrite substring_all by lia.
Qed.

Lemma param_text_value b t old : param_text b = Some t -> param_value fmt_f b old = Some (Some t).
Proof using Type.
  unfold param_text, param_value. destruct (default false (is_null b)); [done|]. intros H.
  assert (Hv : (t0 ← value_text fmt_f b; t1 ← t0; if strlen t1 <? 256 then Some t1 else None) = Some t ->
    ('(_, text) ← db_print_value fmt_f b MAX_PARAM_LENGTH; Some match text with Some t => Some t | None => old end) = Some (Some t)).
  { intros E. apply bind_Some in E as ([t0|] & Hv & E); [|done]. cbn in E. destruct (Z.ltb_spec (strlen t0) 256); [|done].
    injection E as ->. by rewrite (print_value_text b t Hv). }
  assert (Hs : forall t0, bind_buffer b = BString t0 ->
    (if bool_decide (data_len b = Some (strlen t0)) && (strlen t0 <? 256) then Some t0 else None) = Some t ->
    (len ← data_len b; match bind_buffer b with
       | BString t => if (strlen t <? len) || (MAX_PARAM_LENGTH <=? len) then None
                      else Some (Some (String.substring 0 (Z.to_nat len) t))
       | _ => None end) = Some (Some t)).
  { intros t0 Eb E. destruct (bool_decide_reflect (data_len b = Some (strlen t0))) as [Ed|]; [|done]. cbn in E.
    rewrite Ed, Eb. cbn [mbind option_bind]. destruct (Z.ltb_spec (strlen t0) 256); [|done]. injection E as ->.
    rewrite Z.ltb_irrefl. unfold MAX_PARAM_LENGTH. rewrite (proj2 (Z.leb_gt 256 (strlen t))) by lia.
    cbn [orb]. by rewrite substring_full. }
  destruct (bind_type b); try exact (Hv H); destruct (bind_buffer b) as [z|x|t0|x] eqn:Eb; try discriminate; by apply (Hs t0).
Qed.

Lemma param_values_texts l texts (old : list (option string)) : length old = length l -> mapM param_text l = Some texts ->
  param_values fmt_f (length l) (Some l) (Some old) = Some (map Some texts).
Proof using Type.
  intros Ho Ht. unfold param_values. apply mapM_Some in Ht. apply mapM_Some. apply Forall2_same_length_lookup_2.
  { rewrite length_seq, length_map. by eapply Forall2_length. }
  intros i x y Hx Hy. apply lookup_seq in Hx as [-> Hi]. cbn [Nat.add mbind option_bind].
  destruct (lookup_lt_is_Some_2 l i Hi) as [b Hb]. destruct (lookup_lt_is_Some_2 old i ltac:(lia)) as [v Hv].
  rewrite Hb, Hv. cbn [mbind option_bind]. apply list_lookup_fmap_Some in Hy as (t & -> & Ht').
  apply param_text_value. exact (Forall2_lookup_lr _ _ _ i b t Ht Hb Ht').
Qed.

Lemma mapM_id_Some (l : list string) : mapM id (map Some l) = Some l.
Proof using Type. apply mapM_Some. induction l; constructor; done. Qed.

Definition types_of (l : list db_bind_t) : list Z := map (fun b => u32 (get_pgsql_bind_type (bind_type b))) l.

Lemma prepare_server s q c text n (k : pgsqld L) : conn k = Valid c -> use_ps k = true ->
  (forall size, alloc size = true) -> subst value_number q 1 = Some (text, n) -> strlen text < 2 ^ 29 ->
  (0 < placeholders q)%nat ->
  let '(nm, g) := get_unique_stmt_name (rng k) in
  prepare_new alloc s q k = Some (0, set_statements (<[s := Stmt (Some (PgStmt nm false (placeholders q) None None)) false
    (Some text) None]> (statements k)) (set_rng g k)).
Proof using Type.
  intros Hc Hps Ha Hs Hl Hq. destruct (get_unique_stmt_name (rng k)) as [nm g] eqn:En.
  unfold prepare_new, pgsql_drv_prepare, stmt, put_stmt, mbind, act_bind, reads, changes, mret, act_ret.
  cbn -[expand]. rewrite Hc. cbn -[expand]. rewrite Hps. cbn -[expand]. rewrite lookup_insert_eq. cbn -[expand].
  rewrite (expand_substitutes alloc print_number value_number 30 q 1 text n Ha print_number_prints); try done; try lia.
  2: { intros ->. cbn in Hq. lia. }
  rewrite (subst_count value_number q 1 text n Hs). unfold stmt_name. cbn. rewrite En. cbn.
  replace (placeholders q - 0)%nat with (placeholders q) by lia.
  destruct (Nat.eqb_spec (placeholders q) 0); [lia|]. cbn. by rewrite insert_insert_eq.
Qed.

Lemma bind_server s pg text l p lib (k : pgsqld L) c : conn k = Valid c ->
  statements k !! s = Some (Stmt (Some pg) false (Some text) None) -> prepared pg = false -> nparams pg = length l ->
  PQprepare c (name pg) text (types_of l) (client k) = (p, lib) -> PQresultStatus p lib = PGRES_COMMAND_OK ->
  pgsql_drv_bind_param s l k = Some (0, set_client (PQclear p lib) (set_statements
    (<[s := Stmt (Some (PgStmt (name pg) true (length l) (Some (types_of l)) (Some (replicate (length l) None)))) false
         (Some text) (Some l)]> (statements k)) k)).
Proof using Type.
  intros Hc Hs Hp Hn Hpr Hst. unfold pgsql_drv_bind_param, stmt, put_stmt, ask, mbind, act_bind, reads, changes, call,
    mret, act_ret, api. cbn. rewrite Hc. cbn. rewrite Hs. cbn. rewrite Hp, Hn, Nat.eqb_refl. cbn.
  change (map _ l) with (types_of l). rewrite Hpr. cbn. rewrite Hst.
  rewrite bool_decide_true by done. cbn. by rewrite !insert_insert_eq.
Qed.

Lemma execute_server s nm ts text l texts r (k : pgsqld L) c : conn k = Valid c ->
  statements k !! s = Some (Stmt (Some (PgStmt nm true (length l) ts (Some (replicate (length l) None)))) false
    (Some text) (Some l)) -> mapM param_text l = Some texts ->
  exists k', pgsql_drv_execute alloc fmt_f s r k = conclude (fst (PQexecPrepared c nm texts (client k))) r k' /\
    client k' = snd (PQexecPrepared c nm texts (client k)) /\ conn k' = Valid c.
Proof using Type.
  intros Hc Hs Ht. unfold pgsql_drv_execute, connection, stmt, put_stmt, mbind, act_bind, reads, changes, reset_error, api, mret, act_ret.
  cbn -[param_values]. rewrite Hs. cbn -[param_values]. rewrite (param_values_texts l texts); [|by rewrite length_replicate|done]. cbn. rewrite mapM_id_Some.
  cbn. rewrite Hc. cbn. destruct (PQexecPrepared c nm texts (client k)) as [p lib]. eexists. split; [reflexivity|done].
Qed.

(** C18: with server-side statements, preparing a statement with placeholders, binding
    as many parameters and executing it sends the server two things: the statement
    with its placeholders numbered from [$1] in order, with the types of the
    parameters, and then the name it was given with the texts of the parameters, in
    order; the answer to the second is what the caller gets. *)
Theorem pgsql_prepared_execution c s q l text n texts r (k : pgsqld L) :
  conn k = Valid c -> use_ps k = true -> (forall size, alloc size = true) ->
  subst value_number q 1 = Some (text, n) -> strlen text < 2 ^ 29 ->
  (0 < length l)%nat -> length l = placeholders q -> mapM param_text l = Some texts ->
  let nm := fst (get_unique_stmt_name (rng k)) in
  let '(p, lib) := PQprepare c nm text (types_of l) (client k) in
  let '(p2, lib2) := PQexecPrepared c nm texts (PQclear p lib) in
  PQresultStatus p lib = PGRES_COMMAND_OK ->
  exists k', client k' = lib2 /\ conn k' = Valid c /\
    (prepare_new alloc s q;; pgsql_drv_bind_param s l;; pgsql_drv_execute alloc fmt_f s r) k = conclude p2 r k'.
Proof using Type.
  intros Hc Hps Ha Hs Hl Hn Hq Ht nm. destruct (PQprepare c nm text (types_of l) (client k)) as [p lib] eqn:Ep.
  destruct (PQexecPrepared c nm texts (PQclear p lib)) as [p2 lib2] eqn:Ee. intros Hst.
  pose proof (prepare_server s q c text n k Hc Hps Ha Hs Hl ltac:(lia)) as H1.
  destruct (get_unique_stmt_name (rng k)) as [nm' g]. cbn [fst] in nm. subst nm.
  rewrite (bind_some _ _ _ _ _ H1). clear H1. set (k1 := set_statements _ _).
  rewrite (bind_some _ _ _ _ _ (bind_server s (PgStmt nm' false (placeholders q) None None) text l p lib k1 c Hc
    (lookup_insert_eq _ _ _) eq_refl (eq_sym Hq) Ep Hst)). set (k2 := set_client _ _).
  destruct (execute_server s nm' (Some (types_of l)) text l texts r k2 c Hc (lookup_insert_eq _ _ _) Ht)
    as (k' & E & Hk & Hc').
  change (client k2) with (PQclear p lib) in E, Hk. rewrite Ee in E, Hk. exists k'. done.
Qed.
End prepared.

Lemma pgsql_prepared_execution_witness :
  exists k', q_sent (client k') = ["UPDATE t SET c=$1, d=$2"; "5,x"]%string /\
    (prepare_new (fun _ => true) 0 "UPDATE t SET c=?, d=?";;
     pgsql_drv_bind_param 0 [int_param 5 false; DbBind DB_TYPE_CHAR (BString "x") (Some 1) 120 None];;
     pgsql_drv_execute (fun _ => true) (fun _ => ""%string) 0 new_rs) memq_state = conclude 0%nat new_rs k'.
Proof.
  destruct (pgsql_prepared_execution (fun _ => true) (fun _ => ""%string) 0 0 "UPDATE t SET c=?, d=?"
    [int_param 5 false; DbBind DB_TYPE_CHAR (BString "x") (Some 1) 120 None] "UPDATE t SET c=$1, d=$2" 3 ["5"; "x"]%string
    new_rs memq_state) as (k' & Hk & _ & E);
    [reflexivity|reflexivity|reflexivity|vm_compute; reflexivity|vm_compute; reflexivity|cbn; lia|reflexivity
    |vm_compute; reflexivity|reflexivity|].
  exists k'. split; [rewrite Hk; vm_compute; reflexivity|exact E].
Defined.

(** ** What the driver gets wrong *)

Section defects.
Context {L : Type} `{!Libpq L}.
Context (alloc : Z -> bool) (fmt_f : dbl -> string).

(** A parameter that is null is passed over: the server gets the text of the last
    value that was not null. *)
Theorem null_parameter_resends b old : is_null b = Some true -> param_value fmt_f b old = Some old.
Proof using Type. intros H. unfold param_value. by rewrite H. Qed.

(** A string of 256 bytes or more is written past the end of its buffer. *)
Theorem long_parameter_overflows b t len old : is_null b <> Some true ->
  (bind_type b = DB_TYPE_CHAR \/ bind_type b = DB_TYPE_VARCHAR) -> bind_buffer b = BString t ->
  data_len b = Some len -> MAX_PARAM_LENGTH <= len -> param_value fmt_f b old = None.
Proof using Type.
  intros Hn Ht Hb Hd Hl. unfold param_value. assert (default false (is_null b) = false) as ->.
  { destruct (is_null b) as [[]|]; done. }
  rewrite Hd, Hb. cbn. rewrite (proj2 (Z.leb_le _ _) Hl), orb_true_r. by destruct Ht as [->| ->].
Qed.

(** A date sent to a server-side statement is put in quotes, as in the text of a
    query. *)
Theorem date_parameter_quoted t old : strlen (date_text t +:+ " " +:+ time_text t) < 250 ->
  param_value fmt_f (DbBind DB_TYPE_TIMESTAMP (BTime t) None 0 None) old =
    Some (Some ("'" +:+ date_text t +:+ " " +:+ time_text t +:+ "'")%string).
Proof using Type.
  intros Hl. unfold param_value. cbn [is_null default from_option bind_type].
  rewrite (print_value_text fmt_f _ ("'" +:+ date_text t +:+ " " +:+ time_text t +:+ "'")%string); [done|done|].
  rewrite !strlen_app in *. change (strlen "'") with 1. lia.
Qed.

(** When the statement cannot be prepared on the first binding, the answer is never
    released. *)
Theorem bind_failure_leaks `{!LibpqLaws L} c s l text pg p lib (k : pgsqld L) : conn k = Valid c ->
  statements k !! s = Some (Stmt (Some pg) false (Some text) None) -> prepared pg = false -> nparams pg = length l ->
  PQprepare c (name pg) text (types_of l) (client k) = (p, lib) -> PQresultStatus p lib <> PGRES_COMMAND_OK ->
  exists k', pgsql_drv_bind_param s l k = Some (1, k') /\ client k' = lib /\ p ∈ live lib.
Proof using Type.
  intros Hc Hs Hp Hn Hpr Hst. pose proof (prepare_result_law c (name pg) text (types_of l) (client k)) as Hlaw.
  rewrite Hpr in Hlaw. destruct Hlaw as (_ & El & _).
  unfold pgsql_drv_bind_param, stmt, put_stmt, ask, mbind, act_bind, reads, changes, call, mret, act_ret, api. cbn.
  rewrite Hc. cbn. rewrite Hs. cbn. rewrite Hp, Hn, Nat.eqb_refl. cbn. change (map _ l) with (types_of l). rewrite Hpr.
  cbn. rewrite bool_decide_false by done. cbn. eexists. split; [done|]. split; [done|]. set_solver.
Qed.
End defects.

(** The second execution sends the value of the first, though its parameter is
    null. *)
Theorem null_parameter_reached :
  exists w, run_calls (pgsql_ops 1 (fun _ => true) (fun _ => ""%string) [] DB_PS_MODE_AUTO)
    [Prepare "UPDATE t SET c=?"; BindParam 0 [int_param 5 false]; Execute 0; BindParam 0 [int_param 5 true]; Execute 0]
    memq_db = Some w /\ q_sent (client (drv w)) = ["UPDATE t SET c=$1"; "5"; "5"]%string.
Proof. eexists. split; vm_compute; reflexivity. Qed.
