(* ===== verification/Compare.v ===== *)
(** * The comparing driver ([drivers/compare/drv_compare.c])

    It sends what it is asked to several MySQL servers and compares their answers.
    Every connection has a client library state of its own, so the model is over the
    class [Mysql.MysqlClient], extended with what only this driver calls.  [None] is
    undefined behaviour, the end of the program ([exit(0)]), or the value -1 returned
    for a [db_error_t]; allocations succeed; the messages of the log are left out. *)

From stdpp Require Import pretty.
From S2P Require Import Prelude Double Options Counter Timer Reports Db Driver Emulation Mysql.

#[local] Set Warnings "-clear-no-such-hyp".

(** ** The client library *)

(** A field of a result; types that the driver does not know of are [None]. *)
Record MYSQL_FIELD := Field { f_name : string; f_type : option mysql_type; f_max_length : Z }.

(** [mysql_init(NULL)]; the fields of a result; the metadata and the bound parameters
    of a statement; and a fetched row of it: the return value, and for each bound
    field whether it is null, its length, and the C string in its buffer. *)
Class CompareClient (L : Type) := {
  mysql_new : option L;
  mysql_fetch_fields : nat -> L -> list MYSQL_FIELD;
  mysql_stmt_result_metadata : nat -> L -> option (list MYSQL_FIELD);
  mysql_stmt_params : nat -> L -> option (list MYSQL_BIND);
  mysql_stmt_fetch : nat -> L -> (Z * list (bool * Z * string)) * L
}.

(** ** Options and state *)

(** As those of the MySQL driver, but for the lists of users and passwords. *)
Definition cmp_drv_args : list sb_arg_t :=
  [SB_OPT "mysql-host" "MySQL server host" (Some "localhost") SB_ARG_TYPE_LIST None;
   SB_OPT "mysql-port" "MySQL server port" (Some "3306") SB_ARG_TYPE_LIST None;
   SB_OPT "mysql-socket" "MySQL socket" None SB_ARG_TYPE_LIST None;
   SB_OPT "mysql-user" "MySQL user" (Some "sbtest") SB_ARG_TYPE_LIST None;
   SB_OPT "mysql-password" "MySQL password" (Some "") SB_ARG_TYPE_LIST None]
  ++ drop 5 mysql_drv_args.

Record cmp_args_t := CmpArgs {
  c_hosts : list string;
  c_ports : list string;
  c_sockets : list string;
  c_users : list string;
  c_passwords : list string;
  c_db : option string;
  c_ssl_mode : mysql_ssl_mode;
  c_use_ssl : bool;
  c_ssl_key : option string;
  c_ssl_cert : option string;
  c_ssl_ca : option string;
  c_ssl_cipher : option string;
  c_use_compression : Z;
  c_debug : Z;
  c_ignored_errors : list string;
  c_dry_run : Z
}.

(** What is reported when an answer is not that of the first server. *)
Record mismatch := Mismatch { m_query : option string; m_index : nat; m_first : string; m_other : string }.

(** The state: the client library, the variables of the file, [sb_conn->ptr] (the
    connections with their handles, or [NULL]), the error fields, the statements that
    exist, each with one handle per connection or none, and the reports. *)
Record cmpd (L : Type) := Cmpd {
  library : L;
  cargs : cmp_args_t;
  ccaps : drv_caps_t;
  cuse_ps : bool;
  cverbosity : Z;
  connections : option (list (db_mysql_conn_t * L));
  csql_error : Z * option string * option string;
  cstatements : gmap nat (db_stmt_t (list (option nat)));
  reported : list mismatch
}.
Arguments Cmpd {L}.
Arguments library {L}.
Arguments cargs {L}.
Arguments ccaps {L}.
Arguments cuse_ps {L}.
Arguments cverbosity {L}.
Arguments connections {L}.
Arguments csql_error {L}.
Arguments cstatements {L}.
Arguments reported {L}.

Section updates.
Context {L : Type}.
Implicit Types k : cmpd L.

Definition set_library (l : L) k := Cmpd l (cargs k) (ccaps k) (cuse_ps k) (cverbosity k) (connections k) (csql_error k)
  (cstatements k) (reported k).
Definition set_connections c k := Cmpd (library k) (cargs k) (ccaps k) (cuse_ps k) (cverbosity k) c (csql_error k)
  (cstatements k) (reported k).
Definition set_csql_error e k := Cmpd (library k) (cargs k) (ccaps k) (cuse_ps k) (cverbosity k) (connections k) e
  (cstatements k) (reported k).
Definition set_cstatements m k := Cmpd (library k) (cargs k) (ccaps k) (cuse_ps k) (cverbosity k) (connections k)
  (csql_error k) m (reported k).
Definition report l k := Cmpd (library k) (cargs k) (ccaps k) (cuse_ps k) (cverbosity k) (connections k)
  (csql_error k) (cstatements k) (reported k ++ l).
End updates.

(** What a failed call has assigned is left out, as in [Mysql.mysql_drv_init]; so is
    the barrier, which nothing waits on.  The size of a list is that of the options,
    so at least one host and one port are found. *)
Definition cmp_drv_init {L} `{!MysqlClient L} (options : list option_t) (mode : db_ps_mode_t) (k : cmpd L)
    : option (Z * cmpd L) :=
  let strings name := map val_data <$> sb_get_value_list options name in
  let str := sb_get_value_string options in
  h ← strings "mysql-host";
  if bool_decide (h = []) then Some (1, k)
  else
    p ← strings "mysql-port";
    if bool_decide (p = []) then Some (1, k)
    else
      s ← strings "mysql-socket";
      u ← strings "mysql-user";
      if (length u =? 0)%nat || negb (length h =? length u)%nat then Some (1, k)
      else
        w ← strings "mysql-password";
        if (length w =? 0)%nat || negb (length h =? length w)%nat then Some (1, k)
        else
          ssl ← str "mysql-ssl";
          match find_ssl_mode ssl with
          | None => Some (1, k)
          | Some m =>
              let debug := sb_get_value_flag options "mysql-debug" in
              e ← strings "mysql-ignore-errors";
              let a := CmpArgs h p s u w (str "mysql-db") m (negb (bool_decide (m = SSL_MODE_DISABLED)))
                         (str "mysql-ssl-key") (str "mysql-ssl-cert") (str "mysql-ssl-ca") (str "mysql-ssl-cipher")
                         (sb_get_value_flag options "mysql-compression") debug e
                         (sb_get_value_flag options "mysql-dry-run") in
              Some (0, Cmpd (mysql_library_init (library k)) a (DrvCaps true true true false false true)
                         (negb (bool_decide (mode = DB_PS_MODE_DISABLE))) (if debug =? 0 then cverbosity k else 5)
                         (connections k) (csql_error k) (cstatements k) (reported k))
          end.

(** ** The text of a result

    A buffer with its size and the position in it; the text is what has been written,
    without the terminator. *)

Record text_buffer := TextBuffer { t_text : string; t_size : Z; t_pos : Z }.

(** [pos += snprintf(buf + pos, size - pos, ...)] of the text [t]: undefined when the
    position is past the buffer already, or no longer fits an [int]. *)
Definition put (t : string) (b : text_buffer) : option text_buffer :=
  let room := t_size b - t_pos b in
  if (room <? 0) || (INT_MAX <? t_pos b + strlen t) then None
  else Some (TextBuffer (t_text b +:+ default ""%string (snprintf room t)) (t_size b) (t_pos b + strlen t)).

(** [if (buf_size - buf_pos < need) buf_size *= 2] *)
Definition reserve (need : Z) (b : text_buffer) : text_buffer :=
  if u64 (t_size b - t_pos b) <? u64 need then TextBuffer (t_text b) (t_size b * 2) (t_pos b) else b.

(** Texts to write, each with what is reserved before. *)
Fixpoint put_all (l : list (option Z * string)) (b : text_buffer) : option text_buffer :=
  match l with
  | [] => Some b
  | (need, t) :: l => b ← put t (match need with Some n => reserve n b | None => b end); put_all l b
  end.

Definition newline : string := String (ascii_of_nat 10) "".

(** ["%-*s"] *)
Definition pad (width : Z) (t : string) : string := t +:+ spaces (Z.to_nat (Z.abs width - strlen t)).
(** ["%.*s"] *)
Definition prec (n : Z) (t : string) : string := if n <? 0 then t else String.substring 0 (Z.to_nat n) t.

(** A C string ends at its first zero byte. *)
Fixpoint until_zero (t : string) : string :=
  match t with
  | EmptyString => EmptyString
  | String c t => if Ascii.eqb c zero then EmptyString else String c (until_zero t)
  end.

Definition header_texts (fields : list MYSQL_FIELD) : list (option Z * string) :=
  map (fun f => (Some (s32 (f_max_length f) + 10), "| " +:+ pad (s32 (f_max_length f) + 2) (f_name f))) fields
  ++ [(None, "|" +:+ newline)].

(** A row: undefined without a value and a length for each field. *)
Definition row_texts (fields : list MYSQL_FIELD) (row : list (option string)) (lengths : list Z)
    : option (list (option Z * string)) :=
  cells ← mapM (fun '(j, f) =>
    v ← row !! j;
    len ← lengths !! j;
    Some (Some (s32 len + 10),
          "| " +:+ pad (s32 (f_max_length f) + 2) (prec (s32 len) (from_option until_zero "NULL"%string v)) +:+ " "))
    (imap pair fields);
  Some (cells ++ [(None, "|" +:+ newline)]).

(** [buf[buf_pos] = '\0'] *)
Definition finish (b : text_buffer) : option string := if t_pos b <? t_size b then Some (t_text b) else None.

Section rendering.
Context {L : Type} `{!MysqlClient L, !CompareClient L}.

(** [while((row = mysql_fetch_row(res)))]; the fuel of [render] is enough for the
    rows stored. *)
Fixpoint render_rows (fuel : nat) (p : nat) (fields : list MYSQL_FIELD) (b : text_buffer) (l : L) : option (text_buffer * L) :=
  match fuel with
  | O => None
  | S fuel =>
      let '(row, l) := mysql_fetch_row p l in
      match row with
      | None => Some (b, l)
      | Some row =>
          match mysql_fetch_lengths p l with
          | None => render_rows fuel p fields b l
          | Some lengths =>
              texts ← row_texts fields row lengths;
              b ← put_all texts b;
              render_rows fuel p fields b l
          end
      end
  end.

Definition render (p : nat) (l : L) : option (string * L) :=
  let fields := mysql_fetch_fields p l in
  b ← put_all (header_texts fields) (TextBuffer "" 4096 0);
  '(b, l) ← render_rows (S (Z.to_nat (mysql_num_rows p l))) p fields b l;
  text ← finish b;
  Some (text, l).

(** What one connection answers to a query: an error of either call, no result with
    the rows it has changed, or a stored result, with its text for a SELECT. *)
Inductive reply := Failed | Changed (nrows : Z) | Result (nrows nfields : Z) (text : option string).

Definition ask_server (select : bool) (query : string) (l : L) : option (reply * L) :=
  let '(err, l) := mysql_real_query query l in
  if negb (err =? 0) then Some (Failed, l)
  else
    let '(res, l) := mysql_store_result l in
    match res with
    | None =>
        if (mysql_errno l =? 0) && (mysql_field_count l =? 0) then Some (Changed (mysql_affected_rows l), l)
        else Some (Failed, l)
    | Some p =>
        '(text, l) ← (if select then '(t, l) ← render p l; Some (Some t, l) else Some (None, l));
        Some (Result (mysql_num_rows p l) (mysql_num_fields p l) text, l)
    end.
End rendering.

(** ** The query that is printed for a mismatch

    [replace_placeholders]: the parameters put into the text, in a buffer whose size
    is computed before. *)

(** The buffers of parameters exist. *)
Definition bind_room (b : MYSQL_BIND) : Z :=
  match buffer_type b with
  | Some MYSQL_TYPE_LONG => 11
  | Some MYSQL_TYPE_LONGLONG => 20
  | Some (MYSQL_TYPE_STRING | MYSQL_TYPE_VAR_STRING) => from_option (fun n => n * 2 + 2) 0 (my_length b)
  | _ => 32
  end.

(** Quotes and backslashes are escaped. *)
Fixpoint escape (t : string) : string :=
  match t with
  | EmptyString => EmptyString
  | String c t =>
      if Ascii.eqb c "'" || Ascii.eqb c "\" then String "\" (String c (escape t)) else String c (escape t)
  end.

(** Undefined when the buffer does not hold what the type says. *)
Definition bind_text (b : MYSQL_BIND) : option string :=
  match buffer_type b, my_buffer b with
  | Some MYSQL_TYPE_LONG, BInt z => Some (pretty (s32 z))
  | Some MYSQL_TYPE_LONG, _ => None
  | Some MYSQL_TYPE_LONGLONG, BInt z => Some (pretty (s64 z))
  | Some MYSQL_TYPE_LONGLONG, _ => None
  | Some (MYSQL_TYPE_STRING | MYSQL_TYPE_VAR_STRING), data =>
      match my_length b, data with
      | None, _ => Some "''"%string
      | Some n, BString t =>
          if strlen t <? n then None else Some ("'" +:+ escape (String.substring 0 (Z.to_nat n) t) +:+ "'")%string
      | Some _, _ => None
      end
  | _, _ => Some "?"%string
  end.

Fixpoint replace_loop (src : string) (params : list MYSQL_BIND) : option string :=
  match src with
  | EmptyString => Some EmptyString
  | String c src =>
      match params with
      | b :: params' =>
          if Ascii.eqb c placeholder then t ← bind_text b; rest ← replace_loop src params'; Some (t +:+ rest)
          else rest ← replace_loop src params; Some (String c rest)
      | [] => rest ← replace_loop src []; Some (String c rest)
      end
  end.

(** [NULL] without parameters; undefined when the text and its terminator are longer
    than the buffer. *)
Definition replace_placeholders (q_str : string) (q_params : option (list MYSQL_BIND)) : option (option string) :=
  match q_params with
  | None => Some None
  | Some params =>
      let final_len := strlen q_str + 1 + sumZ (map bind_room params) in
      t ← replace_loop q_str params;
      if final_len <? strlen t + 1 then None else Some (Some t)
  end.

(** [!strncasecmp(s, word, strlen(word))] *)
Fixpoint starts_with (word s : string) : bool :=
  match word, s with
  | EmptyString, _ => true
  | String a word, String b s => Ascii.eqb (toupper a) (toupper b) && starts_with word s
  | _, _ => false
  end.
Definition is_select (query : string) : bool := starts_with "SELECT" query.
Definition is_dml (query : string) : bool :=
  starts_with "insert" query || starts_with "update" query || starts_with "delete" query || starts_with "replace" query.

(** ** Operations *)

Section driver.
Context {L : Type} `{!MysqlClient L, !CompareClient L}.
Abbreviation M := (act (cmpd L)).

Definition cdry : M bool := reads (fun k => negb (c_dry_run (cargs k) =? 0)).
(** What [sb_conn->ptr] points to; it must not be [NULL]. *)
Definition multi_conn : M (list (db_mysql_conn_t * L)) := c ← reads connections; the c.
(** A call on the handle of connection [i]. *)
Definition on {A} (i : nat) (f : L -> A * L) : M A :=
  cs ← multi_conn;
  c ← the (cs !! i);
  let '(x, l) := f (snd c) in
  changes (set_connections (Some (<[i := (fst c, l)]> cs)));; mret x.
Definition asks {A} (i : nat) (f : L -> A) : M A := on i (fun l => (f l, l)).
Definition cstmt (s : nat) : M (db_stmt_t (list (option nat))) := m ← reads cstatements; the (m !! s).
Definition put_cstmt (s : nat) (st : db_stmt_t (list (option nat))) : M unit :=
  changes (fun k => set_cstatements (<[s := st]> (cstatements k)) k).

Definition cmp_drv_thread_init : M Z :=
  fun k => let '(rc, l) := mysql_thread_init (library k) in Some (b2z (negb (rc =? 0)), set_library l k).
Definition cmp_drv_thread_done : M Z := changes (fun k => set_library (mysql_thread_end (library k)) k);; mret 0.
Definition cmp_drv_describe : M (Z * drv_caps_t) := c ← reads ccaps; mret (0, c).

(** [true] when it fails. *)
Definition cmp_drv_real_connect (a : cmp_args_t) (c : db_mysql_conn_t) (l : L) : bool * L :=
  let l := mysql_options_ssl_mode (c_ssl_mode a) l in
  let l := if c_use_ssl a then mysql_ssl_set (c_ssl_key a) (c_ssl_cert a) (c_ssl_ca a) (c_ssl_cipher a) l else l in
  let l := if c_use_compression a =? 0 then l else mysql_options_compress l in
  let '(ok, l) := mysql_real_connect c l in
  (negb ok, l).

(** The loop of [mysql_drv_connect], from instance [i] on, over the hosts left: the
    connections, or [None] when one fails.  The items of the other lists are
    undefined past their ends. *)
Fixpoint connect_all (a : cmp_args_t) (i : nat) (hosts : list string) : option (option (list (db_mysql_conn_t * L))) :=
  match hosts with
  | [] => Some (Some [])
  | h :: hosts =>
      p ← c_ports a !! i;
      s ← c_sockets a !! i;
      u ← c_users a !! i;
      w ← c_passwords a !! i;
      let c := MysqlConn (Some h) (Some u) (Some w) (c_db a) (u32 (atoi p)) (Some s) in
      match mysql_new with
      | None => Some None
      | Some l =>
          let '(failed, l) := cmp_drv_real_connect a c l in
          if failed : bool then Some None
          else
            rest ← connect_all a (S i) hosts;
            Some (cs ← rest; Some ((c, l) :: cs))
      end
  end.

Definition cmp_drv_connect : M Z :=
  d ← cdry;
  if d : bool then mret 0
  else
    a ← reads cargs;
    out ← the (connect_all a 0 (c_hosts a));
    match out with
    | None => mret 1
    | Some cs => changes (set_connections (Some cs));; mret 0
    end.

(** Every handle is closed. *)
Definition cmp_drv_disconnect : M Z := changes (set_connections None);; mret 0.

(** [mysql_multi_stmt_free] *)
Fixpoint close_all (i : nat) (statements : list (option nat)) : M unit :=
  match statements with
  | [] => mret tt
  | st :: statements =>
      (match st with None => mret tt | Some p => on i (mysql_stmt_close p);; mret tt end);;
      close_all (S i) statements
  end.

(** The loop of [mysql_drv_prepare] over [n] connections, with the handles so far:
    the handles, or [None] when one fails and they have been closed. *)
Fixpoint prepare_all (s : nat) (query : string) (ps : bool) (n : nat) (statements : list (option nat))
    : M (option (list (option nat))) :=
  match n with
  | O => mret (Some statements)
  | S n =>
      let i := length statements in
      let emulate : M (option (list (option nat))) :=
        st ← cstmt s;
        put_cstmt s (Stmt (s_ptr st) true (s_query st) (bound_param st));;
        prepare_all s query ps n (statements ++ [None]) in
      if ps then
        mystmt ← on i mysql_stmt_init;
        match mystmt with
        | None => close_all 0 statements;; mret None
        | Some p =>
            failed ← on i (mysql_stmt_prepare p query);
            if negb (failed =? 0) then
              rc ← asks i mysql_errno;
              on i (mysql_stmt_close p);;
              if u32 rc =? ER_UNSUPPORTED_PS then emulate
              else close_all 0 statements;; mret None
            else prepare_all s query ps n (statements ++ [Some p])
        end
      else emulate
  end.

Definition cmp_drv_prepare (s : nat) (query : string) : M Z :=
  d ← cdry;
  if d : bool then mret 0
  else
    cs ← reads connections;
    match cs with
    | None | Some [] => mret 1
    | Some cs =>
        ps ← reads cuse_ps;
        out ← prepare_all s query ps (length cs) [];
        match out with
        | None => mret 1
        | Some statements =>
            st ← cstmt s;
            put_cstmt s (Stmt (Some statements) (emulated st) (Some query) (bound_param st));; mret 0
        end
    end.

(** A call for each statement handle, until one returns an error. *)
Fixpoint for_statements (f : nat -> nat -> M Z) (i : nat) (statements : list (option nat)) : M Z :=
  match statements with
  | [] => mret 0
  | None :: statements => for_statements f (S i) statements
  | Some p :: statements => rc ← f i p; if rc =? 0 then for_statements f (S i) statements else mret 1
  end.

Definition cmp_drv_bind_param (s : nat) (params : list db_bind_t) : M Z :=
  d ← cdry;
  if d : bool then mret 0
  else
    st ← cstmt s;
    match s_ptr st with
    | None => mret 1
    | Some statements =>
        if emulated st then mret 1
        else
          for_statements (fun i p =>
            param_count ← asks i (mysql_stmt_param_count p);
            if negb (param_count =? Z.of_nat (length params)) then mret 1
            else rc ← on i (mysql_stmt_bind_param p (map convert_to_mysql_bind params)); mret (b2z rc)) 0 statements
    end.

Definition cmp_drv_bind_result (s : nat) (params : list db_bind_t) : M Z :=
  d ← cdry;
  if d : bool then mret 0
  else
    st ← cstmt s;
    match s_ptr st with
    | None => mret 1
    | Some statements =>
        for_statements (fun i p =>
          rc ← on i (mysql_stmt_bind_result p (map convert_to_mysql_bind params)); mret (b2z rc)) 0 statements
    end.

(** The handles come from [mysql_init(NULL)], so [mysql_close] frees them; the
    attempt to connect that follows uses the first one after that. *)
Definition cmp_drv_reconnect : M db_error_t :=
  cs ← reads connections;
  match cs with None | Some [] => mret DB_ERROR_FATAL | Some _ => undefined end.

(** The error class, and the counter unless it is left as it was.  The loop over the
    connections returns in its first round. *)
Definition cmp_check_error : M (db_error_t * option sb_counter_type_t) :=
  cs ← reads connections;
  match cs with
  | None | Some [] => mret (DB_ERROR_FATAL, None)
  | Some ((_, l) :: _) =>
      let error := u32 (mysql_errno l) in
      changes (set_csql_error (s32 error, Some (mysql_sqlstate l), Some (mysql_error l)));;
      a ← reads cargs;
      if existsb (ignores error) (c_ignored_errors a) then
        if connection_error error then
          rc ← cmp_drv_reconnect;
          mret (if bool_decide (rc = DB_ERROR_FATAL) then DB_ERROR_FATAL else DB_ERROR_IGNORABLE, Some SB_CNT_RECONNECT)
        else mret (DB_ERROR_IGNORABLE, Some SB_CNT_ERROR)
      else mret (DB_ERROR_FATAL, Some SB_CNT_ERROR)
  end.

Definition with_counter (c : option sb_counter_type_t) (r : db_result_t) : db_result_t :=
  match c with Some c => set_counter c r | None => r end.

(** The differences of the texts from the first one. *)
Definition mismatches (query : option string) (texts : list string) : list mismatch :=
  match texts with
  | [] => []
  | first :: others =>
      omap (fun '(j, t) => if String.eqb first t then None else Some (Mismatch query (S j) first t)) (imap pair others)
  end.

(** The loop of [mysql_drv_query], from connection [i] on over [n]: the way it returns
    early, or the result set of the first connection and the texts. *)
Fixpoint query_all (select : bool) (query : string) (i n : nat) (r : db_result_t)
    : M ((db_error_t * db_result_t) + (db_result_t * list (option string))) :=
  match n with
  | O => mret (inr (r, []))
  | S n =>
      cs ← multi_conn;
      c ← the (cs !! i);
      out ← the (ask_server select query (snd c));
      let '(rep, l) := out in
      changes (set_connections (Some (<[i := (fst c, l)]> cs)));;
      let next (r : db_result_t) (text : option string) :=
        out ← query_all select query (S i) n r;
        mret (match out with inl e => inl e | inr (r, texts) => inr (r, text :: texts) end) in
      match rep with
      | Failed => out ← cmp_check_error; mret (inl (fst out, with_counter (snd out) r))
      | Changed nrows =>
          next (if (i =? 0)%nat then
                  if 0 <? u32 nrows then set_nrows nrows (set_counter SB_CNT_WRITE r) else set_counter SB_CNT_OTHER r
                else r) None
      | Result nrows nfields text =>
          next (if (i =? 0)%nat then set_nfields nfields (set_nrows nrows (set_counter SB_CNT_READ r)) else r) text
      end
  end.

(** A buffer that has not been assigned is compared and released: undefined. *)
Definition cmp_drv_query (query : string) (r : db_result_t) : M (db_error_t * db_result_t) :=
  let select := is_select query in
  d ← cdry;
  if d : bool then mret (DB_ERROR_NONE, r)
  else
    changes (set_csql_error (0, None, None));;
    cs ← multi_conn;
    out ← query_all select query 0 (length cs) r;
    match out with
    | inl out => mret out
    | inr (r, texts) =>
        if select then
          texts ← the (mapM id texts);
          changes (report (mismatches (Some query) texts));; mret (DB_ERROR_NONE, r)
        else mret (DB_ERROR_NONE, r)
    end.

(** ** Prepared statements *)

Definition OUTPUT_BUFFER_SIZE : Z := 4096.
(** The size of the arrays [is_null], [length] and [bind]. *)
Definition MAX_FIELDS : nat := 10.

(** The texts of a fetched row; a value of a type without a buffer is undefined. *)
Definition fetched_texts (row_count : Z) (fields : list MYSQL_FIELD) (row : list (bool * Z * string))
    : option (list (option Z * string)) :=
  cells ← mapM (fun '(j, f) =>
    '(null, len, t) ← row !! j;
    if null : bool then Some (None, "  " +:+ f_name f +:+ ": NULL ")
    else
      match f_type f with
      | Some (MYSQL_TYPE_LONG | MYSQL_TYPE_STRING) =>
          Some (None, "  " +:+ f_name f +:+ ": " +:+ prec (s32 len) t +:+ " (length: " +:+ pretty (u64 len) +:+ ") ")
      | _ => None
      end) (imap pair fields);
  Some ((None, "rows " +:+ pretty (s32 row_count) +:+ ":" +:+ newline) :: cells ++ [(None, newline)]).

(** [while (!mysql_stmt_fetch(mystmt))]: the text, or [None] while nothing has been
    written to the buffer. *)
Fixpoint fetch_rows (fuel : nat) (p : nat) (fields : list MYSQL_FIELD) (row_count : Z) (b : text_buffer) (l : L)
    : option (option string * L) :=
  match fuel with
  | O => None
  | S fuel =>
      let '((rc, row), l) := mysql_stmt_fetch p l in
      if negb (rc =? 0) then
        Some (if row_count =? 0 then None else Some (t_text b), l)
      else
        texts ← fetched_texts (row_count + 1) fields row;
        b ← put_all texts b;
        fetch_rows fuel p fields (row_count + 1) b l
  end.

(** The answer of one statement: an error of either call, or its numbers of rows and
    fields, with the text of its rows ([None] for a DML statement or without rows).
    Undefined without metadata (the value -1), with more fields than the arrays hold,
    when the results cannot be bound ([exit(0)]). *)
Inductive stmt_reply := StmtFailed | StmtResult (nrows nfields : Z) (text : option string).

Definition ask_statement (dml : bool) (p : nat) (l : L) : option (stmt_reply * L) :=
  '(fields, l) ←
    (if dml then Some ([], l)
     else
       fields ← mysql_stmt_result_metadata p l;
       if (MAX_FIELDS <? length fields)%nat then None
       else
         let bind := map (fun f => MysqlBind (f_type f) (BString "") 0 None None) fields in
         let '(failed, l) := mysql_stmt_bind_result p bind l in
         if failed : bool then None else Some (fields, l));
  let '(err, l) := mysql_stmt_execute p l in
  if negb (err =? 0) then Some (StmtFailed, l)
  else
    let '(err, l) := mysql_stmt_store_result p l in
    if negb (err =? 0) then Some (StmtFailed, l)
    else
      let nrows := mysql_stmt_num_rows p l in
      let nfields := mysql_stmt_field_count p l in
      '(text, l) ← (if dml then Some (None, l)
                    else fetch_rows (S (Z.to_nat nrows)) p fields 0 (TextBuffer "" OUTPUT_BUFFER_SIZE 0) l);
      Some (StmtResult nrows nfields text, l).

(** The loop of [mysql_drv_execute] over the statements from connection [i] on: an
    early return, or the result set, the texts and the parameters of the last
    statement.  The counter of a result is that of cleared memory. *)
Fixpoint execute_all (dml : bool) (i : nat) (statements : list (option nat)) (r : db_result_t)
    (params : option (list MYSQL_BIND)) : M (db_error_t + (db_result_t * list (option string) * option (list MYSQL_BIND))) :=
  match statements with
  | [] => mret (inr (r, [], params))
  | st :: statements =>
      let next (r : db_result_t) (text : option string) (params : option (list MYSQL_BIND)) :=
        out ← execute_all dml (S i) statements r params;
        mret (match out with inl e => inl e | inr (r, texts, params) => inr (r, text :: texts, params) end) in
      match st with
      | None => next r None params
      | Some p =>
          cs ← multi_conn;
          c ← the (cs !! i);
          let params := mysql_stmt_params p (snd c) in
          out ← the (ask_statement dml p (snd c));
          let '(rep, l) := out in
          changes (set_connections (Some (<[i := (fst c, l)]> cs)));;
          match rep with
          | StmtFailed => out ← cmp_check_error; mret (inl (fst out))
          | StmtResult nrows nfields text =>
              next (if (i =? 0)%nat then set_counter SB_CNT_OTHER (set_nfields nfields (set_nrows nrows r)) else r)
                text params
          end
      end
  end.

(** The differing results are printed with the query that the last statement stands
    for. *)
Definition cmp_drv_execute (s : nat) (r : db_result_t) : M (db_error_t * db_result_t) :=
  d ← cdry;
  if d : bool then mret (DB_ERROR_NONE, r)
  else
    st ← cstmt s;
    if emulated st then mret (DB_ERROR_FATAL, r)
    else
      let dml := from_option is_dml false (s_query st) in
      statements ← the (s_ptr st);
      out ← execute_all dml 0 statements r None;
      match out with
      | inl e => mret (e, r)
      | inr (r, texts, params) =>
          match s_query st with
          | Some query =>
              if negb dml && is_select query && (1 <? length texts)%nat then
                texts ← the (mapM id texts);
                match mismatches None texts with
                | [] => mret (DB_ERROR_NONE, r)
                | _ =>
                    final_query ← the (replace_placeholders query params);
                    changes (report (mismatches final_query texts));; mret (DB_ERROR_NONE, r)
                end
              else mret (DB_ERROR_NONE, r)
          | None => mret (DB_ERROR_NONE, r)
          end
      end.

(** ** The other operations *)

Definition cmp_drv_stmt_next_result (r : db_result_t) : M (db_error_t * db_result_t) := mret (DB_ERROR_NONE, r).
Definition cmp_drv_fetch : M Z := d ← cdry; mret (if d : bool then 0 else 1).
Definition cmp_drv_fetch_row : M Z := mret 0.
Definition cmp_drv_more_results : M bool := mret false.
Definition cmp_drv_next_result (r : db_result_t) : M (db_error_t * db_result_t) := mret (DB_ERROR_NONE, r).

(** The results of a server-side statement are released through its [ptr], which is
    to an array of statements and not to one; [rs->ptr] is always [NULL]. *)
Definition cmp_drv_free_results (r : db_result_t) : M Z :=
  d ← cdry;
  if d : bool then mret 0
  else
    match statement r with
    | None => mret 0
    | Some s => st ← cstmt s; if emulated st then mret 0 else undefined
    end.

(** [mysql_stmt_close] of the same pointer. *)
Definition cmp_drv_close (s : nat) : M Z :=
  d ← cdry;
  if d : bool then mret 0
  else
    st ← cstmt s;
    put_cstmt s (Stmt (s_ptr st) (emulated st) None (bound_param st));;
    match s_ptr st with None => mret 1 | Some _ => undefined end.

Definition cmp_drv_done : M Z :=
  d ← cdry; if d : bool then mret 0 else changes (fun k => set_library (mysql_library_end (library k)) k);; mret 0.

(** With what [db_prepare] and [db_close] do to the statement. *)
Definition cmp_drop_stmt (s : nat) : M unit := changes (fun k => set_cstatements (delete s (cstatements k)) k).
Definition cmp_prepare_new (s : nat) (query : string) : M Z :=
  put_cstmt s new_stmt;;
  rc ← cmp_drv_prepare s query;
  if rc =? 0 then mret rc else cmp_drop_stmt s;; mret rc.
Definition cmp_close_free (s : nat) : M Z := rc ← cmp_drv_close s; cmp_drop_stmt s;; mret rc.

Definition cmp_ops (options : list option_t) (mode : db_ps_mode_t) : drv_ops_t (cmpd L) := {|
  op_init k := default (1, k) (cmp_drv_init options mode k);
  op_thread_init := Some (fun _ => total 1 cmp_drv_thread_init);
  op_thread_done := Some (fun _ => total 1 cmp_drv_thread_done);
  op_describe := Some (total (0, mysql_drv_caps) cmp_drv_describe);
  op_connect := total 1 cmp_drv_connect;
  op_disconnect := total 1 cmp_drv_disconnect;
  op_reconnect := Some (total DB_ERROR_FATAL cmp_drv_reconnect);
  op_prepare s q := total 1 (cmp_prepare_new s q);
  op_bind_param s l := total 1 (cmp_drv_bind_param s l);
  op_bind_result s l := total 1 (cmp_drv_bind_result s l);
  op_execute s r := total (DB_ERROR_FATAL, r) (cmp_drv_execute s r);
  op_stmt_next_result := Some (fun _ r => total (DB_ERROR_FATAL, r) (cmp_drv_stmt_next_result r));
  op_fetch_row := Some (fun _ => total 1 cmp_drv_fetch_row);
  op_query q r := total (DB_ERROR_FATAL, r) (cmp_drv_query q r);
  op_more_results := Some (fun k => fst (total false cmp_drv_more_results k));
  op_next_result := Some (fun r => total (DB_ERROR_FATAL, r) (cmp_drv_next_result r));
  op_free_results r := total 1 (cmp_drv_free_results r);
  op_close s := total 1 (cmp_close_free s);
  op_done := total 1 cmp_drv_done
|}.

Definition cmp_driver (options : list option_t) (mode : db_ps_mode_t) (k : cmpd L) : db_driver_t (cmpd L) :=
  DbDriver "cmp" (Some cmp_drv_args) (cmp_ops options mode) false k.

(** [register_driver_cmp] *)
Definition register_driver_cmp (options : list option_t) (mode : db_ps_mode_t) (k : cmpd L)
    (drivers : list (db_driver_t (cmpd L))) : Z * list (db_driver_t (cmpd L)) :=
  (0, drivers ++ [cmp_driver options mode k]).
End driver.

(** ** What is printed *)

Fixpoint texts_of (l : list (option Z * string)) : string :=
  match l with [] => "" | (_, t) :: l => t +:+ texts_of l end.

(** The text of a result: a line of names and a line for each row. *)
Fixpoint table_rows (fields : list MYSQL_FIELD) (rows : list (list (option string) * list Z)) : option string :=
  match rows with
  | [] => Some EmptyString
  | (row, lengths) :: rows =>
      texts ← row_texts fields row lengths; rest ← table_rows fields rows; Some (texts_of texts +:+ rest)
  end.
Definition table (fields : list MYSQL_FIELD) (rows : list (list (option string) * list Z)) : option string :=
  t ← table_rows fields rows; Some (texts_of (header_texts fields) +:+ t).

Lemma strlen_cons c t : strlen (String c t) = 1 + strlen t.
Proof. unfold strlen. cbn [String.length]. lia. Qed.

(** The position is the length of the text, below the size. *)
Definition in_buffer (b : text_buffer) : Prop := t_pos b = strlen (t_text b) /\ t_pos b < t_size b.

Lemma put_fits t b : in_buffer b -> strlen (t_text b +:+ t) < t_size b -> strlen (t_text b +:+ t) <= INT_MAX ->
  put t b = Some (TextBuffer (t_text b +:+ t) (t_size b) (strlen (t_text b +:+ t))).
Proof.
  intros [Hp _] Hs Hm. rewrite strlen_app in *. unfold put, snprintf.
  pose proof (strlen_nonneg t). rewrite Hp.
  rewrite (proj2 (Z.ltb_ge (t_size b - strlen (t_text b)) 0)) by lia. rewrite (proj2 (Z.ltb_ge INT_MAX _)) by lia.
  rewrite (proj2 (Z.eqb_neq (t_size b - strlen (t_text b)) 0)) by lia.
  cbn [orb default from_option id]. unfold id. by rewrite substring_all by lia.
Qed.

Lemma reserve_grows n b : in_buffer b ->
  in_buffer (reserve n b) /\ t_text (reserve n b) = t_text b /\ t_size b <= t_size (reserve n b).
Proof.
  intros [Hp Hs]. pose proof (strlen_nonneg (t_text b)). unfold reserve, in_buffer.
  destruct (_ <? _); cbn; repeat split; try done; lia.
Qed.

Lemma put_all_fits l b : in_buffer b -> strlen (t_text b +:+ texts_of l) < t_size b ->
  strlen (t_text b +:+ texts_of l) <= INT_MAX ->
  exists b', put_all l b = Some b' /\ in_buffer b' /\ t_text b' = t_text b +:+ texts_of l /\ t_size b <= t_size b'.
Proof.
  revert b. induction l as [|[need t] l IH]; intros b Hb Hs Hm; cbn [put_all texts_of] in *.
  - exists b. rewrite str_append_nil_r. by split; [|split; [|split; [|reflexivity]]].
  - set (b1 := match need with Some n => reserve n b | None => b end).
    assert (H1 : in_buffer b1 /\ t_text b1 = t_text b /\ t_size b <= t_size b1).
    { subst b1. destruct need as [n|]; [by apply reserve_grows|done]. }
    destruct H1 as (Hb1 & Ht & Hz). rewrite <- Ht in *. rewrite <- str_append_assoc in *.
    pose proof (strlen_app (t_text b1 +:+ t) (texts_of l)). pose proof (strlen_nonneg (texts_of l)).
    rewrite put_fits by (try done; lia). cbn [mbind option_bind].
    destruct (IH (TextBuffer (t_text b1 +:+ t) (t_size b1) (strlen (t_text b1 +:+ t)))) as (b' & -> & Hb' & Ht' & Hz');
      cbn [t_text t_size t_pos] in *; try lia; [split; cbn; lia|].
    exists b'. repeat split; try apply Hb'; try done; lia.
Qed.

(** ** Stored results *)

(** The rows of a stored result that have not been fetched, each with its lengths;
    they are fetched in order, and as many are stored as [mysql_num_rows] says. *)
Class StoredRows (L : Type) `{!MysqlClient L} := {
  result_rows : nat -> L -> list (list (option string) * list Z);
  fetch_row_ends p l : result_rows p l = [] -> fst (mysql_fetch_row p l) = None;
  fetch_row_next p l row lengths rows : result_rows p l = (row, lengths) :: rows ->
    let '(fetched, l') := mysql_fetch_row p l in
    fetched = Some row /\ mysql_fetch_lengths p l' = Some lengths /\ result_rows p l' = rows;
  fetch_row_sizes p l : let l' := snd (mysql_fetch_row p l) in
    mysql_num_rows p l' = mysql_num_rows p l /\ mysql_num_fields p l' = mysql_num_fields p l;
  stored_rows l p l' : mysql_store_result l = (Some p, l') -> mysql_num_rows p l' = Z.of_nat (length (result_rows p l'))
}.

Section stored.
Context {L : Type} `{!MysqlClient L, !CompareClient L, !StoredRows L}.

Lemma render_rows_fits fields rows : forall fuel p b l t,
  result_rows p l = rows -> (length rows < fuel)%nat -> table_rows fields rows = Some t ->
  in_buffer b -> strlen (t_text b +:+ t) < t_size b -> strlen (t_text b +:+ t) <= INT_MAX ->
  exists b' l', render_rows fuel p fields b l = Some (b', l') /\ in_buffer b' /\ t_text b' = t_text b +:+ t
    /\ mysql_num_rows p l' = mysql_num_rows p l /\ mysql_num_fields p l' = mysql_num_fields p l.
Proof.
  induction rows as [|[row lengths] rows IH]; intros [|fuel] p b l t Hr Hf Ht Hb Hs Hm; cbn [length] in Hf; try lia;
    cbn [table_rows] in Ht; cbn [render_rows].
  - injection Ht as <-. rewrite str_append_nil_r. apply fetch_row_ends in Hr. pose proof (fetch_row_sizes p l) as Hz.
    destruct (mysql_fetch_row p l) as [? l']. cbn in Hr, Hz. subst. by exists b, l'.
  - apply bind_Some in Ht as (texts & Ht & H). apply bind_Some in H as (rest & Hrest & [= <-]).
    pose proof (fetch_row_next p l row lengths rows Hr) as Hn. pose proof (fetch_row_sizes p l) as [Hnr Hnf].
    destruct (mysql_fetch_row p l) as [fetched l']. cbn [snd] in Hnr, Hnf. rewrite <- Hnr, <- Hnf. destruct Hn as (-> & -> & Hr').
    rewrite Ht. cbn [mbind option_bind]. rewrite <- str_append_assoc in *.
    pose proof (strlen_app (t_text b +:+ texts_of texts) rest). pose proof (strlen_nonneg rest).
    destruct (put_all_fits texts b) as (b1 & -> & Hb1 & Ht1 & Hz); try done; try lia. cbn [mbind option_bind].
    rewrite <- Ht1 in *. apply IH; try done; lia.
Qed.

(** The text of a stored result is its table when that fits the first buffer. *)
Lemma render_table p l t : table (mysql_fetch_fields p l) (result_rows p l) = Some t ->
  mysql_num_rows p l = Z.of_nat (length (result_rows p l)) -> strlen t < 4096 ->
  exists l', render p l = Some (t, l')
    /\ mysql_num_rows p l' = mysql_num_rows p l /\ mysql_num_fields p l' = mysql_num_fields p l.
Proof.
  intros Ht Hn Hl. unfold table in Ht. apply bind_Some in Ht as (rows & Hrows & [= <-]). unfold render.
  pose proof (strlen_app (texts_of (header_texts (mysql_fetch_fields p l))) rows). pose proof (strlen_nonneg rows).
  destruct (put_all_fits (header_texts (mysql_fetch_fields p l)) (TextBuffer "" 4096 0)) as (b & -> & Hb & Hbt & Hz);
    [done|change (strlen (texts_of (header_texts (mysql_fetch_fields p l))) < 4096); lia
     |change (strlen (texts_of (header_texts (mysql_fetch_fields p l))) <= INT_MAX); unfold INT_MAX; lia|].
  cbn [mbind option_bind]. cbn [t_text t_size] in Hbt, Hz. change (EmptyString +:+ ?x) with x in Hbt.
  rewrite <- Hbt in *.
  destruct (render_rows_fits _ _ (S (Z.to_nat (mysql_num_rows p l))) p b l rows eq_refl ltac:(rewrite Hn; lia) Hrows Hb)
    as (b' & l' & -> & Hb' & Hbt' & Hsz); [lia|unfold INT_MAX; lia|].
  cbn [mbind option_bind]. unfold finish. destruct Hb' as [_ Hlt]. rewrite (proj2 (Z.ltb_lt _ _)) by lia.
  cbn [mbind option_bind]. exists l'. by rewrite Hbt'.
Qed.

(** What a server answers to a query: the fields and rows of a stored result. *)
Definition answers (query : string) (l : L) (fields : list MYSQL_FIELD) (rows : list (list (option string) * list Z))
    (nfields : Z) : Prop :=
  exists l1 p l2, mysql_real_query query l = (0, l1) /\ mysql_store_result l1 = (Some p, l2)
    /\ mysql_fetch_fields p l2 = fields /\ result_rows p l2 = rows /\ mysql_num_fields p l2 = nfields.

Lemma ask_server_answers query l fields rows nfields t :
  answers query l fields rows nfields -> table fields rows = Some t -> strlen t < 4096 ->
  exists l', ask_server true query l = Some (Result (Z.of_nat (length rows)) nfields (Some t), l').
Proof.
  intros (l1 & p & l2 & Hq & Hs & <- & <- & <-) Ht Hl.
  pose proof (stored_rows _ _ _ Hs) as Hn. destruct (render_table p l2 t Ht Hn Hl) as (l' & Hr & Hnr & Hnf).
  exists l'. unfold ask_server. rewrite Hq. cbn [Z.eqb negb]. rewrite Hs, Hr. cbn [mbind option_bind]. by rewrite Hnr, Hnf, Hn.
Qed.

(** ** Queries *)

(** A reply with its text, from the connection [c]. *)
Definition replies (query : string) (c : db_mysql_conn_t * L) (a : Z * Z * string) : Prop :=
  exists l', ask_server true query (snd c) = Some (Result (fst (fst a)) (snd (fst a)) (Some (snd a)), l').

Definition read_result (a : Z * Z * string) (r : db_result_t) : db_result_t :=
  set_nfields (snd (fst a)) (set_nrows (fst (fst a)) (set_counter SB_CNT_READ r)).

Lemma query_all_replies query ans : forall i cs r (k : cmpd L),
  connections k = Some cs -> Forall2 (replies query) (drop i cs) ans ->
  exists cs', query_all true query i (length ans) r k =
      Some (inr (match i, ans with O, a :: _ => read_result a r | _, _ => r end, map (fun a => Some (snd a)) ans),
            set_connections (Some cs') k)
    /\ map fst cs' = map fst cs.
Proof.
  induction ans as [|a ans IH]; intros i cs r k Hk Hans; cbn [length query_all map].
  - exists cs. split; [|done]. destruct k; cbn in *. subst. by destruct i.
  - inversion Hans as [|c a' rest ans' Hc Hrest E1]; subst.
    assert (Hi : cs !! i = Some c) by (rewrite <- (Nat.add_0_r i), <- lookup_drop, <- E1; done).
    destruct Hc as [l' Hc].
    set (cs1 := <[i := (fst c, l')]> cs). set (k1 := set_connections (Some cs1) k).
    assert (Hd : drop (S i) cs1 = rest).
    { subst cs1. rewrite drop_insert_lt by lia. pose proof (drop_drop cs 1 i) as E. rewrite <- E1 in E.
      rewrite Nat.add_1_r in E. by rewrite <- E. }
    destruct (IH (S i) cs1 (match i with O => read_result a r | S _ => r end) k1) as (cs' & Hq & Hf);
      [done|by rewrite Hd|].
    exists cs'. split.
    + unfold multi_conn, reads, changes, the, mret, act_ret, mbind, act_bind.
      rewrite Hk. cbn -[query_all ask_server]. rewrite Hi. cbn -[query_all ask_server]. rewrite Hc. cbn -[query_all].
      fold cs1. fold k1. destruct i; cbn -[query_all]; unfold read_result in *; rewrite Hq; reflexivity.
    + rewrite Hf. subst cs1. change (fst <$> <[i := (fst c, l')]> cs = fst <$> cs). rewrite list_fmap_insert.
      apply list_insert_id. by rewrite list_lookup_fmap, Hi.
Qed.

Lemma mapM_some {A} (l : list A) : mapM id (map Some l) = Some l.
Proof. induction l as [|x l IH]; [done|]. cbn. unfold id at 1. cbn. unfold id in *. by rewrite IH. Qed.

(** An answer with the text of its table, which fits the first buffer. *)
Record answer := Answer { a_fields : list MYSQL_FIELD; a_rows : list (list (option string) * list Z); a_nfields : Z; a_text : string }.
Definition gives (query : string) (c : db_mysql_conn_t * L) (a : answer) : Prop :=
  answers query (snd c) (a_fields a) (a_rows a) (a_nfields a)
  /\ table (a_fields a) (a_rows a) = Some (a_text a) /\ strlen (a_text a) < 4096.

Lemma gives_replies query c a :
  gives query c a -> replies query c (Z.of_nat (length (a_rows a)), a_nfields a, a_text a).
Proof. intros (Ha & Ht & Hl). by apply ask_server_answers with (a_fields a). Qed.

(** The differences of later texts, with the number of texts before them. *)
Lemma mismatches_from query first ts : forall n, let l :=
  omap (fun '(j, t) => if String.eqb first t then None else Some (Mismatch query (S j) first t)) (imap (fun j => pair (n + j)%nat) ts) in
  (forall m, m ∈ l <-> exists j t, ts !! j = Some t /\ t <> first /\ m = Mismatch query (S (n + j)) first t)
  /\ sublist (map m_index l) (seq (S n) (length ts)).
Proof.
  induction ts as [|t ts IH]; intros n l; subst l; cbn [imap omap list_omap].
  - split; [|constructor]. intros m. split; [by intros ?%elem_of_nil|by intros (j & u & ? & _)].
  - rewrite Nat.add_0_r. unfold compose. destruct (IH (S n)) as [He Hs].
    rewrite (imap_ext _ (fun j => pair (S n + j)%nat)) by (intros; cbn; f_equal; lia).
    set (l := omap _ (imap _ ts)) in *. split.
    + assert (Htail : forall m, m ∈ l <-> exists j u, (t :: ts) !! S j = Some u /\ u <> first
          /\ m = Mismatch query (S (n + S j)) first u).
      { intros m. rewrite He. setoid_rewrite Nat.add_succ_r. done. }
      intros m. destruct (String.eqb_spec first t) as [->|Hne]; cbn.
      * rewrite Htail. split; [by intros (j & u & H); exists (S j), u|].
        intros ([|j] & u & Hu & Hn & ->); [cbn in Hu; congruence|]. by exists j, u.
      * rewrite elem_of_cons, Htail. split.
        -- intros [->|(j & u & H)]; [|by exists (S j), u]. exists 0%nat, t. rewrite Nat.add_0_r. by repeat split.
        -- intros ([|j] & u & Hu & Hn & ->); [|right; by exists j, u].
           cbn in Hu. injection Hu as <-. left. by rewrite Nat.add_0_r.
    + cbn [length seq]. destruct (String.eqb_spec first t); cbn [map m_index]; by constructor.
Qed.

Lemma mismatches_spec query first ts :
  (forall m, m ∈ mismatches query (first :: ts) <-> exists j t, ts !! j = Some t /\ t <> first /\ m = Mismatch query (S j) first t)
  /\ sublist (map m_index (mismatches query (first :: ts))) (seq 1 (length ts)).
Proof. apply (mismatches_from query first ts 0). Qed.

(** C20: a SELECT that every server answers returns the sizes of the first answer and
    reports, once each and in the order of the connections, exactly those whose table
    differs from that of the first; the connections stay what they were. *)
Theorem differences_reported query cs (first : answer) others r (k : cmpd L) :
  is_select query = true -> c_dry_run (cargs k) = 0 -> connections k = Some cs ->
  Forall2 (gives query) cs (first :: others) ->
  exists r' k' new, cmp_drv_query query r k = Some ((DB_ERROR_NONE, r'), k')
    /\ counter r' = SB_CNT_READ /\ nrows r' = u32 (Z.of_nat (length (a_rows first))) /\ nfields r' = u32 (a_nfields first)
    /\ (exists cs', connections k' = Some cs' /\ map fst cs' = map fst cs)
    /\ reported k' = reported k ++ new
    /\ (forall m, m ∈ new <-> exists j a, others !! j = Some a /\ a_text a <> a_text first
          /\ m = Mismatch (Some query) (S j) (a_text first) (a_text a))
    /\ sublist (map m_index new) (seq 1 (length others)).
Proof.
  intros Hsel Hdry Hk Hans.
  set (f := fun a => (Z.of_nat (length (a_rows a)), a_nfields a, a_text a)).
  assert (Hr : Forall2 (replies query) (drop 0 cs) (map f (first :: others))).
  { apply Forall2_fmap_r. eapply Forall2_impl; [exact Hans|]. intros c a. apply gives_replies. }
  set (k0 := set_csql_error (0, None, None) k).
  destruct (query_all_replies query _ 0 cs r k0 Hk Hr) as (cs' & Hq & Hf).
  assert (Hlen : length (map f (first :: others)) = length cs)
    by (rewrite length_map; symmetry; exact (Forall2_length _ _ _ Hans)).
  rewrite Hlen in Hq.
  set (texts := map a_text (first :: others)).
  assert (Ht : map (fun a => Some (snd a)) (map f (first :: others)) = map Some texts) by (subst texts; by rewrite !map_map).
  rewrite Ht in Hq.
  destruct (mismatches_spec (Some query) (a_text first) (map a_text others)) as [Hm Hs].
  exists (read_result (f first) r), (report (mismatches (Some query) texts) (set_connections (Some cs') k0)),
    (mismatches (Some query) texts).
  split; [|split; [done|split; [done|split; [done|split; [by exists cs'|split; [done|split]]]]]].
  - unfold cmp_drv_query, cdry, multi_conn, reads, changes, the, mret, act_ret, mbind, act_bind.
    rewrite Hsel, Hdry. cbn -[query_all mapM mismatches]. rewrite Hk. cbn -[query_all mapM mismatches]. fold k0. rewrite Hq.
    cbn -[mapM mismatches]. 
    match goal with |- context [match ?m with Some _ => _ | None => undefined end] =>
      replace m with (Some texts) by (symmetry; exact (mapM_some texts)) end. reflexivity.
  - intros m. subst texts. cbn [map]. rewrite Hm. split.
    + intros (j & t & Hj & Hne & ->). apply list_lookup_fmap_Some_1 in Hj as (a & -> & Ha). by exists j, a.
    + intros (j & a & Ha & Hne & ->). exists j, (a_text a). split; [|done].
      change (map a_text others) with (a_text <$> others). by rewrite list_lookup_fmap, Ha.
  - subst texts. cbn [map]. by rewrite length_map in Hs.
Qed.

End stored.

(** ** The query of a mismatch *)

Lemma strlen_escape t : strlen (escape t) <= 2 * strlen t.
Proof. induction t as [|c t IH]; cbn [escape]; [done|]. destruct (_ || _); rewrite !strlen_cons; lia. Qed.

(** A parameter whose buffer holds what its type says. *)
Definition filled (b : MYSQL_BIND) : Prop :=
  match buffer_type b, my_buffer b with
  | Some (MYSQL_TYPE_LONG | MYSQL_TYPE_LONGLONG), data => exists z, data = BInt z
  | Some (MYSQL_TYPE_STRING | MYSQL_TYPE_VAR_STRING), data =>
      exists n t, my_length b = Some n /\ data = BString t /\ 0 <= n <= strlen t
  | _, _ => True
  end.

Lemma bind_text_room b : filled b -> exists t, bind_text b = Some t /\ strlen t <= bind_room b.
Proof.
  intros Hb. unfold filled, bind_text, bind_room in *.
  assert (Hs : forall n t, my_length b = Some n -> 0 <= n <= strlen t ->
    exists u, (if strlen t <? n then None else Some ("'" +:+ escape (String.substring 0 (Z.to_nat n) t) +:+ "'")%string) = Some u
      /\ strlen u <= from_option (fun n => n * 2 + 2) 0 (my_length b)).
  { intros n t -> Hn. rewrite (proj2 (Z.ltb_ge _ _)) by lia. eexists. split; [done|]. cbn [from_option].
    rewrite !strlen_app. pose proof (strlen_escape (String.substring 0 (Z.to_nat n) t)) as He.
    rewrite substring_length in He. change (strlen "'") with 1. lia. }
  destruct (buffer_type b) as [[]|]; try (by eexists);
    try (destruct Hb as (n & t & Hn & Hd & Hr); rewrite Hd; destruct (Hs n t Hn Hr) as (u & Hu & Hl);
         rewrite Hn in *; by exists u).
  - destruct Hb as [z ->]. eexists. split; [done|]. apply (pretty_length (s32 z) 10); [lia|].
    pose proof (s32_range z). unfold is_s32 in *. lia.
  - destruct Hb as [z ->]. eexists. split; [done|]. apply (pretty_length (s64 z) 19); [lia|].
    pose proof (s64_range z). unfold is_s64 in *. lia.
Qed.

(** The text after the substitution: its pieces between the placeholders, with the
    parameters in order while there are any. *)
Lemma replace_loop_room src : forall params, Forall filled params ->
  exists t, replace_loop src params = Some t /\ strlen t <= strlen src + sumZ (map bind_room params).
Proof.
  induction src as [|c src IH]; intros params Hp; cbn [replace_loop].
  - eexists. split; [done|]. change (strlen "") with 0.
    assert (0 <= sumZ (map bind_room params)); [|lia].
    induction Hp as [|b params Hb Hp IH]; [done|]. destruct (bind_text_room b Hb) as (t & _ & Ht).
    pose proof (strlen_nonneg t). cbn [map]. rewrite sumZ_cons. lia.
  - rewrite strlen_cons. destruct Hp as [|b params Hb Hp].
    + destruct (IH [] ltac:(done)) as (t & -> & Ht). eexists. split; [done|]. rewrite strlen_cons. lia.
    + destruct (Ascii.eqb c placeholder).
      * destruct (bind_text_room b Hb) as (u & -> & Hu). destruct (IH params Hp) as (t & -> & Ht). cbn [mbind option_bind].
        eexists. split; [done|]. rewrite strlen_app. cbn [map]. rewrite sumZ_cons. lia.
      * destruct (IH (b :: params)) as (t & -> & Ht); [by constructor|]. eexists. split; [done|].
        rewrite strlen_cons. lia.
Qed.

Lemma replace_loop_subst params src : forall v t, replace_loop src (drop v params) = Some t ->
  (v + placeholders src <= length params)%nat ->
  subst (fun v => b ← params !! v; bind_text b) src v = Some (t, (v + placeholders src)%nat).
Proof.
  induction src as [|c src IH]; intros v t Ht Hl; cbn [replace_loop placeholders subst] in *.
  - injection Ht as <-. by rewrite Nat.add_0_r.
  - destruct (Ascii.eqb c placeholder) eqn:Hc.
    + destruct (lookup_lt_is_Some_2 params v) as [b Hb]; [lia|]. rewrite (drop_S params b v Hb) in Ht.
      apply bind_Some in Ht as (u & Hu & H). apply bind_Some in H as (rest & Hr & [= <-]).
      rewrite Hb. cbn [mbind option_bind]. rewrite Hu. cbn [mbind option_bind].
      rewrite (IH (S v) rest Hr) by lia. cbn [mbind option_bind]. by rewrite Nat.add_succ_r.
    + assert (Hr : exists rest, replace_loop src (drop v params) = Some rest /\ t = String c rest).
      { destruct (drop v params); apply bind_Some in Ht as (rest & Hr & [= <-]); by exists rest. }
      destruct Hr as (rest & Hr & ->). rewrite (IH v rest Hr) by lia. reflexivity.
Qed.

(** C21: the query printed for a mismatch: with buffers as their types say, the text is
    built within the memory allocated for it; when the query has no more placeholders
    than there are parameters, it is the substitution that the emulation of statements
    makes, each value escaped, in order. *)
Theorem replace_placeholders_fits q_str params :
  Forall filled params ->
  exists t, replace_placeholders q_str (Some params) = Some (Some t)
    /\ strlen t < strlen q_str + 1 + sumZ (map bind_room params)
    /\ ((placeholders q_str <= length params)%nat ->
        subst (fun v => b ← params !! v; bind_text b) q_str 0 = Some (t, placeholders q_str)).
Proof.
  intros Hp. destruct (replace_loop_room q_str params Hp) as (t & Ht & Hl). exists t.
  unfold replace_placeholders. rewrite Ht. cbn [mbind option_bind]. rewrite (proj2 (Z.ltb_ge _ _)) by lia.
  split; [done|]. split; [lia|]. apply (replace_loop_subst params q_str 0 t Ht).
Qed.

(** ** Connections and errors *)

Section connections.
Context {L : Type} `{!MysqlClient L, !CompareClient L}.

Lemma connect_all_items a hosts : forall i cs, connect_all a i hosts = Some (Some cs) ->
  length cs = length hosts
  /\ forall j h, hosts !! j = Some h -> exists p s u w l0 l,
       c_ports a !! (i + j)%nat = Some p /\ c_sockets a !! (i + j)%nat = Some s
       /\ c_users a !! (i + j)%nat = Some u /\ c_passwords a !! (i + j)%nat = Some w
       /\ let c := MysqlConn (Some h) (Some u) (Some w) (c_db a) (u32 (atoi p)) (Some s) in
          mysql_new = Some l0 /\ cmp_drv_real_connect a c l0 = (false, l) /\ cs !! j = Some (c, l).
Proof.
  induction hosts as [|h hosts IH]; intros i cs H; cbn [connect_all] in H; [by injection H as <-|].
  apply bind_Some in H as (p & Hp & H). apply bind_Some in H as (s & Hs & H).
  apply bind_Some in H as (u & Hu & H). apply bind_Some in H as (w & Hw & H).
  destruct mysql_new as [l0|] eqn:Hl; [|discriminate].
  destruct (cmp_drv_real_connect a _ l0) as [[] l] eqn:Hc; [discriminate|].
  apply bind_Some in H as ([rest|] & Hr & H); [|discriminate]. injection H as <-.
  destruct (IH (S i) rest Hr) as [Hlen Hj]. split; [cbn; lia|]. intros [|j] h' Hh; cbn in Hh.
  - injection Hh as <-. rewrite Nat.add_0_r. exists p, s, u, w, l0, l. repeat split; done.
  - rewrite Nat.add_succ_r. apply (Hj j h' Hh).
Qed.

(** With as many values as hosts in each list connecting is defined. *)
Lemma connect_all_defined a hosts : forall i,
  (i + length hosts <= length (c_ports a))%nat -> (i + length hosts <= length (c_sockets a))%nat ->
  (i + length hosts <= length (c_users a))%nat -> (i + length hosts <= length (c_passwords a))%nat ->
  is_Some (connect_all a i hosts).
Proof.
  induction hosts as [|h hosts IH]; intros i Hp Hs Hu Hw; cbn [connect_all length] in *; [by eexists|].
  destruct (lookup_lt_is_Some_2 (c_ports a) i) as [p ->]; [lia|].
  destruct (lookup_lt_is_Some_2 (c_sockets a) i) as [s ->]; [lia|].
  destruct (lookup_lt_is_Some_2 (c_users a) i) as [u ->]; [lia|].
  destruct (lookup_lt_is_Some_2 (c_passwords a) i) as [w ->]; [lia|].
  cbn [mbind option_bind]. destruct mysql_new; [|by eexists]. destruct (cmp_drv_real_connect _ _ _) as [[] ?]; [by eexists|].
  destruct (IH (S i)) as [[rest|] ->]; try lia; by eexists.
Qed.

(** Connecting opens one connection for each host, in the order of the option, with
    the port, socket, user and password at the same place of their lists; it is
    defined when those lists are at least as long. *)
Theorem connections_follow_options (k : cmpd L) :
  c_dry_run (cargs k) = 0 ->
  let a := cargs k in
  Forall (fun l => (length (c_hosts a) <= length l)%nat) [c_ports a; c_sockets a; c_users a; c_passwords a] ->
  exists rc k', cmp_drv_connect k = Some (rc, k') /\ (rc <> 0 -> k' = k)
    /\ (rc = 0 -> exists cs, connections k' = Some cs /\ length cs = length (c_hosts a)
          /\ forall i c l, cs !! i = Some (c, l) ->
               host c = c_hosts a !! i /\ Some (port c) = (fun p => u32 (atoi p)) <$> (c_ports a !! i)
               /\ socket c = c_sockets a !! i /\ user c = c_users a !! i /\ password c = c_passwords a !! i
               /\ dbname c = c_db a).
Proof.
  intros Hd a Hl. repeat (apply Forall_cons in Hl as [? Hl]). clear Hl.
  destruct (connect_all_defined a (c_hosts a) 0) as [[cs|] Hc]; try done.
  - exists 0, (set_connections (Some cs) k). split; [|split; [done|]].
    + unfold cmp_drv_connect, cdry, reads, changes, the, mret, act_ret, mbind, act_bind. rewrite Hd. cbn -[connect_all].
      fold a. by rewrite Hc.
    + intros _. destruct (connect_all_items a (c_hosts a) 0 cs Hc) as [Hlen Hi]. exists cs. split; [done|]. split; [done|].
      intros i c l Hcl. destruct (lookup_lt_is_Some_2 (c_hosts a) i) as [h Hh];
        [rewrite <- Hlen; by apply lookup_lt_Some with (c, l)|].
      destruct (Hi i h Hh) as (p & s & u & w & l0 & l' & Hp & Hs & Hu & Hw & _ & _ & Hcs). cbn in Hp, Hs, Hu, Hw.
      rewrite Hcl in Hcs. injection Hcs as -> ->. rewrite Hp, Hs, Hu, Hw. done.
  - exists 1, k. split; [|done].
    unfold cmp_drv_connect, cdry, reads, changes, the, mret, act_ret, mbind, act_bind. rewrite Hd. cbn -[connect_all].
    fold a. by rewrite Hc.
Qed.

(** Without a socket for the first host, which is the default, connecting reads the
    head of the list as a value. *)
Lemma sockets_required (k : cmpd L) h hosts :
  c_dry_run (cargs k) = 0 -> c_hosts (cargs k) = h :: hosts -> c_sockets (cargs k) = [] -> cmp_drv_connect k = None.
Proof.
  intros Hd Hh Hs. unfold cmp_drv_connect, cdry, reads, changes, the, mret, act_ret, mbind, act_bind.
  rewrite Hd. cbn -[connect_all]. rewrite Hh. cbn [connect_all]. rewrite Hs.
  by destruct (c_ports (cargs k) !! 0%nat).
Qed.

(** The class of an error is that of the first connection's last call, whichever
    failed: when that had no error, an error to be ignored is fatal. *)
Lemma other_error_fatal (k : cmpd L) c l cs :
  connections k = Some ((c, l) :: cs) -> mysql_errno l = 0 -> existsb (ignores 0) (c_ignored_errors (cargs k)) = false ->
  exists k', cmp_check_error k = Some ((DB_ERROR_FATAL, Some SB_CNT_ERROR), k').
Proof.
  intros Hk He Hi. unfold cmp_check_error, reads, changes, mret, act_ret, mbind, act_bind.
  rewrite Hk. cbn -[existsb ignores]. rewrite He. change (u32 0) with 0. rewrite Hi. by eexists.
Qed.

(** Closing a statement, or releasing its results, hands the array of its handles to
    the library as one handle. *)
Lemma server_statement_undefined (k : cmpd L) s st r :
  c_dry_run (cargs k) = 0 -> cstatements k !! s = Some st -> is_Some (s_ptr st) -> emulated st = false ->
  cmp_drv_close s k = None /\ (statement r = Some s -> cmp_drv_free_results r k = None).
Proof.
  intros Hd Hs [p Hp] He.
  unfold cmp_drv_close, cmp_drv_free_results, put_cstmt, cstmt, cdry, reads, changes, the, mret, act_ret, mbind, act_bind.
  rewrite Hd. cbn. rewrite Hs. cbn. rewrite Hp. split; [done|]. intros ->. cbn. rewrite Hs. cbn. by rewrite He.
Qed.

(** An ignored loss of the first server leads to the use of a freed handle. *)
Lemma lost_server_undefined (k : cmpd L) c l cs :
  connections k = Some ((c, l) :: cs) -> connection_error (u32 (mysql_errno l)) = true ->
  existsb (ignores (u32 (mysql_errno l))) (c_ignored_errors (cargs k)) = true -> cmp_check_error k = None.
Proof.
  intros Hk He Hi. unfold cmp_check_error, cmp_drv_reconnect, reads, changes, mret, act_ret, mbind, act_bind.
  rewrite Hk. cbn -[existsb ignores connection_error]. rewrite Hi, He. cbn. by rewrite Hk.
Qed.
End connections.

(** ** Servers in memory, for the witnesses

    Every query and statement returns the rows that the server holds. *)

Record server := Server {
  s_fields : list MYSQL_FIELD;
  s_rows : list (list (option string) * list Z);
  s_left : list (list (option string) * list Z);
  s_lengths : option (list Z)
}.

Definition fetch_from (l : server) : option (list (option string)) * server :=
  match s_left l with
  | [] => (None, l)
  | (row, lengths) :: rows => (Some row, Server (s_fields l) (s_rows l) rows (Some lengths))
  end.
Definition cell (v : option string) (len : Z) : bool * Z * string :=
  match v with Some t => (false, len, t) | None => (true, 0, ""%string) end.

#[export] Instance server_client : MysqlClient server := {|
  CR_SERVER_LOST := 2013;
  CR_SERVER_GONE_ERROR := 2006;
  CR_TCP_CONNECTION := 2011;
  CR_SERVER_LOST_EXTENDED := 2055;
  ER_UNSUPPORTED_PS := 1295;
  mysql_library_init l := l;
  mysql_library_end l := l;
  mysql_thread_init l := (0, l);
  mysql_thread_end l := l;
  mysql_init l := l;
  mysql_options_ssl_mode _ l := l;
  mysql_ssl_set _ _ _ _ l := l;
  mysql_options_compress l := l;
  mysql_real_connect _ l := (true, l);
  mysql_close l := l;
  mysql_errno _ := 0;
  mysql_sqlstate _ := "00000"%string;
  mysql_error _ := ""%string;
  mysql_real_query _ l := (0, l);
  mysql_store_result l := (Some 0%nat, Server (s_fields l) (s_rows l) (s_rows l) None);
  mysql_field_count l := Z.of_nat (length (s_fields l));
  mysql_affected_rows _ := 0;
  mysql_num_rows _ l := Z.of_nat (length (s_rows l));
  mysql_num_fields _ l := Z.of_nat (length (s_fields l));
  mysql_fetch_row _ := fetch_from;
  mysql_fetch_lengths _ := s_lengths;
  mysql_free_result _ l := l;
  mysql_more_results _ := false;
  mysql_next_result l := (-1, l);
  mysql_stmt_init l := (Some 0%nat, l);
  mysql_stmt_prepare _ _ l := (0, l);
  mysql_stmt_param_count _ _ := 0;
  mysql_stmt_bind_param _ _ l := (false, l);
  mysql_stmt_bind_result _ _ l := (false, l);
  mysql_stmt_execute _ l := (0, Server (s_fields l) (s_rows l) (s_rows l) None);
  mysql_stmt_store_result _ l := (0, l);
  mysql_stmt_errno _ _ := 0;
  mysql_stmt_field_count _ l := Z.of_nat (length (s_fields l));
  mysql_stmt_affected_rows _ _ := 0;
  mysql_stmt_num_rows _ l := Z.of_nat (length (s_rows l));
  mysql_stmt_next_result _ l := (-1, l);
  mysql_stmt_free_result _ l := l;
  mysql_stmt_close _ l := (0, l)
|}.

#[export] Instance server_compare : CompareClient server := {|
  mysql_new := Some (Server [] [] [] None);
  mysql_fetch_fields _ := s_fields;
  mysql_stmt_result_metadata _ l := Some (s_fields l);
  mysql_stmt_params _ _ := Some [];
  mysql_stmt_fetch _ l :=
    match fetch_from l with
    | (None, l) => ((100, []), l)
    | (Some row, l) => ((0, zip_with cell row (default [] (s_lengths l))), l)
    end
|}.

#[export] Instance server_rows : StoredRows server.
Proof.
  refine {| result_rows := fun (_ : nat) l => s_left l |}.
  - intros p l H. cbn. unfold fetch_from. by rewrite H.
  - intros p l row lengths rows H. cbn. unfold fetch_from. by rewrite H.
  - intros p l. cbn. unfold fetch_from. by destruct (s_left l) as [|[??]?].
  - intros l p l' [= _ <-]. done.
Defined.

Definition server_args (sockets : list string) : cmp_args_t :=
  CmpArgs ["db1"; "db2"; "db3"]%string ["3306"; "3307"; "3308"]%string sockets ["u"; "u"; "u"]%string ["p"; "q"; "r"]%string
    (Some "sbtest"%string) SSL_MODE_DISABLED false None None None None 0 0 [] 0.
Definition server_conn (h : string) : db_mysql_conn_t := MysqlConn (Some h) None None None 3306 None.
(** Three servers, each with one column [c] and the rows given. *)
Definition one_column (rows : list (option string * Z)) (width : Z) : server :=
  Server [Field "c" (Some MYSQL_TYPE_STRING) width] (map (fun '(v, n) => ([v], [n])) rows) [] None.
Definition servers (l : list server) : cmpd server :=
  Cmpd (Server [] [] [] None) (server_args []) (DrvCaps true true true false false true) true 3
    (Some (map (fun l => (server_conn "db", l)) l)) (0, None, None) ∅ [].

Definition row_one : server := one_column [(Some "1"%string, 1)] 1.
Definition row_two : server := one_column [(Some "2"%string, 1)] 1.

Definition text_one : string := texts_of (header_texts (s_fields row_one)) +:+ "| 1   |" +:+ newline.
Definition text_two : string := texts_of (header_texts (s_fields row_two)) +:+ "| 2   |" +:+ newline.

Lemma differences_reported_witness : exists r' k',
  cmp_drv_query "select c from t" new_rs (servers [row_one; row_two; row_one]) = Some ((DB_ERROR_NONE, r'), k')
  /\ nrows r' = 1 /\ Mismatch (Some "select c from t"%string) 1 text_one text_two ∈ reported k'.
Proof.
  destruct (differences_reported "select c from t" (map (fun l => (server_conn "db", l)) [row_one; row_two; row_one])
    (Answer (s_fields row_one) (s_rows row_one) 1 text_one)
    [Answer (s_fields row_two) (s_rows row_two) 1 text_two; Answer (s_fields row_one) (s_rows row_one) 1 text_one]
    new_rs (servers [row_one; row_two; row_one])) as (r' & k' & new & Hq & Hc & Hn & Hf & _ & Hr & Hm & Hs);
    [reflexivity|reflexivity|reflexivity| |].
  { repeat constructor; cbn -[table]; try (by vm_compute); unfold answers; eexists _, _, _; repeat split. }
  exists r', k'. split; [exact Hq|]. split; [exact Hn|]. rewrite Hr. apply Hm.
  eexists 0%nat, _. split; [reflexivity|]. split; [discriminate|reflexivity].
Defined.

Lemma replace_placeholders_fits_witness :
  let params := [MysqlBind (Some MYSQL_TYPE_LONG) (BInt (-7)) 4 None None;
                 MysqlBind (Some MYSQL_TYPE_STRING) (BString "it's") 16 (Some 4) None] in
  replace_placeholders "SELECT ?, ?" (Some params) = Some (Some "SELECT -7, 'it\'s'"%string)
  /\ subst (fun v => b ← params !! v; bind_text b) "SELECT ?, ?" 0 = Some ("SELECT -7, 'it\'s'"%string, 2%nat).
Proof.
  intros params.
  assert (Hp : Forall filled params).
  { repeat constructor; [by exists (-7)|]. exists 4, "it's"%string. repeat split; [done|]. by vm_compute. }
  destruct (replace_placeholders_fits "SELECT ?, ?" params Hp) as (t & Ht & _ & Hs).
  assert (E : t = "SELECT -7, 'it\'s'"%string) by (vm_compute in Ht; by injection Ht as <-).
  rewrite E in Ht, Hs. split; [exact Ht|]. apply Hs. cbn. lia.
Defined.

Definition not_connected (sockets : list string) : cmpd server :=
  Cmpd (Server [] [] [] None) (server_args sockets) (DrvCaps true true true false false true) true 3 None (0, None, None) ∅ [].

Lemma connections_follow_options_witness : exists k' cs,
  cmp_drv_connect (not_connected ["/a"; "/b"; "/c"]%string) = Some (0, k') /\ connections k' = Some cs
  /\ length cs = 3%nat /\ (port ∘ fst <$> cs !! 2%nat) = Some 3308.
Proof.
  destruct (connections_follow_options (not_connected ["/a"; "/b"; "/c"]%string)) as (rc & k' & Hc & _ & H);
    [reflexivity|repeat constructor|].
  assert (E : rc = 0) by (vm_compute in Hc; by injection Hc as <- _). subst rc.
  destruct (H eq_refl) as (cs & Hcs & Hl & Hi). exists k', cs. split; [exact Hc|]. split; [exact Hcs|]. split; [exact Hl|].
  destruct (lookup_lt_is_Some_2 cs 2) as [[c l] H2]; [rewrite Hl; cbn; lia|].
  destruct (Hi 2%nat c l H2) as (_ & Hp & _). rewrite H2. cbn. rewrite Hp. reflexivity.
Defined.

(** ** Defects

    Each of the following is what the code does where it does not do what it means
    to. *)

(** A missing value has a length of 0, which is also the precision of the printed
    "NULL": it is the same text as an empty one. *)
Lemma null_looks_empty :
  match cmp_drv_query "SELECT c" new_rs (servers [one_column [(None, 0)] 1; one_column [(Some ""%string, 0)] 1]) with
  | Some (_, k') => reported k' = []
  | None => False
  end.
Proof. vm_compute. reflexivity. Qed.

(** The room reserved for a cell is that of its value and not of the width it is
    padded to, and is doubled once: columns that are wider are written past the
    buffer. *)
Lemma wide_column_overflows : let l := one_column [(Some "1"%string, 1); (Some "1"%string, 1)] 3000 in
  cmp_drv_query "SELECT c" new_rs (servers [l; l]) = None.
Proof. vm_compute. reflexivity. Qed.

(** A SELECT without rows leaves the buffers that are compared unassigned. *)
Lemma no_rows_undefined :
  let k := set_cstatements {[ 0%nat := Stmt (Some [Some 0%nat; Some 0%nat]) false (Some "SELECT c"%string) None ]}
             (servers [one_column [] 1; one_column [] 1]) in
  cmp_drv_execute 0 new_rs k = None.
Proof. vm_compute. reflexivity. Qed.

(** An executed SELECT is counted as an operation of another kind. *)
Lemma executed_counted_other :
  let k := set_cstatements {[ 0%nat := Stmt (Some [Some 0%nat; Some 0%nat]) false (Some "SELECT c"%string) None ]}
             (servers [row_one; row_two]) in
  match cmp_drv_execute 0 new_rs k with
  | Some ((rc, r), k') => rc = DB_ERROR_NONE /\ counter r = SB_CNT_OTHER /\ map m_index (reported k') = [1%nat]
  | None => False
  end.
Proof. vm_compute. by repeat split. Qed.

(** A string parameter without a length is printed as two quotes for which nothing
    is reserved: the terminator is past the buffer. *)
Lemma quotes_overflow :
  replace_placeholders "SELECT ?" (Some [MysqlBind (Some MYSQL_TYPE_STRING) (BString "") 0 None None]) = None.
Proof. vm_compute. reflexivity. Qed.
