(* ===== verification/CompareAlloc.v ===== *)
(** * The comparing driver: its allocations, types and checksums ([drv_compare.c])

    [Compare] takes allocations to succeed.  Here the objects that hold the
    statements and the results of the several servers are allocated and freed in
    a heap, and any [calloc] can fail.  The loop over the map of types is
    written out and shown to be the one of the MySQL driver.  The comparison of
    checksums, which nothing calls, is here too. *)

From stdpp Require Import pretty.
From S2P Require Import Prelude Double Options Counter Timer Reports Db Driver Emulation Mysql Compare.

#[local] Set Warnings "-clear-no-such-hyp".

(** ** Allocation *)

(** The allocated blocks; [ok] are the outcomes of the calls of [calloc] to come. *)
Abbreviation blocks := (gset positive).

Definition calloc (ok : bool) (h : blocks) : option positive * blocks :=
  if ok then let p := fresh h in (Some p, {[p]} ∪ h) else (None, h).

(** [free]; freeing what is not allocated is undefined. *)
Definition free (p : positive) (h : blocks) : option blocks :=
  if bool_decide (p ∈ h) then Some (h ∖ {[p]}) else None.

(** ** The statements of several servers *)

(** The object, its array, and the statements in it: [None] is a null pointer. *)
Record mysql_multi_stmt_t := MultiStmt {
  ms_object : positive;
  ms_statements : positive;
  ms_array : list (option nat)
}.

Definition mysql_multi_stmt_create (ok1 ok2 : bool) (stmt_count : nat) (h : blocks)
    : option (option mysql_multi_stmt_t * blocks) :=
  let '(multi_stmt, h) := calloc ok1 h in
  match multi_stmt with
  | None => Some (None, h)
  | Some o =>
      let '(statements, h) := calloc ok2 h in
      match statements with
      | None => h ← free o h; Some (None, h)
      | Some a => Some (Some (MultiStmt o a (replicate stmt_count None)), h)
      end
  end.

(** The statements that are closed, and the heap. *)
Definition mysql_multi_stmt_free (m : option mysql_multi_stmt_t) (h : blocks) : option (list nat * blocks) :=
  match m with
  | None => Some ([], h)
  | Some m => h ← free (ms_statements m) h; h ← free (ms_object m) h; Some (omap id (ms_array m), h)
  end.

(** ** The results of several servers *)

(** The object and its two arrays; of a [db_result_t] only the server-side
    statement it belongs to and the pointer matter to the release. *)
Record db_mysql_multi_result_t := MultiResult {
  mr_object : positive;
  mr_results : positive;
  mr_mysql_results : positive;
  mr_array : list (option nat * option nat)
}.

Definition db_mysql_multi_result_create (ok1 ok2 ok3 : bool) (result_count : nat) (h : blocks)
    : option (option db_mysql_multi_result_t * blocks) :=
  let '(multi_result, h) := calloc ok1 h in
  match multi_result with
  | None => Some (None, h)
  | Some o =>
      let '(results, h) := calloc ok2 h in
      match results with
      | None => h ← free o h; Some (None, h)
      | Some r =>
          let '(mysql_results, h) := calloc ok3 h in
          match mysql_results with
          | None => h ← free o h; Some (None, h)
          | Some a => Some (Some (MultiResult o r a (replicate result_count (None, None))), h)
          end
      end
  end.

(** What [mysql_drv_free_results] releases of an element: the result of its
    statement, which also clears the pointer, or else what the pointer is to. *)
Definition released_by (e : option nat * option nat) : list (nat + nat) :=
  match e with
  | (Some s, _) => [inl s]
  | (None, Some p) => [inr p]
  | (None, None) => []
  end.

Definition db_mysql_multi_result_free (m : option db_mysql_multi_result_t) (h : blocks)
    : option (list (nat + nat) * blocks) :=
  match m with
  | None => Some ([], h)
  | Some m =>
      h ← free (mr_results m) h;
      h ← free (mr_mysql_results m) h;
      h ← free (mr_object m) h;
      Some (flat_map released_by (mr_array m), h)
  end.

(** ** Types *)

(** [for (i = 0; map[i].db_type != DB_TYPE_NONE; i++)]; no type for -1. *)
Fixpoint bind_type_loop (map : list (db_bind_type_t * option mysql_type)) (t : db_bind_type_t) : option mysql_type :=
  match map with
  | [] => None
  | (db_type, my_type) :: map =>
      if bool_decide (db_type = DB_TYPE_NONE) then None
      else if bool_decide (db_type = t) then my_type
      else bind_type_loop map t
  end.

Definition cmp_bind_map : list (db_bind_type_t * option mysql_type) :=
  [(DB_TYPE_TINYINT, Some MYSQL_TYPE_TINY); (DB_TYPE_SMALLINT, Some MYSQL_TYPE_SHORT);
   (DB_TYPE_INT, Some MYSQL_TYPE_LONG); (DB_TYPE_BIGINT, Some MYSQL_TYPE_LONGLONG);
   (DB_TYPE_FLOAT, Some MYSQL_TYPE_FLOAT); (DB_TYPE_DOUBLE, Some MYSQL_TYPE_DOUBLE);
   (DB_TYPE_DATETIME, Some MYSQL_TYPE_DATETIME); (DB_TYPE_TIMESTAMP, Some MYSQL_TYPE_TIMESTAMP);
   (DB_TYPE_CHAR, Some MYSQL_TYPE_STRING); (DB_TYPE_VARCHAR, Some MYSQL_TYPE_VAR_STRING);
   (DB_TYPE_NONE, None)].

Definition cmp_get_mysql_bind_type (t : db_bind_type_t) : option mysql_type := bind_type_loop cmp_bind_map t.

Definition cmp_convert_to_mysql_bind (b : db_bind_t) : MYSQL_BIND :=
  MysqlBind (cmp_get_mysql_bind_type (bind_type b)) (bind_buffer b) (max_len b) (data_len b) (is_null b).

(** ** Checksums *)

Definition checksum_query (i : Z) : string :=
  default ""%string (snprintf 256
    ("SELECT BIT_XOR(CAST(CRC32(CONCAT_WS(',',id,k,c,pad)) AS UNSIGNED)) FROM sbtest" +:+ pretty (s32 i) +:+
     " LOCK IN SHARE MODE")).

Section checksums.
Context {L : Type} `{!MysqlClient L} `{!CompareClient L}.

(** The tables from [i] on, [n] of them.  [rs] is not initialized and
    [mysql_drv_query] does not assign [rs.ptr], so what follows a query that
    succeeds reads through an undefined pointer. *)
Fixpoint dml_cmp_tables (n : nat) (i : Z) (rs : db_result_t) : act (cmpd L) Z :=
  match n with
  | O => mret 0
  | S n =>
      '(err, rs) ← cmp_drv_query (checksum_query i) rs;
      if decide (err = DB_ERROR_NONE) then undefined else dml_cmp_tables n (i + 1) rs
  end.

Definition mysql_drv_dml_cmp (tb_num : Z) (garbage : db_result_t) : act (cmpd L) Z :=
  dml_cmp_tables (Z.to_nat tb_num) 1 garbage.
End checksums.

(** ** What is allocated is freed *)

Lemma calloc_spec ok h :
  match calloc ok h with
  | (Some p, h') => ok = true /\ (p ∉ h) /\ h' = {[p]} ∪ h
  | (None, h') => ok = false /\ h' = h
  end.
Proof. destruct ok; cbn; [|done]. split; [done|]. split; [apply is_fresh|done]. Qed.

Lemma free_spec p h : p ∈ h -> free p h = Some (h ∖ {[p]}).
Proof. intros H. unfold free. by rewrite bool_decide_true. Qed.

(** The object of the statements takes two blocks or, when an allocation fails,
    none; releasing it closes every statement that was put into it, once and in
    the order of the servers, and gives the blocks back. *)
Theorem multi_stmt_lifecycle ok1 ok2 n h :
  exists m h', mysql_multi_stmt_create ok1 ok2 n h = Some (m, h') /\
  (match m with
  | None => (ok1 && ok2)%bool = false /\ h' = h
  | Some m => ms_array m = replicate n None /\
      forall stmts, mysql_multi_stmt_free (Some (MultiStmt (ms_object m) (ms_statements m) stmts)) h' =
                    Some (omap id stmts, h)
  end).
Proof.
  unfold mysql_multi_stmt_create. pose proof (calloc_spec ok1 h) as H1.
  destruct (calloc ok1 h) as [[o|] h1]; destruct H1 as [-> H1]; [|subst h1; by eexists _, _].
  destruct H1 as [Ho ->]. pose proof (calloc_spec ok2 ({[o]} ∪ h)) as H2.
  destruct (calloc ok2 _) as [[a|] h2]; destruct H2 as [-> H2].
  - destruct H2 as [Ha ->]. eexists _, _. split; [done|]. cbn. split; [done|]. intros stmts.
    rewrite free_spec by set_solver. cbn. rewrite free_spec by set_solver. cbn. do 2 f_equal. set_solver.
  - subst h2. rewrite free_spec by set_solver. cbn. eexists _, _. split; [done|]. split; [done|]. set_solver.
Qed.

(** The same holds for the object of the results, except that the block of
    [results] is lost when the allocation of [mysql_results] fails. *)
Theorem multi_result_lifecycle ok1 ok2 ok3 n h :
  exists m h', db_mysql_multi_result_create ok1 ok2 ok3 n h = Some (m, h') /\
  (match m with
  | None => if ok1 && ok2 then ok3 = false /\ exists p, (p ∉ h) /\ h' = ({[p]} ∪ h) else h' = h
  | Some m => mr_array m = replicate n (None, None) /\
      forall rs, db_mysql_multi_result_free (Some (MultiResult (mr_object m) (mr_results m) (mr_mysql_results m) rs)) h' =
                 Some (flat_map released_by rs, h)
  end).
Proof.
  unfold db_mysql_multi_result_create. pose proof (calloc_spec ok1 h) as H1.
  destruct (calloc ok1 h) as [[o|] h1]; destruct H1 as [-> H1]; [|subst h1; by eexists _, _].
  destruct H1 as [Ho ->]. pose proof (calloc_spec ok2 ({[o]} ∪ h)) as H2.
  destruct (calloc ok2 _) as [[r|] h2]; destruct H2 as [-> H2].
  2: { subst h2. rewrite free_spec by set_solver. cbn. eexists _, _. split; [done|]. cbn. set_solver. }
  destruct H2 as [Hr ->]. pose proof (calloc_spec ok3 ({[r]} ∪ ({[o]} ∪ h))) as H3.
  destruct (calloc ok3 _) as [[a|] h3]; destruct H3 as [-> H3].
  - destruct H3 as [Ha ->]. eexists _, _. split; [done|]. cbn. split; [done|]. intros rs.
    rewrite free_spec by set_solver. cbn. rewrite free_spec by set_solver. cbn. rewrite free_spec by set_solver. cbn.
    do 2 f_equal. set_solver.
  - subst h3. rewrite free_spec by set_solver. cbn. eexists _, _. split; [done|]. cbn. split; [done|].
    exists r. split; [set_solver|]. set_solver.
Qed.

(** The types of both drivers agree. *)
Theorem cmp_bind_types_agree b : cmp_convert_to_mysql_bind b = convert_to_mysql_bind b.
Proof.
  unfold cmp_convert_to_mysql_bind, convert_to_mysql_bind, cmp_get_mysql_bind_type, get_mysql_bind_type.
  by destruct (bind_type b).
Qed.

(** The comparison of checksums is undefined as soon as a query has succeeded,
    and compares nothing otherwise. *)
Theorem dml_cmp_never_compares {L} `{!MysqlClient L} `{!CompareClient L} n i rs (k : cmpd L) :
  match dml_cmp_tables n i rs k with
  | Some (rc, _) => rc = 0 /\ forall err rs' k', (0 < n)%nat ->
      cmp_drv_query (checksum_query i) rs k = Some ((err, rs'), k') -> err <> DB_ERROR_NONE
  | None => (0 < n)%nat
  end.
Proof.
  revert i rs k. induction n as [|n IH]; intros i rs k; cbn [dml_cmp_tables].
  { split; [done|]. lia. }
  unfold mbind, act_bind. destruct (cmp_drv_query (checksum_query i) rs k) as [[[err rs'] k']|]; [|exact (Nat.lt_0_succ n)].
  cbn [mbind option_bind]. destruct (decide (err = DB_ERROR_NONE)) as [->|Hne]; [exact (Nat.lt_0_succ n)|].
  specialize (IH (i + 1) rs' k'). destruct (dml_cmp_tables n (i + 1) rs' k') as [[rc k2]|]; [|exact (Nat.lt_0_succ n)].
  destruct IH as [-> _]. split; [done|]. by intros ? ? ? _ [= <- _ _].
Qed.
