(* ===== verification/Lua.v ===== *)
(** * Scripts ([sb_lua.c]): one interpreter

    What the program does with a [lua_State]: the variables it sets, the functions of
    the script that it calls.  LuaJIT is a class of the calls that the code makes;
    its laws say what the manual does: how a call changes the stack, and what is in
    tables without metatables.  The interpreters together are in [LuaTest].

    [None] is undefined behaviour or the end of the program.  The messages of the log
    are left out. *)

From S2P Require Import Prelude Double Options Counter Timer Reports Driver.

#[local] Set Warnings "-clear-no-such-hyp".

(** ** The interface of LuaJIT *)

(** Tables, functions and the rest are objects. *)
Inductive lua_value := LNil | LBoolean (b : bool) | LNumber (x : dbl) | LString (s : string) | LObject (n : nat).

#[export] Instance lua_value_eq_dec : EqDecision lua_value.
Proof. solve_decision. Defined.

Definition LUA_ERRFILE : Z := 6.
Definition LUA_REGISTRYINDEX : Z := -10000.

(** [lua_push] stands for the functions that push a value of a kind each.  A call
    that is not protected ends the program when it fails. *)
Class LuaApi (L : Type) := {
  luaL_newstate : option L;
  luaL_openlibs : L -> L;
  lua_gettop : L -> Z;
  lua_push : lua_value -> L -> L;
  lua_pushvalue : Z -> L -> L;
  lua_pop : Z -> L -> L;
  lua_remove : Z -> L -> L;
  lua_concat : Z -> L -> L;
  lua_newtable : L -> L;
  lua_getglobal : string -> L -> L;
  lua_setglobal : string -> L -> L;
  lua_getfield : Z -> string -> L -> L;
  lua_setfield : Z -> string -> L -> L;
  lua_gettable : Z -> L -> L;
  lua_settable : Z -> L -> L;
  lua_rawseti : Z -> Z -> L -> L;
  lua_isfunction : Z -> L -> bool;
  lua_isnil : Z -> L -> bool;
  lua_toboolean : Z -> L -> bool;
  lua_tostring : Z -> L -> option string;
  lua_pcall : Z -> Z -> L -> Z * L;
  lua_call : Z -> Z -> L -> option L;
  luaL_loadbuffer : string -> string -> L -> Z * L;
  luaL_loadfile : option string -> L -> Z * L;
  luaL_newmetatable : string -> L -> L;
  luaL_gsub : string -> string -> string -> L -> string * L
}.

Section lua.
Context {L : Type} `{!LuaApi L}.
Abbreviation M := (act L).

(** [lua_pushstring]: a null pointer is pushed as nil. *)
Definition lua_pushstring (s : option string) : L -> L := lua_push (from_option LString LNil s).
Definition lua_pushnumber (z : Z) : L -> L := lua_push (LNumber (d_of_Z z)).

(** A call with a result; and one that may end the program. *)
Definition calls {A} (f : L -> A * L) : M A := fun l => Some (f l).
Definition calls_through (f : L -> option L) : M unit := fun l => pair tt <$> f l.
Definition pcall (nargs nresults : Z) : M Z := calls (lua_pcall nargs nresults).

(** ** Calls and errors *)

(** The error message is logged. *)
Definition call_error : M unit := changes (lua_pop 1).
Definition report_error : M unit := changes (lua_pop 1).

Definition func_available (func : string) : M bool :=
  changes (lua_getglobal func);;
  rc ← reads (lua_isfunction (-1));
  changes (lua_pop 1);; mret rc.

(** A function of a module table of [sysbench], found or reported, called with
    [arg] if any, and what it returns; [None] when it is missing or fails. *)
Definition call_cmdline (name : string) (arg : option string) : M (option bool) :=
  changes (lua_getglobal "sysbench");;
  changes (lua_getfield (-1) "cmdline");;
  changes (lua_getfield (-1) name);;
  f ← reads (lua_isfunction (-1));
  if negb f then changes (lua_pop 3);; mret None
  else
    nargs ← (match arg with Some a => changes (lua_pushstring (Some a));; mret 1 | None => mret 0 end);
    err ← pcall nargs 1;
    if negb (err =? 0) then call_error;; changes (lua_pop 2);; mret None
    else
      rc ← reads (lua_toboolean (-1));
      changes (lua_pop 3);; mret (Some rc).

Definition read_cmdline_options : M Z :=
  rc ← call_cmdline "read_cmdline_options" None; mret (match rc with Some b => b2z (negb b) | None => 1 end).

(** ** Exporting options *)

Section export.
Context (strtod : string -> dbl).

Fixpoint push_list (count : Z) (l : list value_t) : M unit :=
  match l with
  | [] => mret tt
  | v :: l =>
      changes (lua_pushstring (Some (val_data v)));; changes (lua_rawseti (-2) count);; push_list (count + 1) l
  end.

Definition push_option (opt : option_t) : M unit :=
  match opt_type opt with
  | SB_ARG_TYPE_BOOL => changes (lua_push (LBoolean (negb (sb_opt_to_flag opt =? 0))))
  | SB_ARG_TYPE_INT => match sb_opt_to_int opt with Ret n => changes (lua_pushnumber n) | Exit _ => undefined end
  | SB_ARG_TYPE_DOUBLE => changes (lua_push (LNumber (sb_opt_to_double strtod opt)))
  | SB_ARG_TYPE_SIZE => changes (lua_pushnumber (sb_opt_to_size opt))
  | SB_ARG_TYPE_STRING => changes (lua_push (LString (default ""%string (sb_opt_to_string opt))))
  | SB_ARG_TYPE_LIST => changes lua_newtable;; push_list 1 (sb_opt_to_list opt)
  | SB_ARG_TYPE_FILE => changes (lua_push LNil)
  | _ => changes (lua_push LNil)
  end.

Fixpoint export_each (global : bool) (options : list option_t) : M unit :=
  match options with
  | [] => mret tt
  | opt :: options =>
      if global then
        changes (lua_getglobal (opt_name opt));;
        f ← reads (lua_isfunction (-1));
        changes (lua_pop 1);;
        if f : bool then export_each global options
        else push_option opt;; changes (lua_setglobal (opt_name opt));; export_each global options
      else
        changes (lua_pushstring (Some (opt_name opt)));;
        push_option opt;; changes (lua_settable (-3));; export_each global options
  end.

Definition do_export_options (options : list option_t) (global : bool) : M Z :=
  (if global then mret tt
   else
     changes (lua_getglobal "sysbench");;
     changes (lua_push (LString "opt"));;
     changes lua_newtable);;
  export_each global options;;
  (if global then mret tt else changes (lua_settable (-3)));; mret 0.

Definition export_options (options : list option_t) : M Z :=
  rc ← do_export_options options false; mret (if rc =? 0 then 0 else 1).

(** ** Calling the script *)

(** A function that the script need not have, with the number of the thread if the
    code passes it; an error is 1. *)
Definition call_optional (func : string) (arg : option Z) : M Z :=
  changes (lua_getglobal func);;
  nil ← reads (lua_isnil (-1));
  if nil : bool then mret 0
  else
    err ← (match arg with
           | Some n => changes (lua_pushnumber n);; pcall 1 1
           | None => pcall 0 0
           end);
    if negb (err =? 0) then call_error;; mret 1 else mret 0.

(** The part of [sb_lua_op_init] in the interpreter. *)
Definition script_init (options : list option_t) : M Z :=
  rc ← export_options options;
  if negb (rc =? 0) then mret 1
  else
    rc ← call_optional "init" None;
    if negb (rc =? 0) then mret 1
    else f ← func_available "event"; mret (if f : bool then 0 else 1).

Definition script_thread_init (options : list option_t) (thread_id : Z) : M Z :=
  rc ← export_options options;
  if negb (rc =? 0) then mret 1 else call_optional "thread_init" (Some thread_id).

Definition script_thread_run (thread_id : Z) : M Z :=
  changes (lua_getglobal "thread_run");;
  changes (lua_pushnumber thread_id);;
  err ← pcall 1 1;
  if negb (err =? 0) then call_error;; mret 1 else mret 0.

Definition script_thread_done (thread_id : Z) : M Z := call_optional "thread_done" (Some thread_id).
Definition script_done : M Z := call_optional "done" None.

(** [execute_command] *)
Definition script_command (options : list option_t) (cmd : string) : M Z :=
  rc ← export_options options;
  if negb (rc =? 0) then mret 1
  else
    changes (lua_getglobal cmd);;
    err ← pcall 0 1;
    if negb (err =? 0) then call_error;; mret 1 else changes (lua_pop 1);; mret 0.

(** The return value is 1, which means yes, when the function is missing or fails. *)
Definition script_command_defined (name : string) : M bool :=
  rc ← call_cmdline "command_defined" (Some name); mret (default true rc).
Definition script_command_parallel (name : string) : M bool :=
  rc ← call_cmdline "command_parallel" (Some name); mret (default true rc).

(** [EXIT_SUCCESS] is 0 and [EXIT_FAILURE] is 1. *)
Definition call_custom_command (options : list option_t) (command : string) : M Z :=
  rc ← export_options options;
  if negb (rc =? 0) then mret 1
  else
    rc ← call_cmdline "call_command" (Some command);
    mret (match rc with Some true => 0 | _ => 1 end).

(** ** Report hooks *)

Definition sb_lua_hook_defined (name : string) : M bool :=
  changes (lua_getglobal "sysbench");;
  changes (lua_getfield (-1) "hooks");;
  changes (lua_getfield (-1) name);;
  rc ← reads (lua_isfunction (-1));
  changes (lua_pop 3);; mret rc.

Definition sb_lua_hook_push (name : string) : M bool :=
  changes (lua_getglobal "sysbench");;
  changes (lua_getfield (-1) "hooks");;
  changes (lua_getfield (-1) name);;
  f ← reads (lua_isfunction (-1));
  if negb f then changes (lua_pop 3);; mret false
  else changes (lua_remove (-2));; changes (lua_remove (-2));; mret true.

Definition sb_lua_var_number (name : string) (n : dbl) : M unit :=
  changes (lua_pushstring (Some name));; changes (lua_push (LNumber n));; changes (lua_settable (-3)).
Definition sb_lua_var_string (name : string) (s : option string) : M unit :=
  changes (lua_pushstring (Some name));; changes (lua_pushstring s);; changes (lua_settable (-3)).

Fixpoint vars (l : list (string * dbl)) : M unit :=
  match l with [] => mret tt | (name, n) :: l => sb_lua_var_number name n;; vars l end.

(** [stat_to_lua_table] *)
Definition common_stats (stat : sb_stat_t) : list (string * dbl) :=
  [("threads_running", d_of_Z (st_threads_running stat)); ("time_interval", time_interval stat);
   ("time_total", time_total stat); ("latency_pct", latency_pct stat); ("events", d_of_Z (st_events stat));
   ("reads", d_of_Z (st_reads stat)); ("writes", d_of_Z (st_writes stat)); ("other", d_of_Z (st_other stat));
   ("errors", d_of_Z (st_errors stat)); ("reconnects", d_of_Z (st_reconnects stat))]%string.
Definition stat_to_lua_table (stat : sb_stat_t) : M unit := changes lua_newtable;; vars (common_stats stat).

Definition report_hook (name : string) (stat : sb_stat_t) (more : list (string * dbl)) : M unit :=
  f ← sb_lua_hook_push name;
  if negb f then mret tt
  else
    stat_to_lua_table stat;;
    vars more;;
    err ← pcall 1 0;
    if negb (err =? 0) then call_error else mret tt.

Definition script_report_intermediate (stat : sb_stat_t) : M unit :=
  report_hook "report_intermediate" stat
    [("queue_length", d_of_Z (queue_length stat)); ("concurrency", d_of_Z (st_concurrency stat))]%string.

(** [global]: in the interpreter of the program, whose options are exported here. *)
Definition script_report_cumulative (options : list option_t) (global : bool) (stat : sb_stat_t) : M unit :=
  (if global then export_options options;; mret tt else mret tt);;
  report_hook "report_cumulative" stat
    [("latency_min", latency_min stat); ("latency_max", latency_max stat);
     ("latency_avg", latency_avg stat); ("latency_sum", latency_sum stat)]%string.
End export.

(** ** LuaJIT commands *)

(** [strchr]: the text before the character, and after it if it is there. *)
Fixpoint split_at (c : ascii) (s : string) : string * option string :=
  match s with
  | EmptyString => (EmptyString, None)
  | String a s =>
      if Ascii.eqb a c then (EmptyString, Some s) else let '(before, after) := split_at c s in (String a before, after)
  end.

(** The arguments between commas; an empty one is nil.  Their number. *)
Fixpoint push_args (fuel : nat) (opt : string) (narg : Z) : M Z :=
  match fuel with
  | O => undefined
  | S fuel =>
      let '(arg, rest) := split_at "," opt in
      changes (lua_push (if String.eqb arg "" then LNil else LString arg));;
      match rest with None => mret (narg + 1) | Some opt => push_args fuel opt (narg + 1) end
  end.

(** [strncmp(msg, "module ", 7)] *)
Definition starts_module (msg : string) : bool := String.prefix "module " msg.

Definition sb_lua_do_jitcmd (cmd : string) : M Z :=
  let '(name, opt) := split_at "=" cmd in
  changes (lua_push (LString name));;
  changes (lua_getfield LUA_REGISTRYINDEX "_LOADED");;
  changes (lua_getfield (-1) "jit");;
  changes (lua_remove (-2));;
  changes (lua_pushvalue (-2));;
  changes (lua_gettable (-2));;
  f ← reads (lua_isfunction (-1));
  found ← (if f : bool then changes (lua_remove (-2));; mret true
           else
             changes (lua_pop 2);;
             changes (lua_getglobal "require");;
             changes (lua_push (LString "jit."));;
             changes (lua_pushvalue (-3));;
             changes (lua_concat 2);;
             err ← pcall 1 1;
             if negb (err =? 0) then
               msg ← reads (lua_tostring (-1));
               if from_option starts_module false msg then mret false else call_error;; mret false
             else
               changes (lua_getfield (-1) "start");;
               nil ← reads (lua_isnil (-1));
               if nil : bool then mret false else changes (lua_remove (-2));; mret true);
  if negb found then mret 1
  else
    changes (lua_remove (-2));;
    narg ← (match opt with
            | Some opt => if String.eqb opt "" then mret 0 else push_args (S (String.length opt)) opt 0
            | None => mret 0
            end);
    err ← pcall narg 0;
    if negb (err =? 0) then call_error;; mret 1 else mret 0.

(** ** New interpreters *)

Section new_state.
(** The environment; the directories and the suffix of the build; the names and the
    texts of the internal scripts, which the build generates from [lua/internal]. *)
Context (getenv : string -> option string) (DATADIR LIBDIR DLEXT : string) (script_source : string -> string).

Fixpoint push_all (l : list string) : M unit :=
  match l with [] => mret tt | s :: l => changes (lua_push (LString s));; push_all l end.

Definition one : string := String (ascii_of_nat 1) "".

(** The concatenation of what has been pushed above [top], with the variable of the
    environment put around it, as a field of [package]. *)
Definition set_path (variable field : string) (top : Z) : M unit :=
  n ← reads lua_gettop;
  changes (lua_concat (n - top));;
  (match getenv variable with
   | Some path =>
       d ← reads (lua_tostring (-1));
       def ← the d;
       path ← calls (luaL_gsub path ";;" (";" +:+ one +:+ ";"));
       calls (luaL_gsub path one def);;
       changes (lua_remove (-2));; changes (lua_remove (-2))
   | None => mret tt
   end);;
  changes (lua_setfield top field).

Definition sb_lua_set_paths : M unit :=
  changes (lua_getglobal "package");;
  top ← reads lua_gettop;
  let home := getenv "HOME" in
  push_all ["./?.lua;"; "./?/init.lua;"; "./src/lua/?.lua;"]%string;;
  push_all (from_option (fun h => [h; "/.luarocks/share/lua/5.1/?.lua;"; h; "/.luarocks/share/lua/5.1/?/init.lua;";
                                   h; "/.luarocks/share/lua/?.lua;"; h; "/.luarocks/share/lua/?/init.lua;"]%string) [] home);;
  push_all ["/usr/local/share/lua/5.1/?.lua;"; "/usr/share/lua/5.1/?.lua;"; DATADIR +:+ "/?.lua;"]%string;;
  set_path "LUA_PATH" "path" top;;
  push_all ["./?" +:+ DLEXT +:+ ";"]%string;;
  push_all (from_option (fun h => [h; "/.luarocks/lib/lua/5.1/?" +:+ DLEXT +:+ ";";
                                   h; "/.luarocks/lib/lua/?" +:+ DLEXT +:+ ";"]%string) [] home);;
  push_all ["/usr/local/lib/lua/5.1/?" +:+ DLEXT +:+ ";"; "/usr/lib/lua/5.1/?" +:+ DLEXT +:+ ";"; LIBDIR +:+ ";"]%string;;
  set_path "LUA_CPATH" "cpath" top;;
  changes (lua_pop 1).

Definition internal_scripts : list string :=
  ["sysbench.rand.lua"; "sysbench.lua"; "sysbench.cmdline.lua"; "sysbench.sql.lua"; "sysbench.histogram.lua"].

Fixpoint load_internal_scripts (l : list string) : M Z :=
  match l with
  | [] => mret 0
  | name :: l =>
      err ← calls (luaL_loadbuffer (script_source name) name);
      if negb (err =? 0) then changes (lua_pop 1);; mret 1
      else calls_through (lua_call 0 0);; load_internal_scripts l
  end.

(** What an interpreter is told: the thread, the command line, the script. *)
Record script_env := ScriptEnv {
  e_tid : Z;
  e_luajit_cmd : option string;
  e_argv : list string;
  e_cmdname : option string;
  e_lname : option string
}.

Context (PACKAGE_VERSION VERSION_STRING : string).

Fixpoint push_argv (i : Z) (argv : list string) : M unit :=
  match argv with
  | [] => mret tt
  | a :: argv => changes (lua_pushstring (Some a));; changes (lua_rawseti (-2) i);; push_argv (i + 1) argv
  end.

(** The table [sysbench]. *)
Definition export_sysbench (e : script_env) : M unit :=
  changes lua_newtable;;
  sb_lua_var_number "tid" (d_of_Z (e_tid e));;
  changes (lua_push (LString "error"));;
  changes lua_newtable;;
  sb_lua_var_number "NONE" (d_of_Z 0);;
  sb_lua_var_number "RESTART_EVENT" (d_of_Z 1);;
  changes (lua_settable (-3));;
  sb_lua_var_string "version" (Some PACKAGE_VERSION);;
  sb_lua_var_string "version_string" (Some VERSION_STRING);;
  changes (lua_push (LString "cmdline"));;
  changes lua_newtable;;
  changes (lua_push (LString "argv"));;
  changes lua_newtable;;
  push_argv 0 (e_argv e);;
  changes (lua_settable (-3));;
  (match e_cmdname e with Some c => sb_lua_var_string "command" (Some c) | None => mret tt end);;
  sb_lua_var_string "script_path" (e_lname e);;
  changes (lua_settable (-3));;
  changes (lua_setglobal "sysbench").

(** The script as a file, or else as a module; whether it could be loaded. *)
Definition load_script (lname : option string) : M bool :=
  rc ← calls (luaL_loadfile lname);
  if negb (rc =? 0) then
    if negb (rc =? LUA_ERRFILE) then report_error;; mret false
    else
      changes (lua_getglobal "require");;
      changes (lua_pushstring lname);;
      err ← pcall 1 1;
      if negb (err =? 0) then
        msg ← reads (lua_tostring (-1));
        if from_option (fun m => negb (starts_module m)) false msg then report_error;; mret false else mret false
      else mret true
  else
    err ← pcall 0 0;
    if negb (err =? 0) then report_error;; mret false else mret true.

(** The part of [sb_lua_new_state] after the allocation: whether it succeeds. *)
Definition open_state (e : script_env) : M bool :=
  changes luaL_openlibs;;
  failed ← (match e_luajit_cmd e with Some cmd => rc ← sb_lua_do_jitcmd cmd; mret (negb (rc =? 0)) | None => mret false end);
  if failed : bool then mret false
  else
    sb_lua_set_paths;;
    export_sysbench e;;
    changes (luaL_newmetatable "sysbench.stmt");;
    changes (luaL_newmetatable "sysbench.rs");;
    rc ← load_internal_scripts internal_scripts;
    if negb (rc =? 0) then mret false else load_script (e_lname e).
End new_state.
End lua.

(** ** What the manual says of the calls *)

(** [stack] has the top first.  [tables] are the contents of the tables without
    metatables, [None] for other objects; [globals] is the table of the globals. *)
Class LuaLaws (L : Type) `{!LuaApi L} := {
  stack : L -> list lua_value;
  tables : L -> nat -> option (lua_value -> lua_value);
  globals : nat;
  top_law l : lua_gettop l = Z.of_nat (length (stack l));
  push_law v l : stack (lua_push v l) = v :: stack l /\ tables (lua_push v l) = tables l;
  pop_law n l : stack (lua_pop (Z.of_nat n) l) = drop n (stack l) /\ tables (lua_pop (Z.of_nat n) l) = tables l;
  remove_law n l : stack (lua_remove (- Z.of_nat (S n)) l) = delete n (stack l);
  pushvalue_law i l : exists v, stack (lua_pushvalue i l) = v :: stack l;
  concat_law n l : (0 < n <= length (stack l))%nat -> exists s, stack (lua_concat (Z.of_nat n) l) = LString s :: drop n (stack l);
  newtable_law l : exists t, stack (lua_newtable l) = LObject t :: stack l /\ tables l t = None
    /\ forall u, tables (lua_newtable l) u = if decide (u = t) then Some (fun _ => LNil) else tables l u;
  getglobal_law n l : exists v, stack (lua_getglobal n l) = v :: stack l
    /\ forall g, tables l globals = Some g -> v = g (LString n) /\ tables (lua_getglobal n l) = tables l;
  setglobal_law n l : stack (lua_setglobal n l) = drop 1 (stack l);
  getfield_law i n l : exists v, stack (lua_getfield i n l) = v :: stack l;
  setfield_law i n l : stack (lua_setfield i n l) = drop 1 (stack l);
  gettable_law i l : exists v, stack (lua_gettable i l) = v :: drop 1 (stack l);
  settable_law i l : stack (lua_settable i l) = drop 2 (stack l);
  settable_table l v k t rest f : stack l = v :: k :: LObject t :: rest -> tables l t = Some f -> k <> LNil -> k <> LNumber NaN ->
    forall u, tables (lua_settable (-3) l) u =
      if decide (u = t) then Some (fun k' => if decide (k' = k) then v else f k') else tables l u;
  rawseti_law i n l : stack (lua_rawseti i n l) = drop 1 (stack l);
  rawseti_table n l v t rest f : stack l = v :: LObject t :: rest -> tables l t = Some f ->
    forall u, tables (lua_rawseti (-2) n l) u =
      if decide (u = t) then Some (fun k' => if decide (k' = LNumber (d_of_Z n)) then v else f k') else tables l u;
  tostring_law l s rest : stack l = LString s :: rest -> lua_tostring (-1) l = Some s;
  pcall_law nargs nresults l : (S nargs <= length (stack l))%nat ->
    let '(rc, l') := lua_pcall (Z.of_nat nargs) (Z.of_nat nresults) l in
    exists vs, length vs = (if Z.eqb rc 0 then nresults else 1%nat) /\ stack l' = vs ++ drop (S nargs) (stack l);
  call_law nargs nresults l l' : (S nargs <= length (stack l))%nat -> lua_call (Z.of_nat nargs) (Z.of_nat nresults) l = Some l' ->
    exists vs, length vs = nresults /\ stack l' = vs ++ drop (S nargs) (stack l);
  loadbuffer_law s n l : exists v, stack (snd (luaL_loadbuffer s n l)) = v :: stack l;
  loadfile_law n l : exists v, stack (snd (luaL_loadfile n l)) = v :: stack l;
  newmetatable_law n l : exists v, stack (luaL_newmetatable n l) = v :: stack l;
  gsub_law s p r l : let '(x, l') := luaL_gsub s p r l in stack l' = LString x :: stack l;
  openlibs_law l : stack (luaL_openlibs l) = stack l;
  newstate_law l : luaL_newstate = Some l -> stack l = []
}.

(** ** The stack *)

Section balance.
Context {L : Type} `{!LuaApi L, !LuaLaws L}.

(** [n] values above [s]. *)
Definition over (s : list lua_value) (n : nat) (l : L) : Prop := exists vs, length vs = n /\ stack l = vs ++ s.

Lemma over_drop s n k (l l' : L) : over s (k + n) l -> stack l' = drop k (stack l) -> over s n l'.
Proof.
  intros (vs & Hn & Hl) H. exists (drop k vs). rewrite length_drop, H, Hl, drop_app_le by lia. split; [lia|done].
Qed.
Lemma over_app s n k (l l' : L) vs : over s n l -> length vs = k -> stack l' = vs ++ stack l -> over s (k + n) l'.
Proof. intros (us & Hn & Hl) Hk H. exists (vs ++ us). rewrite length_app, H, Hl, app_assoc. split; [lia|done]. Qed.
Lemma over_cons s n (l l' : L) v : over s n l -> stack l' = v :: stack l -> over s (S n) l'.
Proof. intros H E. exact (over_app s n 1 l l' [v] H eq_refl E). Qed.

(** A change of the state that adds or removes values. *)
Lemma grows s n (f : L -> L) : (forall l, exists v, stack (f l) = v :: stack l) ->
  triple (over s n) (changes f) (fun _ => over s (S n)).
Proof. intros H. apply triple_changes. intros l Hl. destruct (H l) as [v Hv]. by apply over_cons with l v. Qed.
Lemma shrinks s n k (f : L -> L) : (forall l, stack (f l) = drop k (stack l)) ->
  triple (over s (k + n)) (changes f) (fun _ => over s n).
Proof. intros H. apply triple_changes. intros l Hl. by apply over_drop with k l. Qed.

Lemma over_push s n v : triple (over s n) (changes (lua_push v)) (fun _ => over s (S n)).
Proof. apply grows. intros l. exists v. apply push_law. Qed.
Lemma over_pushstring s n t : triple (over s n) (changes (lua_pushstring t)) (fun _ => over s (S n)).
Proof. apply over_push. Qed.
Lemma over_pushnumber s n z : triple (over s n) (changes (lua_pushnumber z)) (fun _ => over s (S n)).
Proof. apply over_push. Qed.
Lemma over_newtable s n : triple (over s n) (changes lua_newtable) (fun _ => over s (S n)).
Proof. apply grows. intros l. destruct (newtable_law l) as (t & H & _). by eexists. Qed.
Lemma over_getglobal s n x : triple (over s n) (changes (lua_getglobal x)) (fun _ => over s (S n)).
Proof. apply grows. intros l. destruct (getglobal_law x l) as (v & H & _). by eexists. Qed.
Lemma over_getfield s n i x : triple (over s n) (changes (lua_getfield i x)) (fun _ => over s (S n)).
Proof. apply grows. intros l. apply getfield_law. Qed.
Lemma over_pushvalue s n i : triple (over s n) (changes (lua_pushvalue i)) (fun _ => over s (S n)).
Proof. apply grows. intros l. apply pushvalue_law. Qed.
Lemma over_newmetatable s n x : triple (over s n) (changes (luaL_newmetatable x)) (fun _ => over s (S n)).
Proof. apply grows. intros l. apply newmetatable_law. Qed.

Lemma over_pop1 s n : triple (over s (S n)) (changes (lua_pop 1)) (fun _ => over s n).
Proof. apply (shrinks s n 1). intros l. apply (pop_law 1). Qed.
Lemma over_pop2 s n : triple (over s (S (S n))) (changes (lua_pop 2)) (fun _ => over s n).
Proof. apply (shrinks s n 2). intros l. apply (pop_law 2). Qed.
Lemma over_pop3 s n : triple (over s (S (S (S n)))) (changes (lua_pop 3)) (fun _ => over s n).
Proof. apply (shrinks s n 3). intros l. apply (pop_law 3). Qed.
Lemma over_setglobal s n x : triple (over s (S n)) (changes (lua_setglobal x)) (fun _ => over s n).
Proof. apply (shrinks s n 1). intros l. apply setglobal_law. Qed.
Lemma over_setfield s n i x : triple (over s (S n)) (changes (lua_setfield i x)) (fun _ => over s n).
Proof. apply (shrinks s n 1). intros l. apply setfield_law. Qed.
Lemma over_rawseti s n i x : triple (over s (S n)) (changes (lua_rawseti i x)) (fun _ => over s n).
Proof. apply (shrinks s n 1). intros l. apply rawseti_law. Qed.
Lemma over_settable s n i : triple (over s (S (S n))) (changes (lua_settable i)) (fun _ => over s n).
Proof. apply (shrinks s n 2). intros l. apply settable_law. Qed.
Lemma over_gettable s n i : triple (over s (S n)) (changes (lua_gettable i)) (fun _ => over s (S n)).
Proof.
  apply triple_changes. intros l Hl. destruct (gettable_law i l) as [v Hv].
  destruct Hl as ([|u us] & Hn & Hs); [done|]. exists (v :: us). rewrite Hv, Hs. done.
Qed.
Lemma over_remove2 s n : triple (over s (S (S n))) (changes (lua_remove (-2))) (fun _ => over s (S n)).
Proof.
  apply triple_changes. intros l ([|u [|v vs]] & Hn & Hs); try done. exists (u :: vs).
  pose proof (remove_law 1 l) as H. change (- Z.of_nat 2) with (-2) in H. rewrite H, Hs. split; [cbn in *; lia|done].
Qed.

Lemma over_reads {A} s n (f : L -> A) : triple (over s n) (reads f) (fun _ => over s n).
Proof. intros l Hl. by exists (f l), l. Qed.

(** A call takes the function and its arguments, and leaves the results or the
    error. *)
Lemma over_pcall s n a r : triple (over s (S (a + n))) (pcall (Z.of_nat a) (Z.of_nat r))
  (fun rc => over s ((if Z.eqb rc 0 then r else 1%nat) + n)).
Proof.
  intros l Hl. assert (Hlen : (S a <= length (stack l))%nat).
  { destruct Hl as (vs & Hn & ->). rewrite length_app. lia. }
  pose proof (pcall_law a r l Hlen) as H. unfold pcall, calls.
  destruct (lua_pcall (Z.of_nat a) (Z.of_nat r) l) as [rc l'] eqn:E. destruct H as (vs & Hvs & Hs).
  exists rc, l'. split; [done|]. destruct Hl as (us & Hn & Hl). exists (vs ++ drop (S a) us).
  rewrite length_app, length_drop, Hs, Hl, drop_app_le by lia. split; [lia|]. by rewrite app_assoc.
Qed.
Lemma over_pcall00 s n : triple (over s (S n)) (pcall 0 0) (fun rc => over s ((if Z.eqb rc 0 then 0%nat else 1%nat) + n)).
Proof. apply (over_pcall s n 0 0). Qed.
Lemma over_pcall01 s n : triple (over s (S n)) (pcall 0 1) (fun rc => over s (S n)).
Proof.
  eapply triple_consequence; [apply (over_pcall s n 0 1)|done|]. cbv beta. intros rc l H. by destruct (Z.eqb rc 0).
Qed.
Lemma over_pcall11 s n : triple (over s (S (S n))) (pcall 1 1) (fun rc => over s (S n)).
Proof.
  eapply triple_consequence; [apply (over_pcall s n 1 1)|done|]. cbv beta. intros rc l H. by destruct (Z.eqb rc 0).
Qed.
Lemma over_pcall10 s n : triple (over s (S (S n))) (pcall 1 0) (fun rc => over s ((if Z.eqb rc 0 then 0%nat else 1%nat) + n)).
Proof. apply (over_pcall s n 1 0). Qed.
End balance.

#[export] Hint Resolve over_push over_pushstring over_pushnumber over_newtable over_getglobal over_getfield over_pushvalue
  over_newmetatable over_pop1 over_pop2 over_pop3 over_setglobal over_setfield over_rawseti over_settable over_gettable
  over_remove2 over_reads over_pcall00 over_pcall01 over_pcall11 over_pcall10 : act.

(** Steps as long as the stack is known. *)
Ltac lua_steps := repeat (act_step; cbn [Nat.add]).
Ltac lua_done := apply triple_ret; by auto.

(** Options of integers hold integers: the program ends at others. *)
Definition ints_ok (options : list option_t) : Prop :=
  Forall (fun o => opt_type o = SB_ARG_TYPE_INT -> exists n, sb_opt_to_int o = Ret n) options.

Section script_stack.
Context {L : Type} `{!LuaApi L, !LuaLaws L} (strtod : string -> dbl).
Implicit Types s : list lua_value.

Lemma over_call_error s n : triple (over s (S n)) call_error (fun _ => over s n).
Proof. apply over_pop1. Qed.
#[local] Hint Resolve over_call_error : act.

Lemma over_func_available s n f : triple (over s n) (func_available f) (fun _ => over s n).
Proof. unfold func_available. lua_steps. lua_done. Qed.

Lemma over_call_cmdline s n name arg : triple (over s n) (call_cmdline name arg) (fun _ => over s n).
Proof.
  unfold call_cmdline. do 4 act_step. match goal with |- context [negb ?f] => destruct f end; cbn [negb].
  2: { lua_steps. lua_done. }
  eapply triple_bind with (R := fun nargs l => (nargs = 0 /\ over s (S (S (S n))) l) \/ (nargs = 1 /\ over s (S (S (S (S n)))) l)).
  - destruct arg as [a|]; [act_step; apply triple_ret; by right|apply triple_ret; by left].
  - intros nargs. eapply triple_bind with (R := fun rc => over s (S (S (S n)))).
    + intros l [[-> H]|[-> H]]; [by apply (over_pcall01 s (S (S n)))|by apply (over_pcall11 s (S (S n)))].
    + intros rc. destruct (negb (rc =? 0)); lua_steps; lua_done.
Qed.

Lemma over_push_list s n l : forall count, triple (over s (S n)) (push_list count l) (fun _ => over s (S n)).
Proof. induction l as [|v l IH]; intros count; cbn [push_list]; [lua_done|]. do 2 act_step. apply IH. Qed.

Lemma over_push_option s n o : (opt_type o = SB_ARG_TYPE_INT -> exists i, sb_opt_to_int o = Ret i) ->
  triple (over s n) (push_option strtod o) (fun _ => over s (S n)).
Proof.
  intros Hi. unfold push_option. destruct (opt_type o); eauto with act.
  - destruct (Hi eq_refl) as [i ->]. eauto with act.
  - act_step. apply over_push_list.
Qed.

Lemma over_export_each s n global options : ints_ok options ->
  triple (over s (S n)) (export_each strtod global options) (fun _ => over s (S n)).
Proof.
  intros Ho. induction Ho as [|o options Hi Ho IH]; cbn [export_each]; [lua_done|].
  pose proof (over_push_option s). destruct global.
  - do 3 act_step. match goal with |- context [if ?f then _ else _] => destruct f end; [apply IH|].
    eapply triple_bind; [by apply over_push_option|intros ?]. act_step. apply IH.
  - act_step. eapply triple_bind; [by apply over_push_option|intros ?]. act_step. apply IH.
Qed.

(** The table [sysbench] stays on the stack. *)
Lemma over_export_options s n options : ints_ok options ->
  triple (over s n) (export_options strtod options) (fun rc l => over s (S n) l /\ rc = 0).
Proof.
  intros Ho. unfold export_options, do_export_options. cbn match.
  eapply triple_bind with (R := fun rc l => over s (S n) l /\ rc = 0).
  - eapply triple_bind with (R := fun _ => over s (S (S (S n)))); [do 2 act_step; apply over_newtable|intros ?].
    eapply triple_bind; [by apply over_export_each|intros ?]. act_step. lua_done.
  - intros rc. apply triple_pure. intros ->. apply triple_ret. by intros.
Qed.

Lemma over_vars s n l : triple (over s (S n)) (vars l) (fun _ => over s (S n)).
Proof.
  induction l as [|[x v] l IH]; cbn [vars]; [lua_done|]. unfold sb_lua_var_number.
  eapply triple_bind; [lua_steps; apply over_settable|intros ?; apply IH].
Qed.

(** An error, or none, of a protected call, as the code handles it. *)
Lemma over_failed {A} s n (rc : Z) (m1 m2 : act L A) (Q : A -> L -> Prop) r :
  triple (over s (S n)) m1 Q -> triple (over s (r + n)) m2 Q ->
  triple (over s ((if Z.eqb rc 0 then r else 1%nat) + n)) (if negb (rc =? 0) then m1 else m2) Q.
Proof. intros H1 H2. by destruct (rc =? 0). Qed.

Lemma over_hook_push s n name : triple (over s n) (sb_lua_hook_push name) (fun f => over s (Nat.b2n f + n)).
Proof.
  unfold sb_lua_hook_push. do 4 act_step. match goal with |- context [negb ?f] => destruct f end; cbn [negb].
  - lua_steps. lua_done.
  - act_step. lua_done.
Qed.

Lemma over_report_hook s n name stat more : triple (over s n) (report_hook name stat more) (fun _ => over s n).
Proof.
  unfold report_hook, stat_to_lua_table. eapply triple_bind; [apply over_hook_push|]. intros [|]; cbn [negb Nat.b2n Nat.add]; [|lua_done].
  eapply triple_bind with (R := fun _ => over s (S (S n))); [act_step; apply over_vars|intros ?].
  eapply triple_bind; [apply over_vars|intros ?]. act_step. apply over_failed; [apply over_call_error|lua_done].
Qed.

Lemma over_call_optional s n func arg :
  triple (over s n) (call_optional func arg) (fun _ l => over s n l \/ over s (S n) l).
Proof.
  unfold call_optional. do 2 act_step. match goal with |- context [if ?f then _ else _] => destruct f end;
    [apply triple_ret; by right|].
  destruct arg as [z|].
  - eapply triple_bind with (R := fun _ => over s (S n)); [act_step; apply over_pcall11|intros rc].
    destruct (negb (rc =? 0)); [act_step; apply triple_ret; by left|apply triple_ret; by right].
  - act_step. apply over_failed; [act_step; apply triple_ret; by left|apply triple_ret; by left].
Qed.

Lemma over_call_command s n options command : ints_ok options ->
  triple (over s n) (call_custom_command strtod options command) (fun _ => over s (S n)).
Proof.
  intros Ho. unfold call_custom_command. eapply triple_bind; [by apply over_export_options|intros rc].
  apply triple_pure. intros ->. cbn match.
  eapply triple_bind; [apply over_call_cmdline|intros ?]. lua_done.
Qed.
Lemma over_command s n options cmd : ints_ok options ->
  triple (over s n) (script_command strtod options cmd) (fun _ => over s (S n)).
Proof.
  intros Ho. unfold script_command. eapply triple_bind; [by apply over_export_options|intros rc].
  apply triple_pure. intros ->. cbn match. do 2 act_step.
  match goal with |- context [negb ?f] => destruct f end; cbn [negb]; act_step; lua_done.
Qed.

(** ** The search paths *)

Lemma over_eq_l {A} s n m (c : act L A) Q : n = m -> triple (over s n) c Q -> triple (over s m) c Q.
Proof. by intros ->. Qed.

Lemma over_push_all s n l : triple (over s n) (push_all l) (fun _ => over s (length l + n)).
Proof.
  revert n. induction l as [|x l IH]; intros n; cbn [push_all]; [lua_done|]. act_step.
  eapply triple_consequence; [apply (IH (S n))|done|]. cbn [length]. intros _ k. by rewrite Nat.add_succ_r.
Qed.

(** What has been pushed above [top] becomes one field. *)
Lemma over_set_path s n k getenv variable field : (0 < k)%nat ->
  triple (over s (k + n)) (set_path getenv variable field (Z.of_nat (n + length s))) (fun _ => over s n).
Proof.
  intros Hk. unfold set_path.
  eapply triple_bind with (R := fun x l => over s (k + n) l /\ x = Z.of_nat (k + n + length s)).
  { intros l Hl. exists (lua_gettop l), l. split; [done|]. split; [done|]. destruct Hl as (vs & Hn & Hs).
    rewrite top_law, Hs, length_app. lia. }
  intros x. apply triple_pure. intros ->.
  eapply triple_bind with (R := fun _ l => over s (S n) l /\ exists t rest, stack l = LString t :: rest).
  { apply triple_changes. intros l Hl. replace (Z.of_nat (k + n + length s) - Z.of_nat (n + length s)) with (Z.of_nat k) by lia.
    assert (Hlen : (0 < k <= length (stack l))%nat) by (destruct Hl as (vs & Hn & ->); rewrite length_app; lia).
    destruct (concat_law k l Hlen) as [t Ht]. split; [|by eexists _, _].
    destruct Hl as (vs & Hn & Hs). exists (LString t :: drop k vs). rewrite Ht, Hs, drop_app_le by lia.
    split; [cbn; rewrite length_drop; lia|done]. }
  intros []. eapply triple_bind with (R := fun _ => over s (S n)); [|intros []; apply over_setfield].
  destruct (getenv variable) as [path|]; [|apply triple_ret; by intros ? [? _]].
  assert (Hg : forall a b c m, triple (over s m) (calls (luaL_gsub a b c)) (fun _ => over s (S m))).
  { intros a b c m l Hl. unfold calls. pose proof (gsub_law a b c l) as H. destruct (luaL_gsub a b c l) as [y l'].
    exists y, l'. split; [done|]. by apply over_cons with l (LString y). }
  eapply triple_bind with (R := fun d l => over s (S n) l /\ exists t, d = Some t).
  { intros l (Hl & t & rest & Ht). eexists _, l. split; [done|]. split; [done|]. exists t. by apply tostring_law with rest. }
  intros d. apply triple_pure. intros [t ->]. eapply triple_bind; [apply triple_the|intros def]. apply triple_pure. intros ->.
  eapply triple_bind; [apply Hg|intros y]. eapply triple_bind; [apply Hg|intros z]. act_step. apply over_remove2.
Qed.

Ltac above := match goal with Hset : forall k v f, _ |- triple (over _ ?k) _ _ =>
  apply over_eq_l with (Nat.pred k + 1)%nat; [lia|apply Hset; lia] end.

Lemma over_set_paths s getenv DATADIR LIBDIR DLEXT :
  triple (over s 0) (sb_lua_set_paths getenv DATADIR LIBDIR DLEXT) (fun _ => over s 0).
Proof.
  unfold sb_lua_set_paths. act_step.
  eapply triple_bind with (R := fun top l => over s 1 l /\ top = Z.of_nat (1 + length s)).
  { intros l Hl. exists (lua_gettop l), l. split; [done|]. split; [done|]. destruct Hl as (vs & Hn & Hs).
    rewrite top_law, Hs, length_app. lia. }
  intros top. apply triple_pure. intros ->.
  do 3 (eapply triple_bind; [apply over_push_all|intros []]). cbn [length].
  assert (Hset : forall k v f, (0 < k)%nat ->
    triple (over s (k + 1)) (set_path getenv v f (Z.of_nat (1 + length s))) (fun _ => over s 1))
    by (intros; by apply over_set_path).
  eapply triple_bind; [above|intros []].
  do 3 (eapply triple_bind; [apply over_push_all|intros []]). cbn [length].
  eapply triple_bind; [above|intros []].
  apply over_pop1.
Qed.

(** ** Properties *)

(** The call returns, and leaves at most [k] values above the stack it found. *)
Definition leaves {A} (k : nat) (m : act L A) : Prop :=
  forall l, exists x l' vs, m l = Some (x, l') /\ (length vs <= k)%nat /\ stack l' = vs ++ stack l.

Lemma leaves_intro {A} k (m : act L A) :
  (forall s, triple (over s 0) m (fun _ l => exists j, (j <= k)%nat /\ over s j l)) -> leaves k m.
Proof.
  intros H l. destruct (H (stack l) l) as (x & l' & E & j & Hj & vs & Hl & Hs); [by exists []|].
  exists x, l', vs. split; [done|]. by rewrite Hl.
Qed.
Lemma leaves_over {A} k (m : act L A) : (forall s, triple (over s 0) m (fun _ => over s k)) -> leaves k m.
Proof. intros H. apply leaves_intro. intros s. eapply triple_consequence; [apply H|done|]. cbv beta. by exists k. Qed.

Lemma over_optional k s func arg :
  triple (over s k) (call_optional func arg) (fun _ l => exists j, (j <= S k)%nat /\ over s j l).
Proof.
  eapply triple_consequence; [apply over_call_optional|done|]. cbv beta.
  intros _ l [H|H]; [exists k|exists (S k)]; (split; [lia|done]).
Qed.

Lemma over_event s k : triple (fun l => exists j, (j <= k)%nat /\ over s j l) (func_available "event")
  (fun _ l => exists j, (j <= k)%nat /\ over s j l).
Proof.
  intros l (j & Hj & Hl). destruct (over_func_available s j "event" l Hl) as (x & l' & E & Hx).
  exists x, l'. split; [done|]. by exists j.
Qed.

Lemma leaves_some {A} k (m : act L A) : leaves k m -> forall l, is_Some (m l).
Proof. intros H l. destruct (H l) as (x & l' & vs & -> & _). by eexists. Qed.

Section exports.
Context (options : list option_t) (Ho : ints_ok options).

(** After the options have been exported. *)
Lemma leaves_exported {A} k (m1 m2 : act L A) :
  (forall s, triple (over s 1) m2 (fun _ l => exists j, (j <= k)%nat /\ over s j l)) ->
  leaves k (rc ← export_options strtod options; if negb (rc =? 0) then m1 else m2).
Proof.
  intros H. apply leaves_intro. intros s. eapply triple_bind; [by apply over_export_options|intros rc].
  apply triple_pure. intros ->. apply H.
Qed.

Lemma leaves_intermediate stat : leaves 0 (script_report_intermediate stat).
Proof. apply leaves_over. intros s. apply over_report_hook. Qed.
Lemma leaves_cumulative global stat : leaves (Nat.b2n global) (script_report_cumulative strtod options global stat).
Proof.
  apply leaves_over. intros s. unfold script_report_cumulative. destruct global.
  - eapply triple_bind with (R := fun _ => over s 1); [|intros ?; apply over_report_hook].
    eapply triple_bind; [by apply over_export_options|intros rc]. apply triple_pure. intros _. lua_done.
  - eapply triple_bind with (R := fun _ => over s 0); [lua_done|intros ?; apply over_report_hook].
Qed.
Lemma leaves_thread_run id : leaves 1 (script_thread_run id).
Proof.
  apply leaves_intro. intros s. unfold script_thread_run. do 3 act_step.
  match goal with |- context [if ?f then _ else _] => destruct f end.
  - act_step. apply triple_ret. intros. exists 0%nat. split; [lia|done].
  - apply triple_ret. intros. exists 1%nat. split; [lia|done].
Qed.
Lemma leaves_optional func arg : leaves 1 (call_optional func arg).
Proof. apply leaves_intro. intros s. apply over_optional. Qed.
Lemma leaves_init : leaves 2 (script_init strtod options).
Proof.
  apply leaves_exported. intros s. eapply triple_bind; [apply over_optional|intros rc].
  match goal with |- context [if ?f then _ else _] => destruct f end; [lua_done|].
  eapply triple_bind; [apply over_event|intros f]. lua_done.
Qed.
Lemma leaves_thread_init id : leaves 2 (script_thread_init strtod options id).
Proof. apply leaves_exported. intros s. apply over_optional. Qed.
Lemma leaves_cmdline name arg : leaves 0 (call_cmdline name arg).
Proof. apply leaves_over. intros s. apply over_call_cmdline. Qed.
End exports.

(** Whatever the script does, its functions return to a stack of bounded height:
    reports, and the questions about commands, leave it as it was; an export of the
    options leaves the table sysbench on it, and the optional functions at most one
    value more. *)
Theorem script_stack options id name stat : ints_ok options ->
  leaves 0 (script_report_intermediate stat)
  /\ leaves 0 (script_report_cumulative strtod options false stat)
  /\ leaves 0 (script_command_defined name) /\ leaves 0 (script_command_parallel name)
  /\ leaves 1 (script_report_cumulative strtod options true stat)
  /\ leaves 1 (call_custom_command strtod options name) /\ leaves 1 (script_command strtod options name)
  /\ leaves 1 (script_thread_run id) /\ leaves 1 (script_thread_done id) /\ leaves 1 script_done
  /\ leaves 2 (script_init strtod options) /\ leaves 2 (script_thread_init strtod options id).
Proof.
  intros Ho. repeat split.
  - apply leaves_intermediate.
  - by apply leaves_cumulative.
  - apply leaves_over. intros s. eapply triple_bind; [apply over_call_cmdline|intros ?; lua_done].
  - apply leaves_over. intros s. eapply triple_bind; [apply over_call_cmdline|intros ?; lua_done].
  - by apply leaves_cumulative.
  - apply leaves_over. intros s. by apply over_call_command.
  - apply leaves_over. intros s. by apply over_command.
  - apply leaves_thread_run.
  - apply leaves_optional.
  - apply leaves_optional.
  - by apply leaves_init.
  - by apply leaves_thread_init.
Qed.
End script_stack.
#[export] Hint Resolve over_call_error over_func_available over_call_cmdline : act.

(** A question that cannot be asked is answered with yes: without the function of
    the internal scripts every command is taken for one of the script. *)
Lemma missing_function_means_yes {L} `{!LuaApi L} name (l : L) :
  lua_isfunction (-1) (lua_getfield (-1) "command_defined" (lua_getfield (-1) "cmdline" (lua_getglobal "sysbench" l))) = false ->
  exists l', script_command_defined name l = Some (true, l').
Proof.
  intros H. unfold script_command_defined, call_cmdline, reads, changes, mret, act_ret, mbind, act_bind. cbn. rewrite H. by eexists.
Qed.

(** ** Opening an interpreter *)

Section defined.
Context {L : Type} `{!LuaApi L, !LuaLaws L}.

(** Calls that always return. *)
Definition returns {A} (m : act L A) : Prop := forall l, is_Some (m l).

Lemma returns_bind {A B} (m : act L A) (f : A -> act L B) : returns m -> (forall x, returns (f x)) -> returns (x ← m; f x).
Proof. intros Hm Hf l. unfold mbind, act_bind. destruct (Hm l) as [[x l'] ->]. apply Hf. Qed.
Lemma returns_ret {A} (x : A) : returns (mret x).
Proof. intros l. by eexists. Qed.
Lemma returns_changes f : returns (changes f).
Proof. intros l. by eexists. Qed.
Lemma returns_reads {A} (f : L -> A) : returns (reads f).
Proof. intros l. by eexists. Qed.
Lemma returns_calls {A} (f : L -> A * L) : returns (calls f).
Proof. intros l. by eexists. Qed.
Lemma returns_if {A} (b : bool) (m1 m2 : act L A) : returns m1 -> returns m2 -> returns (if b then m1 else m2).
Proof. by destruct b. Qed.
Lemma returns_call_error : returns (call_error (L := L)).
Proof. apply returns_changes. Qed.
Lemma returns_report_error : returns (report_error (L := L)).
Proof. apply returns_changes. Qed.
End defined.
Create HintDb returns.
#[export] Hint Resolve returns_ret returns_changes returns_reads returns_calls returns_call_error returns_report_error : returns.

Ltac returns := repeat first
  [ progress eauto with returns
  | apply returns_bind; [|intros ?]
  | apply returns_if
  | match goal with |- returns (match ?x with _ => _ end) => destruct x end ].

Section opening.
Context {L : Type} `{!LuaApi L, !LuaLaws L}.

Lemma split_at_shorter c s a r : split_at c s = (a, Some r) -> (String.length r < String.length s)%nat.
Proof.
  revert a. induction s as [|x s IH]; intros a; cbn [split_at]; [done|]. destruct (Ascii.eqb x c); cbn [String.length].
  - intros [= _ <-]. lia.
  - destruct (split_at c s) as [b o] eqn:E. intros [= _ ->]. specialize (IH b eq_refl). lia.
Qed.

Lemma push_args_returns fuel : forall opt n, (String.length opt < fuel)%nat -> returns (push_args (L := L) fuel opt n).
Proof.
  induction fuel as [|fuel IH]; intros opt n Hf; [lia|]. cbn [push_args]. destruct (split_at "," opt) as [a r] eqn:E.
  apply returns_bind; [auto with returns|intros ?]. destruct r as [r|]; [|auto with returns].
  apply IH. apply split_at_shorter in E. lia.
Qed.

Lemma jitcmd_returns cmd : returns (sb_lua_do_jitcmd (L := L) cmd).
Proof.
  unfold sb_lua_do_jitcmd. destruct (split_at "=" cmd) as [name opt].
  assert (Ha : forall o, returns (push_args (L := L) (S (String.length o)) o 0)) by (intros; by apply push_args_returns; lia).
  unfold pcall. returns.
Qed.

Lemma set_paths_returns getenv D1 D2 D3 : returns (sb_lua_set_paths (L := L) getenv D1 D2 D3).
Proof.
  intros l. destruct (over_set_paths (stack l) getenv D1 D2 D3 l) as (x & l' & E & _); [by exists []|]. rewrite E. by eexists.
Qed.

Lemma push_argv_returns argv : forall i, returns (push_argv (L := L) i argv).
Proof. induction argv as [|a argv IH]; intros i; cbn [push_argv]; returns. Qed.

Lemma export_sysbench_returns v1 v2 e : returns (export_sysbench (L := L) v1 v2 e).
Proof.
  pose proof (push_argv_returns (e_argv e)). unfold export_sysbench, sb_lua_var_string, sb_lua_var_number. returns.
Qed.

(** An interpreter is opened, or refused, when the internal scripts that load run
    without an error. *)
Lemma open_state_returns getenv D1 D2 D3 source v1 v2 e :
  (forall name l l', luaL_loadbuffer (source name) name l = (0, l') -> is_Some (lua_call 0 0 l')) ->
  returns (open_state (L := L) getenv D1 D2 D3 source v1 v2 e).
Proof.
  intros Hc. pose proof (set_paths_returns getenv D1 D2 D3). pose proof (export_sysbench_returns v1 v2 e).
  assert (Hi : forall l, returns (load_internal_scripts (L := L) source l)).
  { induction l as [|name l IH]; cbn [load_internal_scripts]; [auto with returns|]. intros k.
    destruct (luaL_loadbuffer (source name) name k) as [err k'] eqn:E.
    rewrite (bind_some (calls (luaL_loadbuffer (source name) name)) _ k err k') by (unfold calls; by rewrite E).
    destruct (Z.eqb_spec err 0) as [->|Hne]; cbn [negb].
    - destruct (Hc name k k' E) as [k2 Hk].
      rewrite (bind_some (calls_through (lua_call 0 0)) _ k' tt k2) by (unfold calls_through; by rewrite Hk). apply IH.
    - by eexists. }
  assert (Hs : forall n, returns (load_script (L := L) n)) by (intros n; unfold load_script, pcall; returns).
  pose proof (jitcmd_returns). unfold open_state. returns.
Qed.
End opening.

(** ** Exported options *)

Section exported.
Context {L : Type} `{!LuaApi L, !LuaLaws L} (strtod : string -> dbl).

(** A list in a table, from 1 on. *)
Definition items (h : lua_value -> lua_value) (values : list value_t) : Prop :=
  forall i, Z.of_nat i + 1 < 2 ^ 53 ->
    h (LNumber (d_of_Z (Z.of_nat i + 1))) = from_option (fun v => LString (val_data v)) LNil (values !! i).

(** The value of an option; the table of a list is none of [avoid]. *)
Definition shows (avoid : list nat) (l : L) (v : lua_value) (o : option_t) : Prop :=
  match opt_type o with
  | SB_ARG_TYPE_BOOL => v = LBoolean (negb (bool_decide (opt_values o = [])))
  | SB_ARG_TYPE_INT => exists n, sb_opt_to_int o = Ret n /\ v = LNumber (d_of_Z n)
  | SB_ARG_TYPE_DOUBLE => v = LNumber (sb_opt_to_double strtod o)
  | SB_ARG_TYPE_SIZE => v = LNumber (d_of_Z (sb_opt_to_size o))
  | SB_ARG_TYPE_STRING => v = LString (default ""%string (sb_opt_to_string o))
  | SB_ARG_TYPE_LIST => exists u h, v = LObject u /\ (u ∉ avoid) /\ tables l u = Some h /\ items h (sb_opt_to_list o)
  | _ => v = LNil
  end.

(** The tables that exist, but for [t], are unchanged. *)
Definition keeps (t : option nat) (l l' : L) : Prop :=
  forall u, Some u <> t -> tables l u <> None -> tables l' u = tables l u.

Lemma keeps_trans t l1 l2 l3 : keeps t l1 l2 -> keeps t l2 l3 -> keeps t l1 l3.
Proof. intros H1 H2 u Hu Hn. rewrite <- (H1 u Hu Hn). apply H2; [done|]. by rewrite (H1 u Hu Hn). Qed.
Lemma keeps_same t (l l' : L) : tables l' = tables l -> keeps t l l'.
Proof. intros H u _ _. by rewrite H. Qed.
Lemma keeps_weaken t l l' : keeps None l l' -> keeps t l l'.
Proof. intros H u _. by apply H. Qed.

Lemma shows_keeps avoid t l l' v o : t ∈ avoid -> shows avoid l v o -> keeps (Some t) l l' -> shows avoid l' v o.
Proof.
  intros Hin H Hk. unfold shows in *. destruct (opt_type o); try done.
  destruct H as (u & h & -> & Hu & Ht & Hi). exists u, h. repeat split; try done.
  rewrite Hk, Ht; [done|by intros [= ->]|by rewrite Ht].
Qed.

Lemma d_of_Z_inj x y : 0 <= x < 2 ^ 53 -> 0 <= y < 2 ^ 53 -> d_of_Z x = d_of_Z y -> x = y.
Proof.
  intros Hx Hy. rewrite !d_of_Z_exact by done. intros [= H]. apply Z.mul_reg_r in H; [done|]. by vm_compute.
Qed.

(** The next item of a list. *)
Lemma items_snoc h prefix x n : items h prefix -> n = Z.of_nat (length prefix) + 1 -> n < 2 ^ 53 ->
  items (fun k => if decide (k = LNumber (d_of_Z n)) then LString (val_data x) else h k) (prefix ++ [x]).
Proof.
  intros Hi -> Hn i Hlt. destruct (decide (i = length prefix)) as [->|Hne].
  - rewrite decide_True by done. by rewrite lookup_app_r, Nat.sub_diag by done.
  - rewrite decide_False; [|intros [= He]; apply d_of_Z_inj in He; lia]. rewrite Hi by done.
    destruct (decide (i < length prefix)%nat); [by rewrite lookup_app_l|].
    rewrite lookup_ge_None_2 by lia. rewrite lookup_ge_None_2; [done|]. rewrite length_app. cbn. lia.
Qed.

Lemma push_list_items u values : forall prefix l h s,
  stack l = LObject u :: s -> tables l u = Some h -> items h prefix ->
  Z.of_nat (length prefix + length values) < 2 ^ 53 ->
  exists l' h', push_list (Z.of_nat (length prefix) + 1) values l = Some (tt, l') /\ stack l' = LObject u :: s
    /\ tables l' u = Some h' /\ items h' (prefix ++ values) /\ keeps (Some u) l l'.
Proof.
  induction values as [|x values IH]; intros prefix l h s Hs Ht Hi Hlen; cbn [push_list].
  - exists l, h. rewrite app_nil_r. by repeat split.
  - set (n := Z.of_nat (length prefix) + 1). set (l1 := lua_pushstring (Some (val_data x)) l). set (l2 := lua_rawseti (-2) n l1).
    destruct (push_law (LString (val_data x)) l : stack l1 = _ /\ tables l1 = _) as [Hs1 Ht1].
    assert (Hr : forall w, tables l2 w = if decide (w = u) then
      Some (fun k' => if decide (k' = LNumber (d_of_Z n)) then LString (val_data x) else h k') else tables l1 w).
    { apply (rawseti_table n l1 _ u s h); [by rewrite Hs1, Hs|by rewrite Ht1]. }
    cbn [length] in Hlen. destruct (IH (prefix ++ [x]) l2
      (fun k' => if decide (k' = LNumber (d_of_Z n)) then LString (val_data x) else h k') s) as (l' & h' & E & Hs' & Ht' & Hi' & Hk').
    + subst l2. rewrite rawseti_law, Hs1. by rewrite Hs.
    + rewrite Hr. by rewrite decide_True.
    + apply items_snoc; [done|done|lia].
    + rewrite length_app. cbn [length]. lia.
    + exists l', h'. split; [|split; [done|split; [done|split]]].
      * rewrite length_app in E. cbn [length] in E.
        replace (Z.of_nat (length prefix + 1) + 1) with (n + 1) in E by lia. exact E.
      * by rewrite <- app_assoc in Hi'.
      * apply keeps_trans with l2; [|done]. intros w Hw Hn. rewrite Hr, decide_False by congruence. by rewrite Ht1.
Qed.

(** The value of an option is pushed; tables that exist stay what they are. *)
Lemma push_option_shows avoid o l : (opt_type o = SB_ARG_TYPE_INT -> exists n, sb_opt_to_int o = Ret n) ->
  Z.of_nat (length (opt_values o)) < 2 ^ 53 -> (forall t, t ∈ avoid -> tables l t <> None) ->
  exists l' v, push_option strtod o l = Some (tt, l') /\ stack l' = v :: stack l /\ shows avoid l' v o /\ keeps None l l'.
Proof.
  intros Hint Hlen Ht.
  assert (Hp : forall v, exists l', changes (lua_push v) l = Some (tt, l') /\ stack l' = v :: stack l /\ keeps None l l').
  { intros v. destruct (push_law v l) as [Hs Htab]. exists (lua_push v l). split; [done|]. split; [done|]. by apply keeps_same. }
  unfold push_option, shows. destruct (opt_type o) eqn:Ety;
    try (match goal with |- context [changes (lua_push ?v) l] => destruct (Hp v) as (l' & E & Hs & Hk) end;
         eexists l', _; split; [exact E|]; split; [exact Hs|]; split; [|exact Hk]).
  - done.
  - unfold sb_opt_to_flag. by destruct (bool_decide _).
  - destruct (Hint eq_refl) as [n Hn]. rewrite Hn. destruct (Hp (LNumber (d_of_Z n))) as (l' & E & Hs & Hk).
    exists l', (LNumber (d_of_Z n)). split; [exact E|]. split; [done|]. split; [by exists n|done].
  - destruct (Hp (LNumber (d_of_Z (sb_opt_to_size o)))) as (l' & E & Hs & Hk). by exists l', (LNumber (d_of_Z (sb_opt_to_size o))).
  - done.
  - done.
  - destruct (newtable_law l) as (u & Hs & Hu & Ht1). set (l1 := lua_newtable l) in *.
    destruct (push_list_items u (sb_opt_to_list o) [] l1 (fun _ => LNil) (stack l)) as (l' & h & E & Hs' & Hh & Hi & Hk);
      [done|by rewrite Ht1, decide_True|by intros i _|done|].
    exists l', (LObject u). split; [exact E|]. split; [done|]. split.
    + exists u, h. repeat split; try done. intros Hin. by apply (Ht u Hin).
    + intros w _ Hn. rewrite Hk; [|congruence|]; rewrite Ht1, decide_False by congruence; done.
  - done.
  - done.
Qed.

Definition exportable (options : list option_t) : Prop :=
  ints_ok options /\ Forall (fun o => Z.of_nat (length (opt_values o)) < 2 ^ 53) options.

Lemma export_each_shows avoid t s options : forall done l o,
  exportable options -> NoDup (opt_names (done ++ options)) -> stack l = LObject t :: s -> tables l t = Some o ->
  t ∈ avoid -> (forall u, u ∈ avoid -> tables l u <> None) ->
  (forall x, x ∈ done -> shows avoid l (o (LString (opt_name x))) x) ->
  (forall k, (forall x, x ∈ done -> k <> LString (opt_name x)) -> o k = LNil) ->
  exists l' o', export_each strtod false options l = Some (tt, l') /\ stack l' = LObject t :: s /\ tables l' t = Some o'
    /\ keeps (Some t) l l' /\ (forall x, x ∈ done ++ options -> shows avoid l' (o' (LString (opt_name x))) x)
    /\ (forall k, (forall x, x ∈ done ++ options -> k <> LString (opt_name x)) -> o' k = LNil).
Proof.
  induction options as [|x options IH]; intros done l o [Hi Hl] Hnd Hs Ht Hav Hold Hd Hn; cbn [export_each].
  - exists l, o. rewrite app_nil_r. by repeat split.
  - apply Forall_cons in Hi as [Hx Hi]. apply Forall_cons in Hl as [Hlx Hl].
    set (name := LString (opt_name x)). set (l1 := lua_pushstring (Some (opt_name x)) l).
    destruct (push_law name l : stack l1 = _ /\ tables l1 = _) as [Hs1 Ht1].
    destruct (push_option_shows avoid x l1 Hx Hlx) as (l2 & v & E2 & Hs2 & Hv & Hk2); [intros u Hu; rewrite Ht1; auto|].
    assert (Ht2 : tables l2 t = Some o) by (rewrite Hk2; congruence).
    set (l3 := lua_settable (-3) l2).
    assert (Ht3 : forall u, tables l3 u = if decide (u = t) then Some (fun k => if decide (k = name) then v else o k) else tables l2 u)
      by (apply (settable_table l2 v name t s o); [by rewrite Hs2, Hs1, Hs|done|done|done]).
    assert (Hk3 : keeps (Some t) l2 l3) by (intros u Hu _; rewrite Ht3, decide_False by congruence; done).
    assert (Hk : keeps (Some t) l l3)
      by (apply keeps_trans with l2; [apply keeps_weaken, keeps_trans with l1; [by apply keeps_same|done]|done]).
    destruct (IH (done ++ [x]) l3 (fun k => if decide (k = name) then v else o k)) as (l' & o' & E & Hs' & Ht' & Hk' & Hd' & Hn').
    + done.
    + by rewrite <- app_assoc.
    + subst l3. rewrite settable_law, Hs2, Hs1. exact Hs.
    + by rewrite Ht3, decide_True.
    + done.
    + intros u Hu. rewrite Ht3. destruct (decide (u = t)); [done|]. rewrite Hk2; [rewrite Ht1; auto|done|rewrite Ht1; auto].
    + assert (Hfresh : forall y, y ∈ done -> LString (opt_name y) <> name).
      { intros y Hy [= Heq]. unfold opt_names in Hnd. rewrite fmap_app, fmap_cons in Hnd.
        apply NoDup_app in Hnd as (_ & Hdis & _). apply (Hdis (opt_name y)); [by apply list_elem_of_fmap_2|].
        rewrite Heq. left. }
      intros y [Hy|Hy]%elem_of_app.
      * rewrite decide_False by auto. apply shows_keeps with t l; [done|by apply Hd|done].
      * apply list_elem_of_singleton in Hy as ->. rewrite decide_True by done. by apply shows_keeps with t l2.
    + intros k Hk0. rewrite decide_False; [apply Hn; intros y Hy|]; apply Hk0; set_solver.
    + exists l', o'. rewrite <- app_assoc in Hd', Hn'. split; [|split; [done|split; [done|split; [|done]]]].
      * rewrite (bind_some (changes (lua_pushstring (Some (opt_name x)))) _ l tt l1 eq_refl), (bind_some _ _ l1 tt l2 E2).
        by rewrite (bind_some (changes (lua_settable (-3))) _ l2 tt l3 eq_refl).
      * by apply keeps_trans with l3.
Qed.

(** C24: after the export, [sysbench.opt] has every option under its name with its
    value, lists as arrays, and nothing else; the rest of [sysbench] is unchanged. *)
Theorem options_exported options l g sys f :
  exportable options -> NoDup (opt_names options) ->
  tables l globals = Some g -> g (LString "sysbench") = LObject sys -> tables l sys = Some f ->
  exists l' f' t o, export_options strtod options l = Some (0, l')
    /\ tables l' sys = Some f' /\ f' (LString "opt") = LObject t /\ (forall k, k <> LString "opt" -> f' k = f k)
    /\ tables l' t = Some o
    /\ (forall x, x ∈ options -> shows [t; sys] l' (o (LString (opt_name x))) x)
    /\ (forall k, (forall x, x ∈ options -> k <> LString (opt_name x)) -> o k = LNil).
Proof.
  intros Ho Hnd Hg Hsys Hf. unfold export_options, do_export_options.
  set (l1 := lua_getglobal "sysbench" l). destruct (getglobal_law "sysbench" l) as (v & Hs1 & Hv).
  fold l1 in Hs1, Hv. destruct (Hv g Hg) as [-> Ht1]. rewrite Hsys in Hs1.
  set (l2 := lua_push (LString "opt") l1). destruct (push_law (LString "opt") l1 : stack l2 = _ /\ tables l2 = _) as [Hs2 Ht2].
  set (l3 := lua_newtable l2). destruct (newtable_law l2) as (t & Hs3 & Hnew & Ht3). fold l3 in Hs3, Ht3.
  destruct (export_each_shows [t; sys] t (stack l2) options [] l3 (fun _ => LNil)) as (l4 & o & E4 & Hs4 & Ht4 & Hk4 & Hd4 & Hn4); try done; assert (Hne : sys <> t) by congruence.
  { by rewrite Ht3, decide_True. }
  { left. }
  { intros u Hu. rewrite Ht3. destruct (decide (u = t)); [done|].
    assert (u = sys) as -> by set_solver. congruence. }
  { by intros x ?%elem_of_nil. }
  assert (Hsys4 : tables l4 sys = Some f).
  { rewrite Hk4; [|congruence|]; rewrite Ht3, decide_False by congruence; congruence. }
  set (l5 := lua_settable (-3) l4).
  assert (Ht5 : forall u, tables l5 u =
    if decide (u = sys) then Some (fun k => if decide (k = LString "opt") then LObject t else f k) else tables l4 u)
    by (apply (settable_table l4 (LObject t) (LString "opt") sys (stack l) f); [by rewrite Hs4, Hs2, Hs1|done|done|done]).
  exists l5, (fun k => if decide (k = LString "opt") then LObject t else f k), t, o.
  split; [|split; [|split; [|split; [|split; [|split]]]]].
  - cbn match. erewrite (bind_some _ _ l 0 l5); [reflexivity|]. erewrite (bind_some _ _ l tt l3).
    2: { rewrite (bind_some (changes (lua_getglobal "sysbench")) _ l tt l1 eq_refl).
         by rewrite (bind_some (changes (lua_push (LString "opt"))) _ l1 tt l2 eq_refl). }
    rewrite (bind_some _ _ _ tt l4 E4). by rewrite (bind_some (changes (lua_settable (-3))) _ l4 tt l5 eq_refl).
  - by rewrite Ht5, decide_True.
  - by rewrite decide_True.
  - intros k Hk. by rewrite decide_False.
  - rewrite Ht5, decide_False by done. done.
  - intros x Hx. specialize (Hd4 x Hx). unfold shows in *. destruct (opt_type x); try done.
    destruct Hd4 as (u & h & Hu & Hut & Hh & Hit). exists u, h. repeat split; try done.
    rewrite Ht5, decide_False; [done|]. intros ->. apply Hut. set_solver.
  - exact Hn4.
Qed.
End exported.

(** ** LuaJIT in memory, for the witnesses

    Objects that are no tables are functions, which return true; calling anything else
    is an error.  The internal scripts define a function that the code looks up. *)

Record luam := Luam { m_stack : list lua_value; m_tables : gmap nat (list (lua_value * lua_value)) }.

Fixpoint assoc (l : list (lua_value * lua_value)) (k : lua_value) : lua_value :=
  match l with [] => LNil | (k', v) :: l => if decide (k = k') then v else assoc l k end.

Definition set_stack (s : list lua_value) (l : luam) : luam := Luam s (m_tables l).
Definition slot (i : Z) (l : luam) : option lua_value :=
  if i <? 0 then m_stack l !! (Z.to_nat (- i) - 1)%nat else reverse (m_stack l) !! (Z.to_nat i - 1)%nat.
Definition callable (l : luam) (v : option lua_value) : bool :=
  match v with Some (LObject n) => (1000 <=? n)%nat || bool_decide (m_tables l !! n = None) | _ => false end.
Definition store (v : option lua_value) (k x : lua_value) (l : luam) : luam :=
  match v with
  | Some (LObject t) =>
      match m_tables l !! t with
      | Some kvs => Luam (m_stack l) (<[t := (k, x) :: kvs]> (m_tables l))
      | None => l
      end
  | _ => l
  end.
Definition field_of (v : option lua_value) (k : lua_value) (l : luam) : lua_value :=
  match v with Some (LObject t) => from_option (fun kvs => assoc kvs k) LNil (m_tables l !! t) | _ => LNil end.
Definition text_of (v : lua_value) : string := match v with LString s => s | _ => ""%string end.
Definition install (l : luam) : luam :=
  store (Some (field_of (Some (field_of (Some (LObject 0)) (LString "sysbench") l)) (LString "cmdline") l))
    (LString "read_cmdline_options") (LObject 1000) l.
Definition mem_pcall (nargs nresults : Z) (l : luam) : Z * luam :=
  let rest := drop (S (Z.to_nat nargs)) (m_stack l) in
  if callable l (m_stack l !! Z.to_nat nargs) then (0, set_stack (replicate (Z.to_nat nresults) (LBoolean true) ++ rest) l)
  else (2, set_stack (LString "attempt to call" :: rest) l).

#[export] Instance luam_api : LuaApi luam := {|
  luaL_newstate := Some (Luam [] {[ 0%nat := [] ]});
  luaL_openlibs l := l;
  lua_gettop l := Z.of_nat (length (m_stack l));
  lua_push v l := set_stack (v :: m_stack l) l;
  lua_pushvalue i l := set_stack (default LNil (slot i l) :: m_stack l) l;
  lua_pop n l := set_stack (drop (Z.to_nat n) (m_stack l)) l;
  lua_remove i l := set_stack (delete (Z.to_nat (- i) - 1)%nat (m_stack l)) l;
  lua_concat n l := let k := Z.to_nat n in
    set_stack (LString (String.concat "" (map text_of (reverse (take k (m_stack l))))) :: drop k (m_stack l)) l;
  lua_newtable l := let t := fresh (dom (m_tables l)) in Luam (LObject t :: m_stack l) (<[t := []]> (m_tables l));
  lua_getglobal n l := set_stack (field_of (Some (LObject 0)) (LString n) l :: m_stack l) l;
  lua_setglobal n l := set_stack (drop 1 (m_stack l)) (store (Some (LObject 0)) (LString n) (default LNil (slot (-1) l)) l);
  lua_getfield i n l := set_stack (field_of (slot i l) (LString n) l :: m_stack l) l;
  lua_setfield i n l := set_stack (drop 1 (m_stack l)) (store (slot i l) (LString n) (default LNil (slot (-1) l)) l);
  lua_gettable i l := set_stack (field_of (slot i l) (default LNil (slot (-1) l)) l :: drop 1 (m_stack l)) l;
  lua_settable i l := set_stack (drop 2 (m_stack l)) (store (slot i l) (default LNil (slot (-2) l)) (default LNil (slot (-1) l)) l);
  lua_rawseti i n l := set_stack (drop 1 (m_stack l)) (store (slot i l) (LNumber (d_of_Z n)) (default LNil (slot (-1) l)) l);
  lua_isfunction i l := callable l (slot i l);
  lua_isnil i l := bool_decide (slot i l = Some LNil);
  lua_toboolean i l := negb (bool_decide (slot i l = Some LNil) || bool_decide (slot i l = Some (LBoolean false)));
  lua_tostring i l := match slot i l with Some (LString s) => Some s | _ => None end;
  lua_pcall := mem_pcall;
  lua_call n r l := Some (install (set_stack (replicate (Z.to_nat r) (LBoolean true) ++ drop (S (Z.to_nat n)) (m_stack l)) l));
  luaL_loadbuffer _ _ l := (0, set_stack (LObject 1000 :: m_stack l) l);
  luaL_loadfile _ l := (0, set_stack (LObject 1000 :: m_stack l) l);
  luaL_newmetatable _ l := let t := fresh (dom (m_tables l)) in Luam (LObject t :: m_stack l) (<[t := []]> (m_tables l));
  luaL_gsub s _ _ l := (s, set_stack (LString s :: m_stack l) l)
|}.

Lemma install_stack l : m_stack (install l) = m_stack l.
Proof. unfold install, store. destruct (field_of _ _ l); try done. by destruct (_ !! _). Qed.

Lemma mem_pcall_stack nargs nresults l : (S nargs <= length (m_stack l))%nat ->
  let '(rc, l') := mem_pcall (Z.of_nat nargs) (Z.of_nat nresults) l in
  exists vs, length vs = (if Z.eqb rc 0 then nresults else 1%nat) /\ m_stack l' = vs ++ drop (S nargs) (m_stack l).
Proof.
  intros H. unfold mem_pcall. rewrite !Nat2Z.id. destruct (callable _ _); cbn [Z.eqb].
  - eexists. split; [apply length_replicate|done].
  - by exists [LString "attempt to call"].
Qed.

Definition contents (kvs : list (lua_value * lua_value)) (k : lua_value) : lua_value := assoc kvs k.

Lemma store_contents t f k x l : contents <$> m_tables l !! t = Some f ->
  forall u, contents <$> m_tables (store (Some (LObject t)) k x l) !! u =
    if decide (u = t) then Some (fun k' => if decide (k' = k) then x else f k') else contents <$> m_tables l !! u.
Proof.
  intros (kvs & Hk & ->)%fmap_Some u. unfold store. rewrite Hk. cbn.
  destruct (decide (u = t)) as [->|Hu]; [by rewrite lookup_insert_eq|by rewrite lookup_insert_ne].
Qed.

#[export] Instance luam_laws : LuaLaws luam.
Proof.
  refine {| stack := m_stack; tables := fun l t => contents <$> m_tables l !! t; globals := 0%nat |};
    intros; cbn; try done; try (by eexists).
  - by rewrite Nat2Z.id.
  - f_equal. f_equal. lia.
  - eexists. by rewrite Nat2Z.id.
  - exists (fresh (dom (m_tables l))). split; [done|]. assert (Hf : m_tables l !! fresh (dom (m_tables l)) = None)
      by (apply not_elem_of_dom, is_fresh). rewrite Hf. split; [done|]. intros u.
    destruct (decide (u = fresh (dom (m_tables l)))) as [->|Hu]; [by rewrite lookup_insert_eq|by rewrite lookup_insert_ne].
  - eexists. split; [done|]. intros g Hg. apply fmap_Some in Hg as (kvs & Hk & ->). split; [|done].
    unfold field_of. by rewrite Hk.
  - match goal with H : m_stack _ = _ |- _ => unfold slot; rewrite H end. by apply store_contents.
  - match goal with H : m_stack _ = _ |- _ => unfold slot; rewrite H end. by apply store_contents.
  - match goal with H : m_stack _ = _ |- _ => unfold slot; by rewrite H end.
  - by apply mem_pcall_stack.
  - match goal with H : lua_call _ _ _ = _ |- _ => injection H as <- end.
    exists (replicate nresults (LBoolean true)). split; [apply length_replicate|]. by rewrite install_stack, !Nat2Z.id.
  - by match goal with H : luaL_newstate = _ |- _ => injection H as <- end.
Defined.

(** The globals [sysbench], an empty table, and the functions [event] and [prepare]. *)
Definition mem_lua : luam :=
  Luam [] {[ 0%nat := [(LString "sysbench", LObject 1); (LString "event", LObject 100); (LString "prepare", LObject 101)];
             1%nat := [] ]}.
Definition mem_options : list option_t :=
  [Opt "tables" SB_ARG_TYPE_INT [Value "4" false] false None;
   Opt "mysql_host" SB_ARG_TYPE_LIST [Value "db1" false; Value "db2" false] false None].

Lemma mem_options_exportable : exportable mem_options.
Proof. split; repeat constructor; cbn; try done; intros; by eexists. Qed.

Lemma options_exported_witness : exists l' t o,
  export_options (fun _ => Fin 0) mem_options mem_lua = Some (0, l') /\ tables l' t = Some o
  /\ o (LString "tables") = LNumber (d_of_Z 4)
  /\ exists u h, o (LString "mysql_host") = LObject u /\ tables l' u = Some h
       /\ h (LNumber (d_of_Z 2)) = LString "db2" /\ h (LNumber (d_of_Z 3)) = LNil.
Proof.
  destruct (options_exported (fun _ => Fin 0) mem_options mem_lua (contents [(LString "sysbench", LObject 1);
    (LString "event", LObject 100); (LString "prepare", LObject 101)]) 1 (contents []) mem_options_exportable)
    as (l' & f' & t & o & E & _ & _ & _ & Ht & Ho & _); [decide_closed|reflexivity|reflexivity|reflexivity|].
  exists l', t, o. split; [exact E|]. split; [exact Ht|].
  destruct (Ho (Opt "tables" SB_ARG_TYPE_INT [Value "4" false] false None) ltac:(left)) as (n & Hn & Hv).
  assert (En : n = 4) by (vm_compute in Hn; by injection Hn as <-). rewrite En in Hv. split; [exact Hv|].
  destruct (Ho (Opt "mysql_host" SB_ARG_TYPE_LIST [Value "db1" false; Value "db2" false] false None) ltac:(right; left))
    as (u & h & Hu & _ & Hh & Hi).
  exists u, h. split; [exact Hu|]. split; [exact Hh|]. split; [apply (Hi 1%nat)|apply (Hi 2%nat)]; vm_compute; reflexivity.
Defined.

Lemma script_stack_witness : exists rc l' vs,
  script_init (fun _ => Fin 0) mem_options mem_lua = Some (rc, l') /\ (length vs <= 2)%nat /\ stack l' = vs ++ [] /\ rc = 0.
Proof.
  destruct (script_stack (fun _ => Fin 0) mem_options 0 "prepare" (Stat 0 (Fin 0) (Fin 0) (Fin 0) (Fin 0) (Fin 0) (Fin 0)
    (Fin 0) 0 0 0 0 0 0 0 0 0 0) (proj1 mem_options_exportable)) as (_ & _ & _ & _ & _ & _ & _ & _ & _ & _ & H & _).
  destruct (H mem_lua) as (rc & l' & vs & E & Hl & Hs). exists rc, l', vs. split; [exact E|]. split; [exact Hl|].
  split; [exact Hs|]. vm_compute in E. injection E as E _. symmetry. exact E.
Defined.
