(* ===== verification/LuaTest.v ===== *)
(** * Scripts ([sb_lua.c]): the test and its interpreters

    The interpreters of the program, of the workers and of the report threads, which
    hold them by pointers; [me] is the thread that calls, whose variable [tls_lua_ctxt]
    is [tls_L !! me].  What happens inside an interpreter is in [Lua].  A null pointer
    given to LuaJIT, or that of an interpreter that has been closed, is undefined
    behaviour ([None]). *)

From S2P Require Import Prelude Double Options Counter Timer Reports Driver Lua.

#[local] Set Warnings "-clear-no-such-hyp".

(** ** The test *)

(** [sbtest]: of the commands and operations, whether they are those of the script. *)
Record script_test := ScriptTest {
  t_sname : option string;
  t_lname : option string;
  t_args : option (list sb_arg_t);
  has_prepare : bool;
  has_cleanup : bool;
  has_help : bool;
  has_qgen : bool;
  has_thread_run : bool;
  has_report_intermediate : bool;
  has_report_cumulative : bool
}.

(** The state of the file: the interpreters that are open, the next to be allocated,
    [gstate], the thread-local pointers, [states] and [sbtest]. *)
Record luaw (L : Type) := Luaw {
  interps : gmap nat L;
  next_interp : nat;
  gstate : option nat;
  tls_L : gmap nat nat;
  states : option (list (option nat));
  sbtest : script_test
}.
Arguments Luaw {L}.
Arguments interps {L}.
Arguments next_interp {L}.
Arguments gstate {L}.
Arguments tls_L {L}.
Arguments states {L}.
Arguments sbtest {L}.

Section updates.
Context {L : Type}.

Definition set_interps m (w : luaw L) : luaw L := Luaw m (next_interp w) (gstate w) (tls_L w) (states w) (sbtest w).
Definition set_gstate g (w : luaw L) : luaw L := Luaw (interps w) (next_interp w) g (tls_L w) (states w) (sbtest w).
Definition set_tls t (w : luaw L) : luaw L := Luaw (interps w) (next_interp w) (gstate w) t (states w) (sbtest w).
Definition set_states s (w : luaw L) : luaw L := Luaw (interps w) (next_interp w) (gstate w) (tls_L w) s (sbtest w).
Definition set_sbtest t (w : luaw L) : luaw L := Luaw (interps w) (next_interp w) (gstate w) (tls_L w) (states w) t.
End updates.

Section test.
Context {L : Type} `{!LuaApi L}.
(** The environment and the build, as in [Lua]; [strtod(3)]; [basename(3)]; and of
    [sb_globals] the numbers of threads, the command line and the LuaJIT command. *)
Context (getenv : string -> option string) (DATADIR LIBDIR DLEXT : string) (script_source : string -> string).
Context (PACKAGE_VERSION VERSION_STRING : string) (strtod : string -> dbl) (basename : string -> string).
Context (threads : Z) (argv : list string) (cmdname luajit_cmd : option string).
Abbreviation M := (act (luaw L)).

(** A part of an operation in the interpreter [h]. *)
Definition inside {A} (h : nat) (m : act L A) : M A :=
  fun w => l ← interps w !! h; '(x, l) ← m l; Some (x, set_interps (<[h := l]> (interps w)) w).
(** In an interpreter that may be [NULL]. *)
Definition inside_ptr {A} (p : option nat) (m : act L A) : M A := h ← the p; inside h m.

(** [luaL_newstate] *)
Definition new_interp : M nat :=
  l ← the luaL_newstate;
  h ← reads next_interp;
  changes (fun w => Luaw (<[h := l]> (interps w)) (S h) (gstate w) (tls_L w) (states w) (sbtest w));; mret h.

(** [tid] is [sb_tls_thread_id].  On failure the interpreter is left open. *)
Definition sb_lua_new_state (me : nat) (tid : Z) : M (option nat) :=
  h ← new_interp;
  lname ← reads (fun w => t_lname (sbtest w));
  ok ← inside h (open_state getenv DATADIR LIBDIR DLEXT script_source PACKAGE_VERSION VERSION_STRING
                   (ScriptEnv tid luajit_cmd argv cmdname lname));
  if ok : bool then changes (fun w => set_tls (<[me := h]> (tls_L w)) w);; mret (Some h) else mret None.

(** The pointer of the calling thread is reset, whichever interpreter is closed. *)
Definition sb_lua_close_state (me : nat) (p : option nat) : M unit :=
  (match p with
   | None => mret tt
   | Some h => m ← reads interps; the (m !! h);; changes (fun w => set_interps (delete h (interps w)) w)
   end);;
  changes (fun w => set_tls (delete me (tls_L w)) w).

Definition no_names (t : script_test) : script_test :=
  ScriptTest None None None (has_prepare t) (has_cleanup t) (has_help t) (has_qgen t) (has_thread_run t)
    (has_report_intermediate t) (has_report_cumulative t).

Definition sb_lua_done (me : nat) : M unit :=
  g ← reads gstate;
  sb_lua_close_state me g;;
  changes (set_gstate None);;
  changes (set_states None);;
  changes (fun w => set_sbtest (no_names (sbtest w)) w).

Definition sb_lua_loaded : M bool := g ← reads gstate; mret (bool_decide (is_Some g)).

(** [sb_load_lua]: whether a test is returned.  A command, once set, is not reset. *)
Definition sb_load_lua (me : nat) (tid : Z) (testname : option string) : M bool :=
  let names := match testname with Some n => (basename n, Some n) | None => ("<stdin>"%string, None) end in
  changes (fun w => let t := sbtest w in
    set_sbtest (ScriptTest (Some (fst names)) (snd names) (t_args t) (has_prepare t) (has_cleanup t) (has_help t) (has_qgen t)
      (has_thread_run t) (has_report_intermediate t) (has_report_cumulative t)) w);;
  g ← sb_lua_new_state me tid;
  changes (set_gstate g);;
  match g with
  | None => sb_lua_done me;; mret false
  | Some h =>
      rc ← inside h read_cmdline_options;
      if negb (rc =? 0) then sb_lua_done me;; mret false
      else
        prepare ← inside h (func_available "prepare");
        cleanup ← inside h (func_available "cleanup");
        help ← inside h (func_available "help");
        qgen ← inside h (func_available "qgen");
        run ← inside h (func_available "thread_run");
        intermediate ← inside h (sb_lua_hook_defined "report_intermediate");
        cumulative ← inside h (sb_lua_hook_defined "report_cumulative");
        changes (fun w => let t := sbtest w in
          set_sbtest (ScriptTest (t_sname t) (t_lname t) (t_args t) (prepare || has_prepare t) (cleanup || has_cleanup t)
            (help || has_help t) (qgen || has_qgen t) run intermediate cumulative) w);;
        changes (set_states (Some (replicate (Z.to_nat threads) None)));; mret true
  end.

(** The arguments are copied. *)
Definition sb_lua_set_test_args (args : list sb_arg_t) : M Z :=
  changes (fun w => let t := sbtest w in
    set_sbtest (ScriptTest (t_sname t) (t_lname t) (Some args) (has_prepare t) (has_cleanup t) (has_help t) (has_qgen t)
      (has_thread_run t) (has_report_intermediate t) (has_report_cumulative t)) w);; mret 0.

(** ** Operations *)

Section operations.
Context (options : list option_t).

Definition sb_lua_op_init : M Z := g ← reads gstate; inside_ptr g (script_init strtod options).

Definition sb_lua_op_thread_init (me : nat) (thread_id : nat) : M Z :=
  p ← sb_lua_new_state me (Z.of_nat thread_id);
  match p with
  | None => mret 1
  | Some h =>
      s ← reads states;
      a ← the s;
      the (a !! thread_id);;
      changes (set_states (Some (<[thread_id := Some h]> a)));;
      inside h (script_thread_init strtod options (Z.of_nat thread_id))
  end.

(** [states[thread_id]] *)
Definition thread_state (thread_id : nat) : M (option nat) := s ← reads states; a ← the s; the (a !! thread_id).

Definition sb_lua_op_thread_run (thread_id : nat) : M Z :=
  p ← thread_state thread_id; inside_ptr p (script_thread_run (Z.of_nat thread_id)).

Definition sb_lua_op_thread_done (me : nat) (thread_id : nat) : M Z :=
  p ← thread_state thread_id;
  rc ← inside_ptr p (script_thread_done (Z.of_nat thread_id));
  sb_lua_close_state me p;; mret rc.

Definition sb_lua_op_done (me : nat) : M Z :=
  g ← reads gstate;
  rc ← inside_ptr g script_done;
  if negb (rc =? 0) then mret 1 else sb_lua_done me;; mret 0.

Definition execute_command (cmd : string) : M Z := g ← reads gstate; inside_ptr g (script_command strtod options cmd).
Definition sb_lua_cmd_prepare : M Z := execute_command "prepare".
Definition sb_lua_cmd_cleanup : M Z := execute_command "cleanup".
Definition sb_lua_cmd_help : M Z := execute_command "help".
Definition sb_lua_cmd_qgen : M Z := execute_command "qgen".

(** ** Custom commands *)

Definition sb_lua_custom_command_defined (name : string) : M bool :=
  g ← reads gstate; inside_ptr g (script_command_defined name).
Definition sb_lua_custom_command_parallel (name : string) : M bool :=
  g ← reads gstate; inside_ptr g (script_command_parallel name).

(** What the command returns is not used. *)
Definition cmd_worker_thread (me : nat) (id : nat) (command : string) : M unit :=
  p ← sb_lua_new_state me (Z.of_nat id);
  match p with
  | None => mret tt
  | Some h => inside h (call_custom_command strtod options command);; sb_lua_close_state me (Some h)
  end.

(** The workers, one after the other: each uses an interpreter of its own. *)
Fixpoint cmd_workers (first : nat) (n : nat) (command : string) : M unit :=
  match n with
  | O => mret tt
  | S n => cmd_worker_thread (S first) first command;; cmd_workers (S first) n command
  end.

(** [created] and [joined] are what [sb_thread_create_workers] and
    [sb_thread_join_workers] return. *)
Definition sb_lua_call_custom_command (created joined : Z) (name : string) : M Z :=
  parallel ← sb_lua_custom_command_parallel name;
  if parallel && (1 <? threads) then
    if negb (created =? 0) then mret created
    else cmd_workers 0 (Z.to_nat threads) name;; mret joined
  else g ← reads gstate; inside_ptr g (call_custom_command strtod options name).

(** ** Reports *)

Definition my_state (me : nat) : M (option nat) := t ← reads tls_L; mret (t !! me).

(** [sb_lua_hook_push] tests the pointer. *)
Definition sb_lua_report_intermediate (me : nat) (stat : sb_stat_t) : M unit :=
  p ← my_state me;
  match p with None => mret tt | Some h => inside h (script_report_intermediate stat) end.

(** When both pointers are null the options are exported into a null state. *)
Definition sb_lua_report_cumulative (me : nat) (stat : sb_stat_t) : M unit :=
  p ← my_state me;
  g ← reads gstate;
  match p with
  | None => if bool_decide (g = None) then undefined else mret tt
  | Some h => inside h (script_report_cumulative strtod options (bool_decide (g = Some h)) stat)
  end.

(** [SB_BACKGROUND_THREAD_ID] is the thread id of the report threads. *)
Definition sb_lua_report_thread_init (me : nat) (SB_BACKGROUND_THREAD_ID : Z) : M Z :=
  p ← my_state me;
  match p with
  | Some _ => mret 0
  | None =>
      sb_lua_new_state me SB_BACKGROUND_THREAD_ID;;
      p ← my_state me;
      inside_ptr p (export_options strtod options);; mret 0
  end.

Definition sb_lua_report_thread_done (me : nat) : M unit :=
  loaded ← sb_lua_loaded;
  if loaded : bool then p ← my_state me; sb_lua_close_state me p else mret tt.
End operations.
End test.

(** ** The interpreters of the threads

    Whom an open interpreter belongs to: [Lost] are those of workers that could not be
    initialized. *)

Inductive owner := Main | Worker (i : nat) | Reporter (r : nat) | Lost.

#[export] Instance owner_eq_dec : EqDecision owner.
Proof. solve_decision. Defined.

(** What the threads do between loading the script and [done]. *)
Inductive event :=
| ThreadInit (i : nat) | ThreadRun (i : nat) | ThreadDone (i : nat)
| ReportInit (r : nat) | Intermediate (r : nat) (stat : sb_stat_t) | Checkpoint (r : nat) (stat : sb_stat_t) | ReportDone (r : nat)
| FinalReport (stat : sb_stat_t).

Section lifecycle.
Context {L : Type} `{!LuaApi L, !LuaLaws L}.
Context (getenv : string -> option string) (DATADIR LIBDIR DLEXT : string) (script_source : string -> string).
Context (PACKAGE_VERSION VERSION_STRING : string) (strtod : string -> dbl) (basename : string -> string).
Context (nthreads : nat) (argv : list string) (cmdname luajit_cmd : option string) (options : list option_t).

Abbreviation opens := (open_state getenv DATADIR LIBDIR DLEXT script_source PACKAGE_VERSION VERSION_STRING).
Abbreviation new_state := (sb_lua_new_state getenv DATADIR LIBDIR DLEXT script_source PACKAGE_VERSION VERSION_STRING
  argv cmdname luajit_cmd).

(** The threads: the main one, the workers, then those that report. *)
Definition worker (i : nat) : nat := S i.
Definition reporter (r : nat) : nat := S (nthreads + r).

Definition perform (e : event) : act (luaw L) Z :=
  match e with
  | ThreadInit i => sb_lua_op_thread_init getenv DATADIR LIBDIR DLEXT script_source PACKAGE_VERSION VERSION_STRING strtod
                      argv cmdname luajit_cmd options (worker i) i
  | ThreadRun i => sb_lua_op_thread_run i
  | ThreadDone i => sb_lua_op_thread_done (worker i) i
  | ReportInit r => sb_lua_report_thread_init getenv DATADIR LIBDIR DLEXT script_source PACKAGE_VERSION VERSION_STRING strtod
                      argv cmdname luajit_cmd options (reporter r) (Z.of_nat nthreads)
  | Intermediate r stat => sb_lua_report_intermediate (reporter r) stat;; mret 0
  | Checkpoint r stat => sb_lua_report_cumulative strtod options (reporter r) stat;; mret 0
  | ReportDone r => sb_lua_report_thread_done (reporter r);; mret 0
  | FinalReport stat => sb_lua_report_cumulative strtod options 0 stat;; mret 0
  end.

(** The owners after an event. *)
Definition after (w : luaw L) (e : event) (rc : Z) (p : gmap nat owner) : gmap nat owner :=
  match e with
  | ThreadInit i => <[next_interp w := if rc =? 0 then Worker i else Lost]> p
  | ThreadDone i => match states w ≫= (fun a => mjoin (a !! i)) with Some h => delete h p | None => p end
  | ReportInit r => match tls_L w !! reporter r with Some _ => p | None => <[next_interp w := Reporter r]> p end
  | ReportDone r => match tls_L w !! reporter r with Some h => delete h p | None => p end
  | _ => p
  end.

(** The script loads again in a report thread. *)
Definition loads (w : luaw L) : Prop := exists l l', luaL_newstate = Some l
  /\ opens (ScriptEnv (Z.of_nat nthreads) luajit_cmd argv cmdname (t_lname (sbtest w))) l = Some (true, l').

(** When the program makes an event: a worker runs, and is done, when it has been
    initialized.  The script must load again for a thread that reports. *)
Definition enabled (p : gmap nat owner) (w : luaw L) (e : event) : Prop :=
  match e with
  | ThreadInit i => (i < nthreads)%nat /\ forall h, p !! h <> Some (Worker i)
  | ThreadRun i | ThreadDone i => exists h, p !! h = Some (Worker i)
  | ReportInit r => loads w
  | _ => True
  end.

(** The state agrees with the owners [p]. *)
Record owned (p : gmap nat owner) (w : luaw L) : Prop := {
  o_open : dom (interps w) = dom p;
  o_next h : h ∈ dom p -> (h < next_interp w)%nat;
  o_main h : p !! h = Some Main <-> gstate w = Some h;
  o_tls0 : tls_L w !! 0%nat = gstate w;
  o_gstate : is_Some (gstate w);
  o_states : exists a, states w = Some a /\ length a = nthreads
    /\ forall i h, p !! h = Some (Worker i) -> a !! i = Some (Some h);
  o_reports r h : p !! h = Some (Reporter r) <-> tls_L w !! reporter r = Some h
}.

(** The options of integers are integers, there is memory for interpreters, and the
    internal scripts run without an error once they have been loaded. *)
Context (Hoptions : ints_ok options) (Hnew : is_Some (luaL_newstate (L := L))).
Context (Hinternal : forall name l l', luaL_loadbuffer (script_source name) name l = (0, l') -> is_Some (lua_call 0 0 l')).

Lemma opens_returns e l : is_Some (opens e l).
Proof. by apply open_state_returns. Qed.

Lemma inside_some {A} h (m : act L A) (w : luaw L) : h ∈ dom (interps w) -> (forall l, is_Some (m l)) ->
  exists x l', inside h m w = Some (x, set_interps (<[h := l']> (interps w)) w).
Proof.
  intros Hh Hm. apply elem_of_dom in Hh as [l Hl]. unfold inside. rewrite Hl. cbn.
  destruct (Hm l) as [[x l'] ->]. by exists x, l'.
Qed.

Lemma dom_same {A} (m : gmap nat A) h x : h ∈ dom m -> dom (<[h := x]> m) = dom m.
Proof. intros H. rewrite dom_insert_L. set_solver. Qed.

Lemma owned_inside p w h l : owned p w -> h ∈ dom p -> owned p (set_interps (<[h := l]> (interps w)) w).
Proof.
  intros [] Hh. split; cbn; try done. by rewrite dom_same by (rewrite o_open0; done).
Qed.

(** A new interpreter, and the pointer of the thread when the script loads. *)
Lemma new_state_spec me tid (w : luaw L) : exists r l,
  new_state me tid w = Some (r,
    Luaw (<[next_interp w := l]> (interps w)) (S (next_interp w)) (gstate w)
      (match r with Some h => <[me := h]> (tls_L w) | None => tls_L w end) (states w) (sbtest w))
  /\ (r = Some (next_interp w) \/ r = None)
  /\ (tid = Z.of_nat nthreads -> loads w -> r = Some (next_interp w)).
Proof.
  destruct Hnew as [l0 Hl0].
  set (w1 := Luaw (<[next_interp w := l0]> (interps w)) (S (next_interp w)) (gstate w) (tls_L w) (states w) (sbtest w)).
  assert (E1 : new_interp w = Some (next_interp w, w1)).
  { unfold new_interp. rewrite Hl0. reflexivity. }
  set (e := ScriptEnv tid luajit_cmd argv cmdname (t_lname (sbtest w))).
  destruct (opens_returns e l0) as [[ok l] Ho].
  assert (E2 : inside (next_interp w) (opens e) w1 = Some (ok, set_interps (<[next_interp w := l]> (interps w1)) w1)).
  { unfold inside, w1. cbn. rewrite lookup_insert_eq. cbn. by rewrite Ho. }
  exists (if ok then Some (next_interp w) else None), l.
  unfold sb_lua_new_state. rewrite (bind_some _ _ _ _ _ E1). rewrite (bind_some (reads _) _ w1 (t_lname (sbtest w)) w1 eq_refl).
  rewrite (bind_some _ _ _ _ _ E2). unfold set_interps, w1. cbn. rewrite insert_insert_eq.
  split; [by destruct ok|]. split; [destruct ok; auto|]. intros -> (l1 & l' & Hl1 & Hl').
  assert (l1 = l0) as -> by congruence. fold e in Hl'. rewrite Ho in Hl'. by injection Hl' as -> _.
Qed.

Lemma owned_fresh p w : owned p w -> next_interp w ∉ dom p.
Proof. intros H Hin. apply (o_next _ _ H) in Hin. lia. Qed.

(** Opening an interpreter for [who]. *)
Lemma owned_new p w l who t a : owned p w -> who <> Main ->
  t !! 0%nat = tls_L w !! 0%nat ->
  length a = nthreads -> (forall i h, p !! h = Some (Worker i) -> a !! i = Some (Some h)) ->
  (forall i, who = Worker i -> a !! i = Some (Some (next_interp w))) ->
  (forall r h, (p !! h = Some (Reporter r) \/ (h = next_interp w /\ who = Reporter r)) <-> t !! reporter r = Some h) ->
  owned (<[next_interp w := who]> p)
    (Luaw (<[next_interp w := l]> (interps w)) (S (next_interp w)) (gstate w) t (Some a) (sbtest w)).
Proof.
  intros H Hmain H0 Hlen Ha Hw Hr. pose proof (owned_fresh p w H) as Hf. apply not_elem_of_dom in Hf.
  destruct H as [Ho Hn Hm Ht Hg (b & Hb & Hbl & Hbs) Hrep]. split; cbn.
  - by rewrite !dom_insert_L, Ho.
  - intros h. rewrite dom_insert_L. intros [->%elem_of_singleton|Hh]%elem_of_union; [lia|]. specialize (Hn h Hh). lia.
  - intros h. destruct (decide (h = next_interp w)) as [->|Hne].
    + rewrite lookup_insert_eq. split; [congruence|]. intros E%Hm. congruence.
    + rewrite lookup_insert_ne by done. apply Hm.
  - by rewrite H0.
  - done.
  - exists a. split; [done|]. split; [done|]. intros i h. destruct (decide (h = next_interp w)) as [->|Hne].
    + rewrite lookup_insert_eq. intros [= ->]. by apply Hw.
    + rewrite lookup_insert_ne by done. apply Ha.
  - intros r h. rewrite <- Hr. destruct (decide (h = next_interp w)) as [->|Hne].
    + rewrite lookup_insert_eq. split; [intros [= ->]; by right|]. intros [E|[_ ->]]; [congruence|done].
    + rewrite lookup_insert_ne by done. split; [by left|]. intros [E|[? _]]; done.
Qed.

Lemma reporter_inj r1 r2 : reporter r1 = reporter r2 -> r1 = r2.
Proof. unfold reporter. lia. Qed.

(** A worker's pointer is none of those that matter. *)
Lemma tls_worker i (t : gmap nat nat) x : (i < nthreads)%nat ->
  <[worker i := x]> t !! 0%nat = t !! 0%nat /\ (forall r, <[worker i := x]> t !! reporter r = t !! reporter r)
  /\ delete (worker i) t !! 0%nat = t !! 0%nat /\ forall r, delete (worker i) t !! reporter r = t !! reporter r.
Proof.
  intros Hi. unfold worker, reporter. rewrite lookup_insert_ne, lookup_delete_ne by lia. repeat split;
    intros r; [rewrite lookup_insert_ne by lia|rewrite lookup_delete_ne by lia]; done.
Qed.

Lemma perform_thread_init p w i : owned p w -> enabled p w (ThreadInit i) ->
  exists rc w', perform (ThreadInit i) w = Some (rc, w') /\ owned (after w (ThreadInit i) rc p) w'.
Proof.
  intros Hw [Hi Hnone]. cbn [perform after]. unfold sb_lua_op_thread_init.
  destruct (new_state_spec (worker i) (Z.of_nat i) w) as (r & l & E & Hr & _). rewrite (bind_some _ _ _ _ _ E).
  pose proof Hw as [_ _ _ _ _ (a & Ha & Hal & Has) Hrep].
  destruct Hr as [-> | ->].
  - set (w1 := Luaw _ _ _ _ _ _). rewrite (bind_some (reads states) _ w1 (Some a) w1) by (unfold reads; by rewrite <- Ha).
    cbn [the]. rewrite (bind_some (mret a) _ w1 a w1 eq_refl).
    destruct (lookup_lt_is_Some_2 a i) as [old Hold]; [lia|]. rewrite Hold. rewrite (bind_some (the (Some old)) _ w1 old w1 eq_refl).
    set (a' := <[i := Some (next_interp w)]> a).
    rewrite (bind_some (changes _) _ w1 tt (set_states (Some a') w1) eq_refl).
    assert (Hown : forall who, who = Worker i \/ who = Lost -> owned (<[next_interp w := who]> p) (set_states (Some a') w1)).
    { intros who Hwho. unfold w1, set_states. cbn. destruct (tls_worker i (tls_L w) (next_interp w) Hi) as (T0 & Tr & _).
      apply owned_new; try done.
      - by destruct Hwho as [-> | ->].
      - subst a'. by rewrite length_insert.
      - intros j h Hj. subst a'. rewrite list_lookup_insert_ne; [by apply Has|]. intros ->. by apply (Hnone h).
      - intros j ->. destruct Hwho as [[= ->]|]; [|done]. subst a'. apply list_lookup_insert_eq. lia.
      - intros r h. cbn. rewrite Tr, <- Hrep. split; [|by left]. intros [?|[_ ->]]; [done|]. by destruct Hwho. }
    destruct (inside_some (next_interp w) (script_thread_init strtod options (Z.of_nat i)) (set_states (Some a') w1)) as (rc & l' & E2).
    { cbn. rewrite dom_insert_L. set_solver. }
    { apply (leaves_some 2). by apply leaves_thread_init. }
    exists rc. eexists. split; [exact E2|]. apply owned_inside; [|rewrite dom_insert_L; set_solver].
    apply Hown. destruct (rc =? 0); auto.
  - exists 1. eexists. split; [reflexivity|]. cbn match. rewrite Ha.
    apply owned_new; try done. intros r h. rewrite <- Hrep. split; [|by left]. by intros [?|[_ ?]].
Qed.

(** Closing the interpreter [h]. *)
Lemma owned_close p w h who t : owned p w -> p !! h = Some who -> who <> Main -> t !! 0%nat = tls_L w !! 0%nat ->
  (forall r h', (p !! h' = Some (Reporter r) /\ h' <> h) <-> t !! reporter r = Some h') ->
  owned (delete h p) (set_tls t (set_interps (delete h (interps w)) w)).
Proof.
  intros [Ho Hn Hm Ht Hg (b & Hb & Hbl & Hbs) Hrep] Hh Hmain H0 Hr. split; cbn.
  - by rewrite !dom_delete_L, Ho.
  - intros h'. rewrite dom_delete_L. intros [Hh' _]%elem_of_difference. by apply Hn.
  - intros h'. destruct (decide (h' = h)) as [->|Hne].
    + rewrite lookup_delete_eq. split; [done|]. intros E%Hm. congruence.
    + rewrite lookup_delete_ne by done. apply Hm.
  - by rewrite H0.
  - done.
  - exists b. split; [done|]. split; [done|]. intros i h' [_ Hp]%lookup_delete_Some. by apply Hbs.
  - intros r h'. rewrite <- Hr, lookup_delete_Some. naive_solver.
Qed.

Lemma close_spec me h (w : luaw L) : h ∈ dom (interps w) ->
  sb_lua_close_state me (Some h) w = Some (tt, set_tls (delete me (tls_L w)) (set_interps (delete h (interps w)) w)).
Proof. intros [l Hl]%elem_of_dom. unfold sb_lua_close_state, reads, changes, the, mret, act_ret, mbind, act_bind. cbn. by rewrite Hl. Qed.

Lemma owner_open p w h who : owned p w -> p !! h = Some who -> h ∈ dom (interps w).
Proof. intros H Hp. rewrite (o_open _ _ H). apply elem_of_dom. by eexists. Qed.

(** What a worker's pointer is. *)
Lemma thread_state_spec p w i h : owned p w -> p !! h = Some (Worker i) ->
  thread_state i w = Some (Some h, w) /\ states w ≫= (fun a => mjoin (a !! i)) = Some h.
Proof.
  intros [_ _ _ _ _ (a & Ha & _ & Has) _] Hp. specialize (Has i h Hp).
  unfold thread_state, reads, the, mret, act_ret, mbind, act_bind. rewrite Ha. cbn. by rewrite Has.
Qed.

Lemma perform_thread_run p w i : owned p w -> enabled p w (ThreadRun i) ->
  exists rc w', perform (ThreadRun i) w = Some (rc, w') /\ owned p w'.
Proof.
  intros Hw [h Hh]. cbn [perform]. unfold sb_lua_op_thread_run. destruct (thread_state_spec p w i h Hw Hh) as [E _].
  rewrite (bind_some _ _ _ _ _ E). cbn [inside_ptr]. unfold inside_ptr. rewrite (bind_some (the (Some h)) _ w h w eq_refl).
  destruct (inside_some h (script_thread_run (Z.of_nat i)) w) as (rc & l' & E2);
    [by apply owner_open with p (Worker i)|apply (leaves_some 1), leaves_thread_run|].
  exists rc. eexists. split; [exact E2|]. apply owned_inside; [done|]. apply elem_of_dom. by eexists.
Qed.

Lemma perform_thread_done p w i : owned p w -> enabled p w (ThreadDone i) ->
  exists rc w', perform (ThreadDone i) w = Some (rc, w') /\ owned (after w (ThreadDone i) rc p) w'.
Proof.
  intros Hw [h Hh]. cbn [perform after]. unfold sb_lua_op_thread_done.
  assert (Hi : (i < nthreads)%nat).
  { destruct (o_states _ _ Hw) as (a & _ & <- & Has). by apply lookup_lt_Some with (Some h), Has. }
  destruct (thread_state_spec p w i h Hw Hh) as [E ->].
  rewrite (bind_some _ _ _ _ _ E). unfold inside_ptr.
  assert (Hdom : h ∈ dom p) by (apply elem_of_dom; by eexists).
  destruct (inside_some h (script_thread_done (Z.of_nat i)) w) as (rc & l' & E2);
    [by apply owner_open with p (Worker i)|apply (leaves_some 1), leaves_optional|].
  set (w1 := set_interps (<[h := l']> (interps w)) w) in *.
  assert (Hw1 : owned p w1) by by apply owned_inside.
  rewrite (bind_some (h0 ← the (Some h); inside h0 (script_thread_done (Z.of_nat i))) _ w rc w1 E2).
  rewrite (bind_some _ _ _ _ _ (close_spec (worker i) h w1 ltac:(by apply owner_open with p (Worker i)))).
  exists rc. eexists. split; [reflexivity|]. destruct (tls_worker i (tls_L w1) 0%nat Hi) as (_ & _ & T0 & Tr).
  apply owned_close with (Worker i); try done. intros r h'. rewrite Tr, <- (o_reports _ _ Hw1). split; [by intros [? _]|].
  intros Hr. split; [done|]. intros ->. congruence.
Qed.

(** A call in the interpreter of the thread, if it has one. *)
Lemma report_inside p w h m k : owned p w -> h ∈ dom p -> leaves k m ->
  exists w', inside h m w = Some (tt, w') /\ owned p w'.
Proof.
  intros Hw Hh Hm. destruct (inside_some h m w) as ([] & l' & E); [by rewrite (o_open _ _ Hw)|by apply (leaves_some k)|].
  eexists. split; [exact E|]. by apply owned_inside.
Qed.

Lemma tls_owned p w me h : owned p w -> me = 0%nat \/ (exists r, me = reporter r) -> tls_L w !! me = Some h -> h ∈ dom p.
Proof.
  intros Hw [->|[r ->]] Ht; apply elem_of_dom.
  - exists Main. apply (o_main _ _ Hw). by rewrite <- (o_tls0 _ _ Hw).
  - exists (Reporter r). by apply (o_reports _ _ Hw).
Qed.

Lemma report_intermediate_safe p w me stat : owned p w -> me = 0%nat \/ (exists r, me = reporter r) ->
  exists w', sb_lua_report_intermediate me stat w = Some (tt, w') /\ owned p w'.
Proof.
  intros Hw Hme. unfold sb_lua_report_intermediate, my_state.
  rewrite (bind_some (t ← reads tls_L; mret (t !! me)) _ w (tls_L w !! me) w eq_refl).
  destruct (tls_L w !! me) as [h|] eqn:Et; [|by exists w].
  apply (report_inside p w h _ 0); [done|by apply tls_owned with w me|apply leaves_intermediate].
Qed.

Lemma report_cumulative_safe p w me stat : owned p w -> me = 0%nat \/ (exists r, me = reporter r) ->
  exists w', sb_lua_report_cumulative strtod options me stat w = Some (tt, w') /\ owned p w'.
Proof.
  intros Hw Hme. unfold sb_lua_report_cumulative, my_state.
  rewrite (bind_some (t ← reads tls_L; mret (t !! me)) _ w (tls_L w !! me) w eq_refl), (bind_some (reads gstate) _ w (gstate w) w eq_refl).
  destruct (o_gstate _ _ Hw) as [g Hg]. rewrite Hg.
  destruct (tls_L w !! me) as [h|] eqn:Et; [|by exists w].
  eapply (report_inside p w h); [done|by apply tls_owned with w me|by apply leaves_cumulative].
Qed.

Lemma perform_report_init p w r : owned p w -> enabled p w (ReportInit r) ->
  exists rc w', perform (ReportInit r) w = Some (rc, w') /\ owned (after w (ReportInit r) rc p) w'.
Proof.
  intros Hw Hload. cbn [perform after]. unfold sb_lua_report_thread_init, my_state.
  rewrite (bind_some (t ← reads tls_L; mret (t !! reporter r)) _ w (tls_L w !! reporter r) w eq_refl).
  destruct (tls_L w !! reporter r) as [h|] eqn:Et; [by exists 0, w|].
  destruct (new_state_spec (reporter r) (Z.of_nat nthreads) w) as (p' & l & E & _ & Hr). specialize (Hr eq_refl Hload). subst p'.
  rewrite (bind_some _ _ _ _ _ E). set (w1 := Luaw _ _ _ _ _ _).
  assert (Ht : tls_L w1 !! reporter r = Some (next_interp w)) by apply lookup_insert_eq.
  rewrite (bind_some (t ← reads tls_L; mret (t !! reporter r)) _ w1 (tls_L w1 !! reporter r) w1 eq_refl), Ht.
  unfold inside_ptr. pose proof Hw as [_ _ _ _ _ (a & Ha & Hal & Has) Hrep].
  assert (Hown : owned (<[next_interp w := Reporter r]> p) w1).
  { unfold w1. rewrite Ha. apply owned_new; try done; [by rewrite lookup_insert_ne|].
    intros r' h. destruct (decide (r' = r)) as [->|Hne].
    - rewrite lookup_insert_eq. split; [intros [H%Hrep|[-> _]]; [congruence|done]|]. intros [= <-]. by right.
    - rewrite lookup_insert_ne by (intros ?%reporter_inj; done). rewrite <- Hrep.
      split; [intros [?|[_ [= ?]]]; [done|congruence]|by left]. }
  destruct (inside_some (next_interp w) (export_options strtod options) w1) as (rc & l' & E2).
  { cbn. rewrite dom_insert_L. set_solver. }
  { apply (leaves_some 1), leaves_over. intros s. eapply triple_consequence; [by apply over_export_options|done|].
    by intros ? ? [? _]. }
  rewrite (bind_some (h0 ← the (Some (next_interp w)); inside h0 (export_options strtod options)) _ w1 rc _ E2).
  exists 0. eexists. split; [reflexivity|]. apply owned_inside; [done|]. rewrite dom_insert_L. set_solver.
Qed.

Lemma perform_report_done p w r : owned p w ->
  exists rc w', perform (ReportDone r) w = Some (rc, w') /\ owned (after w (ReportDone r) rc p) w'.
Proof.
  intros Hw. cbn [perform after]. unfold sb_lua_report_thread_done.
  rewrite (bind_some (loaded ← sb_lua_loaded; if loaded : bool then p ← my_state (reporter r); sb_lua_close_state (reporter r) p
    else mret tt) _ w tt (snd (default (tt, w) (sb_lua_close_state (reporter r) (tls_L w !! reporter r) w)))).
  2: { destruct (o_gstate _ _ Hw) as [g Hg].
       rewrite (bind_some sb_lua_loaded _ w true w) by (unfold sb_lua_loaded, reads, mret, act_ret, mbind, act_bind; by rewrite Hg).
       cbn match. rewrite (bind_some (my_state (reporter r)) _ w (tls_L w !! reporter r) w eq_refl).
       destruct (tls_L w !! reporter r) as [h|] eqn:Et; [|done].
       rewrite close_spec; [done|]. rewrite (o_open _ _ Hw). apply (tls_owned p w (reporter r)); [done|by right; exists r|done]. }
  exists 0. eexists. split; [reflexivity|]. destruct (tls_L w !! reporter r) as [h|] eqn:Et.
  - rewrite close_spec; [|rewrite (o_open _ _ Hw); apply (tls_owned p w (reporter r)); [done|by right; exists r|done]].
    cbn [default from_option snd]. apply owned_close with (Reporter r); try done.
    + by apply (o_reports _ _ Hw).
    + by rewrite lookup_delete_ne.
    + intros r' h'. destruct (decide (r' = r)) as [->|Hne].
      * rewrite lookup_delete_eq. split; [|done]. intros [H%(o_reports _ _ Hw) Hne]. congruence.
      * rewrite lookup_delete_ne by (intros ?%reporter_inj; done). rewrite <- (o_reports _ _ Hw).
        split; [by intros [? _]|]. intros H. split; [done|]. intros ->. apply (o_reports _ _ Hw) in Et. congruence.
  - cbn [default from_option snd].
    assert (E : set_tls (delete (reporter r) (tls_L w)) w = w) by (unfold set_tls; rewrite delete_id by done; by destruct w).
    change (owned p (set_tls (delete (reporter r) (tls_L w)) w)). by rewrite E.
Qed.

Lemma perform_owned p w e : owned p w -> enabled p w e ->
  exists rc w', perform e w = Some (rc, w') /\ owned (after w e rc p) w'.
Proof.
  intros Hw He. destruct e as [i|i|i|r|r stat|r stat|r|stat].
  - by apply perform_thread_init.
  - exact (perform_thread_run p w i Hw He).
  - by apply perform_thread_done.
  - by apply perform_report_init.
  - destruct (report_intermediate_safe p w (reporter r) stat Hw ltac:(right; by exists r)) as (w' & E & H).
    exists 0, w'. split; [|exact H]. cbn [perform]. by rewrite (bind_some _ _ _ _ _ E).
  - destruct (report_cumulative_safe p w (reporter r) stat Hw ltac:(right; by exists r)) as (w' & E & H).
    exists 0, w'. split; [|exact H]. cbn [perform]. by rewrite (bind_some _ _ _ _ _ E).
  - by apply perform_report_done.
  - destruct (report_cumulative_safe p w 0 stat Hw ltac:(by left)) as (w' & E & H).
    exists 0, w'. split; [|exact H]. cbn [perform]. by rewrite (bind_some _ _ _ _ _ E).
Qed.

(** The program between loading the script and its end: events of the threads in any
    order in which each thread makes them; [None] is undefined behaviour. *)
Inductive goes : gmap nat owner -> luaw L -> list event -> option (gmap nat owner * luaw L) -> Prop :=
| goes_end p w : goes p w [] (Some (p, w))
| goes_step p w e es rc w' out : enabled p w e -> perform e w = Some (rc, w') -> goes (after w e rc p) w' es out ->
    goes p w (e :: es) out
| goes_wrong p w e es : enabled p w e -> perform e w = None -> goes p w (e :: es) None.

Lemma goes_owned p w es out : goes p w es out -> owned p w -> exists p' w', out = Some (p', w') /\ owned p' w'.
Proof.
  induction 1 as [p w|p w e es rc w' out He Hp Hg IH|p w e es He Hp]; intros Hw.
  - by exists p, w.
  - destruct (perform_owned p w e Hw He) as (rc' & w2 & Hp' & Hw'). rewrite Hp in Hp'. injection Hp' as <- <-. by apply IH.
  - destruct (perform_owned p w e Hw He) as (rc & w' & Hp' & _). by rewrite Hp in Hp'.
Qed.

Lemma sb_lua_done_spec me g (w : luaw L) : gstate w = Some g -> g ∈ dom (interps w) ->
  sb_lua_done me w = Some (tt, set_sbtest (no_names (sbtest w)) (set_states None (set_gstate None
    (set_tls (delete me (tls_L w)) (set_interps (delete g (interps w)) w))))).
Proof.
  intros Hg Hd. unfold sb_lua_done. rewrite (bind_some (reads gstate) _ w (Some g) w) by (unfold reads; by rewrite Hg).
  rewrite (bind_some _ _ _ _ _ (close_spec me g w Hd)). reflexivity.
Qed.

(** Closing what the program itself has opened. *)
Lemma done_spec p w : owned p w -> exists rc w', sb_lua_op_done 0 w = Some (rc, w') /\ (rc <> 0 -> owned p w')
  /\ (rc = 0 -> gstate w' = None /\ exists g, p !! g = Some Main /\ dom (interps w') = dom p ∖ {[g]}).
Proof.
  intros Hw. destruct (o_gstate _ _ Hw) as [g Hg]. assert (Hm : p !! g = Some Main) by by apply (o_main _ _ Hw).
  assert (Hdom : g ∈ dom p) by (apply elem_of_dom; by eexists).
  destruct (inside_some g script_done w) as (rc & l' & E); [by rewrite (o_open _ _ Hw)|apply (leaves_some 1), leaves_optional|].
  set (w1 := set_interps (<[g := l']> (interps w)) w) in *.
  assert (Hw1 : owned p w1) by by apply owned_inside.
  unfold sb_lua_op_done. rewrite (bind_some (reads gstate) _ w (Some g) w) by (unfold reads; by rewrite Hg).
  unfold inside_ptr. rewrite (bind_some (h ← the (Some g); inside h script_done) _ w rc w1 E).
  destruct (Z.eqb_spec rc 0) as [->|Hne]; cbn [negb].
  - eexists 0, _. split; [|split; [intros []; reflexivity|]].
    + rewrite (bind_some _ _ _ _ _ (sb_lua_done_spec 0 g w1 Hg ltac:(by rewrite (o_open _ _ Hw1)))). reflexivity.
    + intros _. split; [done|]. exists g. split; [done|]. cbn. rewrite dom_delete_L, dom_same by (by rewrite (o_open _ _ Hw)).
      by rewrite (o_open _ _ Hw).
  - exists 1, w1. split; [done|]. split; [by intros|done].
Qed.

(** ** Loading *)

Definition no_test : script_test := ScriptTest None None None false false false false false false false.
(** Before a script is loaded. *)
Definition start : luaw L := Luaw ∅ 0 None ∅ None no_test.

Abbreviation load := (sb_load_lua getenv DATADIR LIBDIR DLEXT script_source PACKAGE_VERSION VERSION_STRING basename
  (Z.of_nat nthreads) argv cmdname luajit_cmd 0 0).

(** A world with the program's own interpreter only, given the array of the workers. *)
Definition one_state (w : luaw L) : Prop :=
  dom (interps w) = {[0%nat]} /\ next_interp w = 1%nat /\ gstate w = Some 0%nat /\ tls_L w = {[0%nat := 0%nat]}.

Lemma one_state_inside {A} w (m : act L A) : one_state w -> (forall l, is_Some (m l)) ->
  exists x w', inside 0 m w = Some (x, w') /\ one_state w' /\ sbtest w' = sbtest w /\ states w' = states w.
Proof.
  intros (Hd & Hn & Hg & Ht) Hm. destruct (inside_some 0 m w) as (x & l' & E); [rewrite Hd; set_solver|done|].
  exists x. eexists. split; [exact E|]. split; [|done]. split; [|done]. cbn. rewrite dom_same; [done|]. rewrite Hd. set_solver.
Qed.

Lemma one_state_owned w : one_state w -> states w = Some (replicate nthreads None) -> owned {[0%nat := Main]} w.
Proof.
  intros (Hd & Hn & Hg & Ht) Hs. split.
  - by rewrite Hd, dom_singleton_L.
  - intros h. rewrite dom_singleton_L, Hn. intros ->%elem_of_singleton. lia.
  - intros h. rewrite Hg, lookup_singleton_Some. naive_solver.
  - by rewrite Ht, Hg, lookup_singleton_eq.
  - by rewrite Hg.
  - eexists. split; [done|]. split; [apply length_replicate|]. by intros i h [_ ?]%lookup_singleton_Some.
  - intros r h. rewrite Ht, lookup_singleton_Some. rewrite lookup_singleton_ne by done. naive_solver.
Qed.

Lemma func_available_some f (l : L) : is_Some (func_available f l).
Proof. apply (leaves_some 0), leaves_over. intros s. apply over_func_available. Qed.
Lemma hook_defined_some n (l : L) : is_Some (sb_lua_hook_defined n l).
Proof. apply (leaves_some 0), leaves_over. intros s. unfold sb_lua_hook_defined. lua_steps. lua_done. Qed.
Lemma read_cmdline_some (l : L) : is_Some (read_cmdline_options l).
Proof.
  apply (leaves_some 0), leaves_over. intros s. unfold read_cmdline_options.
  eapply triple_bind; [apply over_call_cmdline|intros ?]. lua_done.
Qed.

(** The next call in the program's interpreter. *)
Ltac own_step := match goal with
  | H : one_state ?w |- context [@mbind _ _ _ _ ?f (inside 0 ?m) ?w] =>
      let E := fresh "E" in let w' := fresh "w" in let x := fresh "x" in let Hs := fresh "Hs" in let Ha := fresh "Ha" in
      destruct (one_state_inside w m H) as (x & w' & E & ? & Hs & Ha);
      [auto using func_available_some, hook_defined_some, read_cmdline_some|];
      rewrite (bind_some (inside 0 m) f w x w' E)
  end.

Lemma load_spec testname : exists ok w, load testname start = Some (ok, w)
  /\ (ok = true -> owned {[0%nat := Main]} w) /\ (ok = false -> gstate w = None).
Proof.
  unfold sb_load_lua. set (names := match testname with Some _ => _ | None => _ end).
  rewrite (bind_some (changes _) _ start tt _ eq_refl). set (w1 := set_sbtest _ start).
  destruct (new_state_spec 0 0 w1) as (g & l & E & Hg & _). rewrite (bind_some _ _ _ _ _ E).
  rewrite (bind_some (changes (set_gstate g)) _ _ tt _ eq_refl). destruct Hg as [-> | ->].
  - change (next_interp w1) with 0%nat in *. set (w2 := set_gstate _ _). assert (H2 : one_state w2) by (repeat split; cbn; by rewrite ?insert_empty, ?dom_insert_L, ?dom_empty_L, ?right_id_L).
    cbn match. own_step. destruct (negb (x =? 0)).
    + rewrite (bind_some _ _ _ _ _ (sb_lua_done_spec 0 0 w ltac:(apply H) ltac:(destruct H as (-> & _); set_solver))).
      eexists false, _. by split.
    + do 7 own_step. eexists true, _. split; [reflexivity|]. split; [|done]. intros _.
      rewrite Nat2Z.id. by apply one_state_owned.
  - set (w2 := set_gstate _ _). eexists false, _. split; [reflexivity|]. by split.
Qed.

(** C23: from the loading of the script to its end, whatever the scripts do and in
    whatever order the threads run: no interpreter is used after it has been closed,
    or closed twice; those open are the program's, one for each worker between init
    and done, one for each report thread, and those lost by workers that could not
    be initialized; and after [done] none is open when no other thread has one. *)
Theorem interpreters_owned testname w0 es out :
  load testname start = Some (true, w0) -> goes {[0%nat := Main]} w0 es out ->
  exists p w, out = Some (p, w) /\ dom (interps w) = dom p
    /\ (forall r h, p !! h = Some (Reporter r) <-> tls_L w !! reporter r = Some h)
    /\ exists rc w', sb_lua_op_done 0 w = Some (rc, w')
         /\ (rc = 0 -> Forall (fun x => snd x = Main) (map_to_list p) -> interps w' = ∅).
Proof.
  intros Hl Hg. destruct (load_spec testname) as (ok & w & E & Hok & _). rewrite Hl in E. injection E as <- <-.
  destruct (goes_owned _ _ _ _ Hg (Hok eq_refl)) as (p & w & -> & Hw). exists p, w.
  split; [done|]. split; [apply (o_open _ _ Hw)|]. split; [apply (o_reports _ _ Hw)|].
  destruct (done_spec p w Hw) as (rc & w' & E & _ & Hrc). exists rc, w'. split; [done|]. intros Hz Hall.
  destruct (Hrc Hz) as (_ & g & Hp & Hdom). apply dom_empty_iff_L. rewrite Hdom.
  apply elem_of_equiv_empty_L. intros h [Hh Hne]%elem_of_difference. apply Hne, elem_of_singleton.
  apply elem_of_dom in Hh as [o Ho]. rewrite Forall_forall in Hall.
  specialize (Hall (h, o) (proj2 (elem_of_map_to_list p h o) Ho)). cbn in Hall. subst o.
  apply (o_main _ _ Hw) in Ho, Hp. congruence.
Qed.

(** A report thread whose interpreter does not load the script exports the options
    into a null pointer. *)
Lemma report_init_undefined r (w : luaw L) : tls_L w !! reporter r = None ->
  (forall lname l, exists l', opens (ScriptEnv (Z.of_nat nthreads) luajit_cmd argv cmdname lname) l = Some (false, l')) ->
  perform (ReportInit r) w = None.
Proof.
  intros Ht Hf. cbn [perform]. unfold sb_lua_report_thread_init, my_state.
  rewrite (bind_some (t ← reads tls_L; mret (t !! reporter r)) _ w (tls_L w !! reporter r) w eq_refl), Ht.
  destruct Hnew as [l0 Hl0]. destruct (Hf (t_lname (sbtest w)) l0) as [l' Hl'].
  unfold sb_lua_new_state, new_interp, inside, inside_ptr, reads, changes, the, mret, act_ret, mbind, act_bind.
  rewrite Hl0. cbn -[open_state]. rewrite lookup_insert_eq. cbn -[open_state]. rewrite Hl'. cbn. by rewrite Ht.
Qed.
End lifecycle.

(** ** In memory *)

Section memory.
Abbreviation env := (fun _ : string => None).
Abbreviation src := (fun _ : string => ""%string).
Abbreviation mem_load := (sb_load_lua (L := luam) env "" "" ".so" src "1.1.0" "sysbench 1.1.0" (fun s => s) (Z.of_nat 1)
  ["sysbench"]%string None None 0 0).
Abbreviation mem_goes := (goes (L := luam) env "" "" ".so" src "1.1.0" "sysbench 1.1.0" (fun _ => Fin 0) 1
  ["sysbench"]%string None None []).

(** One worker and one report thread, which end before the program does. *)
Definition mem_events : list event := [ThreadInit 0; ReportInit 0; ThreadRun 0; ThreadDone 0; ReportDone 0].

Lemma interpreters_owned_witness : exists w0 p w rc w',
  mem_load (Some "oltp.lua"%string) start = Some (true, w0)
  /\ mem_goes {[0%nat := Main]} w0 mem_events (Some (p, w))
  /\ sb_lua_op_done 0 w = Some (rc, w') /\ (rc = 0 -> interps w' = ∅).
Proof.
  destruct (mem_load (Some "oltp.lua"%string) start) as [[ok w0]|] eqn:E; [|vm_compute in E; discriminate].
  assert (ok = true) as -> by (vm_compute in E; injection E as E _; symmetry; exact E).
  assert (Hg : exists out, mem_goes {[0%nat := Main]} w0 mem_events out /\
    out = Some ({[0%nat := Main]}, default w0 (snd <$> out))).
  { vm_compute in E. injection E as <-. eexists. split.
    - eapply goes_step; [split; [lia|intros h [_ ?]%lookup_singleton_Some; discriminate]|vm_compute; reflexivity|].
      eapply goes_step; [eexists _, _; split; [reflexivity|vm_compute; reflexivity]|vm_compute; reflexivity|].
      eapply goes_step; [by exists 1%nat|vm_compute; reflexivity|].
      eapply goes_step; [by exists 1%nat|vm_compute; reflexivity|].
      eapply goes_step; [exact I|vm_compute; reflexivity|]. apply goes_end.
    - vm_compute. reflexivity. }
  destruct Hg as (out & Hg & Hout).
  destruct (interpreters_owned (L := luam) env "" "" ".so" src "1.1.0" "sysbench 1.1.0" (fun _ => Fin 0) (fun s => s) 1
    ["sysbench"]%string None None [] ltac:(constructor) ltac:(by eexists) ltac:(by intros; eexists)
    (Some "oltp.lua"%string) w0 mem_events out E Hg) as (p & w & Hp & _ & _ & rc & w' & Hd & Hz).
  exists w0, p, w, rc, w'. rewrite Hp in Hg, Hout. split; [reflexivity|]. split; [exact Hg|]. split; [exact Hd|].
  intros Hrc. apply Hz; [exact Hrc|]. injection Hout as ->. vm_compute. by repeat constructor.
Defined.
End memory.
