(* ===== verification/SbInit.v ===== *)
(** * Start-up of the program ([sysbench.c], third part; [sb_thread.c])

    [init] turns the option store into the global variables the other parts run
    with.  Its checks, its allocations and its conversions are modelled as
    written; an allocation succeeds when [alloc] says so. *)

From stdpp Require Import sorting.
From S2P Require Import Prelude Double Options Xoroshiro Rand Counter Timer Histogram Reports.

#[local] Open Scope parse_scope.

(** ** The general options *)

Definition general_args : list sb_arg_t :=
  [SB_OPT "threads" "number of threads to use" (Some "1") SB_ARG_TYPE_INT None;
   SB_OPT "events" "limit for total number of events" (Some "0") SB_ARG_TYPE_INT None;
   SB_OPT "time" "limit for total execution time in seconds" (Some "10") SB_ARG_TYPE_INT None;
   SB_OPT "warmup-time" ("execute events for this many seconds with statistics " +:+
     "disabled before the actual benchmark run with statistics enabled") (Some "0") SB_ARG_TYPE_INT None;
   SB_OPT "forced-shutdown" ("number of seconds to wait after the --time limit before forcing " +:+
     "shutdown, or 'off' to disable") (Some "off") SB_ARG_TYPE_STRING None;
   SB_OPT "thread-stack-size" "size of stack per thread" (Some "64K") SB_ARG_TYPE_SIZE None;
   SB_OPT "thread-init-timeout" "wait time in seconds for worker threads to initialize" (Some "3000")
     SB_ARG_TYPE_INT None;
   SB_OPT "rate" "average transactions rate. 0 for unlimited rate" (Some "0") SB_ARG_TYPE_INT None;
   SB_OPT "report-interval" ("periodically report intermediate statistics with " +:+
     "a specified interval in seconds. 0 disables intermediate reports") (Some "0") SB_ARG_TYPE_INT None;
   SB_OPT "report-checkpoints" ("dump full statistics and reset all counters at " +:+
     "specified points in time. The argument is a list of comma-separated " +:+
     "values representing the amount of time in seconds elapsed from start " +:+
     "of test when report checkpoint(s) must be performed. Report " +:+
     "checkpoints are off by default.") (Some "") SB_ARG_TYPE_LIST None;
   SB_OPT "debug" "print more debugging info" (Some "off") SB_ARG_TYPE_BOOL None;
   SB_OPT "validate" "perform validation checks where possible" (Some "off") SB_ARG_TYPE_BOOL None;
   SB_OPT "help" "print help and exit" (Some "off") SB_ARG_TYPE_BOOL None;
   SB_OPT "version" "print version and exit" (Some "off") SB_ARG_TYPE_BOOL None;
   SB_OPT "config-file" "File containing command line options" None SB_ARG_TYPE_FILE None;
   SB_OPT "luajit-cmd" ("perform LuaJIT control command. This option is " +:+
     "equivalent to 'luajit -j'. See LuaJIT documentation for more " +:+
     "information") None SB_ARG_TYPE_STRING None]%string.

(** ** Forced shutdown *)

(** [strcasecmp(s, "off")] *)
Definition is_off (s : string) : bool :=
  let lower c := if (65 <=? char_code c) && (char_code c <=? 90)
                 then Ascii.ascii_of_N (Z.to_N (char_code c + 32)) else c in
  String.eqb (str_of_list (map lower (list_of_str s))) "off".

Definition to_u32 (x : dbl) : parsed Z := match d_to_u32 x with Some z => POk z | None => PUndefined end.

(** [force_shutdown] and [timeout] from the option and the time limit. *)
Definition forced_shutdown (tmp : option string) (max_time_ns timeout : Z) : parsed (Z * Z) :=
  match tmp with
  | None => t <-p to_u32 (ddiv (NS2SEC max_time_ns) (d_of_Z 20)); POk (1, t)
  | Some s =>
      if is_off s then POk (0, timeout)
      else
        let '(v, endp) := strtol s in
        let t := u32 v in
        match String.get 0 endp with
        | Some c =>
            if Ascii.eqb c "%"%char
            then t <-p to_u32 (ddiv (dmul (d_of_Z t) (NS2SEC max_time_ns)) (d_of_Z 100)); POk (1, t)
            else PFail
        | None => if String.eqb s "" then PFail else POk (1, t)
        end
  end.

(** ** Report checkpoints *)

Fixpoint parse_checkpoints (values : list value_t) (acc : list Z) : parsed (list Z) :=
  match values with
  | [] => POk acc
  | v :: values =>
      let '(res, endp) := strtol (val_data v) in
      _ <-p check (negb (negb (String.eqb endp "") || (res <? 0) || (INT_MAX <? res)));
      _ <-p check (negb (Z.of_nat MAX_CHECKPOINTS <? Z.of_nat (length acc) + 1));
      parse_checkpoints values (acc ++ [res])
  end.

Definition checkpoint_cmp (a b : Z) : Z := s32 (u32 (a - b)).

Definition checkpoint_le (a b : Z) : Prop := checkpoint_cmp a b <= 0.
#[export] Instance checkpoint_le_dec a b : Decision (checkpoint_le a b).
Proof. unfold checkpoint_le. apply _. Defined.

(** [qsort(3)] with [checkpoint_cmp]: the order of equal elements does not matter
    here, as they are integers. *)
Definition sort_checkpoints (l : list Z) : list Z :=
  match l with [] => [] | _ => merge_sort checkpoint_le l end.

(** ** Threads and per-thread arrays *)

Section alloc.
(** Whether an allocation of this many bytes succeeds. *)
Context (alloc : Z -> bool).

Definition sizeof_ctxt : Z := 16.
Definition sizeof_timer : Z := 128.

Definition sb_thread_init (options : list option_t) (threads : Z) : parsed Z :=
  let stack_size := s32 (sb_get_value_size options "thread-stack-size") in
  _ <-p check (negb (stack_size <=? 0));
  _ <-p check (alloc (u64 (threads * sizeof_ctxt)));
  POk stack_size.

(** The zeroed elements, or [None] for [NULL], which only an empty array can be:
    the [memset] comes before the caller's test. *)
Definition sb_alloc_per_thread_array {A} (zero : A) (threads size : Z) : parsed (option (list A)) :=
  let n := u32 (threads + 1) in
  if alloc (u64 (n * size)) then POk (Some (replicate (Z.to_nat n) zero))
  else if n =? 0 then POk None else PUndefined.
Definition not_null {A} (x : option A) : parsed A := match x with Some a => POk a | None => PFail end.

(** [for (i = 0; i < threads; i++) sb_timer_init(&timers[i])] *)
Definition init_timers (threads : Z) (ts : list sb_timer_t) : parsed (list sb_timer_t) :=
  _ <-p defined (threads <=? Z.of_nat (length ts));
  POk (map sb_timer_init (take (Z.to_nat threads) ts) ++ drop (Z.to_nat threads) ts).

(** ** [init] *)

Record init_state := InitState {
  i_globals : sb_globals_t;
  thread_init_timeout : Z;
  thread_stack_size : Z;
  i_rand : rand_conf * Xoroshiro.state * unique_state;
  i_options : list option_t;
  i_timers : list sb_timer_t;
  i_timers_copy : list sb_timer_t;
  luajit_cmd : option string
}.

Context (fopen : string -> option string).
Context (log exp log1p expm1 : dbl -> dbl) (strtod : string -> dbl) (random : nat -> Z).

Definition p_rand (r : init_result) : parsed (rand_conf * Xoroshiro.state * unique_state) :=
  match r with
  | InitOk g s u => POk (g, s, u)
  | InitFail => PFail
  | InitExit c => PExit c
  | InitUndefined => PUndefined
  end.

(** The debug mode raises the verbosity. *)
Definition debug_options (debug : Z) (options : list option_t) : list option_t :=
  if debug =? 0 then options
  else
    match get_opt options "verbosity" with
    | Some o => fst (set_option fopen options (opt_name o) (Some "5"%string) (opt_type o))
    | None => options
    end.

Definition init (g : sb_globals_t) (options : list option_t) : parsed init_state :=
  threads <-p p_int (sb_get_value_int options "threads");
  let threads := u32 threads in
  thread_init_timeout <-p p_int (sb_get_value_int options "thread-init-timeout");
  _ <-p check (negb (threads <=? 0));
  events <-p p_int (sb_get_value_int options "events");
  warmup_time <-p p_int (sb_get_value_int options "warmup-time");
  _ <-p check (negb (warmup_time <? 0));
  max_time <-p p_int (sb_get_value_int options "time");
  let max_time_ns := SEC2NS max_time in
  limits <-p
    (if 0 <? max_time_ns then
       let max_time_ns := if 0 <? warmup_time then u64 (max_time_ns + SEC2NS warmup_time) else max_time_ns in
       f <-p forced_shutdown (sb_get_value_string options "forced-shutdown") max_time_ns (timeout g);
       POk (max_time_ns, f)
     else POk (max_time_ns, (force_shutdown g, timeout g)));
  let '(max_time_ns, (force, timeout)) := limits in
  stack_size <-p sb_thread_init options threads;
  let debug := sb_get_value_flag options "debug" in
  let options := debug_options debug options in
  let validate := sb_get_value_flag options "validate" in
  rand <-p p_rand (sb_rand_init log exp log1p expm1 strtod random options);
  rate <-p p_int (sb_get_value_int options "rate");
  interval <-p p_int (sb_get_value_int options "report-interval");
  values <-p match sb_get_value_list options "report-checkpoints" with Some l => POk l | None => PUndefined end;
  cps <-p parse_checkpoints values [];
  ts <-p sb_alloc_per_thread_array zero_timer threads sizeof_timer;
  tcs <-p sb_alloc_per_thread_array zero_timer threads sizeof_timer;
  ts <-p not_null ts;
  tcs <-p not_null tcs;
  ts <-p init_timers threads ts;
  POk (InitState
         (Globals (g_error g) (u32 rate) (u64 events) max_time_ns threads (threads_running g) (u32 interval)
            (percentile g) (histogram g) (sort_checkpoints cps) debug timeout validate (concurrency g) force
            (forced_shutdown_in_progress g) warmup_time (nevents g))
         thread_init_timeout stack_size rand options ts tcs (sb_get_value_string options "luajit-cmd")).
End alloc.

(** ** What an accepted configuration satisfies *)

Definition checkpoint_ok (z : Z) : Prop := 0 <= z <= INT_MAX.

Lemma parse_checkpoints_ok values : forall acc l,
  parse_checkpoints values acc = POk l ->
  l = acc ++ map (fun v => fst (strtol (val_data v))) values /\
  (Forall checkpoint_ok acc -> Forall checkpoint_ok l) /\
  ((length acc <= MAX_CHECKPOINTS)%nat -> (length l <= MAX_CHECKPOINTS)%nat).
Proof.
  induction values as [|v values IH]; intros acc l H; cbn [parse_checkpoints map] in *.
  - injection H as <-. by rewrite app_nil_r.
  - destruct (strtol (val_data v)) as [res endp]. cbn [fst]. next_step H u E1. next_step H u2 E2.
    apply check_ok in E1, E2. bool_to_prop. destruct (IH _ _ H) as (E & Hf & Hl).
    split; [by rewrite E, <- app_assoc|]. split.
    + intros Ha. apply Hf, Forall_app. split; [done|]. apply Forall_singleton. unfold checkpoint_ok. lia.
    + intros Ha. apply Hl. rewrite length_app. cbn [length]. lia.
Qed.

Lemma checkpoint_cmp_le a b : checkpoint_ok a -> checkpoint_ok b -> (checkpoint_le a b <-> a <= b).
Proof. unfold checkpoint_ok, checkpoint_le, checkpoint_cmp, INT_MAX. intros Ha Hb. ulia. Qed.

#[export] Instance checkpoint_le_total : Total checkpoint_le.
Proof.
  intros a b. unfold checkpoint_le, checkpoint_cmp.
  assert (s32 (u32 (a - b)) <= 0 \/ s32 (u32 (b - a)) <= 0) as [?|?]; [ulia|by left|by right].
Qed.

Lemma sort_checkpoints_perm l : sort_checkpoints l ≡ₚ l.
Proof. destruct l; [done|]. apply merge_sort_Permutation. Qed.

Lemma sort_checkpoints_sorted l : Forall checkpoint_ok l -> Sorted Z.le (sort_checkpoints l).
Proof.
  intros Hl. assert (Hs : Sorted checkpoint_le (sort_checkpoints l))
    by (destruct l; [constructor|apply Sorted_merge_sort, _]).
  assert (Hf : Forall checkpoint_ok (sort_checkpoints l)) by by rewrite sort_checkpoints_perm.
  clear Hl. induction Hs as [|a l' Hs IH Ha]; [constructor|]. apply Forall_cons in Hf as [Hok Hf].
  constructor; [by apply IH|]. destruct Ha as [|b l' Hab]; constructor.
  apply Forall_cons in Hf as [Hb _]. by apply checkpoint_cmp_le.
Qed.

Section facts.
Context (alloc : Z -> bool) (fopen : string -> option string).
Context (log exp log1p expm1 : dbl -> dbl) (strtod : string -> dbl) (random : nat -> Z).

Lemma init_timers_ok n threads ts ts' :
  0 <= threads -> ts = replicate n zero_timer -> init_timers threads ts = POk ts' ->
  threads <= Z.of_nat n /\ length ts' = n /\
  forall i, (i < Z.to_nat threads)%nat -> ts' !! i = Some (sb_timer_init zero_timer).
Proof.
  intros Ht -> H. unfold init_timers in H. next_step H u E. apply defined_ok in E. bool_to_prop.
  rewrite length_replicate in E. injection H as <-.
  rewrite take_replicate, drop_replicate, length_app, length_map, !length_replicate.
  split; [done|]. split; [lia|]. intros i Hi.
  rewrite lookup_app_l by (rewrite length_map, length_replicate; lia).
  rewrite list_lookup_fmap, lookup_replicate_2 by lia. done.
Qed.

Lemma per_thread_array_ok {A} (zero : A) threads size m ts :
  sb_alloc_per_thread_array alloc zero threads size = POk m -> not_null m = POk ts ->
  ts = replicate (Z.to_nat (u32 (threads + 1))) zero.
Proof.
  unfold sb_alloc_per_thread_array. destruct (alloc _); [intros [= <-] [= <-]; done|].
  destruct (_ =? 0); [intros [= <-]; discriminate|discriminate].
Qed.

(** C27: when [init] succeeds there are between 1 and 2^32 - 2 threads, every
    worker has an initialized timer and the background threads a slot of their
    own, the warm-up time is not negative, the stack is not empty, and the
    checkpoints are those of the command line, at most 256, in ascending order. *)
Theorem init_valid (g : sb_globals_t) options r :
  init alloc fopen log exp log1p expm1 strtod random g options = POk r ->
  let g' := i_globals r in
  1 <= threads g' < 2 ^ 32 - 1 /\ 0 <= warmup_time g' /\ 0 < thread_stack_size r
  /\ length (i_timers r) = S (Z.to_nat (threads g')) /\ length (i_timers_copy r) = S (Z.to_nat (threads g'))
  /\ (forall i, (i < Z.to_nat (threads g'))%nat -> i_timers r !! i = Some (sb_timer_init zero_timer))
  /\ Sorted Z.le (checkpoints g') /\ Forall checkpoint_ok (checkpoints g')
  /\ (length (checkpoints g') <= MAX_CHECKPOINTS)%nat
  /\ exists values, sb_get_value_list (i_options r) "report-checkpoints" = Some values
       /\ checkpoints g' ≡ₚ map (fun v => fst (strtol (val_data v))) values.
Proof.
  intros H. unfold init in H. next_step H t Et. next_step H tmo Etmo. next_step H u Eu. next_step H ev Eev.
  next_step H wu Ewu. next_step H u2 Eu2. next_step H mt Emt. next_step H lim Elim. destruct lim as [ns [force to]].
  next_step H st Est. next_step H rand Erand. next_step H rate Erate. next_step H iv Eiv. next_step H vals Evals.
  next_step H cps Ecps. next_step H ts Ets. next_step H tcs Etcs. next_step H ts1 Ets1. next_step H tcs1 Etcs1.
  next_step H ts2 Ets2. injection H as <-. cbn [i_globals threads warmup_time thread_stack_size i_timers i_timers_copy
    checkpoints i_options]. apply check_ok in Eu, Eu2. bool_to_prop.
  assert (Hu : 0 <= u32 t < 2 ^ 32) by ulia.
  pose proof (per_thread_array_ok _ _ _ _ _ Ets Ets1) as Hts. pose proof (per_thread_array_ok _ _ _ _ _ Etcs Etcs1) as Htcs.
  destruct (init_timers_ok _ (u32 t) _ _ ltac:(lia) Hts Ets2) as (Hn & Hl & Hi).
  assert (Hmax : u32 t < 2 ^ 32 - 1).
  { destruct (Z.eq_dec (u32 t) (2 ^ 32 - 1)) as [E|]; [|lia]. rewrite E in Hn. by vm_compute in Hn. }
  assert (Hlen : Z.to_nat (u32 (u32 t + 1)) = S (Z.to_nat (u32 t))) by (rewrite u32_small by (unfold is_u32; lia); lia).
  rewrite Hlen in *. destruct (parse_checkpoints_ok _ _ _ Ecps) as (Ec & Hf & Hc).
  unfold sb_thread_init in Est. next_step Est u3 E3. next_step Est u4 E4. injection Est as <-. apply check_ok in E3.
  bool_to_prop. specialize (Hf ltac:(constructor)). specialize (Hc ltac:(cbn; lia)).
  split_and!; try lia; try done.
  - by rewrite Htcs, length_replicate.
  - by apply sort_checkpoints_sorted.
  - by rewrite sort_checkpoints_perm.
  - by rewrite sort_checkpoints_perm.
  - exists vals. destruct (sb_get_value_list _ _) as [l|]; [|discriminate]. injection Evals as ->.
    split; [done|]. by rewrite sort_checkpoints_perm, Ec.
Qed.
End facts.

(** ** Examples and defects *)

Definition zero_globals : sb_globals_t := Globals 0 0 0 0 0 0 0 0 0 [] 0 0 0 0 0 0 0 0.

(** Options with their values; [init] reads 0 for the others. *)
Definition options_for (l : list (string * list string)) : list option_t :=
  map (fun '(name, v) => Opt name SB_ARG_TYPE_STRING (map (fun v => Value v false) v) false None)
    (("rand-type"%string, ["uniform"%string]) :: ("thread-stack-size"%string, ["64K"%string]) :: l).

(** [init] with these arguments, enough memory and library functions that do not
    matter here. *)
Definition init_for (alloc : Z -> bool) (l : list (string * list string)) : parsed init_state :=
  init alloc (fun _ => None) (fun _ => NaN) (fun _ => NaN) (fun _ => NaN) (fun _ => NaN) (fun _ => NaN) (fun _ => 7)
    zero_globals (options_for l).

Definition example_options : list (string * list string) :=
  [("threads", ["4"]); ("report-checkpoints", ["30"; "10"; "20"])]%string.

Lemma init_valid_witness :
  exists r, init_for (fun _ => true) example_options = POk r
  /\ 1 <= threads (i_globals r) < 2 ^ 32 - 1 /\ checkpoints (i_globals r) = [10; 20; 30].
Proof.
  assert (exists r, init_for (fun _ => true) example_options = POk r
            /\ checkpoints (i_globals r) = [10; 20; 30]) as (r & E & Ec)
    by (eexists; split; [vm_compute; reflexivity|reflexivity]).
  exists r. split; [exact E|]. split; [|exact Ec].
  apply (init_valid (fun _ => true) (fun _ => None) (fun _ => NaN) (fun _ => NaN) (fun _ => NaN) (fun _ => NaN)
           (fun _ => NaN) (fun _ => 7) zero_globals (options_for example_options) r E).
Defined.

(** 64 GiB, the stack descriptors of 2^32 - 1 threads. *)
Definition big_memory (n : Z) : bool := n <=? 2 ^ 36.

(** The tests of [init] miss values out of range.  [--threads=-1] is accepted
    by the test [threads <= 0] of an unsigned number and becomes 2^32 - 1 threads,
    for which the per-thread arrays have no element at all and are then written
    to; [--time=-1] becomes a limit of about 585 years, and [--events=-1] one of
    2^64 - 1 events. *)
Theorem init_accepts_negative :
  init_for big_memory [("threads", ["-1"]); ("report-checkpoints", [])]%string = PUndefined
  /\ exists r, init_for big_memory [("threads", ["1"]); ("time", ["-1"]); ("events", ["-1"]);
       ("forced-shutdown", ["off"]); ("report-checkpoints", [])]%string = POk r
       /\ max_time_ns (i_globals r) = 2 ^ 64 - 10 ^ 9 /\ max_events (i_globals r) = 2 ^ 64 - 1.
Proof. split; [by vm_compute|]. eexists. split; [by vm_compute|]. done. Qed.
