(* ===== verification/Logger.v ===== *)
(** * The logger ([sb_logger.c], [sb_logger.h])

    Messages go to the handlers of their type; the text handler prints those that
    are important enough and counts repeated ones instead of printing them, and
    the other handler owns the latency histogram.  What is printed is a list of
    [line]s.  [vsnprintf] is an argument: the text it would format. *)

From stdpp Require Import pretty.
From S2P Require Import Prelude Double Options Histogram.

#[local] Open Scope parse_scope.

(** ** Messages *)

Inductive log_msg_type_t := LOG_MSG_TYPE_MIN | LOG_MSG_TYPE_TEXT | LOG_MSG_TYPE_OPER | LOG_MSG_TYPE_MAX.

Inductive log_msg_priority_t :=
| LOG_FATAL | LOG_ALERT | LOG_WARNING | LOG_NOTICE | LOG_INFO | LOG_DEBUG | LOG_MAX.

Definition priority_code (p : log_msg_priority_t) : Z :=
  match p with
  | LOG_FATAL => 0 | LOG_ALERT => 1 | LOG_WARNING => 2 | LOG_NOTICE => 3 | LOG_INFO => 4 | LOG_DEBUG => 5
  | LOG_MAX => 6
  end.

Record log_msg_text_t := TextMsg { msg_priority : log_msg_priority_t; msg_text : string; msg_flags : Z }.

Definition LOG_MSG_TEXT_ALLOW_DUPLICATES : Z := 1.


(** What one [printf] writes. *)
Inductive line := Text (p : log_msg_priority_t) (s : string) | Repeated (n : Z).

(** ** Handlers *)

Record log_state := LogState {
  verbosity : Z;
  text_buf : string;
  text_cnt : Z;
  g_percentile : Z;
  g_histogram : Z;
  sb_latency_histogram : sb_histogram_t;
  printed : list line
}.

Definition print (l : line) (s : log_state) : log_state :=
  LogState (verbosity s) (text_buf s) (text_cnt s) (g_percentile s) (g_histogram s)
    (sb_latency_histogram s) (printed s ++ [l]).
Definition set_text (buf : string) (cnt : Z) (s : log_state) : log_state :=
  LogState (verbosity s) buf cnt (g_percentile s) (g_histogram s) (sb_latency_histogram s) (printed s).

Definition TEXT_BUFFER_SIZE : Z := 4096.

(** [strncpy(text_buf, s, TEXT_BUFFER_SIZE)]: every text is shorter than the buffer. *)
Definition text_handler_process (m : log_msg_text_t) (s : log_state) : log_state :=
  if verbosity s <? priority_code (msg_priority m) then s
  else
    let show s := print (Text (msg_priority m) (msg_text m)) s in
    if negb (Z.testbit (msg_flags m) 0) then
      if String.eqb (text_buf s) (msg_text m) then set_text (text_buf s) (u32 (text_cnt s + 1)) s
      else
        let s := if 0 <? text_cnt s then print (Repeated (text_cnt s)) s else s in
        show (set_text (msg_text m) 0 s)
    else show s.

Definition text_handler_args : list sb_arg_t :=
  [SB_OPT "verbosity" "verbosity level {5 - debug, 0 - only critical messages}" (Some "3") SB_ARG_TYPE_INT None]%string.

Definition text_handler_init (options : list option_t) (s : log_state) : parsed log_state :=
  v <-p p_int (sb_get_value_int options "verbosity");
  let v := u8 v in
  _ <-p check (negb (priority_code LOG_DEBUG <? v));
  POk (LogState v "" 0 (g_percentile s) (g_histogram s) (sb_latency_histogram s) (printed s)).

Definition oper_handler_args : list sb_arg_t :=
  [SB_OPT "percentile" ("percentile to calculate in latency statistics (1-100). " +:+
     "Use the special value of 0 to disable percentile calculations") (Some "95") SB_ARG_TYPE_INT None;
   SB_OPT "histogram" "print latency histogram in report" (Some "off") SB_ARG_TYPE_BOOL None]%string.

Definition OPER_LOG_GRANULARITY : nat := 1024.
Definition OPER_LOG_MIN_VALUE : dbl := d_const 1 1000.
Definition OPER_LOG_MAX_VALUE : dbl := d_of_Z 100000.

Section logger.
Context (log : dbl -> dbl) (calloc_ok : bool) (fopen : string -> option string).

Definition oper_handler_init (options : list option_t) (s : log_state) : parsed log_state :=
  pct <-p p_int (sb_get_value_int options "percentile");
  _ <-p check (negb ((pct <? 0) || (100 <? pct)));
  let hist := sb_get_value_flag options "histogram" in
  _ <-p check (negb ((pct =? 0) && negb (hist =? 0)));
  let '(rc, h) := sb_histogram_init log calloc_ok (sb_latency_histogram s) OPER_LOG_GRANULARITY
                    OPER_LOG_MIN_VALUE OPER_LOG_MAX_VALUE in
  _ <-p check (rc =? 0);
  POk (LogState (verbosity s) (text_buf s) (text_cnt s) pct hist h (printed s)).

(** The operations of a handler; [None] is a null pointer. *)
Record log_handler_t := Handler {
  h_init : option (list option_t -> log_state -> parsed log_state);
  h_process : option (log_msg_text_t -> log_state -> log_state);
  h_done : option (log_state -> log_state);
  h_args : option (list sb_arg_t)
}.

(** [sb_histogram_done] frees the histogram's arrays. *)
Definition oper_handler_done (s : log_state) : log_state :=
  let h := sb_latency_histogram s in
  LogState (verbosity s) (text_buf s) (text_cnt s) (g_percentile s) (g_histogram s)
    (Histogram [] (cumulative_nevents h) [] [] (array_size h) (range_min h) (range_max h) (range_deduct h)
       (range_mult h) (locked h)) (printed s).

Definition text_handler : log_handler_t :=
  Handler (Some text_handler_init) (Some text_handler_process) None (Some text_handler_args).
Definition oper_handler : log_handler_t :=
  Handler (Some oper_handler_init) None (Some oper_handler_done) (Some oper_handler_args).

(** ** The logger *)

(** The handlers of each type, in the order of the types. *)
Record logger := Logger {
  min_handlers : list log_handler_t;
  text_handlers : list log_handler_t;
  oper_handlers : list log_handler_t;
  initialized : bool;
  l_state : log_state
}.

Definition log_add_handler (ty : log_msg_type_t) (h : log_handler_t) (options : list option_t) (l : logger)
    : Z * list option_t * logger :=
  let register := match h_args h with Some args => fst (sb_register_arg_set fopen args options) | None => options end in
  match ty with
  | LOG_MSG_TYPE_MIN | LOG_MSG_TYPE_MAX => (1, options, l)
  | LOG_MSG_TYPE_TEXT =>
      (0, register, Logger (min_handlers l) (text_handlers l ++ [h]) (oper_handlers l) (initialized l) (l_state l))
  | LOG_MSG_TYPE_OPER =>
      (0, register, Logger (min_handlers l) (text_handlers l) (oper_handlers l ++ [h]) (initialized l) (l_state l))
  end.

Definition log_register (options : list option_t) (l : logger) : Z * list option_t * logger :=
  let l := Logger [] [] [] (initialized l) (l_state l) in
  let '(_, options, l) := log_add_handler LOG_MSG_TYPE_TEXT text_handler options l in
  let '(_, options, l) := log_add_handler LOG_MSG_TYPE_OPER oper_handler options l in
  (0, options, l).

Definition all_handlers (l : logger) : list log_handler_t := min_handlers l ++ text_handlers l ++ oper_handlers l.

Fixpoint init_handlers (hs : list log_handler_t) (options : list option_t) (s : log_state) : parsed log_state :=
  match hs with
  | [] => POk s
  | h :: hs =>
      s <-p match h_init h with Some f => f options s | None => POk s end;
      init_handlers hs options s
  end.

Definition log_init (options : list option_t) (l : logger) : parsed logger :=
  s <-p init_handlers (all_handlers l) options (l_state l);
  POk (Logger (min_handlers l) (text_handlers l) (oper_handlers l) true s).

Definition log_done (l : logger) : logger :=
  let s := foldl (fun s h => match h_done h with Some f => f s | None => s end) (l_state l) (all_handlers l) in
  Logger (min_handlers l) (text_handlers l) (oper_handlers l) false s.

Definition log_msg (m : log_msg_text_t) (l : logger) : logger :=
  let s := foldl (fun s h => match h_process h with Some f => f m s | None => s end) (l_state l) (text_handlers l) in
  Logger (min_handlers l) (text_handlers l) (oper_handlers l) (initialized l) s.

(** ** Formatting *)

(** A text formatted at the end of what the buffer holds, and then a newline:
    [maxlen] is the room left.  [None]: [vsnprintf] failed; the buffer's contents
    are then unspecified, here empty. *)
Definition add_line (buf : string) (maxlen : Z) (text : option string) : string :=
  let n := match text with Some t => if maxlen <=? strlen t then maxlen else strlen t | None => maxlen end in
  buf +:+ default "" (snprintf maxlen (default "" text)) +:+ default "" (snprintf (maxlen - n) (String "010" "")).

Definition dispatch (p : log_msg_priority_t) (buf : string) (flags : Z) (l : logger) : logger :=
  if negb (initialized l)
  then Logger (min_handlers l) (text_handlers l) (oper_handlers l) (initialized l)
         (print (Text p buf) (l_state l))
  else log_msg (TextMsg p buf flags) l.

Definition log_text (p : log_msg_priority_t) (text : option string) (l : logger) : logger :=
  dispatch p (add_line "" TEXT_BUFFER_SIZE text) 0 l.

(** [stamp] is the text of ["[ %.0fs ] "], shorter than the buffer. *)
Definition log_timestamp (p : log_msg_priority_t) (stamp : string) (text : option string) (l : logger) : logger :=
  dispatch p (add_line stamp (TEXT_BUFFER_SIZE - strlen stamp) text) LOG_MSG_TEXT_ALLOW_DUPLICATES l.

(** [suffix] is the text of [" errno = %d (%s)"].  [None]: the suffix is written
    past the end of the buffer, with a size that has wrapped around. *)
Definition log_errno (p : log_msg_priority_t) (text : option string) (suffix : string) (l : logger) : option logger :=
  match text with
  | None => Some l
  | Some t =>
      let n := strlen t in
      if n =? TEXT_BUFFER_SIZE then Some l
      else if TEXT_BUFFER_SIZE <? n then None
      else
        let buf := t +:+ default "" (snprintf (TEXT_BUFFER_SIZE - n) suffix) in
        Some (log_text p (Some buf) l)
  end.
End logger.

(** ** What is printed determines what was logged *)







Section printing.
Context (log : dbl -> dbl) (calloc_ok : bool).

(** A logger as [log_register] and [log_init] leave it. *)
Definition ready (l : logger) : Prop := initialized l = true /\ text_handlers l = [text_handler].


(** The text a message is printed as. *)
Definition message (t : string) : string := add_line "" TEXT_BUFFER_SIZE (Some t).




(** A message is never longer than the buffer, and short ones get their newline. *)
Lemma message_fits t :
  strlen (message t) < TEXT_BUFFER_SIZE
  /\ (strlen t <= TEXT_BUFFER_SIZE - 2 -> message t = t +:+ String "010" "").
Proof.
  unfold message, add_line, snprintf. cbn [default from_option id]; unfold id. change (TEXT_BUFFER_SIZE =? 0) with false. cbn [default].
  pose proof (strlen_nonneg t).
  assert (En : (if TEXT_BUFFER_SIZE <=? strlen t then TEXT_BUFFER_SIZE else strlen t) = Z.min TEXT_BUFFER_SIZE (strlen t))
    by (destruct (Z.leb_spec TEXT_BUFFER_SIZE (strlen t)); lia).
  rewrite En. unfold TEXT_BUFFER_SIZE in *. split.
  - rewrite !strlen_app, substring_length. change (strlen "") with 0. destruct (Z.eqb_spec (4096 - Z.min 4096 (strlen t)) 0) as [E|E]; cbn [default from_option id]; unfold id.
    + change (strlen "") with 0. lia.
    + rewrite substring_length. change (strlen (String "010" "")) with 1. lia.
  - intros Ht. rewrite substring_all by lia. rewrite (proj2 (Z.eqb_neq _ 0)) by lia. cbn [default from_option id]; unfold id.
    by rewrite substring_all by (change (strlen (String "010" "")) with 1; lia).
Qed.

(** The buffer of [log_errno] is overrun by exactly the messages longer than it. *)
Lemma log_errno_overflows p t suffix l : log_errno p (Some t) suffix l = None <-> TEXT_BUFFER_SIZE < strlen t.
Proof.
  unfold log_errno. destruct (Z.eqb_spec (strlen t) TEXT_BUFFER_SIZE); [split; [discriminate|lia]|].
  destruct (Z.ltb_spec TEXT_BUFFER_SIZE (strlen t)); split; first [done|lia].
Qed.

(** What a logger that starts has checked. *)
Lemma log_init_valid fopen options l0 rc options' l l' :
  log_register log calloc_ok fopen options l0 = (rc, options', l) -> log_init options' l = POk l' ->
  ready l' /\ verbosity (l_state l') <= priority_code LOG_DEBUG /\ 0 <= g_percentile (l_state l') <= 100
  /\ (g_percentile (l_state l') = 0 -> g_histogram (l_state l') = 0)
  /\ array_size (sb_latency_histogram (l_state l')) = OPER_LOG_GRANULARITY.
Proof.
  unfold log_register, log_add_handler. intros [= <- <- <-] H. unfold log_init in H. cbn in H.
  unfold text_handler_init, oper_handler_init in H.
  destruct (sb_get_value_int _ "verbosity") as [v|]; cbn in H; [|discriminate].
  destruct (5 <? u8 v) eqn:Ev; cbn in H; [discriminate|].
  destruct (sb_get_value_int _ "percentile") as [pct|]; cbn in H; [|discriminate].
  destruct ((pct <? 0) || (100 <? pct)) eqn:Ep; cbn in H; [discriminate|].
  destruct ((pct =? 0) && negb (sb_get_value_flag _ "histogram" =? 0)) eqn:Eh; cbn in H; [discriminate|].
  unfold sb_histogram_init in H. destruct calloc_ok; cbn in H; [|discriminate]. injection H as <-. cbn. bool_to_prop.
  split; [done|]. split; [lia|]. split; [lia|]. split; [|done]. intros ->. cbn in Eh. by bool_to_prop.
Qed.
End printing.


