(* ===== verification/Startup.v ===== *)
(** * Starting the worker threads ([sysbench.c], fourth part)

    The main thread, the workers and, with --rate, the event generator meet at
    [worker_barrier].  A worker whose [thread_init] fails sets the global error
    flag before it arrives; the barrier's callback reports it to everybody.  A
    generator that cannot initialize its mutex or its condition variable arrives
    too, and then ends without setting the flag.  The step relation composes the
    barrier's with the code of [worker_thread], [eventgen_thread_proc] and
    [run_test] around it, and follows each thread until it starts to run. *)

From S2P Require Import Prelude Barrier.
From S2P Require Import Double Counter Timer Histogram Reports.

(** ** The code of the threads *)

Inductive kind := MainThread | WorkerThread | Generator.

(** A worker arrives at the barrier with its initialization done or failed; a
    generator that gives up waits there and then has quit.  [Stopped]: the thread
    has left the barrier and does not run. *)
Inductive phase :=
| Starting
| AtBarrier (ok : bool)
| Quitting
| Running
| Stopped
| HasQuit.

Definition set_error (w : world) : world :=
  let g := globals w in
  World (Globals 1 (tx_rate g) (max_events g) (max_time_ns g) (Reports.threads g)
           (threads_running g) (report_interval g) (percentile g) (histogram g) (checkpoints g) (debug g)
           (timeout g) (validate g) (concurrency g) (force_shutdown g) (forced_shutdown_in_progress g)
           (warmup_time g) (nevents g))
    (counts w) (latency_histogram w) (timers w) (timers_copy w)
    (sb_exec_timer w) (sb_intermediate_timer w) (sb_checkpoint_timer w).

(** [worker_thread] up to the barrier: [rc] is the result of [thread_init], [None]
    when the test has none. *)
Definition worker_init (rc : option Z) (w : world) : phase * world :=
  match rc with
  | Some rc => if rc =? 0 then (AtBarrier true, w) else (AtBarrier false, set_error w)
  | None => (AtBarrier true, w)
  end.

(** [eventgen_thread_proc] up to the barrier: the results of [pthread_mutex_init]
    and [pthread_cond_init]. *)
Definition generator_init (mutex_rc cond_rc : Z) : phase :=
  if negb (mutex_rc =? 0) || negb (cond_rc =? 0) then Quitting else AtBarrier true.

(** The threads up to the barrier: [rc] and [rc2] are what their initialization
    returns; the main thread, which has created the others, just arrives. *)
Definition arrive (k : kind) (rc : option Z) (rc2 : Z) (w : world) : phase * world :=
  match k with
  | MainThread => (AtBarrier true, w)
  | WorkerThread => worker_init rc w
  | Generator => (generator_init (default 0 rc) rc2, w)
  end.

Definition at_barrier (p : phase) : bool := match p with AtBarrier _ | Quitting => true | _ => false end.

(** After [sb_barrier_wait] has returned [r]: only a thread that is ready looks at
    the result. *)
Definition after_barrier (p : phase) (r : Z) : phase :=
  match p with
  | AtBarrier true => if r <? 0 then Stopped else Running
  | Quitting => HasQuit
  | _ => Stopped
  end.

(** The callback of the barrier, run by the last thread to arrive. *)
Definition threads_started_callback (now : timespec) (w : world) : Z * world :=
  let g := globals w in
  if negb (g_error g =? 0) then (1, w)
  else
    let g := Globals (g_error g) (tx_rate g) (max_events g) (max_time_ns g) (Reports.threads g)
               (Reports.threads g) (report_interval g) (percentile g) (histogram g) (checkpoints g) (debug g)
               (timeout g) (validate g) (concurrency g) (force_shutdown g) (forced_shutdown_in_progress g)
               (warmup_time g) (nevents g) in
    let t := sb_timer_start now (sb_exec_timer w) in
    (0, World g (counts w) (latency_histogram w) (timers w) (timers_copy w) t
          (sb_timer_copy t) (sb_timer_copy t)).

(** ** The system *)

Record startup := Startup { bcfg : config; phases : list phase; sw : world }.

(** A step of the barrier in which only thread [i] acts. *)
Definition barrier_step (i : nat) (c c' : config) : Prop :=
  Barrier.step c c' /\ forall j, j <> i -> Barrier.threads c' !! j = Barrier.threads c !! j.

Section system.
(** What the threads are, and the clock the callback reads. *)
Context (kind_of : nat -> kind) (now : timespec).

Inductive sstep : startup -> startup -> Prop :=
| s_init s i rc rc2 p w :
    phases s !! i = Some Starting -> arrive (kind_of i) rc rc2 (sw s) = (p, w) ->
    sstep s (Startup (bcfg s) (<[i := p]> (phases s)) w)
| s_wait s i p t c :
    phases s !! i = Some p -> at_barrier p = true -> Barrier.threads (bcfg s) !! i = Some t ->
    (calls t = 0%nat \/ at_pc t <> Out) -> barrier_step i (bcfg s) c -> fails c = fails (bcfg s) ->
    sstep s (Startup c (phases s) (sw s))
| s_complete s i p t c rc w :
    phases s !! i = Some p -> at_barrier p = true -> Barrier.threads (bcfg s) !! i = Some t ->
    calls t = 0%nat -> barrier_step i (bcfg s) c ->
    threads_started_callback now (sw s) = (rc, w) -> fails c = negb (rc =? 0) :: fails (bcfg s) ->
    sstep s (Startup c (phases s) w)
| s_return s i p t r :
    phases s !! i = Some p -> at_barrier p = true -> Barrier.threads (bcfg s) !! i = Some t ->
    calls t = 1%nat -> at_pc t = Out -> last_result t = Some r ->
    sstep s (Startup (bcfg s) (<[i := after_barrier p r]> (phases s)) (sw s)).

Definition sinitial (n : nat) (w : world) : startup := Startup (initial n true) (replicate n Starting) w.

(** ** The invariant *)

Definition phase_ok (t : thread) (p : phase) : Prop :=
  match p with
  | Starting => calls t = 0%nat
  | AtBarrier _ | Quitting => (calls t <= 1)%nat
  | Running | Stopped | HasQuit => calls t = 1%nat /\ at_pc t = Out
  end.

Definition failed (p : phase) : bool := match p with AtBarrier false => true | _ => false end.

(** The generator has not been able to initialize. *)
Definition gives_up (p : phase) : bool := match p with Quitting | HasQuit => true | _ => false end.

(** Before the round is over the error flag tells whether somebody has failed;
    afterwards everybody has arrived, and either no worker has failed or nobody runs. *)
Definition round_ok (fl : list bool) (ps : list phase) (w : world) : Prop :=
  match fl with
  | [] => g_error (globals w) = b2z (existsb failed ps)
  | false :: _ => Forall (fun p => p = AtBarrier true \/ p = Running \/ gives_up p = true) ps
                  /\ g_error (globals w) = 0 /\ threads_running (globals w) = Reports.threads (globals w)
  | true :: _ => Forall (fun p => p <> Starting /\ p <> Running) ps /\ g_error (globals w) <> 0
  end.

Record sinv (n : nat) (s : startup) : Prop := SInv {
  si_bar : inv n (bcfg s);
  si_len : length (phases s) = n;
  si_phase : forall i t p, Barrier.threads (bcfg s) !! i = Some t -> phases s !! i = Some p -> phase_ok t p;
  si_round : round_ok (fails (bcfg s)) (phases s) (sw s);
  si_kind : forall i p, phases s !! i = Some p -> gives_up p = true -> kind_of i = Generator
}.

Lemma step_calls c c' i t t' :
  Barrier.step c c' -> Barrier.threads c !! i = Some t -> Barrier.threads c' !! i = Some t' ->
  (calls t' <= S (calls t))%nat /\ (at_pc t <> Out -> calls t' = calls t).
Proof.
  intros Hs Hi Hi'.
  assert (Hins : forall k u u', Barrier.threads c !! k = Some u -> (calls u' <= S (calls u))%nat ->
            (at_pc u <> Out -> calls u' = calls u) -> <[k := u']> (Barrier.threads c) !! i = Some t' ->
            (calls t' <= S (calls t))%nat /\ (at_pc t <> Out -> calls t' = calls t)).
  { intros k u u' Hk H1 H2 H. destruct (decide (k = i)) as [->|Hne].
    - rewrite list_lookup_insert_eq in H by (by eapply lookup_lt_Some). simplify_eq. done.
    - rewrite list_lookup_insert_ne in H by done. simplify_eq. split; [lia|done]. }
  destruct Hs as [? k u ? ? ? Hk Ho _|? k u ? ? ? Hk Ho _|? k u ? ? Hk Ho _|]; cbn [Barrier.threads] in *;
    [apply (Hins k u _ Hk) in Hi'..|simplify_eq; split; [lia|done]]; try done; cbn; lia.
Qed.

(** The number of rounds is bounded by every thread's calls. *)
Lemma rounds_le_calls n c i t : inv n c -> Barrier.threads c !! i = Some t -> (length (fails c) <= calls t)%nat.
Proof.
  intros (_ & _ & _ & _ & _ & _ & _ & Hth) Hi. destruct (Hth i t Hi) as [(_ & -> & _)|[(_ & -> & _)|(_ & _ & -> & _)]]; lia.
Qed.

Lemma returned_round n c i t : inv n c -> Barrier.threads c !! i = Some t -> at_pc t = Out ->
  length (fails c) = calls t /\ last_result t = round_result (fails c) (leader c) i.
Proof.
  intros (_ & _ & _ & _ & _ & _ & _ & Hth) Hi Ho.
  destruct (Hth i t Hi) as [(_ & -> & _ & ->)|[(E & _)|(E & _)]]; [done|congruence..].
Qed.

Lemma failed_insert ps i p : ps !! i = Some Starting ->
  existsb failed (<[i := p]> ps) = failed p || existsb failed ps.
Proof.
  revert i. induction ps as [|q ps IH]; intros [|i] Hi; try done; cbn in *.
  - by injection Hi as ->.
  - rewrite IH by done. by destruct (failed q), (failed p).
Qed.

Lemma phases_lookup n s i : sinv n s -> (i < n)%nat ->
  exists t p, Barrier.threads (bcfg s) !! i = Some t /\ phases s !! i = Some p.
Proof.
  intros [Hb Hl _ _ _] Hi. destruct Hb as [Hlt _].
  destruct (lookup_lt_is_Some_2 (Barrier.threads (bcfg s)) i) as [t Ht]; [lia|].
  destruct (lookup_lt_is_Some_2 (phases s) i) as [p Hp]; [lia|]. by exists t, p.
Qed.

Lemma phase_ok_insert (ts : list thread) (ps : list phase) i p :
  (forall j t q, ts !! j = Some t -> ps !! j = Some q -> phase_ok t q) ->
  (forall t, ts !! i = Some t -> phase_ok t p) ->
  forall j t q, ts !! j = Some t -> <[i := p]> ps !! j = Some q -> phase_ok t q.
Proof.
  intros H Hi j t q Hj Hq. destruct (decide (i = j)) as [<-|Hne].
  - rewrite list_lookup_insert_eq in Hq by (apply lookup_lt_Some in Hq; by rewrite length_insert in Hq).
    injection Hq as <-. by apply Hi.
  - rewrite list_lookup_insert_ne in Hq by done. by apply (H j).
Qed.

Lemma kind_insert (ps : list phase) i p :
  (forall j q, ps !! j = Some q -> gives_up q = true -> kind_of j = Generator) ->
  (gives_up p = true -> kind_of i = Generator) ->
  forall j q, <[i := p]> ps !! j = Some q -> gives_up q = true -> kind_of j = Generator.
Proof.
  intros H Hi j q Hq. destruct (decide (i = j)) as [<-|Hne].
  - rewrite list_lookup_insert_eq in Hq by (apply lookup_lt_Some in Hq; by rewrite length_insert in Hq).
    by injection Hq as <-.
  - rewrite list_lookup_insert_ne in Hq by done. by apply H.
Qed.

(** A step of the barrier by a thread that is allowed to call it. *)
Lemma barrier_step_phase n s i p t c :
  sinv n s -> phases s !! i = Some p -> at_barrier p = true -> Barrier.threads (bcfg s) !! i = Some t ->
  (calls t = 0%nat \/ at_pc t <> Out) -> barrier_step i (bcfg s) c ->
  inv n c /\ (forall j u q, Barrier.threads c !! j = Some u -> phases s !! j = Some q -> phase_ok u q).
Proof.
  intros Hs Hi Hat Ht Hcall [Hstep Hoth]. pose proof (si_bar n s Hs) as Hb. split; [by eapply step_inv|].
  intros j u q Hj Hq. destruct (decide (j = i)) as [->|Hne].
  - simplify_eq. destruct (step_calls _ _ _ _ _ Hstep Ht Hj) as [H1 H2].
    pose proof (si_phase n s Hs i t _ Ht Hi) as H0.
    assert (calls u <= 1)%nat; [|by destruct p].
    assert (calls t <= 1)%nat by by destruct p. destruct Hcall as [?|?]; [lia|]. by rewrite H2.
  - rewrite Hoth in Hj by done. by apply (si_phase n s Hs j).
Qed.

(** How threads arrive. *)
Lemma arrive_phase k rc rc2 w p w' :
  arrive k rc rc2 w = (p, w') ->
  (p = AtBarrier true /\ w' = w) \/ (p = AtBarrier false /\ w' = set_error w) \/
  (p = Quitting /\ w' = w /\ k = Generator).
Proof.
  destruct k; cbn.
  - intros [= <- <-]. tauto.
  - unfold worker_init. destruct rc as [rc|]; [destruct (rc =? 0)|]; intros [= <- <-]; tauto.
  - unfold generator_init. destruct (_ || _); intros [= <- <-]; tauto.
Qed.

Lemma init_preserves n s i rc rc2 p w :
  sinv n s -> phases s !! i = Some Starting -> arrive (kind_of i) rc rc2 (sw s) = (p, w) ->
  sinv n (Startup (bcfg s) (<[i := p]> (phases s)) w).
Proof.
  intros Hs Hi Hw. pose proof Hs as [Hb Hl Hp Hr Hk]. apply arrive_phase in Hw.
  split; cbn [bcfg phases sw]; [done|by rewrite length_insert| | |].
  - apply phase_ok_insert; [done|]. intros t Ht. pose proof (Hp i t _ Ht Hi) as H0. cbn in H0.
    destruct Hw as [[-> _]|[[-> _]|[-> _]]]; cbn; lia.
  - unfold round_ok in *. destruct (fails (bcfg s)) as [|f fl].
    + rewrite (failed_insert _ i) by done. destruct Hw as [[-> ->]|[[-> ->]|(-> & -> & _)]]; cbn; [exact Hr|done|exact Hr].
    + destruct f; destruct Hr as [Hf _]; rewrite Forall_lookup in Hf; specialize (Hf i _ Hi);
        [by destruct Hf|by destruct Hf as [?|[?|?]]].
  - apply kind_insert; [done|]. destruct Hw as [[-> _]|[[-> _]|(-> & _ & ?)]]; done.
Qed.

Lemma complete_preserves n s i p t c rc w :
  sinv n s -> phases s !! i = Some p -> at_barrier p = true -> Barrier.threads (bcfg s) !! i = Some t ->
  calls t = 0%nat -> barrier_step i (bcfg s) c ->
  threads_started_callback now (sw s) = (rc, w) -> fails c = negb (rc =? 0) :: fails (bcfg s) ->
  sinv n (Startup c (phases s) w).
Proof.
  intros Hs Hi Hat Ht Hc Hstep Hcb Hf.
  destruct (barrier_step_phase n s i p t c Hs Hi Hat Ht (or_introl Hc) Hstep) as [Hb Hp].
  split; cbn [bcfg phases sw]; [done|apply Hs|done| |apply Hs].
  assert (Ek : fails (bcfg s) = []).
  { pose proof (rounds_le_calls n _ i t (si_bar n s Hs) Ht) as H. destruct (fails (bcfg s)); [done|cbn in H; lia]. }
  rewrite Ek in Hf. pose proof (si_round n s Hs) as Hr. rewrite Ek in Hr. cbn in Hr.
  assert (Hall : forall j q, phases s !! j = Some q -> at_barrier q = true).
  { intros j q Hj. destruct (phases_lookup n s j Hs) as (u & q' & Hu & Hq).
    { rewrite <- (si_len n s Hs). by eapply lookup_lt_Some. }
    assert (q' = q) as -> by congruence. pose proof (si_phase n s Hs j u q Hu Hj) as H0.
    destruct q; try done; [|exfalso; destruct H0 as [H1 H2];
      destruct (returned_round n _ j u (si_bar n s Hs) Hu H2) as [H3 _]; by rewrite Ek, H1 in H3..].
    destruct Hb as [Hlt Hb]. destruct (lookup_lt_is_Some_2 (Barrier.threads c) j) as [u' Hu'].
    { rewrite Hlt, <- (si_len n s Hs). by eapply lookup_lt_Some. }
    pose proof (rounds_le_calls n c j u' (conj Hlt Hb) Hu') as H1. rewrite Hf in H1. cbn in H1.
    specialize (Hp j u' _ Hu' Hj). cbn in Hp. lia. }
  rewrite Hf. unfold threads_started_callback in Hcb. destruct (Z.eqb_spec (g_error (globals (sw s))) 0) as [E|E]; cbn [negb] in Hcb;
    injection Hcb as <- <-; cbn.
  - split; [|done]. apply Forall_lookup. intros j q Hj. specialize (Hall j q Hj). destruct q as [|[|]| | | |]; try done; [by left| |by do 2 right].
    exfalso. rewrite E in Hr. assert (Ht' : existsb failed (phases s) = true)
      by (apply existsb_exists; exists (AtBarrier false); split; [apply list_elem_of_In; by eapply list_elem_of_lookup_2|done]).
    rewrite Ht' in Hr. done.
  - split; [|done]. apply Forall_lookup. intros j q Hj. specialize (Hall j q Hj). by destruct q.
Qed.

Lemma return_preserves n s i p t r :
  sinv n s -> phases s !! i = Some p -> at_barrier p = true -> Barrier.threads (bcfg s) !! i = Some t ->
  calls t = 1%nat -> at_pc t = Out -> last_result t = Some r ->
  sinv n (Startup (bcfg s) (<[i := after_barrier p r]> (phases s)) (sw s)).
Proof.
  intros Hs Hi Hat Ht Hc Ho Hres. destruct (returned_round n _ i t (si_bar n s Hs) Ht Ho) as [Hk Hr].
  rewrite Hc in Hk. pose proof Hs as [Hb Hl Hp Hround Hkind].
  split; cbn [bcfg phases sw]; [done|by rewrite length_insert| | |].
  - apply phase_ok_insert; [done|]. intros u Hu. simplify_eq. unfold after_barrier.
    destruct p as [|[|]| | | |]; try done. by destruct (r <? 0).
  - destruct (fails (bcfg s)) as [|f [|]]; try done. rewrite Hres in Hr. cbn in Hr. injection Hr as Hr.
    unfold round_ok in *. destruct f.
    + destruct Hround as [Hf He]. split; [|done]. apply Forall_insert; [done|].
      assert ((r <? 0) = true) as E by (destruct (i =? leader (bcfg s))%nat; rewrite Hr; done).
      unfold after_barrier. rewrite E. by destruct p as [|[|]| | | |].
    + destruct Hround as (Hf & He). split; [|done]. apply Forall_insert; [done|].
      rewrite Forall_lookup in Hf. assert ((r <? 0) = false) as E by (destruct (i =? leader (bcfg s))%nat; rewrite Hr; done).
      unfold after_barrier. rewrite E.
      destruct (Hf i _ Hi) as [->|[->|Hg]]; [by right; left|done|]. destruct p; try done. by do 2 right.
  - apply kind_insert; [done|]. intros Hg. apply (Hkind i p Hi). unfold after_barrier in Hg.
    destruct p as [|[|]| | | |]; try done. by destruct (r <? 0).
Qed.

Lemma sstep_inv n s s' : sinv n s -> sstep s s' -> sinv n s'.
Proof.
  intros Hs Hstep. destruct Hstep as [s i rc rc2 p w Hi Hw|s i p t c Hi Hat Ht Hcall Hb Hf|s i p t c rc w Hi Hat Ht Hc Hb Hcb Hf|s i p t r Hi Hat Ht Hc Ho Hr].
  - by eapply init_preserves.
  - destruct (barrier_step_phase n s i p t c Hs Hi Hat Ht Hcall Hb) as [H1 H2].
    split; cbn [bcfg phases sw]; [done|apply Hs|done| |apply Hs]. rewrite Hf. apply Hs.
  - by eapply complete_preserves.
  - by eapply return_preserves.
Qed.

Lemma sinitial_inv n w : 0 < Z.of_nat n < 2 ^ 32 -> g_error (globals w) = 0 -> sinv n (sinitial n w).
Proof.
  intros Hn He. split; cbn [bcfg phases sw sinitial].
  - by apply initial_inv.
  - apply length_replicate.
  - intros i t p Ht Hp. apply lookup_replicate in Ht as [-> _], Hp as [-> _]. done.
  - cbn. rewrite He. clear. induction n as [|n IH]; [done|exact IH].
  - intros i p Hp. by apply lookup_replicate in Hp as [-> _].
Qed.

Lemma reachable_sinv n w s : 0 < Z.of_nat n < 2 ^ 32 -> g_error (globals w) = 0 ->
  rtc sstep (sinitial n w) s -> sinv n s.
Proof.
  intros Hn He. assert (H : sinv n (sinitial n w)) by by apply sinitial_inv.
  revert H. generalize (sinitial n w). intros s0 H Hr. induction Hr; [done|]. apply IHHr. by eapply sstep_inv.
Qed.

(** A thread that has left the barrier does so in a round that is over. *)
Lemma left_round n s i q :
  sinv n s -> phases s !! i = Some q -> q = Running \/ q = Stopped \/ q = HasQuit ->
  length (fails (bcfg s)) = 1%nat.
Proof.
  intros Hs Hi Hq. destruct (phases_lookup n s i Hs) as (t & q' & Ht & Hq');
    [rewrite <- (si_len n s Hs); by eapply lookup_lt_Some|].
  pose proof (si_phase n s Hs i t q Ht Hi) as H0.
  assert (calls t = 1%nat /\ at_pc t = Out) as [H1 H2] by (destruct Hq as [->|[->| ->]]; done).
  destruct (returned_round n _ i t (si_bar n s Hs) Ht H2) as [-> _]. exact H1.
Qed.

(** C12: the workers start all or none.  If any thread runs, every worker and the
    main thread have arrived with their initialization done, the error flag is
    clear, all workers count as running, and none will stop at the barrier; only
    the event generator may give up instead, when it cannot initialize its mutex or
    its condition variable.  If a [thread_init] has failed, nobody runs: no worker
    runs an event, the main thread does not go on to measure and no event is
    generated.  A thread other than such a generator stops at the barrier only
    with the error flag set and then nobody runs, now or later; and a generator
    leaves, whichever way, only after every thread has arrived. *)
Theorem startup_all_or_none (n : nat) (w : world) (s : startup) :
  0 < Z.of_nat n < 2 ^ 32 -> g_error (globals w) = 0 -> rtc sstep (sinitial n w) s ->
  (forall i, phases s !! i = Some Running ->
     g_error (globals (sw s)) = 0 /\ threads_running (globals (sw s)) = Reports.threads (globals (sw s))
     /\ forall j p, phases s !! j = Some p ->
          p = AtBarrier true \/ p = Running \/ (kind_of j = Generator /\ (p = Quitting \/ p = HasQuit))) /\
  (forall i, phases s !! i = Some (AtBarrier false) -> forall j, phases s !! j <> Some Running) /\
  (forall i, phases s !! i = Some Stopped ->
     g_error (globals (sw s)) <> 0 /\ forall j p, phases s !! j = Some p -> p <> Starting /\ p <> Running) /\
  (forall i, phases s !! i = Some HasQuit ->
     kind_of i = Generator /\ forall j, phases s !! j <> Some Starting).
Proof.
  intros Hn He Hr. pose proof (reachable_sinv n w s Hn He Hr) as Hs.
  pose proof (left_round n s) as Hout. pose proof Hs as [_ _ _ Hround Hkind]. unfold round_ok in Hround. split_and!.
  - intros i Hi. specialize (Hout i Running Hs Hi ltac:(tauto)). destruct (fails (bcfg s)) as [|[] fl]; [done| |];
      destruct Hround as [Hf H]; rewrite Forall_lookup in Hf; [by destruct (Hf i _ Hi)|].
    destruct H as [H1 H2]. split_and!; [done..|]. intros j p Hj.
    destruct (Hf j p Hj) as [?|[?|Hg]]; [tauto..|]. pose proof (Hkind j p Hj Hg). destruct p; try done; tauto.
  - intros i Hi j Hj. specialize (Hout j Running Hs Hj ltac:(tauto)). destruct (fails (bcfg s)) as [|[] fl]; [done| |];
      destruct Hround as [Hf _]; rewrite Forall_lookup in Hf; [by destruct (Hf j _ Hj)|].
    destruct (Hf i _ Hi) as [?|[?|?]]; done.
  - intros i Hi. specialize (Hout i Stopped Hs Hi ltac:(tauto)). destruct (fails (bcfg s)) as [|[] fl]; [done| |];
      destruct Hround as [Hf H1]; rewrite Forall_lookup in Hf; [by split|].
    destruct (Hf i _ Hi) as [?|[?|?]]; done.
  - intros i Hi. split; [by apply (Hkind i HasQuit)|]. intros j Hj. specialize (Hout i HasQuit Hs Hi ltac:(tauto)).
    destruct (fails (bcfg s)) as [|[] fl]; [done| |]; destruct Hround as [Hf _]; rewrite Forall_lookup in Hf.
    + by destruct (Hf j _ Hj).
    + destruct (Hf j _ Hj) as [?|[?|?]]; done.
Qed.

(** A thread that never starts, because it or one before it could not be created,
    keeps everybody from running: the barrier waits for it. *)
Theorem missing_thread_blocks_all (n : nat) (w : world) (s : startup) (i : nat) :
  0 < Z.of_nat n < 2 ^ 32 -> g_error (globals w) = 0 -> rtc sstep (sinitial n w) s ->
  phases s !! i = Some Starting ->
  forall j, phases s !! j <> Some Running /\ phases s !! j <> Some Stopped /\ phases s !! j <> Some HasQuit.
Proof.
  intros Hn He Hr Hi. pose proof (reachable_sinv n w s Hn He Hr) as Hs.
  assert (Hnone : forall q j, phases s !! j = Some q -> q = Running \/ q = Stopped \/ q = HasQuit -> False).
  { intros q j Hj Hq. pose proof (left_round n s j q Hs Hj Hq) as E. pose proof (si_round n s Hs) as Hround.
    unfold round_ok in Hround. destruct (fails (bcfg s)) as [|[] fl]; [done| |]; destruct Hround as [Hf _];
      rewrite Forall_lookup in Hf; [by destruct (Hf i _ Hi)|]. destruct (Hf i _ Hi) as [?|[?|?]]; done. }
  intros j. split_and!; intros Hj; eapply Hnone; eauto.
Qed.
End system.

(** The main thread, a worker, and a generator that gives up: the worker arrives,
    then the generator, and the main thread last. *)
Definition example_now : timespec := Timespec 1 0.
Definition example_kind (i : nat) : kind := nth i [MainThread; WorkerThread] Generator.
Definition asleep : thread := Thread (Waiting 0) 1 0 None.
Definition through (r : Z) : thread := Thread Out 1 1 (Some r).
Definition entering (count : Z) (ts : list thread) : config := Config (Barrier.Barrier count 3 0 true 0) ts [] 0.
Definition passed (ts : list thread) : config := Config (Barrier.Barrier 3 3 1 true 0) ts [false] 0.
Definition measured : world := snd (threads_started_callback example_now example_world).
Definition started : startup :=
  Startup (passed [through SB_BARRIER_SERIAL_THREAD; asleep; through 0]) [Running; AtBarrier true; HasQuit] measured.

(** Only thread [i] has moved. *)
Ltac others i := by intros [|[|[|j]]] Hj; done || (exfalso; by apply Hj).

Lemma example_arrive :
  rtc (sstep example_kind example_now) (sinitial 3 example_world)
    (Startup (entering 1 [new_thread; asleep; asleep]) [AtBarrier true; AtBarrier true; Quitting] example_world).
Proof.
  set (w := example_world).
  eapply rtc_l; [by apply (s_init _ _ (sinitial 3 w) 1 (Some 0) 0 (AtBarrier true) w)|].
  eapply rtc_l; [by apply (s_init _ _ (Startup (initial 3 true) [Starting; AtBarrier true; Starting] w) 2 (Some 11) 0 Quitting w)|].
  eapply rtc_l; [by apply (s_init _ _ (Startup (initial 3 true) [Starting; AtBarrier true; Quitting] w) 0 None 0 (AtBarrier true) w)|].
  eapply rtc_l; [apply (s_wait _ _ (Startup (initial 3 true) [AtBarrier true; AtBarrier true; Quitting] w) 1 (AtBarrier true)
                   new_thread (entering 2 [new_thread; asleep; new_thread])); [done..|by left| |done]|].
  { split; [by apply (step_enter_wait (initial 3 true) 1 new_thread 0 (Barrier.Barrier 2 3 0 true 0) 0)|others 1%nat]. }
  eapply rtc_once.
  apply (s_wait _ _ (Startup (entering 2 [new_thread; asleep; new_thread]) [AtBarrier true; AtBarrier true; Quitting] w) 2
           Quitting new_thread (entering 1 [new_thread; asleep; asleep])); [done..|by left| |done].
  split; [by apply (step_enter_wait (entering 2 [new_thread; asleep; new_thread]) 2 new_thread 0 (Barrier.Barrier 1 3 0 true 0) 0)|].
  others 2%nat.
Qed.

Lemma example_leave :
  rtc (sstep example_kind example_now)
    (Startup (entering 1 [new_thread; asleep; asleep]) [AtBarrier true; AtBarrier true; Quitting] example_world) started.
Proof.
  set (c := passed [through SB_BARRIER_SERIAL_THREAD; asleep; asleep]).
  eapply rtc_l; [apply (s_complete _ example_now (Startup (entering 1 [new_thread; asleep; asleep])
                          [AtBarrier true; AtBarrier true; Quitting] example_world) 0 (AtBarrier true) new_thread c 0 measured);
                 [done..| |done|done]|].
  { split; [by apply (step_enter_last (entering 1 [new_thread; asleep; asleep]) 0 new_thread 0 (bar c) SB_BARRIER_SERIAL_THREAD)|].
    others 0%nat. }
  eapply rtc_l; [apply (s_wait _ _ (Startup c [AtBarrier true; AtBarrier true; Quitting] measured) 2 Quitting asleep (bcfg started));
                 [done..|by right| |done]|].
  { split; [by apply (step_wake c 2 asleep 0 0)|others 2%nat]. }
  eapply rtc_l; [by apply (s_return _ _ (Startup (bcfg started) [AtBarrier true; AtBarrier true; Quitting] measured) 0 (AtBarrier true)
                             (through SB_BARRIER_SERIAL_THREAD) SB_BARRIER_SERIAL_THREAD)|].
  eapply rtc_once.
  by apply (s_return _ _ (Startup (bcfg started) [Running; AtBarrier true; Quitting] measured) 2 Quitting (through 0) 0).
Qed.

Lemma example_started : rtc (sstep example_kind example_now) (sinitial 3 example_world) started.
Proof. etrans; [apply example_arrive|apply example_leave]. Qed.

(** A generator that cannot initialize is not noticed: the main thread goes on to
    measure and the worker is let through, while no thread generates events. *)
Theorem generator_failure_unnoticed :
  rtc (sstep example_kind example_now) (sinitial 3 example_world) started /\
  phases started = [Running; AtBarrier true; HasQuit] /\ g_error (globals (sw started)) = 0.
Proof. split; [apply example_started|done]. Qed.

Lemma startup_all_or_none_witness :
  g_error (globals (sw started)) = 0 /\ threads_running (globals (sw started)) = 2 /\
  forall j p, phases started !! j = Some p ->
    p = AtBarrier true \/ p = Running \/ (example_kind j = Generator /\ (p = Quitting \/ p = HasQuit)).
Proof.
  destruct (startup_all_or_none example_kind example_now 3 example_world started) as [H _];
    [split; reflexivity|reflexivity|exact example_started|].
  exact (H 0%nat eq_refl).
Defined.
