(* ===== verification/SbRun.v ===== *)
(** * Running a test ([sysbench.c], fifth part)

    The schedules of the two reporting threads, [run_test] from the test's [init]
    to its [done], and the choice of a command in [main].  What the worker threads
    do while [run_test] waits for them is an argument. *)

From stdpp Require Import sorting.
From S2P Require Import Prelude Barrier.
From S2P Require Import Double Options Counter Timer Histogram Reports SbInit.

(** ** The thread of the intermediate reports *)

(** The loop that finds the next point of the schedule; [None] when the fuel is
    not enough. *)
Fixpoint catch_up (fuel : nat) (interval prev curr : Z) : option Z :=
  match fuel with
  | O => None
  | S fuel =>
      let next := u64 (prev + interval) in
      if next <=? curr then catch_up fuel interval next curr else Some next
  end.

(** The times at which the thread wants to wake up, first the one it sleeps for:
    [prev] is in the code both the last point of the schedule and the time it
    wakes up at.  It wakes up and has printed its report [delay] later. *)
Fixpoint report_times (fuel : nat) (interval wake prev : Z) (delays : list Z) : option (list Z) :=
  match delays with
  | [] => Some [wake]
  | delay :: delays =>
      let curr := wake + delay in
      next ← catch_up fuel interval prev curr;
      let pause := u64 (next - curr) in
      rest ← report_times fuel interval (curr + pause) next delays;
      Some (wake :: rest)
  end.

(** [report_thread_proc] from the first reading of the clock. *)
Definition report_thread_proc (fuel : nat) (interval now : Z) (delays : list Z) : option (list Z) :=
  report_times fuel interval (now + interval) (u64 (now + interval)) delays.

(** ** The thread of the checkpoint reports *)

(** The checkpoints reported, with the time each is reported at; a delay passes in
    each iteration. *)
Fixpoint checkpoints_thread_proc (cps : list Z) (now : Z) (delays : list Z) : list (Z * Z) :=
  match cps with
  | [] => []
  | c :: cps =>
      let next := SEC2NS c in
      let delay := hd 0 delays in
      if next <=? now then checkpoints_thread_proc cps (now + delay) (tl delays)
      else
        let woken := now + u64 (next - now) in
        (c, woken) :: checkpoints_thread_proc cps (woken + delay) (tl delays)
  end.

(** ** [run_test] *)

(** The operations of a test on a state of its own; [None] is a null pointer. *)
Record sb_operations_t (S : Type) := Operations {
  o_init : option (S -> Z * S);
  o_prepare : option (S -> Z * S);
  o_print_mode : option (S -> S);
  o_cleanup : option (S -> Z * S);
  o_done : option (S -> S)
}.
Arguments o_init {S}.
Arguments o_prepare {S}.
Arguments o_print_mode {S}.
Arguments o_cleanup {S}.
Arguments o_done {S}.

(** What happens outside [run_test]: the results of the thread and barrier calls,
    the worker threads up to and through the start barrier, during the warm-up and
    until they are joined, and the readings of the clock. *)
Record surroundings (S : Type) := Surroundings {
  barrier_ok : bool;
  create_report : Z;
  create_eventgen : Z;
  create_checkpoints : Z;
  create_workers : Z;
  worker_barrier_wait : S * world -> Z * (S * world);
  warm_up : S * world -> S * world;
  report_barrier_wait : Z;
  work : S * world -> S * world;
  clock : nat -> timespec
}.
Arguments barrier_ok {S}.
Arguments create_report {S}.
Arguments create_eventgen {S}.
Arguments create_checkpoints {S}.
Arguments create_workers {S}.
Arguments worker_barrier_wait {S}.
Arguments warm_up {S}.
Arguments report_barrier_wait {S}.
Arguments work {S}.
Arguments clock {S}.

Definition set_globals (w : world) (g : sb_globals_t) : world :=
  World g (counts w) (latency_histogram w) (timers w) (timers_copy w)
    (sb_exec_timer w) (sb_intermediate_timer w) (sb_checkpoint_timer w).
Definition set_max_events (n : Z) (w : world) : world :=
  let g := globals w in
  set_globals w (Globals (g_error g) (tx_rate g) n (max_time_ns g) (Reports.threads g)
    (threads_running g) (report_interval g) (percentile g) (histogram g) (checkpoints g) (debug g)
    (timeout g) (validate g) (concurrency g) (force_shutdown g) (forced_shutdown_in_progress g)
    (warmup_time g) (nevents g)).
Definition set_threads_running (n : Z) (w : world) : world :=
  let g := globals w in
  set_globals w (Globals (g_error g) (tx_rate g) (max_events g) (max_time_ns g) (Reports.threads g)
    n (report_interval g) (percentile g) (histogram g) (checkpoints g) (debug g)
    (timeout g) (validate g) (concurrency g) (force_shutdown g) (forced_shutdown_in_progress g)
    (warmup_time g) (nevents g)).
Definition set_report_interval (n : Z) (w : world) : world :=
  let g := globals w in
  set_globals w (Globals (g_error g) (tx_rate g) (max_events g) (max_time_ns g) (Reports.threads g)
    (threads_running g) n (percentile g) (histogram g) (checkpoints g) (debug g)
    (timeout g) (validate g) (concurrency g) (force_shutdown g) (forced_shutdown_in_progress g)
    (warmup_time g) (nevents g)).
(** The same change to the three global timers. *)
Definition on_timers (f : sb_timer_t -> sb_timer_t) (w : world) : world :=
  World (globals w) (counts w) (latency_histogram w) (timers w) (timers_copy w)
    (f (sb_exec_timer w)) (f (sb_intermediate_timer w)) (f (sb_checkpoint_timer w)).

(** [sb_thread_join_workers]: a worker that cannot be joined is reported and
    counted like the others. *)
Definition sb_thread_join_workers (w : world) : world :=
  for_upto (nthreads w) (fun _ w => set_threads_running (u32 (threads_running (globals w) - 1)) w) w.

Section run_test.
Context {S : Type} (exp : dbl -> dbl) (ops : sb_operations_t S) (env : surroundings S).

(** The threads that meet at each of the barriers. *)
Definition worker_barrier_threads (g : sb_globals_t) : Z := u32 (1 + Reports.threads g + b2z (0 <? tx_rate g)).
Definition report_barrier_threads (g : sb_globals_t) : Z :=
  1 + b2z (0 <? report_interval g) + b2z (0 <? Z.of_nat (length (checkpoints g))).

(** An operation that need not be there. *)
Definition optional (f : option (S -> Z * S)) (s : S) : Z * S :=
  match f with Some f => f s | None => (0, s) end.
Definition optional_unit (f : option (S -> S)) (s : S) : S := match f with Some f => f s | None => s end.

(** What [run_test] returns: its value, the statistics of the final report if
    there is one, and the test's state. *)
Definition outcome_of := (Z * option sb_stat_t * S)%type.

(** From [sb_thread_join_workers] on. *)
Definition finish_test (s : S) (w : world) : report outcome_of :=
  let w := sb_thread_join_workers w in
  let w := World (globals w) (counts w) (latency_histogram w) (timers w) (timers_copy w)
             (snd (sb_timer_stop (clock env 0%nat) (sb_exec_timer w)))
             (snd (sb_timer_stop (clock env 1%nat) (sb_intermediate_timer w)))
             (snd (sb_timer_stop (clock env 2%nat) (sb_checkpoint_timer w))) in
  let w := set_report_interval 0 w in
  let '(rc, s) := optional (o_cleanup ops) s in
  if negb (rc =? 0) then Reported (1, None, s) w
  else
    let rc := b2z (negb (g_error (globals w) =? 0)) in
    let last stat w := Reported (rc, stat, optional_unit (o_done ops) s) w in
    if negb (g_error (globals w) =? 0) then last None w
    else
      let print w := match report_cumulative exp (clock env 3%nat) (clock env 4%nat) w with
                     | Reported stat w => last (Some stat) w
                     | ReportBlocked => ReportBlocked
                     | ReportUndefined => ReportUndefined
                     end in
      if negb (histogram (globals w) =? 0) then
        with_pct (match sb_histogram_print exp (latency_histogram w) with
                  | Histogram.Done _ h => Histogram.Done (Fin 0) h
                  | Histogram.Blocked => Histogram.Blocked
                  | Histogram.Undefined => Histogram.Undefined
                  end) (fun _ h => print (set_histogram w h))
      else print w.

(** After the start barrier: the warm-up, whose statistics are dropped. *)
Definition warm_up_stage (old_max_events : Z) (s : S) (w : world) : report S :=
  if 0 <? warmup_time (globals w) then
    let '(s, w) := warm_up env (s, w) in
    match checkpoint exp (clock env 5%nat) (clock env 6%nat) (set_max_events old_max_events w) with
    | Reported _ w => Reported s w
    | ReportBlocked => ReportBlocked
    | ReportUndefined => ReportUndefined
    end
  else Reported s w.

(** From the creation of the threads on. *)
Definition start_threads (s : S) (w : world) : report outcome_of :=
  let g := globals w in
  let fails (wanted : bool) (err : Z) := wanted && negb (err =? 0) in
  if fails (0 <? report_interval g) (create_report env) then Reported (1, None, s) w
  else if fails (0 <? tx_rate g) (create_eventgen env) then Reported (1, None, s) w
  else if fails (0 <? Z.of_nat (length (checkpoints g))) (create_checkpoints env) then Reported (1, None, s) w
  else if negb (create_workers env =? 0) then Reported (create_workers env, None, s) w
  else
    let old := max_events g in
    let w := if 0 <? warmup_time g then set_max_events 0 w else w in
    let '(rc, (s, w)) := worker_barrier_wait env (s, w) in
    if rc <? 0 then Reported (1, None, s) w
    else
      match warm_up_stage old s w with
      | Reported s w =>
          if report_barrier_wait env <? 0 then Reported (1, None, s) w
          else let '(s, w) := work env (s, w) in finish_test s w
      | ReportBlocked => ReportBlocked
      | ReportUndefined => ReportUndefined
      end.

Definition run_test (s : S) (w : world) : report outcome_of :=
  let '(rc, s) := optional (o_init ops) s in
  if negb (rc =? 0) then Reported (1, None, s) w
  else
    let s := optional_unit (o_print_mode ops) s in
    let w := on_timers sb_timer_init w in
    let '(rc, s) := optional (o_prepare ops) s in
    if negb (rc =? 0) then Reported (1, None, s) w
    else
      let w := set_threads_running 0 w in
      match sb_barrier_init (barrier_ok env) (worker_barrier_threads (globals w)) true,
            sb_barrier_init (barrier_ok env) (report_barrier_threads (globals w)) false with
      | Some _, Some _ => start_threads s w
      | _, _ => Reported (1, None, s) w
      end.
End run_test.

(** ** The schedules *)

Lemma catch_up_spec interval curr : 0 < interval -> curr + interval < 2 ^ 64 ->
  forall fuel prev, 0 <= prev <= curr -> (curr - prev) / interval < Z.of_nat fuel ->
  catch_up fuel interval prev curr = Some (prev + ((curr - prev) / interval + 1) * interval).
Proof.
  intros Hi Hc. induction fuel as [|fuel IH]; intros prev Hp Hf.
  { pose proof (Z.div_pos (curr - prev) interval). lia. }
  cbn [catch_up]. rewrite u64_small by (unfold is_u64; lia).
  destruct (Z.leb_spec (prev + interval) curr) as [Hle|Hgt].
  - assert (E : (curr - prev) / interval = (curr - (prev + interval)) / interval + 1).
    { replace (curr - prev) with (curr - (prev + interval) + 1 * interval) by lia. apply Z.div_add. lia. }
    rewrite IH by lia. f_equal. rewrite E. lia.
  - rewrite (Z.div_small (curr - prev)) by lia. f_equal. lia.
Qed.

(** The points of the grid at which the reports are due: after a report, the first
    one that is still to come. *)
Fixpoint plan (interval wake : Z) (delays : list Z) : list Z :=
  match delays with
  | [] => [wake]
  | d :: delays => wake :: plan interval (wake + (d / interval + 1) * interval) delays
  end.

Lemma report_times_plan fuel interval : 0 < interval ->
  forall delays wake, 0 <= wake -> Forall (fun d => 0 <= d /\ d / interval < Z.of_nat fuel) delays ->
  wake + sumZ delays + (Z.of_nat (length delays) + 1) * interval < 2 ^ 64 ->
  report_times fuel interval wake wake delays = Some (plan interval wake delays).
Proof.
  intros Hi. induction delays as [|d delays IH]; intros wake Hw Hd Hb; [done|].
  apply Forall_cons in Hd as [[Hd Hf] Hds]. cbn [report_times plan length] in *. autorewrite with sb_sum in Hb.
  assert (Hs : 0 <= sumZ delays) by (apply sumZ_nonneg; eapply Forall_impl; [exact Hds|]; cbn; intros; lia).
  pose proof (Z.mul_div_le d interval Hi) as Hle. pose proof (Z.mul_succ_div_gt d interval Hi) as Hgt.
  rewrite (catch_up_spec interval (wake + d)) by first [lia|nia|by replace (wake + d - wake) with d by lia].
  cbn [mbind option_bind]. replace (wake + d - wake) with d by lia. set (next := wake + (d / interval + 1) * interval).
  rewrite u64_small by (unfold is_u64, next; nia). replace (wake + d + (next - (wake + d))) with next by lia.
  rewrite IH; [done|unfold next; nia|done|unfold next; nia].
Qed.

Lemma plan_grid interval now : 0 < interval -> forall delays j, 0 <= j -> Forall (fun d => 0 <= d) delays ->
  forall k t, plan interval (now + j * interval) delays !! k = Some t ->
  exists m, t = now + m * interval /\ j + Z.of_nat k <= m.
Proof.
  intros Hi. induction delays as [|d delays IH]; intros j Hj Hd k t Hk.
  - destruct k; [|done]. injection Hk as <-. exists j. lia.
  - apply Forall_cons in Hd as [Hd Hds]. destruct k as [|k]; [injection Hk as <-; exists j; lia|]. cbn in Hk.
    pose proof (Z.div_pos d interval Hd Hi).
    replace (now + j * interval + (d / interval + 1) * interval) with (now + (j + d / interval + 1) * interval) in Hk by lia.
    destruct (IH (j + d / interval + 1) ltac:(lia) Hds k t Hk) as (m & -> & Hm). exists m. lia.
Qed.

Lemma plan_next interval : 0 < interval -> forall delays wake k t t' d,
  plan interval wake delays !! k = Some t -> delays !! k = Some d -> plan interval wake delays !! S k = Some t' ->
  t + d < t' <= t + d + interval.
Proof.
  intros Hi. induction delays as [|d0 delays IH]; intros wake k t t' d Ht Hd Ht'; [done|].
  destruct k as [|k]; cbn in *; [|by eapply IH]. injection Ht as <-. injection Hd as <-.
  assert (t' = wake + (d0 / interval + 1) * interval) as -> by (destruct delays; cbn in Ht'; congruence).
  pose proof (Z.mul_div_le d0 interval Hi). pose proof (Z.mul_succ_div_gt d0 interval Hi). nia.
Qed.

(** C28: intermediate reports do not drift.  Whatever time the reports take, the
    thread wakes up at the start time plus a multiple of the interval, each time
    at the first such time after the previous report was finished: late reports
    are skipped, never made up for, and the loop that looks for that time ends. *)
Theorem report_schedule (fuel : nat) (interval now : Z) (delays : list Z) :
  0 < interval -> 0 <= now -> Forall (fun d => 0 <= d /\ d / interval < Z.of_nat fuel) delays ->
  now + sumZ delays + (Z.of_nat (length delays) + 2) * interval < 2 ^ 64 ->
  exists ts, report_thread_proc fuel interval now delays = Some ts /\ length ts = S (length delays)
    /\ (forall k t, ts !! k = Some t -> exists m, t = now + m * interval /\ Z.of_nat k + 1 <= m)
    /\ (forall k t t' d, ts !! k = Some t -> delays !! k = Some d -> ts !! S k = Some t' ->
         t + d < t' <= t + d + interval).
Proof.
  intros Hi Hn Hd Hb. assert (Hd0 : Forall (fun d => 0 <= d) delays) by (eapply Forall_impl; [exact Hd|]; cbn; tauto).
  pose proof (sumZ_nonneg delays Hd0). unfold report_thread_proc. rewrite u64_small by (unfold is_u64; nia).
  rewrite report_times_plan by first [done|lia|nia]. eexists. split; [done|]. split_and!.
  - clear. generalize (now + interval). induction delays as [|d delays IH]; intros wake; [done|]. cbn. by rewrite IH.
  - intros k t Hk. replace (now + interval) with (now + 1 * interval) in Hk by lia.
    destruct (plan_grid interval now Hi delays 1 ltac:(lia) Hd0 k t Hk) as (m & ? & ?). exists m. lia.
  - intros k t t' d. by apply plan_next.
Qed.

Lemma report_schedule_witness :
  exists ts, report_thread_proc 10 10 3 [1; 25; 0] = Some ts /\ length ts = 4%nat.
Proof.
  destruct (report_schedule 10 10 3 [1; 25; 0]) as (ts & E & Hl & _);
    [lia|lia|repeat constructor; vm_compute; discriminate|vm_compute; reflexivity|]. by exists ts.
Defined.
Example report_times_3 : report_thread_proc 10 10 3 [1; 25; 0] = Some [13; 23; 53; 63].
Proof. reflexivity. Qed.

Lemma SEC2NS_exact c : checkpoint_ok c -> SEC2NS c = c * NS_PER_SEC.
Proof. unfold checkpoint_ok, SEC2NS, NS_PER_SEC, INT_MAX. intros. rewrite (u64_small c), u64_small by (unfold is_u64; lia). done. Qed.

Lemma checkpoints_from cps : forall last now delays,
  Sorted Z.le cps -> Forall checkpoint_ok cps -> 0 <= last -> last * NS_PER_SEC <= now ->
  Forall (fun d => 0 <= d) delays -> length delays = length cps ->
  now + sumZ delays < (last + 1) * NS_PER_SEC ->
  let out := checkpoints_thread_proc cps now delays in
  StronglySorted Z.lt (map fst out) /\ (forall c, c ∈ map fst out <-> c ∈ cps /\ last < c)
  /\ Forall (fun p => snd p = fst p * NS_PER_SEC) out.
Proof.
  induction cps as [|c cps IH]; intros last now delays Hs Hok Hl Hnow Hd Hlen Hsum out; unfold out; clear out.
  { cbn. split; [constructor|]. split; [|constructor]. intros c. by rewrite elem_of_nil; split; [|intros []]. }
  destruct delays as [|d delays]; [done|]. apply Forall_cons in Hd as [Hd Hds], Hok as [Hc Hok].
  autorewrite with sb_sum in Hsum. injection Hlen as Hlen. pose proof (sumZ_nonneg delays Hds).
  cbn [checkpoints_thread_proc hd tl]. rewrite SEC2NS_exact by done.
  change NS_PER_SEC with 1000000000 in *.
  pose proof Hs as Hs0. apply Sorted_inv in Hs as [Hs _].
  destruct (Z.leb_spec (c * 1000000000) now) as [Hle|Hgt].
  - destruct (IH last (now + d) delays Hs Hok Hl ltac:(lia) Hds Hlen ltac:(lia)) as (H1 & H2 & H3).
    split; [exact H1|]. split; [|exact H3]. intros z. rewrite H2, elem_of_cons. split; [tauto|]. intros [[->|?] ?]; [lia|tauto].
  - rewrite u64_small by (unfold checkpoint_ok, INT_MAX, is_u64 in *; lia).
    replace (now + (c * 1000000000 - now)) with (c * 1000000000) by lia. cbn [map fst].
    assert (Hlc : last < c) by nia.
    destruct (IH c (c * 1000000000 + d) delays Hs Hok ltac:(lia) ltac:(lia) Hds Hlen ltac:(lia)) as (H1 & H2 & H3).
    split_and!.
    + constructor; [exact H1|]. apply Forall_forall. intros z Hz. by apply H2 in Hz as [_ ?].
    + intros z. rewrite !elem_of_cons, H2. split; [intros [->|[? ?]]; split; [by left|done|by right|lia]|].
      intros [[->|Hz] ?]; [by left|]. destruct (Z.eq_dec z c) as [->|?]; [by left|]. right. split; [done|].
      assert (StronglySorted Z.le (c :: cps)) as Hss by (apply Sorted_StronglySorted; [intros ? ? ?; lia|done]).
      apply StronglySorted_inv in Hss as [_ Hall]. rewrite Forall_forall in Hall. specialize (Hall z Hz). lia.
    + by constructor.
Qed.

(** C29: with the checkpoints as [init] leaves them and less than a second spent
    outside of sleeping, every distinct checkpoint after the start of the test is
    reported exactly once, in ascending order and at its time; a checkpoint at 0
    and repeated ones are not. *)
Theorem checkpoints_reported_once (cps : list Z) (now : Z) (delays : list Z) :
  Sorted Z.le cps -> Forall checkpoint_ok cps -> 0 <= now -> Forall (fun d => 0 <= d) delays ->
  length delays = length cps -> now + sumZ delays < NS_PER_SEC ->
  let out := checkpoints_thread_proc cps now delays in
  StronglySorted Z.lt (map fst out) /\ (forall c, c ∈ map fst out <-> c ∈ cps /\ 0 < c)
  /\ Forall (fun p => snd p = fst p * NS_PER_SEC) out.
Proof. intros Hs Hok Hn Hd Hl Hb. by apply (checkpoints_from cps 0 now delays). Qed.

Lemma checkpoints_reported_once_witness :
  map fst (checkpoints_thread_proc [0; 10; 10; 30] 5 [1; 1; 1; 1]) = [10; 30]
  /\ Forall (fun p => snd p = fst p * NS_PER_SEC) (checkpoints_thread_proc [0; 10; 10; 30] 5 [1; 1; 1; 1]).
Proof.
  split; [vm_compute; reflexivity|].
  apply (checkpoints_reported_once [0; 10; 10; 30] 5 [1; 1; 1; 1]); [|repeat constructor; vm_compute; discriminate|lia
    |repeat constructor; vm_compute; discriminate|reflexivity|vm_compute; reflexivity].
  repeat constructor; vm_compute; discriminate.
Defined.

(** ** The warm-up *)

Lemma since_after l1 l2 : since is_cumulative (l1 ++ [Cumulative] ++ l2) = since is_cumulative l2.
Proof.
  induction l2 as [|a l2 IH] using rev_ind; [by rewrite app_nil_r, since_snoc|].
  replace (l1 ++ [Cumulative] ++ l2 ++ [a]) with ((l1 ++ [Cumulative] ++ l2) ++ [a]) by by rewrite <- !app_assoc.
  by rewrite !since_snoc, IH.
Qed.

Lemma run_app n c l1 l2 : run n c (l1 ++ l2) = run n (run n c l1) l2.
Proof. unfold run. by rewrite foldl_app. Qed.

Section warm_up.
Context {S : Type} (exp : dbl -> dbl) (ops : sb_operations_t S) (env : surroundings S) (n rows : nat).

(** A stage in which the workers have counted [trace] more; [limit] is the limit on
    the number of events they see. *)
Definition counts_more (limit : Z) (trace : list action) (s : S) (w : world) (s' : S) (w' : world) : Prop :=
  nthreads w = n -> max_events (globals w) = limit ->
  nthreads w' = n /\ max_events (globals w') = limit /\ warmup_time (globals w') = warmup_time (globals w)
  /\ counts w' = run n (counts w) trace.

Context (old : Z) (l0 l1 l2 : list action).
Hypothesis rows_enough : (n <= rows)%nat.
Hypothesis traces_ok : Forall (in_rows rows) (l0 ++ l1) /\ Forall (in_rows rows) l2.
Hypothesis wait_counts : forall s w rc s' w', worker_barrier_wait env (s, w) = (rc, (s', w')) -> counts_more 0 l0 s w s' w'.
Hypothesis warm_counts : forall s w s' w', warm_up env (s, w) = (s', w') -> counts_more 0 l1 s w s' w'.
Hypothesis work_counts : forall s w s' w', work env (s, w) = (s', w') -> counts_more old l2 s w s' w'.

(** The counters after a checkpoint or a cumulative report. *)
Lemma checkpoint_counts now1 now2 w stat w' trace :
  nthreads w = n -> Forall (in_rows rows) trace -> counts w = run n (sb_counters_init rows) trace ->
  checkpoint exp now1 now2 w = Reported stat w' ->
  st_events stat = u64 (added n SB_CNT_EVENT (since is_cumulative trace))
  /\ globals w' = globals w /\ counts w' = run n (sb_counters_init rows) (trace ++ [Cumulative]).
Proof using rows_enough.
  intros Hn Ht Hc H. destruct (agg_cumulative_run n rows trace rows_enough Ht) as [He Hr]. rewrite <- Hc in He, Hr.
  unfold checkpoint in H. rewrite Hn in H. destruct (sb_counters_agg_cumulative n (counts w)) as [cnt c]. cbn [fst snd] in *.
  cbn [latency_histogram set_counts set_checkpoint_timer sb_timer_current globals] in H.
  destruct (sb_histogram_get_pct_checkpoint _ _ _) as [pct h| |]; cbn [with_pct] in H; try done.
  destruct (checkpoint_timers _ _ _) as [ts tcs]. injection H as <- <-. cbn. split_and!; [apply He|done|exact Hr].
Qed.

Lemma join_counts w : counts (sb_thread_join_workers w) = counts w /\ nthreads (sb_thread_join_workers w) = nthreads w.
Proof using Type.
  unfold sb_thread_join_workers. apply (for_upto_ind (fun _ w' => counts w' = counts w /\ nthreads w' = nthreads w)); done.
Qed.

Lemma finish_counts s w rc stat s' w' trace :
  nthreads w = n -> Forall (in_rows rows) trace -> counts w = run n (sb_counters_init rows) trace ->
  finish_test exp ops env s w = Reported (rc, Some stat, s') w' ->
  st_events stat = u64 (added n SB_CNT_EVENT (since is_cumulative trace)).
Proof using rows_enough.
  intros Hn Ht Hc H. destruct (join_counts w) as [Ec En]. unfold finish_test in H.
  set (w1 := set_report_interval 0 _) in H.
  assert (H1 : nthreads w1 = n /\ counts w1 = run n (sb_counters_init rows) trace)
    by (split; [rewrite <- Hn; exact En|rewrite <- Hc; exact Ec]).
  clearbody w1. destruct H1 as [H1 H2].
  destruct (optional (o_cleanup ops) s) as [rc1 s1]. destruct (negb (rc1 =? 0)); [done|].
  destruct (negb (g_error (globals w1) =? 0)); [done|].
  assert (Hrep : forall w2, nthreads w2 = n -> counts w2 = counts w1 ->
    match report_cumulative exp (clock env 3%nat) (clock env 4%nat) w2 with
    | Reported stat0 w0 => Reported (b2z false, Some stat0, optional_unit (o_done ops) s1) w0
    | ReportBlocked => ReportBlocked | ReportUndefined => ReportUndefined end = Reported (rc, Some stat, s') w' ->
    st_events stat = u64 (added n SB_CNT_EVENT (since is_cumulative trace))).
  { intros w2 Hn2 Hc2 HR. unfold report_cumulative in HR.
    destruct (checkpoint exp _ _ w2) as [st w3| |] eqn:Eck; try done.
    destruct (checkpoint_counts (clock env 3%nat) (clock env 4%nat) w2 st w3 trace Hn2 Ht) as (He & _); [by rewrite Hc2|exact Eck|].
    injection HR as _ <- _ _. exact He. }
  destruct (negb (histogram (globals w1) =? 0)); [|by apply (Hrep w1)].
  destruct (sb_histogram_print exp _) as [rows_ h| |]; try done. cbn [with_pct] in H. by apply (Hrep (set_histogram w1 h)).
Qed.

(** C26: with --warmup-time, the final report counts exactly the events executed
    after the warm-up (since the last checkpoint report, if there was one): those
    of the warm-up are dropped, and were executed without a limit on their number,
    while the measured part runs with the limit of the command line. *)
Theorem warm_up_excluded s w rc stat s' w' :
  0 < warmup_time (globals w) -> max_events (globals w) = old -> nthreads w = n ->
  counts w = sb_counters_init rows -> run_test exp ops env s w = Reported (rc, Some stat, s') w' ->
  st_events stat = u64 (added n SB_CNT_EVENT (since is_cumulative l2)).
Proof using rows_enough traces_ok wait_counts warm_counts work_counts.
  intros Hwarm Hold Hn Hc H. unfold run_test in H.
  destruct (optional (o_init ops) s) as [rc1 s1]. destruct (negb (rc1 =? 0)); [done|].
  destruct (optional (o_prepare ops) _) as [rc2 s2]. destruct (negb (rc2 =? 0)); [done|].
  set (w1 := set_threads_running 0 _) in H.
  assert (H1 : nthreads w1 = n /\ counts w1 = sb_counters_init rows /\ max_events (globals w1) = old
               /\ 0 < warmup_time (globals w1)) by done.
  clearbody w1. destruct H1 as (Hn1 & Hc1 & Hm1 & Hw1).
  destruct (sb_barrier_init _ _ true) as [b1|]; [|done]. destruct (sb_barrier_init _ _ false) as [b2|]; [|done].
  unfold start_threads in H. repeat (destruct (_ && _); [done|]). destruct (negb (create_workers env =? 0)); [done|].
  rewrite (proj2 (Z.ltb_lt _ _) Hw1), Hm1 in H.
  destruct (worker_barrier_wait env (s2, set_max_events 0 w1)) as [rc3 [s3 w3]] eqn:E3.
  destruct (wait_counts _ _ _ _ _ E3 Hn1 eq_refl) as (Hn3 & Hm3 & Hw3 & Hc3).
  change (counts (set_max_events 0 w1)) with (counts w1) in Hc3.
  destruct (rc3 <? 0); [done|]. unfold warm_up_stage in H.
  rewrite (proj2 (Z.ltb_lt 0 (warmup_time (globals w3)))) in H by (rewrite Hw3; exact Hw1).
  destruct (warm_up env (s3, w3)) as [s4 w4] eqn:E4.
  destruct (warm_counts _ _ _ _ E4 Hn3 Hm3) as (Hn4 & _ & _ & Hc4). rewrite Hc3, Hc1, <- run_app in Hc4.
  destruct (checkpoint exp _ _ (set_max_events old w4)) as [st w5| |] eqn:E5; try done.
  destruct (checkpoint_counts (clock env 5%nat) (clock env 6%nat) (set_max_events old w4) st w5 _ Hn4 (proj1 traces_ok) Hc4 E5) as (_ & Hg5 & Hc5).
  destruct (report_barrier_wait env <? 0); [done|]. destruct (work env (s4, w5)) as [s6 w6] eqn:E6.
  assert (Hn5 : nthreads w5 = n) by (unfold nthreads in *; by rewrite Hg5).
  destruct (work_counts _ _ _ _ E6 Hn5) as (Hn6 & _ & _ & Hc6); [by rewrite Hg5|].
  rewrite Hc5, <- run_app in Hc6. rewrite <- (since_after (l0 ++ l1)).
  replace ((l0 ++ l1) ++ [Cumulative] ++ l2) with (((l0 ++ l1) ++ [Cumulative]) ++ l2) by by rewrite <- app_assoc.
  eapply finish_counts; [exact Hn6| |exact Hc6|exact H].
  apply Forall_app. split; [|apply traces_ok]. apply Forall_app. split; [apply traces_ok|by repeat constructor].
Qed.
End warm_up.

(** Two workers that execute 12 events during the warm-up and 5 afterwards. *)
Definition bump (l : list action) (sw : unit * world) : unit * world :=
  (fst sw, set_counts (snd sw) (run 2 (counts (snd sw)) l)).
Definition warm_trace : list action := [Add 0 SB_CNT_EVENT 5; Add 1 SB_CNT_EVENT 7].
Definition work_trace : list action := [Add 0 SB_CNT_EVENT 2; Intermediate; Add 1 SB_CNT_EVENT 3].
Definition example_ops : sb_operations_t unit := Operations unit None None None None None.
Definition example_env : surroundings unit :=
  Surroundings unit true 0 0 0 0 (fun sw => (0, bump [] sw)) (bump warm_trace) 0 (bump work_trace)
    (fun _ => Timespec 0 0).
Definition warm_world : world :=
  World (Globals 0 0 9 0 2 2 0 0 0 [] 0 0 0 0 0 0 3 0) (sb_counters_init 3) (latency_histogram example_world)
    (timers example_world) (timers_copy example_world) zero_timer zero_timer zero_timer.

Lemma warm_up_excluded_witness :
  exists rc stat s' w', run_test (fun x => x) example_ops example_env tt warm_world = Reported (rc, Some stat, s') w'
  /\ st_events stat = 5.
Proof.
  assert (exists rc stat s' w', run_test (fun x => x) example_ops example_env tt warm_world
            = Reported (rc, Some stat, s') w') as (rc & stat & s' & w' & E)
    by (eexists _, _, _, _; vm_compute; reflexivity).
  exists rc, stat, s', w'. split; [exact E|].
  apply (warm_up_excluded (fun x => x) example_ops example_env 2 3 9 [] warm_trace work_trace) with (s := tt) (w := warm_world)
    (rc := rc) (s' := s') (w' := w'); try reflexivity; try exact E.
  - apply Nat.leb_le. reflexivity.
  - split; repeat constructor.
  - intros s w rc0 s0 w0 [= <- <- <-] Hn Hm. unfold bump. by split_and!.
  - intros s w s0 w0 [= <- <-] Hn Hm. by split_and!.
  - intros s w s0 w0 [= <- <-] Hn Hm. by split_and!.
Defined.

(** An empty histogram blocks the final report: [sb_histogram_print] returns with
    the lock held, which the report then waits for. *)
Theorem histogram_of_nothing_blocks {S} (exp : dbl -> dbl) (ops : sb_operations_t S) env s w :
  o_cleanup ops = None -> g_error (globals w) = 0 -> histogram (globals w) <> 0 ->
  locked (latency_histogram w) = false ->
  (exists h, sb_histogram_print exp (latency_histogram w) = Histogram.Done None h /\ locked h = true) ->
  finish_test exp ops env s w = ReportBlocked.
Proof.
  intros Hc He Hh Hl (h & Ep & Hlock). unfold finish_test, optional. rewrite Hc. cbn [Z.eqb negb].
  set (w1 := set_report_interval 0 _).
  assert (Hj : g_error (globals (sb_thread_join_workers w)) = 0 /\ histogram (globals (sb_thread_join_workers w)) <> 0
               /\ latency_histogram (sb_thread_join_workers w) = latency_histogram w).
  { unfold sb_thread_join_workers.
    by apply (for_upto_ind (fun _ w' => g_error (globals w') = 0 /\ histogram (globals w') <> 0
                              /\ latency_histogram w' = latency_histogram w)). }
  assert (Ew : g_error (globals w1) = 0 /\ histogram (globals w1) <> 0 /\ latency_histogram w1 = latency_histogram w) by exact Hj.
  clearbody w1. destruct Ew as (E1 & E2 & E3). rewrite E1, E3, Ep. cbn [Z.eqb negb].
  rewrite (proj2 (Z.eqb_neq _ _)) by done. cbn [negb with_pct].
  unfold report_cumulative, checkpoint. destruct (sb_counters_agg_cumulative _ _) as [cnt c].
  cbn [latency_histogram set_histogram set_counts set_checkpoint_timer sb_timer_current].
  unfold sb_histogram_get_pct_checkpoint. by rewrite Hlock.
Qed.
