(* ===== verification/Benchmark.v ===== *)
(** * The worker threads of a benchmark together ([sysbench.c], last part)

    [worker_thread] from its start to its end, with the default [thread_run] or
    the test's own, is a machine whose steps are the calls it makes; the steps
    of all workers interleave in any order on the test's state and on the
    program's, and with the reports of the two report threads ([worker_step],
    [take_turn], [run_workers]).  The environment of [run_test] is then filled
    in: the workers initialize, meet at the barrier, run, and are joined.  A test
    that does not fail and is limited by --events ends under every schedule, with
    exactly that many events, and without checkpoint reports, which reset the
    counters, its final report says so.  --rate mode, in which workers wait for
    events of the queue, is the subject of [EventLoop].  A report is one step
    here; what it does counter by counter and cell by cell while the workers go
    on is in [Counter] and [Histogram]. *)

From S2P Require Import Prelude.
From S2P Require Import Double Counter Timer Xoroshiro Rand Histogram Reports EventLoop.
From S2P Require Barrier Startup SbRun.

(** ** The operations of a test that its workers call *)

(** [E] are its events, [R] the states of its own [thread_run]; [None] is a null
    pointer, and for an event [SB_REQ_TYPE_NULL]. *)
Record test_operations (S E R : Type) := TestOperations {
  t_thread_init : option (nat -> S -> Z * S);
  t_next_event : nat -> S -> option E * S;
  t_execute_event : E -> nat -> S -> Z * S;
  t_thread_run : option (nat -> R);
  t_run_step : R -> S * world -> (R + Z) * (S * world);
  t_thread_done : option (nat -> S -> Z * S)
}.
Arguments t_thread_init {S E R}.
Arguments t_next_event {S E R}.
Arguments t_execute_event {S E R}.
Arguments t_thread_run {S E R}.
Arguments t_run_step {S E R}.
Arguments t_thread_done {S E R}.

(** Where a worker is: in its test's [thread_run]; in the default one at
    [sb_more_events], [next_event], [sb_event_start], [execute_event] or
    [sb_event_stop]; back from [thread_run]; at its end. *)
Inductive position (E R : Type) :=
| Custom (r : R) | More (rc : Z) | Next | Begin (e : E) | Execute (e : E) | End_ (rc : Z)
| Returned (rc : Z) | Exited.
Arguments Custom {E R}.
Arguments More {E R}.
Arguments Next {E R}.
Arguments Begin {E R}.
Arguments Execute {E R}.
Arguments End_ {E R}.
Arguments Returned {E R}.
Arguments Exited {E R}.

(** A worker with its generator of random numbers. *)
Record worker (E R : Type) := Worker { at_ : position E R; rng : Xoroshiro.state }.
Arguments Worker {E R}.
Arguments at_ {E R}.
Arguments rng {E R}.

Record bench (S E R : Type) := Bench { test : S; bw : world; workers : list (worker E R) }.
Arguments Bench {S E R}.
Arguments test {S E R}.
Arguments bw {S E R}.
Arguments workers {S E R}.

(** A turn of the schedule: a step of worker [i], a report of the thread of the
    intermediate reports ([ring_size] is that of the queue) or of the thread of the
    checkpoint reports, with the times they read. *)
Inductive turn :=
| Work (i : nat) (now : timespec)
| IntermediateReport (ring_size : Z) (now_total now_interval : timespec)
| CheckpointReport (now_total now_interval : timespec).

Definition is_work (t : turn) : bool := match t with Work _ _ => true | _ => false end.

Section bench.
Context {S E R : Type} (log exp : dbl -> dbl) (ops : test_operations S E R).

(** [worker_thread] from the barrier on. *)
Definition enter_run (i : nat) : position E R :=
  match t_thread_run ops with Some f => Custom (f i) | None => More 0 end.

(** A step of worker [i]; [now] is the clock, if the step reads it.  The third
    component tells whether an event has ended.  [None]: the worker has ended,
    waits for the queue of --rate mode, or runs into undefined behaviour. *)
Definition worker_step (i : nat) (now : timespec) (b : bench S E R) : option (bench S E R * list nat) :=
  wk ← workers b !! i;
  let s := test b in
  let w := bw b in
  let continue s w rng pc ended := Some (Bench s w (<[i := Worker pc rng]> (workers b)), ended) in
  match at_ wk with
  | Custom r =>
      let '(r, (s, w)) := t_run_step ops r (s, w) in
      continue s w (rng wk) (match r with inl r => Custom r | inr rc => Returned rc end) []
  | More rc =>
      if 0 <? tx_rate (globals w) then None
      else
        let '(more, g) := more_events_gate (sb_timer_value now (sb_exec_timer w)) (globals w) in
        continue s (set_globals w g) (rng wk) (if more && (rc =? 0) then Next else Returned rc) []
  | Next =>
      let '(e, s) := t_next_event ops i s in
      continue s w (rng wk) (match e with Some e => Begin e | None => Returned 0 end) []
  | Begin e => continue s (sb_event_start now i w) (rng wk) (Execute e) []
  | Execute e =>
      let '(rc, s) := t_execute_event ops e i s in
      continue s w (rng wk) (End_ rc) []
  | End_ rc =>
      '(w, r) ← sb_event_stop log now i w (rng wk);
      continue s w r (More rc) [i]
  | Returned rc =>
      if negb (rc =? 0) then continue s (Startup.set_error w) (rng wk) Exited []
      else
        match t_thread_done ops with
        | Some f => let '(_, s) := f i s in continue s w (rng wk) Exited []
        | None => continue s w (rng wk) Exited []
        end
  | Exited => None
  end.

(** A report leaves the test and the workers as they are.  [None]: it never
    returns. *)
Definition after_reporting {A} (b : bench S E R) (r : report A) : option (bench S E R * list nat) :=
  match r with
  | Reported _ w => Some (Bench (test b) w (workers b), [])
  | _ => None
  end.

(** The thread of the intermediate reports exists with --report-interval, that of
    the checkpoint reports with --report-checkpoints. *)
Definition take_turn (t : turn) (b : bench S E R) : option (bench S E R * list nat) :=
  match t with
  | Work i now => worker_step i now b
  | IntermediateReport ring_size now_total now_interval =>
      if 0 <? report_interval (globals (bw b))
      then after_reporting b (report_intermediate exp ring_size now_total now_interval (bw b))
      else None
  | CheckpointReport now_total now_interval =>
      if (0 <? length (checkpoints (globals (bw b))))%nat
      then after_reporting b (report_cumulative exp now_total now_interval (bw b))
      else None
  end.

(** A schedule is the list of the turns; the second component of the result are
    the workers whose events have ended. *)
Fixpoint run_workers (sched : list turn) (b : bench S E R) : option (bench S E R * list nat) :=
  match sched with
  | [] => Some (b, [])
  | t :: sched =>
      '(b, ended) ← take_turn t b;
      '(b, ended') ← run_workers sched b;
      Some (b, ended ++ ended')
  end.

Definition all_exited (b : bench S E R) : bool :=
  forallb (fun wk => match at_ wk with Exited => true | _ => false end) (workers b).

(** ** Starting them *)

(** [worker_thread] up to the barrier: [thread_init] and the error flag. *)
Definition init_worker (st : S * world) (i : nat) : S * world :=
  match t_thread_init ops with
  | Some f => let '(rc, s) := f i st.1 in (s, (Startup.worker_init (Some rc) st.2).2)
  | None => st
  end.

(** The workers initialize in the order [order]; the last thread to arrive runs
    the callback, whose failure every caller of the barrier is told. *)
Definition start_workers (order : list nat) (now : timespec) (st : S * world) : Z * (S * world) :=
  let '(s, w) := foldl init_worker st order in
  let '(rc, w) := Startup.threads_started_callback now w in
  (if rc =? 0 then 0 else -1, (s, w)).

(** [draws i]: the numbers that seed worker [i]'s generator. *)
Definition new_worker (draws : nat -> Z * Z * Z * Z) (i : nat) : worker E R :=
  let '(r0, r1, r2, r3) := draws i in Worker (enter_run i) (sb_rand_thread_init r0 r1 r2 r3).

(** The environment of [run_test]: all threads can be created, and the workers
    and the report threads run [sched] (or stop where it cannot be followed). *)
Definition bench_surroundings (order : list nat) (start : timespec) (draws : nat -> Z * Z * Z * Z)
    (sched : list turn) (clock : nat -> timespec) : SbRun.surroundings S :=
  SbRun.Surroundings S true 0 0 0 0 (start_workers order start) (fun st => st) 0
    (fun st => match run_workers sched (Bench st.1 st.2 (map (new_worker draws) (seq 0 (nthreads st.2)))) with
               | Some (b, _) => (test b, bw b)
               | None => st
               end) clock.
End bench.

(** ** The percentile of the final report is defined *)

Definition slot_total (size : nat) (slots : list (list Z)) : Z := sumZ (map (pending slots) (seq 0 size)).

(** [c] bounds the number of events in the slots and in the cumulative array. *)
Definition histogram_holds (size : nat) (c : Z) (h : sb_histogram_t) : Prop :=
  locked h = false /\ array_size h = size /\ slots_ok size (interm_slots h) /\
  length (cumulative_array h) = size /\ is_u64 (cumulative_nevents h) /\
  (0 <= slot_total size (interm_slots h) /\ cumulative_nevents h + slot_total size (interm_slots h) <= c) /\
  (forall s i, 0 <= slot_cell (interm_slots h) s i).

Lemma slot_total_alter size slots s i f :
  slots_ok size slots -> (s < SB_HISTOGRAM_NSLOTS)%nat -> (i < size)%nat ->
  slot_total size (alter (alter f i) s slots) =
  slot_total size slots + (f (slot_cell slots s i) - slot_cell slots s i).
Proof.
  intros Hok Hs Hi. unfold slot_total.
  rewrite (sumZ_map_update (pending slots) _ size i).
  - rewrite (proj2 (Nat.ltb_lt i size)), (pending_alter size), decide_True by done. lia.
  - intros j Hj. rewrite (pending_alter size), decide_False by done. lia.
Qed.

Lemma fas_steps size l st :
  state_ok size st -> Forall (step_ok size) l -> Forall (fun e => is_fas e = true) l -> is_u64 st.2 ->
  let st' := foldl run_step st l in
  is_u64 st'.2 /\ u64 (st'.2 + slot_total size st'.1.1) = u64 (st.2 + slot_total size st.1.1).
Proof.
  intros Hst Hl Hf. revert st Hst. induction Hl as [|e l He Hl IH]; intros st Hst Hu; [done|].
  apply Forall_cons in Hf as [Hfe Hf]. destruct e as [|s i]; [done|].
  destruct (step_conserves size st (Fas s i) i Hst He) as (Hst' & _).
  destruct He as [Hs Hi]. destruct st as [[slots array] nev]. cbn [fst snd] in Hu |- *.
  destruct (IH Hf _ Hst') as [H1 H2]; [cbn; apply u64_range|]. split; [exact H1|].
  cbn [foldl]. cbv zeta in H2. rewrite H2. cbn [run_step fas_add ck_pr_fas_64 fst snd].
  rewrite slot_total_alter by (done || apply Hst). rewrite u64_add_l. f_equal. lia.
Qed.

Lemma pending_zero slots j :
  (forall s, (s < length slots)%nat -> slot_cell slots s j = 0) -> pending slots j = 0.
Proof.
  unfold pending. induction slots as [|row slots IH]; intros H; [done|]. cbn [map]. rewrite sumZ_cons.
  rewrite IH by (intros s Hs; apply (H (S s)); cbn; lia).
  pose proof (H 0%nat ltac:(cbn; lia)) as H0. unfold slot_cell in H0. cbn [nth] in H0. by rewrite H0.
Qed.

Lemma merged_nevents size c h :
  histogram_holds size c h -> c < 2 ^ 64 ->
  cumulative_nevents (merge_intermediate_into_cumulative h) =
  cumulative_nevents h + slot_total size (interm_slots h).
Proof.
  intros (_ & Hsz & Hok & Hlen & Hu & Ht & _) Hb. unfold merge_intermediate_into_cumulative.
  rewrite Hsz. pose proof (merge_as_steps size (interm_slots h, cumulative_array h, cumulative_nevents h)) as E.
  destruct (for_upto SB_HISTOGRAM_NSLOTS _ _) as [[slots array] nev]. cbn [cumulative_nevents set_cumulative].
  set (st := (interm_slots h, cumulative_array h, cumulative_nevents h)) in E.
  assert (Hst : state_ok size st) by done.
  assert (Hfas : Forall (fun e => is_fas e = true) (merge_cells size)).
  { apply List.Forall_forall. intros e He. apply in_flat_map in He as (s & _ & He).
    by apply in_map_iff in He as (i & <- & _). }
  destruct (fas_steps size (merge_cells size) st Hst (merge_cells_ok size) Hfas Hu) as [Hr Hc].
  rewrite <- E in Hr, Hc. cbn [fst snd] in Hr, Hc.
  assert (Hz : slot_total size slots = 0).
  { unfold slot_total. rewrite <- (sumZ_map_zero (fun _ : nat => 0) (seq 0 size)) by done.
    f_equal. apply map_ext_in. intros j Hj. apply in_seq in Hj. apply pending_zero. intros s Hs.
    destruct (run_conserves size (merge_cells size) st j Hst (merge_cells_ok size)) as ([[Hls _] _] & _).
    rewrite <- E in Hls. cbn [fst] in Hls.
    pose proof (fas_residue size (merge_cells size) st s j Hst (merge_cells_ok size)
      (merge_cells_in size s j ltac:(lia) ltac:(lia))) as H. rewrite <- E in H. cbn [fst] in H.
    assert (Hn : count_inc_at s j (merge_cells size) = 0); [|lia].
    clear. unfold count_inc_at, merge_cells. generalize (seq 0 SB_HISTOGRAM_NSLOTS) as ss.
    induction ss as [|s' ss IH]; [done|]. cbn [flat_map]. rewrite map_app, sumZ_app, IH, map_map.
    by rewrite sumZ_map_zero. }
  rewrite Hz, Z.add_0_r in Hc. rewrite u64_small in Hc by done. rewrite Hc. apply u64_small. destruct Hu. zify_u. cbn. lia.
Qed.

Lemma checkpoint_pct_defined exp size c h p :
  histogram_holds size c h -> c < 2 ^ 46 -> 0 <= p <= 100 ->
  exists x h', sb_histogram_get_pct_checkpoint exp h (d_of_Z p) = Histogram.Done x h'.
Proof.
  intros Hh Hb Hp. pose proof Hh as (Hlock & _ & _ & _ & [Hu _] & Ht & _).
  unfold sb_histogram_get_pct_checkpoint, get_pct_cumulative. rewrite Hlock.
  rewrite (merged_nevents size c) by (done || lia). rewrite d_of_Z_exact by lia.
  destruct (pct_nmax_bound (cumulative_nevents h + slot_total size (interm_slots h)) (p * D1)) as (m & -> & _).
  - lia.
  - pose proof D1_pos. split; [nia|]. apply Z.mul_le_mono_nonneg_r; lia.
  - by eexists _, _.
Qed.

(** ** The intermediate percentile moves events from the slots to the array *)

(** [c] events in the slots and in the counter of a merge. *)
Definition merging (size : nat) (c : Z) (slots : list (list Z)) (nev : Z) : Prop :=
  slots_ok size slots /\ (forall s i, 0 <= slot_cell slots s i) /\ 0 <= nev /\
  nev + slot_total size slots = c.

Lemma slot_total_cell size slots s i :
  slots_ok size slots -> (s < SB_HISTOGRAM_NSLOTS)%nat -> (i < size)%nat -> (forall s i, 0 <= slot_cell slots s i) ->
  0 <= slot_total size (alter (alter (fun _ => 0) i) s slots) /\
  slot_total size (alter (alter (fun _ => 0) i) s slots) = slot_total size slots - slot_cell slots s i.
Proof.
  intros Hok Hs Hi Hc. pose proof (slot_total_alter size slots s i (fun _ => 0) Hok Hs Hi) as E.
  split; [|rewrite E; lia]. apply sumZ_nonneg, Forall_map, Forall_forall. intros j _. unfold pending.
  apply sumZ_nonneg, Forall_map, Forall_lookup. intros s' row Hrow. cbn. rewrite <- (nth_lookup_Some _ _ [] _ Hrow).
  change (0 <= slot_cell (alter (alter (fun _ => 0) i) s slots) s' j).
  rewrite (slot_cell_alter size) by done. specialize (Hc s' j). destruct (decide _); lia.
Qed.

Lemma fas_merging size c slots nev s i t slots' :
  merging size c slots nev -> c < 2 ^ 64 -> (s < SB_HISTOGRAM_NSLOTS)%nat -> (i < size)%nat ->
  ck_pr_fas_64 s i 0 slots = (t, slots') -> merging size c slots' (u64 (nev + t)).
Proof.
  intros (Hok & Hc & Hn & Ht) Hb Hs Hi [= <- <-]. destruct (slot_total_cell size slots s i Hok Hs Hi Hc) as [H0 H1].
  pose proof (Hc s i). rewrite u64_small by (zify_u; lia). split; [by apply slots_ok_alter|].
  split; [|split; lia]. intros s' j. rewrite (slot_cell_alter size) by done. specialize (Hc s' j).
  destruct (decide _); lia.
Qed.

Lemma pct_intermediate_holds exp size c h p x h' :
  histogram_holds size c h -> c < 2 ^ 64 -> sb_histogram_get_pct_intermediate exp h p = Histogram.Done x h' ->
  histogram_holds size c h' /\ (forall log v, bucket log h' v = bucket log h v).
Proof.
  intros (Hlock & Hsz & Hok & Hlen & [Hu Hu'] & [Ht Hle] & Hc) Hb H. unfold sb_histogram_get_pct_intermediate in H.
  rewrite Hlock, Hsz in H. set (T := slot_total size (interm_slots h)) in *.
  assert (H0 : merging size T (interm_slots h) 0) by (split_and!; done || lia).
  assert (H1 : let '(sl, _, nev) := for_upto size (fas_set 0) (interm_slots h, temp_array h, 0) in merging size T sl nev).
  { apply (for_upto_ind (fun _ '(sl, _, nev) => merging size T sl nev)); [exact H0|].
    intros i [[sl a] nev] Hi Hm. unfold fas_set. destruct (ck_pr_fas_64 0 i 0 sl) as [t sl'] eqn:E.
    eapply fas_merging; [exact Hm|lia| |exact Hi|exact E]. unfold SB_HISTOGRAM_NSLOTS. lia. }
  destruct (for_upto size (fas_set 0) _) as [[sl a] nev].
  assert (H2 : let '(sl, _, nev) := for_upto (SB_HISTOGRAM_NSLOTS - 1)
    (fun s st => for_upto size (fas_add (Datatypes.S s)) st) (sl, a, nev) in merging size T sl nev).
  { apply (for_upto_ind (fun _ '(sl, _, nev) => merging size T sl nev)); [exact H1|].
    intros s [[sl1 a1] nev1] Hs Hm. apply (for_upto_ind (fun _ '(sl, _, nev) => merging size T sl nev)); [exact Hm|].
    intros i [[sl2 a2] nev2] Hi Hm2. unfold fas_add. destruct (ck_pr_fas_64 _ i 0 sl2) as [t sl'] eqn:E.
    eapply fas_merging; [exact Hm2|lia| |exact Hi|exact E]. lia. }
  destruct (for_upto (SB_HISTOGRAM_NSLOTS - 1) _ _) as [[sl3 a3] nev3].
  destruct (pct_nmax nev3 p) as [m|]; [|done]. injection H as _ <-. destruct H2 as (Hok2 & Hc2 & Hn2 & Ht2).
  split; [|done]. unfold histogram_holds.
  cbn [set_cumulative set_temp set_slots locked array_size cumulative_array cumulative_nevents interm_slots].
  assert (0 <= slot_total size sl3).
  { apply sumZ_nonneg, Forall_map, Forall_forall. intros j _. unfold pending.
    apply sumZ_nonneg, Forall_map, Forall_lookup. intros s' row Hrow. cbn.
    rewrite <- (nth_lookup_Some _ _ [] _ Hrow). apply Hc2. }
  rewrite u64_small by (zify_u; lia). split_and!; try done; try (zify_u; lia).
  apply (for_upto_ind (fun _ a => length a = size)); [done|]. intros i a' _ Ha. by rewrite length_alter.
Qed.

(** ** Recording a latency *)

Lemma update_holds log size c h value r h' r' :
  histogram_holds size c h -> (0 < size)%nat -> sb_histogram_update log h value r = Some (h', r') ->
  histogram_holds size (c + 1) h'.
Proof.
  intros (Hlock & Hsz & Hok & Hlen & Hu & Ht & Hc) Hpos H.
  destruct (histogram_update_adds_one log h h' value r r') as (s & i & Hs & Hi & _ & -> & Hok' & _);
    [by rewrite Hsz|by rewrite Hsz|done|]. rewrite Hsz in Hi.
  cbn [set_slots locked array_size cumulative_array cumulative_nevents interm_slots] in *.
  unfold histogram_holds. cbn [set_slots locked array_size cumulative_array cumulative_nevents interm_slots].
  rewrite Hsz in Hok'. unfold ck_pr_inc_64 in *. rewrite slot_total_alter by done.
  assert (Hx : 0 <= u64 (slot_cell (interm_slots h) s i + 1) <= slot_cell (interm_slots h) s i + 1).
  { specialize (Hc s i). unfold u64. pose proof (Z.mod_pos_bound (slot_cell (interm_slots h) s i + 1) (2 ^ 64)).
    pose proof (Z.mod_le (slot_cell (interm_slots h) s i + 1) (2 ^ 64)). lia. }
  split_and!; try done; try lia.
  - assert (Hnn : 0 <= slot_total size (alter (alter (fun x => u64 (x + 1)) i) s (interm_slots h))).
    { apply sumZ_nonneg, Forall_map, Forall_forall. intros j _. unfold pending.
      apply sumZ_nonneg, Forall_map, Forall_lookup. intros s' row Hrow. cbn.
      specialize (Hc s' j). rewrite <- (nth_lookup_Some _ _ [] _ Hrow).
      change (0 <= slot_cell (alter (alter (fun x => u64 (x + 1)) i) s (interm_slots h)) s' j).
      rewrite (slot_cell_alter size) by done. destruct (decide _); lia. }
    rewrite slot_total_alter in Hnn by done. exact Hnn.
  - intros s' j. rewrite (slot_cell_alter size) by done. specialize (Hc s' j). destruct (decide _); lia.
Qed.

Lemma event_stop_histogram log now i w r w' r' size c :
  histogram_holds size c (latency_histogram w) -> (0 < size)%nat ->
  sb_event_stop log now i w r = Some (w', r') ->
  histogram_holds size (c + 1) (latency_histogram w').
Proof.
  intros Hh Hpos H. unfold sb_event_stop in H. destruct (sb_timer_stop now _) as [value t].
  set (w1 := upd_timer i (fun _ => t) w) in H.
  destruct (0 <? percentile (globals w1)).
  - destruct (sb_histogram_update log (latency_histogram w1) _ r) as [[h r1]|] eqn:E; [|done].
    change (latency_histogram w1) with (latency_histogram w) in E.
    pose proof (update_holds _ _ _ _ _ _ _ _ Hh Hpos E) as H1. injection H as <- <-.
    by destruct (0 <? tx_rate _).
  - injection H as <- <-. assert (H1 : histogram_holds size (c + 1) (latency_histogram w)).
    { destruct Hh as (? & ? & ? & ? & ? & ? & ?). split_and!; try done; lia. }
    by destruct (0 <? tx_rate _).
Qed.

Lemma event_stop_others log i now w r w' r' j :
  sb_event_stop log now i w r = Some (w', r') -> i <> j -> nth j (timers w') zero_timer = nth j (timers w) zero_timer.
Proof.
  intros H Hne. unfold sb_event_stop in H. destruct (sb_timer_stop now _) as [value t].
  set (w1 := upd_timer i (fun _ => t) w) in H.
  assert (E : timers w' = timers w1).
  { destruct (0 <? percentile (globals w1)); [destruct (sb_histogram_update _ _ _ _) as [[h r1]|]; [|done]|];
      injection H as <- <-; by destruct (0 <? tx_rate _). }
  rewrite E. unfold w1, upd_timer. cbn [timers set_timers]. rewrite !nth_lookup. by rewrite list_lookup_insert_ne.
Qed.

(** ** Runs without errors *)

Section steady.
Context {S E R : Type} (log exp : dbl -> dbl) (ops : test_operations S E R).
Context (n size : nat) (g0 : sb_globals_t) (c0 : counters).

(** The default loop; there is always another event, and events succeed. *)
Record steady_test : Prop := {
  st_default : t_thread_run ops = None;
  st_next : forall i s, exists e s', t_next_event ops i s = (Some e, s');
  st_succeeds : forall e i s, fst (t_execute_event ops e i s) = 0
}.

(** No --rate, no time limit, no checkpoint reports, at most [M] events. *)
Abbreviation M := (max_events g0).
Record steady_globals : Prop := {
  sg_error : g_error g0 = 0;
  sg_threads : threads g0 = Z.of_nat n;
  sg_rate : tx_rate g0 = 0;
  sg_time : max_time_ns g0 = 0;
  sg_checkpoints : checkpoints g0 = [];
  sg_events : 0 < M /\ M + Z.of_nat n < 2 ^ 64 - 1
}.

(** A worker between the granting of an event and its end; one that was refused;
    and the steps it has made since its last event. *)
Definition in_flight (p : position E R) : Z :=
  match p with Next | Begin _ | Execute _ | End_ _ => 1 | _ => 0 end.
Definition refused (p : position E R) : Z := match p with Returned _ | Exited => 1 | _ => 0 end.
Definition since_event (p : position E R) : Z :=
  match p with
  | Custom _ | More _ => 0 | Next => 1 | Begin _ => 2 | Execute _ => 3 | End_ _ => 4
  | Returned _ => 1 | Exited => 2
  end.
Definition position_ok (p : position E R) : Prop :=
  match p with Custom _ => False | More rc | End_ rc | Returned rc => rc = 0 | _ => True end.

Definition summed (f : position E R -> Z) (wks : list (worker E R)) : Z := sumZ (map (fun wk => f (at_ wk)) wks).

Definition tick (i : nat) : action := Add i SB_CNT_EVENT 1.

(** The counters' trace of the events [ended] with intermediate reports between them. *)
Definition ticks (ended : list nat) (trace : list action) : Prop :=
  List.filter (fun a => negb (is_intermediate a)) trace = map tick ended.

(** After [steps] steps of workers, in which the events of the workers [ended]
    have ended. *)
Record steady_state (steps : nat) (ended : list nat) (b : bench S E R) : Prop := {
  ss_workers : length (workers b) = n /\ Forall (fun wk => position_ok (at_ wk)) (workers b);
  ss_ended : Forall (fun i => i < n)%nat ended;
  ss_globals : globals (bw b) =
    set_nevents (Z.of_nat (length ended) + summed in_flight (workers b) + summed refused (workers b)) g0;
  ss_granted : Z.of_nat (length ended) + summed in_flight (workers b) <= M /\
    (0 < summed refused (workers b) -> Z.of_nat (length ended) + summed in_flight (workers b) = M);
  ss_steps : Z.of_nat steps = 5 * Z.of_nat (length ended) + summed since_event (workers b);
  ss_counts : exists trace, counts (bw b) = Counter.run n c0 trace /\ ticks ended trace;
  ss_timers : (n <= length (timers (bw b)))%nat /\ exists l, all_recorded n (timers (bw b)) l;
  ss_latency : latency_defined log (bw b);
  ss_histogram : histogram_holds size (Z.of_nat (length ended)) (latency_histogram (bw b))
}.

Lemma summed_range f (wks : list (worker E R)) :
  (forall p, 0 <= f p <= 1) -> 0 <= summed f wks <= Z.of_nat (length wks).
Proof.
  intros Hf. unfold summed. induction wks as [|wk wks IH]; [done|]. cbn [map length]. rewrite sumZ_cons.
  specialize (Hf (at_ wk)). lia.
Qed.

Lemma in_flight_refused (wks : list (worker E R)) :
  0 <= summed in_flight wks /\ 0 <= summed refused wks /\
  summed in_flight wks + summed refused wks <= Z.of_nat (length wks).
Proof.
  unfold summed. induction wks as [|wk wks IH]; [done|]. cbn [map length]. rewrite !sumZ_cons.
  destruct (at_ wk); cbn [in_flight refused]; lia.
Qed.

Lemma summed_insert f (wks : list (worker E R)) i wk wk' :
  wks !! i = Some wk -> summed f (<[i := wk']> wks) = summed f wks - f (at_ wk) + f (at_ wk').
Proof. apply (sumZ_map_insert (fun wk => f (at_ wk))). Qed.

(** A step that ends no event and leaves everything but the number of granted
    events as it is. *)
Lemma quiet_step steps ended b i wk s w p r :
  steady_state steps ended b -> workers b !! i = Some wk -> position_ok p ->
  globals w = set_nevents (Z.of_nat (length ended) + (summed in_flight (workers b) - in_flight (at_ wk) + in_flight p)
                          + (summed refused (workers b) - refused (at_ wk) + refused p)) g0 ->
  Z.of_nat (length ended) + (summed in_flight (workers b) - in_flight (at_ wk) + in_flight p) <= M /\
    (0 < summed refused (workers b) - refused (at_ wk) + refused p ->
     Z.of_nat (length ended) + (summed in_flight (workers b) - in_flight (at_ wk) + in_flight p) = M) ->
  since_event p = since_event (at_ wk) + 1 ->
  counts w = counts (bw b) -> latency_histogram w = latency_histogram (bw b) ->
  percentile (globals w) = percentile (globals (bw b)) ->
  (length (timers w) = length (timers (bw b)) /\ exists l, all_recorded n (timers w) l) ->
  steady_state (Datatypes.S steps) ended (Bench s w (<[i := Worker p r]> (workers b))).
Proof.
  intros [[Hl Hpos] He Hg Hgr Hst Hc [Ht _] Hlat Hh] Hi Hp Hg' Hgr' Hst' Hc' Hh' Hperc [Ht' Hrec].
  split; cbn [workers bw test]; rewrite ?(summed_insert _ _ _ _ _ Hi); cbn [at_].
  - rewrite length_insert. split; [done|]. by apply Forall_insert.
  - done.
  - exact Hg'.
  - exact Hgr'.
  - rewrite Hst'. lia.
  - by rewrite Hc'.
  - by rewrite Ht'.
  - unfold latency_defined in *. by rewrite Hperc, Hh'.
  - by rewrite Hh'.
Qed.
Hypotheses (Htest : steady_test) (Hglobals : steady_globals) (Hsize : (0 < size)%nat).

(** The end of an event. *)
Lemma event_step steps ended b i wk now w r :
  steady_state steps ended b -> workers b !! i = Some wk -> at_ wk = End_ 0 ->
  sb_event_stop log now i (bw b) (rng wk) = Some (w, r) ->
  steady_state (Datatypes.S steps) (ended ++ [i]) (Bench (test b) w (<[i := Worker (More 0) r]> (workers b))).
Proof using Hglobals Hsize.
  intros [[Hl Hpos] He Hg Hgr Hst (trace & Hc & Htr) [Ht [l Hrec]] Hlat Hh] Hi Ha E'.
  assert (Hin : (i < n)%nat) by (rewrite <- Hl; by eapply lookup_lt_Some).
  destruct (event_stop_spec log i now (bw b) (rng wk) (l i) (counts (bw b)))
    as (w0 & r0 & x & E0 & Hr & Hlt & Hlat' & Hcnt & Hgl); [lia|by apply Hrec|done|done|].
  rewrite E' in E0. injection E0 as <- <-.
  pose proof (fun j => event_stop_others log i now (bw b) (rng wk) w r j E') as Hoth.
  pose proof (event_stop_histogram _ _ _ _ _ _ _ _ _ Hh Hsize E') as Hh'.
  assert (Hgw : globals w = globals (bw b)) by (apply Hgl; rewrite Hg; apply Hglobals).
  split; cbn [workers bw test]; rewrite ?(summed_insert _ _ _ _ _ Hi), ?length_app, ?Ha;
    cbn [at_ length in_flight refused since_event].
  - rewrite length_insert. split; [done|]. by apply Forall_insert.
  - apply Forall_app. split; [done|]. by constructor.
  - rewrite Hgw, Hg. f_equal. lia.
  - lia.
  - lia.
  - exists (trace ++ [tick i]). rewrite Hcnt, Hc. unfold Counter.run, ticks. rewrite foldl_app, List.filter_app, map_app.
    split; [done|]. by rewrite Htr.
  - rewrite Hlt. split; [done|]. exists (fun j => if decide (i = j) then l i ++ [x] else l j).
    intros j Hj. destruct (decide (i = j)) as [<-|Hne]; [done|]. rewrite Hoth by done. by apply Hrec.
  - done.
  - by rewrite Nat2Z.inj_add.
Qed.

Lemma steady_step steps ended b i now b' e :
  steady_state steps ended b -> worker_step log ops i now b = Some (b', e) ->
  steady_state (Datatypes.S steps) (ended ++ e) b'.
Proof.
  intros Hss H. pose proof Hss as [[Hl Hpos] He Hg Hgr Hst Hc [Ht [l Hrec]] Hlat Hh].
  destruct Hglobals as [G1 _ G2 G3 _ G4].
  unfold worker_step in H. apply bind_Some in H as (wk & Hi & H).
  assert (Hin : (i < n)%nat) by (rewrite <- Hl; by eapply lookup_lt_Some).
  assert (Hp : position_ok (at_ wk)) by (by eapply (Forall_lookup_1 _ _ _ _ Hpos)).
  pose proof (in_flight_refused (workers b)) as Hif.
  assert (Hq : forall s w p r, Some (Bench s w (<[i := Worker p r]> (workers b)), []) = Some (b', e) ->
    steady_state (Datatypes.S steps) ended (Bench s w (<[i := Worker p r]> (workers b))) ->
    steady_state (Datatypes.S steps) (ended ++ e) b') by (intros s w p r [= <- <-]; by rewrite app_nil_r).
  destruct (at_ wk) as [r|rc| |ev|ev|rc|rc|] eqn:Ea'; cbn [position_ok] in Hp; try done; subst.
  - rewrite Hg in H. cbn [tx_rate set_nevents] in H. rewrite G2 in H. cbn [Z.ltb Z.compare] in H.
    unfold more_events_gate, time_limit_exceeded in H.
    cbn [g_error max_time_ns max_events nevents set_nevents] in H. rewrite G1, G3 in H.
    cbn [Z.eqb negb Z.ltb Z.compare andb] in H. rewrite (proj2 (Z.ltb_lt 0 M)), u64_small in H by (zify_u; lia).
    eapply Hq; [exact H|]. destruct (Z.ltb_spec (Z.of_nat (length ended) + summed in_flight (workers b)
      + summed refused (workers b)) M); cbn [andb Z.eqb];
      (eapply quiet_step; [exact Hss|exact Hi|..]; rewrite ?Ea'; cbn [position_ok in_flight refused since_event];
       try done; try lia; [|rewrite Hg; done|by eauto]);
      cbn [globals set_globals]; unfold set_nevents; cbn; f_equal; lia.
  - destruct (st_next Htest i (test b)) as (ev & s' & E'). rewrite E' in H.
    eapply Hq; [exact H|]. eapply quiet_step; [exact Hss|exact Hi|..]; rewrite ?Ea';
      cbn [position_ok in_flight refused since_event]; try done; try lia; [|by eauto].
    rewrite Hg. f_equal; lia.
  - eapply Hq; [exact H|]. eapply quiet_step; [exact Hss|exact Hi|..]; rewrite ?Ea';
      cbn [position_ok in_flight refused since_event]; try done; try lia.
    + cbn [globals sb_event_start upd_timer set_timers]. rewrite Hg. f_equal; lia.
    + unfold sb_event_start, upd_timer. cbn [timers set_timers]. rewrite length_insert. split; [done|].
      exists l. intros j Hj. rewrite nth_insert by lia. destruct (decide (i = j)) as [<-|]; [|by apply Hrec].
      by apply recorded_start, Hrec.
  - pose proof (st_succeeds Htest ev i (test b)) as E'. destruct (t_execute_event ops ev i (test b)) as [rc s'].
    cbn in E'. subst rc. eapply Hq; [exact H|]. eapply quiet_step; [exact Hss|exact Hi|..]; rewrite ?Ea';
      cbn [position_ok in_flight refused since_event]; try done; try lia; [|by eauto].
    rewrite Hg. f_equal; lia.
  - apply bind_Some in H as ([w r] & E' & [= <- <-]). by eapply event_step.
  - cbn [Z.eqb negb] in H.
    assert (H' : exists s', Some (Bench s' (bw b) (<[i := Worker Exited (rng wk)]> (workers b)), []) = Some (b', e)).
    { destruct (t_thread_done ops) as [f|]; [destruct (f i (test b)) as [z s']|]; eauto. }
    destruct H' as [s' H']. eapply Hq; [exact H'|]. eapply quiet_step; [exact Hss|exact Hi|..]; rewrite ?Ea';
      cbn [position_ok in_flight refused since_event]; try done; try lia; [|by eauto].
    rewrite Hg. f_equal; lia.
Qed.

Lemma steady_step_defined steps ended b i now :
  steady_state steps ended b -> (i < n)%nat ->
  (exists wk, workers b !! i = Some wk /\ at_ wk = Exited) \/ is_Some (worker_step log ops i now b).
Proof using Hglobals Hsize.
  intros [[Hl Hpos] He Hg Hgr Hst Hc [Ht [l Hrec]] Hlat _] Hi.
  destruct (lookup_lt_is_Some_2 (workers b) i) as [wk Hw]; [lia|]. unfold worker_step. rewrite Hw. cbn [mbind option_bind].
  destruct (at_ wk) as [r|rc| |ev|ev|rc|rc|] eqn:Ea; [..|by left; eauto]; right.
  - destruct (t_run_step ops r _) as [z [s w]]. eauto.
  - rewrite Hg. cbn [tx_rate set_nevents]. rewrite (sg_rate Hglobals). cbn [Z.ltb Z.compare].
    destruct (more_events_gate _ _). eauto.
  - destruct (t_next_event ops i (test b)). eauto.
  - eauto.
  - destruct (t_execute_event ops ev i (test b)). eauto.
  - destruct (event_stop_spec log i now (bw b) (rng wk) (l i) (counts (bw b)))
      as (w & r & x & E' & _); [lia|by apply Hrec|done|done|]. rewrite E'. cbn. eauto.
  - destruct (negb (rc =? 0)); [eauto|]. destruct (t_thread_done ops) as [f|]; [destruct (f i (test b))|]; eauto.
Qed.

(** An intermediate report changes nothing of this. *)
Lemma steady_report_turn steps ended b t b' e :
  steady_state steps ended b -> Z.of_nat (length ended) < 2 ^ 64 -> is_work t = false ->
  take_turn log exp ops t b = Some (b', e) -> e = [] /\ steady_state steps ended b'.
Proof using Hglobals Hsize.
  intros [Hw He Hg Hgr Hst (trace & Hc & Htr) Ht Hlat Hh] Hb Hk H.
  destruct t as [i now|ring_size now1 now2|now1 now2]; [done|..]; cbn [take_turn] in H.
  - destruct (0 <? report_interval _) eqn:Ei; [|done]. unfold report_intermediate in H.
    rewrite (proj2 (Z.eqb_neq _ 0)) in H by (apply Z.ltb_lt in Ei; lia).
    destruct (sb_counters_agg_intermediate _ _) as [cnt c] eqn:Ec. cbn [set_counts latency_histogram globals] in H.
    destruct (sb_histogram_get_pct_intermediate _ _ _) as [x h| |] eqn:Ex; [|done..]. cbn [with_pct sb_timer_current] in H.
    injection H as <- <-. destruct (pct_intermediate_holds _ _ _ _ _ _ _ Hh Hb Ex) as [Hh' Hbk].
    split; [done|]. split; cbn [workers bw globals counts timers latency_histogram set_intermediate_timer set_histogram];
      try done.
    + exists (trace ++ [Intermediate]). unfold ticks. rewrite List.filter_app, Htr, app_nil_r. split; [|done].
      unfold Counter.run. rewrite foldl_app. cbn [foldl run_action]. fold (Counter.run n c0 trace). rewrite <- Hc.
      unfold nthreads in Ec. rewrite Hg in Ec. cbn [threads set_nevents] in Ec.
      rewrite (sg_threads Hglobals), Nat2Z.id in Ec. by rewrite Ec.
    + intros Hp v. destruct (Hlat Hp v) as [i Hi]. exists i. cbn [latency_histogram set_intermediate_timer set_histogram].
      by rewrite Hbk.
  - rewrite Hg in H. cbn [checkpoints set_nevents] in H. by rewrite (sg_checkpoints Hglobals) in H.
Qed.

Lemma steady_ended steps ended b : steady_state steps ended b -> Z.of_nat (length ended) < 2 ^ 64.
Proof using Hglobals Hsize.
  intros H. pose proof (in_flight_refused (workers b)). pose proof (proj1 (ss_granted _ _ _ H)).
  pose proof (sg_events Hglobals). lia.
Qed.

Lemma steady_run sched : forall steps ended b b' e,
  steady_state steps ended b -> run_workers log exp ops sched b = Some (b', e) ->
  steady_state (steps + length (List.filter is_work sched)) (ended ++ e) b'.
Proof using Hglobals Hsize Htest.
  induction sched as [|t sched IH]; intros steps ended b b' e Hss H; cbn [run_workers length List.filter] in H |- *.
  { injection H as <- <-. by rewrite Nat.add_0_r, app_nil_r. }
  apply bind_Some in H as ([b1 e1] & H1 & H). apply bind_Some in H as ([b2 e2] & H2 & H). injection H as <- <-.
  rewrite app_assoc. destruct (is_work t) eqn:Ek.
  - cbn [length]. rewrite <- Nat.add_succ_comm. eapply IH; [|exact H2]. destruct t; [|done..]. by eapply steady_step.
  - destruct (steady_report_turn _ _ _ _ _ _ Hss (steady_ended _ _ _ Hss) Ek H1) as [-> Hss1].
    rewrite app_nil_r. by eapply IH.
Qed.

Lemma steady_steps_bound steps ended b :
  steady_state steps ended b -> Z.of_nat steps <= 5 * M + 2 * Z.of_nat n.
Proof.
  intros [[Hl _] _ _ [Hgr _] Hst _ _ _ _].
  assert (H : summed since_event (workers b) <= 4 * summed in_flight (workers b) + 2 * Z.of_nat (length (workers b))
              /\ 0 <= summed in_flight (workers b)).
  { clear. unfold summed. induction (workers b) as [|wk wks IH]; [done|]. cbn [map length]. rewrite !sumZ_cons.
    destruct (at_ wk); cbn [in_flight since_event]; lia. }
  rewrite Hl in H. lia.
Qed.

(** When all have ended all events were executed. *)
Lemma steady_end steps ended b :
  steady_state steps ended b -> all_exited b = true -> (0 < n)%nat -> Z.of_nat (length ended) = M.
Proof.
  intros [[Hl _] _ _ [_ Hgr] _ _ _ _ _] Hall Hn.
  assert (H : summed in_flight (workers b) = 0 /\ summed refused (workers b) = Z.of_nat (length (workers b))).
  { unfold all_exited in Hall. unfold summed. clear Hl Hgr. induction (workers b) as [|wk wks IH]; [done|].
    cbn [map length forallb] in *. rewrite !sumZ_cons. destruct (at_ wk); try done. cbn [in_flight refused] in *.
    destruct (IH Hall) as [-> ->]. lia. }
  lia.
Qed.
End steady.

(** ** What the events leave in the test *)

Section tracking.
Context {S E R : Type} (log exp : dbl -> dbl) (ops : test_operations S E R).

(** Reports change the statistics only. *)
Lemma report_turn_keeps t b b' e :
  is_work t = false -> take_turn log exp ops t b = Some (b', e) ->
  e = [] /\ test b' = test b /\ workers b' = workers b /\ globals (bw b') = globals (bw b).
Proof.
  destruct t as [i now|ring_size now1 now2|now1 now2]; [done|intros _ H..]; cbn [take_turn] in H.
  - destruct (0 <? _); [|done]. unfold report_intermediate in H. destruct (_ =? 0); [by injection H as <- <-|].
    destruct (sb_counters_agg_intermediate _ _) as [cnt c].
    destruct (sb_histogram_get_pct_intermediate _ _ _) as [x h| |]; [|done..]. by injection H as <- <-.
  - destruct (0 <? _)%nat; [|done]. unfold report_cumulative, checkpoint in H.
    destruct (sb_counters_agg_cumulative _ _) as [cnt c]. cbn [sb_timer_current] in H.
    destruct (sb_histogram_get_pct_checkpoint _ _ _) as [x h| |]; [|done..]. cbn [with_pct] in H.
    destruct (checkpoint_timers _ _ _) as [ts tcs]. by injection H as <- <-.
Qed.

Definition default_loop (b : bench S E R) : Prop :=
  Forall (fun wk => match at_ wk with Custom _ => False | _ => True end) (workers b).

Lemma worker_step_default b i now b' e :
  default_loop b -> worker_step log ops i now b = Some (b', e) -> default_loop b'.
Proof.
  unfold default_loop, worker_step. intros Hd H. apply bind_Some in H as (wk & Hi & H).
  pose proof (Forall_lookup_1 _ _ _ _ Hd Hi) as Hp. cbv beta in Hp.
  assert (Hq : forall s w p r x, Some (Bench s w (<[i := Worker p r]> (workers b)), x) = Some (b', e) ->
    match p with Custom _ => False | _ => True end ->
    Forall (fun wk => match at_ wk with Custom _ => False | _ => True end) (workers b'))
    by (intros s w p r x [= <- _] Hx; by apply Forall_insert).
  destruct (at_ wk) as [r|rc| |ev|ev|rc|rc|]; [done|..].
  - destruct (0 <? tx_rate _); [done|]. destruct (more_events_gate _ _) as [m g]. eapply Hq; [exact H|].
    by destruct (_ && _).
  - destruct (t_next_event ops i _) as [[ev|] s]; by eapply Hq.
  - by eapply Hq.
  - destruct (t_execute_event ops ev i _) as [rc s]. by eapply Hq.
  - apply bind_Some in H as ([w r] & _ & H). by eapply Hq.
  - destruct (negb (rc =? 0)); [by eapply Hq|].
    destruct (t_thread_done ops) as [f|]; [destruct (f i _)|]; by eapply Hq.
  - done.
Qed.

(** The event has been executed and has not ended. *)
Definition executed (p : position E R) : Z := match p with End_ _ => 1 | _ => 0 end.

(** [Q s k]: the state [s] is one that [k] executions lead to. *)
Context (Q : S -> Z -> Prop).
Record tracks : Prop := {
  tr_next : forall i s k, Q s k -> Q (snd (t_next_event ops i s)) k;
  tr_execute : forall e i s k, Q s k -> Q (snd (t_execute_event ops e i s)) (k + 1);
  tr_done : forall f i s k, t_thread_done ops = Some f -> Q s k -> Q (snd (f i s)) k
}.
Hypothesis Htr : tracks.

Lemma worker_step_tracks b i now b' e c :
  default_loop b -> worker_step log ops i now b = Some (b', e) ->
  Q (test b) (c + summed executed (workers b)) ->
  Q (test b') (c + Z.of_nat (length e) + summed executed (workers b')).
Proof using Htr.
  intros Hd H HQ. unfold worker_step in H. apply bind_Some in H as (wk & Hi & H).
  pose proof (Forall_lookup_1 _ _ _ _ Hd Hi) as Hp. cbv beta in Hp.
  assert (Hq : forall s w p r x, Some (Bench s w (<[i := Worker p r]> (workers b)), x) = Some (b', e) ->
    Q s (c + Z.of_nat (length x) + (summed executed (workers b) - executed (at_ wk) + executed p)) ->
    Q (test b') (c + Z.of_nat (length e) + summed executed (workers b'))).
  { intros s w p r x [= <- <-] Hx. cbn [test workers]. by rewrite (summed_insert executed _ _ _ _ Hi). }
  assert (Hsame : forall s, Q s (c + summed executed (workers b)) ->
    Q s (c + 0 + (summed executed (workers b) - 0 + 0))) by (intros s Hs; by rewrite Z.sub_0_r, !Z.add_0_r).
  destruct (at_ wk) as [r|rc| |ev|ev|rc|rc|]; [done|..]; cbn [executed] in Hq.
  - destruct (0 <? tx_rate _); [done|]. destruct (more_events_gate _ _) as [m g]. eapply Hq; [exact H|].
    destruct (_ && _); by apply Hsame.
  - pose proof (tr_next Htr i _ _ HQ) as Hn. destruct (t_next_event ops i _) as [[ev|] s]; (eapply Hq; [exact H|]);
      by apply Hsame.
  - eapply Hq; [exact H|]. by apply Hsame.
  - pose proof (tr_execute Htr ev i _ _ HQ) as Hn. destruct (t_execute_event ops ev i _) as [rc s].
    eapply Hq; [exact H|]. cbn [length executed snd] in *. rewrite Z.sub_0_r, Z.add_0_r.
    by replace (c + (summed executed (workers b) + 1)) with (c + summed executed (workers b) + 1) by lia.
  - apply bind_Some in H as ([w r] & _ & H). eapply Hq; [exact H|]. cbn [length executed].
    by replace (c + 1 + _) with (c + summed executed (workers b)) by lia.
  - destruct (negb (rc =? 0)); [eapply Hq; [exact H|]; by apply Hsame|].
    destruct (t_thread_done ops) as [f|] eqn:Ef; [|eapply Hq; [exact H|]; by apply Hsame].
    pose proof (tr_done Htr f i _ _ Ef HQ) as Hn. destruct (f i _) as [z s]. eapply Hq; [exact H|]. by apply Hsame.
  - done.
Qed.

Lemma run_tracks sched : forall b b' e c,
  default_loop b -> run_workers log exp ops sched b = Some (b', e) ->
  Q (test b) (c + summed executed (workers b)) ->
  Q (test b') (c + Z.of_nat (length e) + summed executed (workers b')).
Proof using Htr.
  induction sched as [|t sched IH]; intros b b' e c Hd H HQ; cbn [run_workers] in H.
  { injection H as <- <-. by rewrite Z.add_0_r. }
  apply bind_Some in H as ([b1 e1] & H1 & H). apply bind_Some in H as ([b2 e2] & H2 & H). injection H as <- <-.
  rewrite length_app, Nat2Z.inj_add, Z.add_assoc.
  assert (H1' : default_loop b1 /\ Q (test b1) (c + Z.of_nat (length e1) + summed executed (workers b1))).
  { destruct (is_work t) eqn:Ek.
    - destruct t; [|done..]. split; [by eapply worker_step_default|by eapply worker_step_tracks].
    - destruct (report_turn_keeps _ _ _ _ Ek H1) as (-> & Et & Ew & _). unfold default_loop. rewrite Et, Ew. cbn.
      by rewrite Z.add_0_r. }
  destruct H1' as [Hd1 HQ1]. by eapply IH.
Qed.
End tracking.

Lemma executed_exited {S E R} (b : bench S E R) : all_exited b = true -> summed executed (workers b) = 0.
Proof.
  unfold all_exited, summed. induction (workers b) as [|wk wks IH]; [done|]. cbn [map forallb].
  rewrite sumZ_cons. by destruct (at_ wk).
Qed.

(** ** Failing workers *)

Section failing.
Context {S E R : Type} (log exp : dbl -> dbl) (ops : test_operations S E R).

(** The next step of worker [i] raises the error flag. *)
Definition failing (i : nat) (b : bench S E R) : bool :=
  match workers b !! i with
  | Some (Worker (Returned rc) _) => negb (rc =? 0)
  | _ => false
  end.

Definition failing_turn (t : turn) (b : bench S E R) : bool :=
  match t with Work i _ => failing i b | _ => false end.

(** Some worker's [thread_run] failed in the course of the schedule. *)
Fixpoint some_failed (sched : list turn) (b : bench S E R) : bool :=
  match sched with
  | [] => false
  | t :: sched =>
      failing_turn t b ||
      match take_turn log exp ops t b with Some (b, _) => some_failed sched b | None => false end
  end.

Lemma event_stop_error i now w r w' r' :
  sb_event_stop log now i w r = Some (w', r') -> g_error (globals w') = g_error (globals w).
Proof.
  intros H. unfold sb_event_stop in H. destruct (sb_timer_stop now _) as [value t].
  set (w1 := upd_timer i (fun _ => t) w) in H.
  destruct (0 <? percentile (globals w1)); [destruct (sb_histogram_update _ _ _ _) as [[h r1]|]; [|done]|];
    injection H as <- <-; by destruct (0 <? tx_rate _).
Qed.

Lemma gate_error v g : g_error (more_events_gate v g).2 = g_error g.
Proof.
  unfold more_events_gate. destruct (negb _); [done|]. destruct (time_limit_exceeded _ _); [done|].
  by destruct (0 <? max_events g).
Qed.

Lemma step_error i now b b' e :
  default_loop b -> worker_step log ops i now b = Some (b', e) ->
  default_loop b' /\ g_error (globals (bw b')) = (if failing i b then 1 else g_error (globals (bw b))).
Proof.
  intros Hd H. unfold worker_step in H. apply bind_Some in H as (wk & Hi & H). unfold failing. rewrite Hi.
  pose proof (Forall_lookup_1 _ _ _ _ Hd Hi) as Hp. destruct wk as [p r]. cbn [at_ rng] in *.
  assert (Hins : forall s w p' r' e', match p' with Custom _ => False | _ => True end ->
    g_error (globals w) = (match p with Returned rc => if negb (rc =? 0) then 1 else g_error (globals (bw b))
                           | _ => g_error (globals (bw b)) end) ->
    Some (Bench s w (<[i := Worker p' r']> (workers b)), e') = Some (b', e) ->
    default_loop b' /\ g_error (globals (bw b')) = (if match p with Returned rc => negb (rc =? 0) | _ => false end
                                                   then 1 else g_error (globals (bw b)))).
  { intros s w p' r' e' Hp' Hg [= <- <-]. split; [by apply Forall_insert|]. cbn. rewrite Hg. by destruct p. }
  destruct p as [c|rc| |ev|ev|rc|rc|]; try done.
  - destruct (0 <? tx_rate _); [done|]. pose proof (gate_error (sb_timer_value now (sb_exec_timer (bw b))) (globals (bw b))) as Hg.
    destruct (more_events_gate _ _) as [more g]. refine (Hins _ _ _ _ _ _ _ H); [by destruct (more && (rc =? 0))|exact Hg].
  - destruct (t_next_event ops i (test b)) as [ev s]. refine (Hins _ _ _ _ _ _ _ H); [by destruct ev|done].
  - by refine (Hins _ _ _ _ _ _ _ H).
  - destruct (t_execute_event ops ev i (test b)) as [rc s]. by refine (Hins _ _ _ _ _ _ _ H).
  - apply bind_Some in H as ([w r'] & E' & H). refine (Hins _ _ _ _ _ _ _ H); [done|by eapply event_stop_error].
  - destruct (negb (rc =? 0)) eqn:En; [by refine (Hins _ _ _ _ _ _ _ H)|].
    destruct (t_thread_done ops) as [f|]; [destruct (f i (test b)) as [z s]|]; by refine (Hins _ _ _ _ _ _ _ H).
Qed.

Lemma turn_error t b b' e :
  default_loop b -> take_turn log exp ops t b = Some (b', e) ->
  default_loop b' /\ g_error (globals (bw b')) = (if failing_turn t b then 1 else g_error (globals (bw b))).
Proof.
  intros Hd H. destruct (is_work t) eqn:Ek; [destruct t; [by eapply step_error|done..]|].
  destruct (report_turn_keeps _ _ _ _ _ _ _ Ek H) as (_ & _ & Ew & ->). unfold default_loop. rewrite Ew. by destruct t.
Qed.

Lemma run_error sched : forall b b' e,
  default_loop b -> run_workers log exp ops sched b = Some (b', e) ->
  g_error (globals (bw b')) = (if some_failed sched b then 1 else g_error (globals (bw b))).
Proof.
  induction sched as [|t sched IH]; intros b b' e Hd H; cbn [run_workers some_failed] in *; [by injection H as <- _|].
  apply bind_Some in H as ([b1 e1] & H1 & H). apply bind_Some in H as ([b2 e2] & H2 & H). injection H as <- _.
  rewrite H1. destruct (turn_error _ _ _ _ Hd H1) as [Hd1 Hg1]. rewrite (IH _ _ _ Hd1 H2), Hg1.
  by destruct (failing_turn t b), (some_failed sched b1).
Qed.
End failing.

(** ** From the start of [run_test] to its report *)

Section whole.
Context {S E R : Type} (log exp : dbl -> dbl) (rops : SbRun.sb_operations_t S) (ops : test_operations S E R).
Context (n size rows : nat) (order : list nat) (start : timespec) (draws : nat -> Z * Z * Z * Z)
  (clock : nat -> timespec).

(** What [init] leaves to a run with a limit on the number of events only, no
    warm-up and no histogram to print.  Reports during the run are allowed. *)
Record ready (w : world) : Prop := {
  rd_threads : Reports.threads (globals w) = Z.of_nat n /\ (0 < n)%nat /\ Z.of_nat n + 1 < 2 ^ 32 /\ (n <= rows)%nat;
  rd_globals : g_error (globals w) = 0 /\ tx_rate (globals w) = 0 /\ max_time_ns (globals w) = 0 /\
    nevents (globals w) = 0 /\ warmup_time (globals w) = 0 /\ histogram (globals w) = 0;
  rd_events : 0 < max_events (globals w) < 2 ^ 46;
  rd_percentile : 0 <= percentile (globals w) <= 100;
  rd_counts : counts w = sb_counters_init rows;
  rd_timers : (n <= length (timers w))%nat /\ all_recorded n (timers w) (fun _ => []);
  rd_latency : latency_defined log w;
  rd_histogram : (0 < size)%nat /\ histogram_holds size 0 (latency_histogram w)
}.

(** Without --report-checkpoints nothing resets the counters before the final report. *)
Definition no_checkpoints (w : world) : Prop := checkpoints (globals w) = [].

(** The operations around the workers succeed. *)
Definition succeeds (f : option (S -> Z * S)) : Prop := forall s, fst (SbRun.optional f s) = 0.
Record cooperative : Prop := {
  co_init : succeeds (SbRun.o_init rops);
  co_prepare : succeeds (SbRun.o_prepare rops);
  co_cleanup : succeeds (SbRun.o_cleanup rops);
  co_thread_init : forall f i s, t_thread_init ops = Some f -> fst (f i s) = 0
}.

(** [run_test] up to the start barrier. *)
Definition before_barrier (s : S) (w : world) : S * world :=
  let s := snd (SbRun.optional (SbRun.o_init rops) s) in
  let s := SbRun.optional_unit (SbRun.o_print_mode rops) s in
  let w := SbRun.on_timers sb_timer_init w in
  let s := snd (SbRun.optional (SbRun.o_prepare rops) s) in
  (s, SbRun.set_threads_running 0 w).

Definition first_bench (s : S) (w : world) : bench S E R :=
  let '(s, w) := snd (start_workers ops order start (before_barrier s w)) in
  Bench s w (map (new_worker ops draws) (seq 0 (nthreads w))).

Lemma init_workers_world st :
  cooperative -> snd (foldl (init_worker ops) st order) = snd st.
Proof.
  intros Hco. revert st. induction order as [|i l IH]; intros st; [done|]. cbn [foldl]. rewrite IH.
  unfold init_worker. destruct (t_thread_init ops) as [f|] eqn:Ei; [|done].
  pose proof (co_thread_init Hco f i st.1 Ei) as H. destruct (f i st.1) as [rc s]. cbn in H. by subst rc.
Qed.

(** The globals of the measured part. *)
Definition running_globals (w : world) : sb_globals_t :=
  globals (SbRun.set_threads_running (Reports.threads (globals w)) w).

Lemma start_ready s w :
  cooperative -> ready w -> exists s' t,
    start_workers ops order start (before_barrier s w) =
      (0, (s', World (running_globals w) (counts w) (latency_histogram w) (timers w) (timers_copy w) t t t)).
Proof.
  intros Hco Hw. unfold start_workers. pose proof (init_workers_world (before_barrier s w) Hco) as H.
  destruct (foldl _ _ _) as [s' w']. cbn [snd] in H. subst w'. unfold Startup.threads_started_callback.
  assert (E0 : (g_error (globals (before_barrier s w).2) =? 0) = true) by apply Z.eqb_eq, (rd_globals w Hw).
  rewrite E0. exists s', (sb_timer_start start (sb_timer_init (sb_exec_timer w))). reflexivity.
Qed.

(** What a trace without checkpoints adds. *)
Lemma ticks_added trace : forall l,
  (n <= rows)%nat -> Forall (fun i => i < n)%nat l -> ticks l trace ->
  Forall (in_rows rows) trace /\ existsb is_cumulative trace = false /\
  added n SB_CNT_EVENT trace = Z.of_nat (length l).
Proof.
  induction trace as [|a trace IH]; intros l Hr Hl Ht; unfold ticks in Ht; cbn [List.filter] in Ht.
  { destruct l; [|done]. done. }
  destruct a as [i t v| |]; cbn [is_intermediate negb] in Ht.
  - destruct l as [|i' l]; [done|]. injection Ht as -> -> -> Ht. apply Forall_cons in Hl as [Hi Hl].
    destruct (IH l Hr Hl Ht) as (F & C & A). split; [constructor; [cbn; lia|done]|]. split; [exact C|].
    unfold added in *. cbn [map length]. rewrite sumZ_cons, A, bool_decide_true by done. lia.
  - destruct (IH l Hr Hl Ht) as (F & C & A). split; [by constructor|]. split; [exact C|].
    unfold added in *. cbn [map]. by rewrite sumZ_cons, A.
  - by destruct l.
Qed.

Lemma since_all l : existsb is_cumulative l = false -> since is_cumulative l = l.
Proof. destruct l as [|a l]; [done|]. cbn. by destruct (is_cumulative a), (existsb is_cumulative l). Qed.

Lemma first_steady s w :
  cooperative -> t_thread_run ops = None -> ready w ->
  steady_state log n size (running_globals w) (sb_counters_init rows) 0 [] (first_bench s w).
Proof.
  intros Hco Hdef Hw. unfold first_bench. destruct (start_ready s w Hco Hw) as (s' & t & ->). cbn [snd].
  destruct Hw as [(H1 & H2 & H3 & H4) (G1 & G2 & G3 & G4 & G5 & G6) He Hp Hc [Ht Hrec] Hlat (Hs & Hh)].
  assert (En : forall t, nthreads (World (running_globals w) (counts w) (latency_histogram w) (timers w)
    (timers_copy w) t t t) = n) by (intros t0; unfold nthreads; cbn; rewrite H1; lia). rewrite En.
  assert (Hnew : forall f, f (More 0) = 0 -> summed f (map (new_worker ops draws) (seq 0 n)) = 0).
  { intros f Hf. unfold summed. rewrite map_map. apply sumZ_map_zero. intros i. unfold new_worker, enter_run.
    rewrite Hdef. by destruct (draws i) as [[[? ?] ?] ?]. }
  split; cbn [workers bw counts timers latency_histogram globals length]; rewrite ?Hnew by done.
  - rewrite length_map, length_seq. split; [done|]. apply Forall_map, Forall_forall. intros i _.
    unfold new_worker, enter_run. rewrite Hdef. by destruct (draws i) as [[[? ?] ?] ?].
  - constructor.
  - unfold running_globals, set_nevents, SbRun.set_threads_running. cbn. by rewrite G4.
  - cbn. lia.
  - done.
  - by exists [].
  - split; [done|]. by exists (fun _ => []).
  - exact Hlat.
  - done.
Qed.

Lemma join_keeps w :
  let w' := SbRun.sb_thread_join_workers w in
  g_error (globals w') = g_error (globals w) /\ histogram (globals w') = histogram (globals w) /\
  percentile (globals w') = percentile (globals w) /\ latency_histogram w' = latency_histogram w.
Proof.
  unfold SbRun.sb_thread_join_workers.
  by apply (for_upto_ind (fun _ w' => g_error (globals w') = g_error (globals w) /\
    histogram (globals w') = histogram (globals w) /\ percentile (globals w') = percentile (globals w) /\
    latency_histogram w' = latency_histogram w)).
Qed.

(** The operations of the test around the report. *)
Definition after_report (s : S) : S :=
  SbRun.optional_unit (SbRun.o_done rops) (snd (SbRun.optional (SbRun.o_cleanup rops) s)).

(** Without an error the final report is made, and the result is 0. *)
Lemma finish_reports env s w c :
  cooperative -> g_error (globals w) = 0 -> histogram (globals w) = 0 -> 0 <= percentile (globals w) <= 100 ->
  histogram_holds size c (latency_histogram w) -> c < 2 ^ 46 ->
  exists stat w', SbRun.finish_test exp rops env s w = Reported (0, Some stat, after_report s) w'.
Proof.
  intros Hco He Hh Hp Hlat Hc. destruct (join_keeps w) as (J1 & J2 & J3 & J4).
  rewrite He in J1. rewrite Hh in J2. rewrite <- J3 in Hp. rewrite <- J4 in Hlat. unfold SbRun.finish_test.
  set (w1 := SbRun.set_report_interval 0 _).
  assert (K : g_error (globals w1) = 0 /\ histogram (globals w1) = 0 /\ 0 <= percentile (globals w1) <= 100 /\
    latency_histogram w1 = latency_histogram (SbRun.sb_thread_join_workers w)) by done.
  clearbody w1. destruct K as (K1 & K2 & K3 & K4). rewrite <- K4 in Hlat.
  pose proof (co_cleanup Hco s) as Hcl. unfold after_report. destruct (SbRun.optional _ s) as [rc s1].
  cbn in Hcl. subst rc. cbn [snd].
  rewrite K1, K2. cbn [Z.eqb negb]. unfold report_cumulative, checkpoint.
  destruct (sb_counters_agg_cumulative _ _) as [cnt c1]. cbn [sb_timer_current].
  destruct (checkpoint_pct_defined exp size c (latency_histogram w1) (percentile (globals w1)) Hlat)
    as (x & h' & Ex); [lia|lia|].
  cbn [latency_histogram set_counts set_checkpoint_timer globals]. rewrite Ex. cbn [with_pct].
  destruct (checkpoint_timers _ _ _) as [ts tcs]. by eexists _, _.
Qed.

(** [run_test] follows the schedule and goes on with the final report. *)
Lemma run_test_finishes s w sched b ended :
  cooperative -> ready w -> run_workers log exp ops sched (first_bench s w) = Some (b, ended) ->
  SbRun.run_test exp rops (bench_surroundings log exp ops order start draws sched clock) s w =
  SbRun.finish_test exp rops (bench_surroundings log exp ops order start draws sched clock) (test b) (bw b).
Proof.
  intros Hco Hw Hrun. set (env := bench_surroundings _ _ _ _ _ _ _ _). unfold SbRun.run_test.
  unfold first_bench in Hrun. destruct (start_ready s w Hco Hw) as (s' & t & Hstart). rewrite Hstart in Hrun. cbn [snd] in Hrun.
  unfold before_barrier in Hstart.
  pose proof (co_init Hco s) as Hi. destruct (SbRun.optional (SbRun.o_init rops) s) as [rc s1]. cbn [fst snd] in Hi, Hstart. subst rc.
  cbn [Z.eqb negb]. set (s2 := SbRun.optional_unit _ _) in *.
  pose proof (co_prepare Hco s2) as Hi. destruct (SbRun.optional (SbRun.o_prepare rops) s2) as [rc s3]. cbn [fst snd] in Hi, Hstart.
  subst rc. cbn [Z.eqb negb]. set (w1 := SbRun.set_threads_running 0 _) in *.
  destruct Hw as [(H1 & H2 & H3 & H4) (G1 & G2 & G3 & G4 & G5 & G6) _ _ _ _ _ _].
  assert (W : Reports.threads (globals w1) = Z.of_nat n /\ tx_rate (globals w1) = 0 /\ warmup_time (globals w1) = 0) by done.
  destruct W as (W1 & W2 & W3).
  unfold Barrier.sb_barrier_init, SbRun.worker_barrier_threads, SbRun.report_barrier_threads. rewrite W1, W2.
  rewrite u32_small by (cbn; zify_u; lia). rewrite !(proj2 (Z.eqb_neq _ 0)) by (unfold b2z; repeat destruct (_ <? _); lia).
  cbn [SbRun.barrier_ok env bench_surroundings]. unfold SbRun.start_threads.
  cbn [SbRun.create_report SbRun.create_eventgen SbRun.create_checkpoints SbRun.create_workers env bench_surroundings Z.eqb negb].
  rewrite !andb_false_r, W3. cbn [Z.ltb Z.compare].
  cbn [SbRun.worker_barrier_wait env bench_surroundings]. rewrite Hstart.
  unfold SbRun.warm_up_stage. cbn [Z.ltb Z.compare].
  assert (Hwu : warmup_time (globals (World (running_globals w) (counts w) (latency_histogram w) (timers w) (timers_copy w) t t t)) = 0)
    by exact G5.
  rewrite Hwu. cbn [Z.ltb Z.compare SbRun.report_barrier_wait SbRun.work env bench_surroundings fst snd]. by rewrite Hrun.
Qed.

(** No worker is in a [thread_run] of its own. *)
Lemma steady_default g0 c0 steps ended (b : bench S E R) :
  steady_state log n size g0 c0 steps ended b -> default_loop b.
Proof.
  intros H. eapply Forall_impl; [exact (proj2 (ss_workers _ _ _ _ _ _ _ _ H))|]. intros wk Hp. cbv beta in Hp.
  by destruct (at_ wk).
Qed.

Lemma ready_globals w : ready w -> no_checkpoints w -> steady_globals n (running_globals w).
Proof.
  intros [(H1 & H2 & H3 & H4) (G1 & G2 & G3 & G4 & G5 & G6) He _ _ _ _ _] Hck. split; try done. cbn. lia.
Qed.

(** What a schedule that can be followed leads to. *)
Lemma steady_schedule s w sched b ended :
  steady_test ops -> cooperative -> ready w -> no_checkpoints w -> run_workers log exp ops sched (first_bench s w) = Some (b, ended) ->
  steady_state log n size (running_globals w) (sb_counters_init rows) (length (List.filter is_work sched)) ended b.
Proof.
  intros Ht Hco Hw Hck Hrun. pose proof (first_steady s w Hco (st_default ops Ht) Hw) as H0.
  exact (steady_run _ _ _ _ _ _ _ Ht (ready_globals w Hw Hck) (proj1 (rd_histogram w Hw)) _ _ _ _ _ _ H0 Hrun).
Qed.

(** Some worker that has not ended, while there is one. *)
Lemma not_all_exited (b : bench S E R) :
  all_exited b = false -> exists i wk, workers b !! i = Some wk /\ at_ wk <> Exited.
Proof.
  unfold all_exited. induction (workers b) as [|wk wks IH]; [done|]. cbn [forallb]. intros H.
  destruct (at_ wk) eqn:Ea; [by exists 0%nat, wk; rewrite Ea..|]. destruct (IH H) as (i & wk' & Hi & Hne).
  by exists (Datatypes.S i), wk'.
Qed.

(** The workers can always be run to their end. *)
Lemma steady_completes s w :
  steady_test ops -> cooperative -> ready w -> no_checkpoints w ->
  exists sched b ended, run_workers log exp ops sched (first_bench s w) = Some (b, ended) /\ all_exited b = true.
Proof.
  intros Ht Hco Hw Hck. pose proof (ready_globals w Hw Hck) as Hg. pose proof (proj1 (rd_histogram w Hw)) as Hs.
  pose proof (first_steady s w Hco (st_default ops Ht) Hw) as H0.
  remember (Z.to_nat (5 * max_events (globals w) + 2 * Z.of_nat n)) as left eqn:El.
  assert (Hleft : 5 * max_events (globals w) + 2 * Z.of_nat n <= Z.of_nat left + Z.of_nat 0) by lia. clear El.
  revert H0 Hleft. generalize (first_bench s w) as b, 0%nat as steps, (@nil nat) as ended.
  induction left as [|left IH]; intros b steps ended Hss Hleft; (destruct (all_exited b) eqn:Ea; [by exists [], b, []|]);
    destruct (not_all_exited b Ea) as (i & wk & Hi & Hne);
    (assert (Hin : (i < n)%nat) by (rewrite <- (proj1 (ss_workers _ _ _ _ _ _ _ _ Hss)); by eapply lookup_lt_Some));
    (destruct (steady_step_defined log ops n size _ _ Hg Hs steps ended b i (Timespec 0 0) Hss Hin)
      as [(wk' & Hi' & ?)|[[b1 e1] E1]]; [congruence|]);
    pose proof (steady_step log ops n size _ _ Ht Hg Hs _ _ _ _ _ _ _ Hss E1) as Hss1.
  - pose proof (steady_steps_bound log n size _ _ Hs _ _ _ Hss1) as Hb. cbn [max_events running_globals] in *.
    unfold running_globals in Hb. cbn in Hb. lia.
  - destruct (IH b1 (Datatypes.S steps) _ Hss1) as (sched & b' & e & E' & Hall); [lia|].
    exists (Work i (Timespec 0 0) :: sched), b', (e1 ++ e). cbn [run_workers take_turn]. rewrite E1. cbn [mbind option_bind].
    rewrite E'. done.
Qed.

(** Once all have ended, the final report. *)
Lemma steady_report s w sched b ended :
  steady_test ops -> cooperative -> ready w -> no_checkpoints w -> run_workers log exp ops sched (first_bench s w) = Some (b, ended) ->
  all_exited b = true ->
  Z.of_nat (length ended) = max_events (globals w) /\
  exists stat w',
    SbRun.run_test exp rops (bench_surroundings log exp ops order start draws sched clock) s w
      = Reported (0, Some stat, after_report (test b)) w' /\
    st_events stat = max_events (globals w).
Proof.
  intros Ht Hco Hw Hck Hrun Hall. pose proof (steady_schedule s w sched b ended Ht Hco Hw Hck Hrun) as Hss.
  pose proof Hw as [(H1 & H2 & H3 & H4) (G1 & G2 & G3 & G4 & G5 & G6) He Hp Hc _ _ (Hs & _)].
  assert (Hend : Z.of_nat (length ended) = max_events (globals w))
    by exact (steady_end log n size (running_globals w) _ Hs _ ended b Hss Hall H2).
  split; [done|]. rewrite (run_test_finishes s w sched b ended) by done. set (env := bench_surroundings _ _ _ _ _ _ _ _).
  destruct Hss as [_ Hids Hgl _ _ (trace & Hcnt & Htr) _ _ Hh].
  destruct (finish_reports env (test b) (bw b) (Z.of_nat (length ended)) Hco) as (stat & w' & E0);
    rewrite ?Hgl; [done..|lia|]. exists stat, w'. split; [exact E0|].
  destruct (ticks_added trace ended H4 Hids Htr) as (Hin & Hno & Hadd).
  rewrite (SbRun.finish_counts exp rops env n rows H4 (test b) (bw b) 0 stat (after_report (test b)) w' trace).
  - rewrite since_all, Hadd by done. rewrite Hend. apply u64_small. zify_u. lia.
  - unfold nthreads. rewrite Hgl. cbn. rewrite H1. lia.
  - done.
  - done.
  - exact E0.
Qed.

(** C2: A benchmark with --events=N and without --report-checkpoints ends and
    executes exactly N events, and its final report says so.  For any test whose
    operations succeed, any number of threads and any intermediate reports, however
    the steps of the workers and the reports interleave: the workers make at most
    5 N steps and 2 more per thread, and until all have ended each of those that
    have not can take one; and once they have, [run_test] returns 0 and the final report
    counts N events.  (A checkpoint report resets the counters, and the final report
    then counts the events since the last one.) *)
Theorem benchmark_exact s w sched b ended :
  steady_test ops -> cooperative -> ready w -> no_checkpoints w ->
  run_workers log exp ops sched (first_bench s w) = Some (b, ended) ->
  Z.of_nat (length (List.filter is_work sched)) <= 5 * max_events (globals w) + 2 * Z.of_nat n /\
  (forall i now, (i < n)%nat ->
     (exists wk, workers b !! i = Some wk /\ at_ wk = Exited) \/ is_Some (worker_step log ops i now b)) /\
  (all_exited b = true ->
     Z.of_nat (length ended) = max_events (globals w) /\
     exists stat s' w',
       SbRun.run_test exp rops (bench_surroundings log exp ops order start draws sched clock) s w
         = Reported (0, Some stat, s') w' /\
       st_events stat = max_events (globals w)).
Proof.
  intros Ht Hco Hw Hck Hrun. pose proof (steady_schedule s w sched b ended Ht Hco Hw Hck Hrun) as Hss.
  pose proof (proj1 (rd_histogram w Hw)) as Hs.
  split; [by apply (steady_steps_bound log n size (running_globals w) (sb_counters_init rows) Hs _ ended b)|].
  split; [intros i now Hi; by eapply (steady_step_defined log ops n size (running_globals w) _ (ready_globals w Hw Hck) Hs)|].
  intros Hall. destruct (steady_report s w sched b ended Ht Hco Hw Hck Hrun Hall) as [Hend (stat & w' & E0 & Hst)].
  split; [done|]. by exists stat, (after_report (test b)), w'.
Qed.

(** C4: A failed worker fails the program, and nothing else does.  Whatever the
    operations of the test that are called by the default loop do, and whatever
    reports are made meanwhile: the global
    error flag is raised in the end exactly when [thread_run] failed for some
    worker; then [run_test] returns 1 without a final report; and when none
    failed, whatever report there is comes with the result 0. *)
Theorem failed_worker_fails_run s w sched b ended :
  t_thread_run ops = None -> cooperative -> ready w ->
  run_workers log exp ops sched (first_bench s w) = Some (b, ended) ->
  g_error (globals (bw b)) = b2z (some_failed log exp ops sched (first_bench s w)) /\
  match SbRun.run_test exp rops (bench_surroundings log exp ops order start draws sched clock) s w with
  | Reported (rc, stat, _) _ =>
      rc = b2z (some_failed log exp ops sched (first_bench s w)) /\ (rc = 1 -> stat = None)
  | _ => some_failed log exp ops sched (first_bench s w) = false
  end.
Proof.
  intros Hdef Hco Hw Hrun. pose proof (first_steady s w Hco Hdef Hw) as H0.
  pose proof (steady_default _ _ _ _ _ H0) as Hd.
  assert (Hg0 : g_error (globals (bw (first_bench s w))) = 0).
  { rewrite (ss_globals _ _ _ _ _ _ _ _ H0). apply (rd_globals w Hw). }
  pose proof (run_error log exp ops sched _ _ _ Hd Hrun) as Hg. rewrite Hg0 in Hg.
  rewrite (run_test_finishes s w sched b ended) by done. clear Hrun H0 Hd Hg0.
  destruct (some_failed log exp ops sched (first_bench s w)); cbn [b2z]; (split; [done|]);
    destruct (join_keeps (bw b)) as (J1 & _); rewrite Hg in J1; unfold SbRun.finish_test;
    set (w1 := SbRun.set_report_interval 0 _);
    (assert (K1 : g_error (globals w1) = g_error (globals (SbRun.sb_thread_join_workers (bw b)))) by done);
    rewrite J1 in K1; clearbody w1;
    pose proof (co_cleanup Hco (test b)) as Hcl; destruct (SbRun.optional _ (test b)) as [rc s1]; cbn in Hcl; subst rc;
    rewrite K1; cbn [Z.eqb negb b2z]; [done|].
  destruct (negb (histogram (globals w1) =? 0)).
  - destruct (sb_histogram_print exp _) as [rows' h| |]; cbn [with_pct]; try done.
    by destruct (report_cumulative exp _ _ _) as [stat w2| |].
  - by destruct (report_cumulative exp _ _ _) as [stat w2| |].
Qed.
End whole.

(** Two workers, three events, the workers taking turns, and an intermediate report
    after two events; the events of the test count up. *)
Definition example_test : test_operations Z Z unit :=
  TestOperations Z Z unit (Some (fun _ s => (0, s + 100))) (fun _ s => (Some s, s)) (fun e _ s => (0, s + 1)) None
    (fun r st => (inr 0, st)) None.

Definition example_histogram : sb_histogram_t :=
  Histogram [0; 0] 0 [0; 0] (replicate SB_HISTOGRAM_NSLOTS [0; 0]) 2 (Fin 0) (Fin 0) (Fin 0) (Fin 1) false.

Definition example_start : world :=
  World (Globals 0 0 3 0 2 0 1 0 0 [] 0 0 0 0 0 0 0 0) (sb_counters_init 3) example_histogram
    [sb_timer_init zero_timer; sb_timer_init zero_timer; sb_timer_init zero_timer]
    [zero_timer; zero_timer; zero_timer] zero_timer zero_timer zero_timer.

Definition example_rops : SbRun.sb_operations_t Z := SbRun.Operations Z None None None None None.

Definition example_schedule : list turn :=
  map (fun k => Work (k mod 2)%nat (Timespec 0 (Z.of_nat k))) (seq 0 14) ++
  IntermediateReport 0 (Timespec 0 14) (Timespec 0 14) ::
  map (fun k => Work 0 (Timespec 0 (Z.of_nat k))) (seq 14 5).

Lemma example_ready : ready (fun x => x) 2 2 3 example_start.
Proof.
  split.
  - split_and!; [done|lia|lia|lia].
  - done.
  - cbn. lia.
  - cbn. lia.
  - done.
  - split; [by apply Nat.leb_le|]. intros [|[|i]] Hi; [apply recorded_init..|lia].
  - intros Hp. cbn in Hp. lia.
  - split; [lia|]. split; [done|]. split; [done|].
    split; [split; [done|by apply Forall_replicate]|]. split; [done|]. split; [split; done|].
    split; [split; vm_compute; discriminate|].
    intros s i. unfold slot_cell, cell. cbn [latency_histogram example_start interm_slots example_histogram].
    rewrite !nth_lookup. destruct (replicate SB_HISTOGRAM_NSLOTS [0; 0] !! s) as [row|] eqn:E; [|by destruct i].
    apply lookup_replicate in E as [-> _]. by destruct i as [|[|i]].
Qed.

Lemma benchmark_exact_witness :
  exists b, run_workers (fun x => x) (fun x => x) example_test example_schedule
      (first_bench example_rops example_test [1; 0]%nat (Timespec 0 0) (fun _ => (1, 2, 3, 4)) 5 example_start)
    = Some (b, [0; 1; 0]%nat) /\
  exists stat s' w',
    SbRun.run_test (fun x => x) example_rops
      (bench_surroundings (fun x => x) (fun x => x) example_test [1; 0]%nat (Timespec 0 0) (fun _ => (1, 2, 3, 4))
         example_schedule (fun _ => Timespec 1 0)) 5 example_start = Reported (0, Some stat, s') w' /\
    st_events stat = 3.
Proof.
  eexists. split; [vm_compute; reflexivity|].
  refine (proj2 (proj2 (proj2 (benchmark_exact (fun x => x) (fun x => x) example_rops example_test 2 2 3 [1; 0]%nat
    (Timespec 0 0) (fun _ => (1, 2, 3, 4)) (fun _ => Timespec 1 0) 5 example_start example_schedule _ [0; 1; 0]%nat
    _ _ example_ready _ _)) _)).
  - split; [done|intros i s; by eexists _, _|done].
  - split; try done. intros f i s [= <-]. done.
  - reflexivity.
  - vm_compute. reflexivity.
  - vm_compute. reflexivity.
Defined.

(** The first event of both workers fails. *)
Definition failing_test : test_operations Z Z unit :=
  TestOperations Z Z unit None (fun _ s => (Some s, s)) (fun e _ s => (if e =? 5 then 1 else 0, s + 1)) None
    (fun r st => (inr 0, st)) None.

Lemma failing_cooperative : cooperative example_rops failing_test.
Proof. by split. Qed.

Lemma failed_worker_fails_run_witness :
  exists b ended, run_workers (fun x => x) (fun x => x) failing_test (take 14 example_schedule)
      (first_bench example_rops failing_test [] (Timespec 0 0) (fun _ => (1, 2, 3, 4)) 5 example_start)
    = Some (b, ended) /\ g_error (globals (bw b)) = 1.
Proof.
  destruct (run_workers _ _ failing_test _ _) as [[b ended]|] eqn:E; [|vm_compute in E; discriminate E].
  exists b, ended. split; [reflexivity|].
  pose proof (failed_worker_fails_run (fun x => x) (fun x => x) example_rops failing_test 2 2 3 []
    (Timespec 0 0) (fun _ => (1, 2, 3, 4)) (fun _ => Timespec 1 0) 5 example_start (take 14 example_schedule) b ended
    eq_refl failing_cooperative example_ready) as H.
  specialize (H E). apply proj1 in H.
  rewrite H. vm_compute. reflexivity.
Defined.
