(* ===== verification/Modes.v ===== *)
(** * What the program prints about itself

    [print_run_mode] of [sysbench.c], the modes of the built-in tests, the
    reports of the fileio test and of the cpu test, and the help texts.  A line
    is a list of pieces: text, or a floating-point number with the format it is
    printed with, which is left to the C library. *)

From stdpp Require Import pretty.
From S2P Require Import Prelude.
From S2P Require Import Double Options Counter Timer Rand Reports Logger Db SbInit Fileio CpuTest.
From S2P Require ThreadTests.

#[local] Open Scope string_scope.
#[local] Open Scope list_scope.
#[local] Open Scope Z_scope.
#[local] Set Warnings "-clear-no-such-hyp".

Inductive piece :=
| Txt (s : string)
| Dbl (format : string) (x : dbl)
| Size (value : dbl * option ascii).

Record message := Message { priority : log_msg_priority_t; pieces : list piece }.

Definition notice (s : string) : message := Message LOG_NOTICE [Txt s].
Definition info (s : string) : message := Message LOG_INFO [Txt s].

Definition endl : string := String newline EmptyString.

(** [%d] and [%u] of a 32-bit and [PRIu64] of a 64-bit argument. *)
Definition fmt_d (x : Z) : string := pretty (s32 x).
Definition fmt_u (x : Z) : string := pretty (u32 x).
Definition fmt_u64 (x : Z) : string := pretty (u64 x).

Definition when {A} (b : bool) (l : list A) : list A := if b then l else [].

(** ** [print_run_mode] *)

(** [sizeof(list_str)] *)
Definition LIST_STR_SIZE : Z := Z.of_nat MAX_CHECKPOINTS * 12.

(** The text in [list_str] after the loop and the last [snprintf]; [size] is the
    room left at [tmp]. *)
Fixpoint checkpoint_list (cps : list Z) (size : Z) : string :=
  match cps with
  | [] => ""
  | [c] => default "" (snprintf size (fmt_u c))
  | c :: cps =>
      let text := fmt_u c +:+ ", " in
      let n := strlen text in
      if size <=? n then default "" (snprintf size text)
      else text +:+ checkpoint_list cps (size - n)
  end.

(** The lines before the test's own mode, and the argument of [srandom]; [time]
    is the current time, and [None] the undefined conversion of a time limit
    that is not an [unsigned] number of seconds. *)
Definition print_run_mode (g : sb_globals_t) (seed time : Z) : option (list message * Z) :=
  shutdown ← if force_shutdown g =? 0 then Some []
             else s ← d_to_u32 (NS2SEC (max_time_ns g));
                  Some [notice ("Forcing shutdown in " +:+ fmt_u (s + timeout g) +:+ " seconds")];
  Some
    ([notice "Running the test with following options:";
      notice ("Number of threads: " +:+ fmt_d (threads g))] ++
     when (0 <? warmup_time g) [notice ("Warmup time: " +:+ fmt_d (warmup_time g) +:+ "s")] ++
     when (0 <? tx_rate g) [notice ("Target transaction rate: " +:+ fmt_d (tx_rate g) +:+ "/sec")] ++
     when (negb (report_interval g =? 0))
       [notice ("Report intermediate results every " +:+ fmt_d (report_interval g) +:+ " second(s)")] ++
     when (negb (length (checkpoints g) =? 0)%nat)
       [notice ("Report checkpoint(s) at " +:+ checkpoint_list (checkpoints g) LIST_STR_SIZE +:+ " seconds")] ++
     when (negb (debug g =? 0)) [notice ("Debug mode enabled." +:+ endl)] ++
     when (negb (validate g =? 0)) [notice ("Validation checks: on." +:+ endl)] ++
     [notice (if seed =? 0
              then "Initializing random number generator from current time" +:+ endl
              else "Initializing random number generator from seed (" +:+ fmt_d seed +:+ ")." +:+ endl)] ++
     shutdown ++ [notice ""],
     u32 (if seed =? 0 then time else seed)).

(** ** The fileio test *)

Definition get_io_mode_str (mode : file_io_mode_t) : string :=
  match mode with
  | FILE_IO_MODE_SYNC => "synchronous"
  | FILE_IO_MODE_ASYNC => "asynchronous"
  | FILE_IO_MODE_MMAP => "fast mmaped"
  end.

Definition get_test_mode_str (mode : file_test_mode_t) : string :=
  match mode with
  | MODE_WRITE => "sequential write (creation)"
  | MODE_REWRITE => "sequential rewrite"
  | MODE_READ => "sequential read"
  | MODE_RND_READ => "random read"
  | MODE_RND_WRITE => "random write"
  | MODE_RND_RW => "random r/w"
  | MODE_MIXED => "mixed"
  end.

Definition print_file_extra_flags (file_extra_flags : Z) : message :=
  let flag (f : Z) (s : string) := if Z.land file_extra_flags f =? 0 then "" else s in
  notice ("Extra file open flags: " +:+ (if file_extra_flags =? 0 then "(none)" else "") +:+
    flag SB_FILE_FLAG_SYNC "sync " +:+ flag SB_FILE_FLAG_DSYNC "dsync " +:+ flag SB_FILE_FLAG_DIRECTIO "directio").

Definition size_of (x : Z) : piece := Size (sb_print_value_size (d_of_Z x)).

(** Random read counts as random here; the mixed mode does not. *)
Definition random_mode (m : file_test_mode_t) : bool :=
  match m with MODE_RND_WRITE | MODE_RND_READ | MODE_RND_RW => true | _ => false end.

Definition file_print_mode (c : fileio_conf) (g : sb_globals_t) : list message :=
  [print_file_extra_flags (file_extra_flags c);
   Message LOG_NOTICE [Txt (fmt_d (num_files c) +:+ " files, "); size_of (file_size c); Txt "B each"];
   Message LOG_NOTICE [size_of (file_size c * num_files c); Txt "B total file size"];
   Message LOG_NOTICE [Txt "Block size "; size_of (file_block_size c); Txt "B"]] ++
  when (0 <? file_merged_requests c)
    [Message LOG_NOTICE [Txt "Merging requests up to "; size_of (file_request_size c); Txt "B for sequential IO."]] ++
  when (random_mode (test_mode c))
    [notice ("Number of IO requests: " +:+ fmt_u64 (max_events g));
     Message LOG_NOTICE [Txt "Read/Write ratio for combined random IO test: "; Dbl "%2.2f" (file_rw_ratio c)]] ++
  when (0 <? file_fsync_freq c)
    [notice ("Periodic FSYNC enabled, calling fsync() each " +:+ fmt_d (file_fsync_freq c) +:+ " requests.")] ++
  when (negb (file_fsync_end c =? 0)) [notice "Calling fsync() at the end of test, Enabled."] ++
  when (negb (file_fsync_all c =? 0)) [notice "Calling fsync() after each write operation."] ++
  [notice ("Using " +:+ get_io_mode_str (file_io_mode c) +:+ " I/O mode")] ++
  when (negb (validate g =? 0)) [notice "Using checksums validation."] ++
  [notice ("Doing " +:+ get_test_mode_str (test_mode c) +:+ " test")].

Definition mebibyte : dbl := d_of_Z (1024 * 1024).
Definition megabyte : dbl := d_of_Z (1000 * 1000).

(** What [file_report_intermediate] prints after the time. *)
Definition file_report_intermediate (stat : sb_stat_t) (g : sb_globals_t) : list piece :=
  let seconds := time_interval stat in
  [Txt "reads: "; Dbl "%4.2f" (ddiv (ddiv (d_of_Z (st_bytes_read stat)) mebibyte) seconds);
   Txt " MiB/s writes: "; Dbl "%4.2f" (ddiv (ddiv (d_of_Z (st_bytes_written stat)) mebibyte) seconds);
   Txt " MiB/s fsyncs: "; Dbl "%4.2f" (ddiv (d_of_Z (st_other stat)) seconds);
   Txt ("/s latency (ms," +:+ fmt_u (percentile g) +:+ "%): "); Dbl "%4.3f" (SEC2MS (latency_pct stat))].

Definition throughput (name : string) (requests bytes : Z) (seconds : dbl) : list piece :=
  [Txt (name +:+ "IOPS="); Dbl "%4.2f" (ddiv (d_of_Z requests) seconds);
   Txt " "; Dbl "%4.2f" (ddiv (ddiv (d_of_Z bytes) mebibyte) seconds);
   Txt " MiB/s ("; Dbl "%4.2f" (ddiv (ddiv (d_of_Z bytes) megabyte) seconds); Txt (" MB/s)" +:+ endl)].

(** [%10.2f] and [%3d] pad; the texts before them are of the source. *)
Definition file_report_cumulative (stat : sb_stat_t) (g : sb_globals_t) : list message :=
  let seconds := time_interval stat in
  let latency (name : string) (x : dbl) := Message LOG_NOTICE [Txt name; Dbl "%10.2f" (SEC2MS x)] in
  [Message LOG_NOTICE
     ([Txt (endl +:+ "Throughput:" +:+ endl)] ++
      throughput "         read:  " (st_reads stat) (st_bytes_read stat) seconds ++
      throughput "         write: " (st_writes stat) (st_bytes_written stat) seconds ++
      [Txt "         fsync: IOPS="; Dbl "%4.2f" (ddiv (d_of_Z (st_other stat)) seconds)]);
   notice "";
   notice "Latency (ms):";
   latency "         min:                            " (latency_min stat);
   latency "         avg:                            " (latency_avg stat);
   latency "         max:                            " (latency_max stat);
   if 0 <? percentile g
   then latency ("        " +:+ (let p := fmt_d (percentile g) in spaces (3 - String.length p) +:+ p) +:+
                 "th percentile:                ") (latency_pct stat)
   else notice "         percentile stats:               disabled";
   latency "         sum:                            " (latency_sum stat);
   notice ""].

(** ** The other built-in tests *)

Definition cpu_print_mode (max_prime : Z) : list message :=
  [info ("Doing CPU performance benchmark" +:+ endl);
   notice ("Prime numbers limit: " +:+ fmt_d max_prime +:+ endl)].

(** What the cpu test prints before the default report. *)
Definition cpu_report_cumulative (stat : sb_stat_t) : list message :=
  [notice "CPU speed:";
   Message LOG_NOTICE [Txt "    events per second: "; Dbl "%8.2f" (ddiv (d_of_Z (st_events stat)) (time_interval stat))]].

Definition threads_print_mode (c : ThreadTests.Threads.threads_conf) : list message :=
  [info "Doing thread subsystem performance test";
   info ("Thread yields per test: " +:+ fmt_d (ThreadTests.Threads.thread_yields c) +:+ " Locks used: " +:+
         fmt_d (ThreadTests.Threads.thread_locks c))].

Definition mutex_print_mode : list message := [info "Doing mutex performance test"].

(** ** Help *)

Definition sb_rand_print_help : list string :=
  "Pseudo-Random Numbers Generator options:" :: sb_print_options rand_args.

(** The handlers of the three types of messages, in the order of the types. *)
Definition log_print_help (l : logger) : list string :=
  "Log options:" ::
  flat_map (fun h => match h_args h with Some args => sb_print_options args | None => [] end)
    (min_handlers l ++ text_handlers l ++ oper_handlers l).

(** [lname d] is the long name of a driver. *)
Definition db_print_help {D} (lname : db_driver_t D -> string) (m : db_module D) : list string :=
  ["General database options:" +:+ endl] ++ sb_print_options db_args ++
  [""; "Compiled-in database drivers:"] ++
  map (fun drv => "  " +:+ sname drv +:+ " - " +:+ lname drv) (drivers m) ++ [""] ++
  flat_map (fun drv => (sname drv +:+ " options:") ::
    match drv_args drv with Some args => sb_print_options args | None => [] end) (drivers m).

Definition print_help {D} (lname : db_driver_t D -> string) (m : db_module D) (l : logger)
    (tests : list (string * string)) : list string :=
  ["Usage:"; "  sysbench [options]... [testname] [command]"; "";
   "Commands implemented by most tests: prepare run cleanup help"; ""; "General options:"] ++
  sb_print_options general_args ++ sb_rand_print_help ++ log_print_help l ++
  db_print_help lname m ++ ["Compiled-in tests:"] ++
  map (fun t => "  " +:+ fst t +:+ " - " +:+ snd t) tests ++
  [""; "See 'sysbench <testname> help' for a list of options for each test."; ""].

(** ** The list of checkpoints *)

Lemma fmt_u_length c : strlen (fmt_u c) <= 10.
Proof.
  apply (pretty_length_pos _ 10); [lia|]. pose proof (u32_range c). unfold is_u32 in *. lia.
Qed.

Lemma snprintf_all size text : strlen text < size -> snprintf size text = Some text.
Proof.
  intros H. pose proof (strlen_nonneg text). unfold snprintf. rewrite (proj2 (Z.eqb_neq _ _)) by lia.
  rewrite substring_all; [done|lia].
Qed.

Lemma checkpoint_list_complete cps size :
  12 * Z.of_nat (length cps) <= size ->
  checkpoint_list cps size = String.concat ", " (map fmt_u cps) /\
  (cps <> [] -> strlen (checkpoint_list cps size) < size).
Proof.
  revert size. induction cps as [|c cps IH]; intros size Hs; [done|].
  pose proof (fmt_u_length c). destruct cps as [|c' cps].
  - cbn [length] in Hs. cbn [checkpoint_list map String.concat]. rewrite snprintf_all by lia. cbn. split; [done|]. lia.
  - change (checkpoint_list (c :: c' :: cps) size) with
      (if size <=? strlen (fmt_u c +:+ ", ") then default "" (snprintf size (fmt_u c +:+ ", "))
       else (fmt_u c +:+ ", ") +:+ checkpoint_list (c' :: cps) (size - strlen (fmt_u c +:+ ", "))).
    assert (Hn : strlen (fmt_u c +:+ ", ") <= 12) by (rewrite strlen_app; change (strlen ", ") with 2; lia).
    cbn [length] in Hs. rewrite (proj2 (Z.leb_gt _ _)) by lia.
    destruct (IH (size - strlen (fmt_u c +:+ ", "))) as [E L]; [cbn [length]; lia|]. split.
    + rewrite E. change (String.concat ", " (map fmt_u (c :: c' :: cps))) with
        (fmt_u c +:+ ", " +:+ String.concat ", " (map fmt_u (c' :: cps))). apply str_append_assoc.
    + intros _. rewrite strlen_app. specialize (L ltac:(done)). lia.
Qed.

(** The buffer for the checkpoints holds the longest list that [init] accepts:
    nothing is cut off, and the terminating NUL is inside. *)
Theorem checkpoint_list_fits cps :
  (0 < length cps <= MAX_CHECKPOINTS)%nat ->
  checkpoint_list cps LIST_STR_SIZE = String.concat ", " (map fmt_u cps) /\
  strlen (checkpoint_list cps LIST_STR_SIZE) < LIST_STR_SIZE.
Proof.
  intros H. destruct (checkpoint_list_complete cps LIST_STR_SIZE) as [E L].
  - unfold LIST_STR_SIZE. lia.
  - split; [exact E|]. apply L. intros ->. cbn in H. lia.
Qed.

Example checkpoint_list_3 : checkpoint_list [10; 60; 4294967295] LIST_STR_SIZE = "10, 60, 4294967295".
Proof. reflexivity. Qed.

(** ** What is printed identifies what is run *)

(** The line of the test and the line of the flags tell the configurations that
    [parse_arguments] accepts apart. *)
Theorem printed_modes_differ :
  (forall m m', get_test_mode_str m = get_test_mode_str m' -> m = m') /\
  (forall m m', get_io_mode_str m = get_io_mode_str m' -> m = m') /\
  (forall f f', 0 <= f < 8 -> 0 <= f' < 8 -> print_file_extra_flags f = print_file_extra_flags f' -> f = f').
Proof.
  split; [by intros [] []|]. split; [by intros [] []|].
  intros f f' Hf Hf' H.
  assert (Hall : forallb (fun f => forallb (fun f' =>
      (f =? f') || negb (bool_decide (match print_file_extra_flags f, print_file_extra_flags f' with
                                      | Message _ [Txt s], Message _ [Txt s'] => s = s' | _, _ => True end)))
      (map Z.of_nat (seq 0 8))) (map Z.of_nat (seq 0 8)) = true) by (vm_compute; reflexivity).
  rewrite forallb_forall in Hall. assert (Hin : forall x, 0 <= x < 8 -> In x (map Z.of_nat (seq 0 8))).
  { intros x Hx. apply in_map_iff. exists (Z.to_nat x). split; [lia|]. apply in_seq. lia. }
  specialize (Hall f (Hin f Hf)). cbv beta in Hall. rewrite forallb_forall in Hall. specialize (Hall f' (Hin f' Hf')).
  apply orb_true_iff in Hall as [E|E]; [by apply Z.eqb_eq|].
  apply negb_true_iff, bool_decide_eq_false in E. exfalso. apply E. rewrite H. unfold print_file_extra_flags, notice.
  done.
Qed.
