(* ===== verification/Main.v ===== *)
(** * The program ([main] of [sysbench.c])

    Registration, the command line, initialization, and the choice of the test and
    of the command to execute.  The scripts and the built-in tests are arguments:
    what they register and which commands they have. *)

From S2P Require Import Prelude Double Options Xoroshiro Rand Counter Timer Histogram Reports Logger Db SbInit.

#[local] Open Scope parse_scope.

(** ** Tests and commands *)

(** The commands of a test; [None] is a null pointer, else what the call returns. *)
Record sb_builtin_cmds_t := Cmds {
  c_help : option Z;
  c_prepare : option Z;
  c_cleanup : option Z;
  c_qgen : option Z
}.

Record sb_test_t := Test {
  t_sname : string;
  t_args : option (list sb_arg_t);
  t_cmds : sb_builtin_cmds_t
}.

(** What [main] calls for the user. *)
Inductive called :=
| PrintUsage | PrintVersion
| CallHelp | PrintTestOptions | CallPrepare | CallCleanup | CallRun | CallQgen | CallCustom (cmd : string).

Definition EXIT_SUCCESS : Z := 0.
Definition EXIT_FAILURE : Z := 1.

Definition find_test (tests : list sb_test_t) (name : string) : option sb_test_t :=
  List.find (fun t => String.eqb (t_sname t) name) tests.

Section main.
(** [sb_load_lua], whether it leaves a script loaded being that it succeeds; the
    result of a custom command if the script defines it; and of [run_test]. *)
Context (sb_load_lua : option string -> option sb_test_t).
Context (custom_command : string -> option Z) (run_test : sb_test_t -> Z).

(** A command a test need not have. *)
Definition builtin (cmd : option Z) (c : called) : Z * option called :=
  match cmd with Some rc => (rc, Some c) | None => (EXIT_FAILURE, None) end.

(** From [current_test = test] on, for a given command name. *)
Definition dispatch (lua_loaded : bool) (test : sb_test_t) (cmd : string) : Z * option called :=
  match (if lua_loaded then custom_command cmd else None) with
  | Some rc => (rc, Some (CallCustom cmd))
  | None =>
      if String.eqb cmd "help" then
        match c_help (t_cmds test), t_args test with
        | Some _, _ => (EXIT_SUCCESS, Some CallHelp)
        | None, Some _ => (EXIT_SUCCESS, Some PrintTestOptions)
        | None, None => (EXIT_FAILURE, None)
        end
      else if String.eqb cmd "prepare" then builtin (c_prepare (t_cmds test)) CallPrepare
      else if String.eqb cmd "cleanup" then builtin (c_cleanup (t_cmds test)) CallCleanup
      else if String.eqb cmd "run" then
        ((if run_test test =? 0 then EXIT_SUCCESS else EXIT_FAILURE), Some CallRun)
      else if String.eqb cmd "qgen" then builtin (c_qgen (t_cmds test)) CallQgen
      else (EXIT_FAILURE, None)
  end.

(** The test to execute and whether it is a script, or the value to return. *)
Definition choose_test (tests : list sb_test_t) (cl : cmdline) : Z + sb_test_t * bool :=
  match testname cl with
  | Some name =>
      if String.eqb name "-" then
        inl (match sb_load_lua None with Some _ => EXIT_SUCCESS | None => EXIT_FAILURE end)
      else
        match find_test tests name with
        | Some test =>
            match cmdname cl with None => inl EXIT_FAILURE | Some _ => inr (test, false) end
        | None =>
            match sb_load_lua (Some name) with
            | None => inl EXIT_FAILURE
            | Some test => match cmdname cl with None => inl EXIT_SUCCESS | Some _ => inr (test, true) end
            end
        end
  | None => inl (match sb_load_lua None with Some _ => EXIT_SUCCESS | None => EXIT_FAILURE end)
  end.

Context (alloc : Z -> bool) (calloc_ok : bool) (fopen : string -> option string).
Context (log exp log1p expm1 : dbl -> dbl) (strtod : string -> dbl) (random : nat -> Z).
Context {d : Type} (tests : list sb_test_t) (db : db_module d) (l : logger) (g : sb_globals_t).

(** [log_register] and [register_tests]: the options known before the command
    line is read.  The built-in tests register theirs when they are chosen. *)
Definition registered_options : list option_t * logger :=
  let '(_, options, l) := log_register log calloc_ok fopen [] l in
  let '(options, _) := db_register fopen options db in
  (fst (sb_rand_register fopen options), l).

(** A null [cmdname] would be undefined behaviour in [strcmp]. *)
Definition main (argv : list (option string)) : parsed (Z * option called) :=
  let '(options, l) := registered_options in
  let '(options, argv, cl, rc) := parse_general_arguments fopen general_args argv options in
  if negb (rc =? 0) then POk (EXIT_FAILURE, None)
  else if negb (sb_get_value_flag options "help" =? 0) then POk (EXIT_SUCCESS, Some PrintUsage)
  else if negb (sb_get_value_flag options "version" =? 0) then POk (EXIT_SUCCESS, Some PrintVersion)
  else
    r <-p init alloc fopen log exp log1p expm1 strtod random g options;
    l <-p log_init (i_options r) l;
    cs <-p sb_alloc_per_thread_array alloc zero_counters (threads (i_globals r)) (8 * Z.of_nat COUNTERS_SIZE);
    _ <-p not_null cs;
    match choose_test tests cl with
    | inl rc => POk (rc, None)
    | inr (test, lua_loaded) =>
        let '(options, _, rc) := parse_test_arguments fopen (t_args test) argv (i_options r) in
        if negb (rc =? 0) then POk (EXIT_FAILURE, None)
        else match cmdname cl with
             | Some cmd => POk (dispatch lua_loaded test cmd)
             | None => PUndefined
             end
    end.

(** ** Properties *)

Lemma choose_test_command cl test lua : choose_test tests cl = inr (test, lua) -> is_Some (cmdname cl).
Proof.
  unfold choose_test. destruct (testname cl) as [name|]; [|done]. destruct (String.eqb name "-"); [done|].
  destruct (find_test tests name); [|destruct (sb_load_lua _); [|done]]; by destruct (cmdname cl).
Qed.

(** The command line that names what is called. *)
Definition command_of (c : called) : option string :=
  match c with
  | PrintUsage | PrintVersion => None
  | CallHelp | PrintTestOptions => Some "help"
  | CallPrepare => Some "prepare"
  | CallCleanup => Some "cleanup"
  | CallRun => Some "run"
  | CallQgen => Some "qgen"
  | CallCustom cmd => Some cmd
  end%string.

Lemma dispatch_named lua test cmd rc c : dispatch lua test cmd = (rc, Some c) -> command_of c = Some cmd.
Proof.
  unfold dispatch, builtin. destruct (if lua then _ else _); [intros [= _ <-]; done|].
  destruct (String.eqb_spec cmd "help") as [->|_].
  { destruct (c_help _), (t_args test); intros [= _ <-] || discriminate; done. }
  destruct (String.eqb_spec cmd "prepare") as [->|_]; [destruct (c_prepare _); intros [= _ <-]; done|].
  destruct (String.eqb_spec cmd "cleanup") as [->|_]; [destruct (c_cleanup _); intros [= _ <-]; done|].
  destruct (String.eqb_spec cmd "run") as [->|_]; [intros [= _ <-]; done|].
  destruct (String.eqb_spec cmd "qgen") as [->|_]; [destruct (c_qgen _); intros [= _ <-]; done|done].
Qed.

(** The command line as [main] parses it. *)
Definition parsed_cmdline (argv : list (option string)) : cmdline :=
  let '(_, _, cl, _) := parse_general_arguments fopen general_args argv (fst registered_options) in cl.

(** [main] calls at most one command, the one the command line names, after
    the start-up has succeeded: it never compares a command name that was not
    given, so it is defined whenever the start-up is; and it fails when the
    command is unknown or the test does not have it. *)
Theorem main_calls_named argv :
  (forall rc c, main argv = POk (rc, Some c) ->
     c = PrintUsage \/ c = PrintVersion \/ command_of c = cmdname (parsed_cmdline argv)) /\
  ((forall r l', init alloc fopen log exp log1p expm1 strtod random g
      (fst (fst (fst (parse_general_arguments fopen general_args argv (fst registered_options))))) = POk r ->
    log_init (i_options r) (snd registered_options) = POk l' ->
    alloc (u64 (u32 (threads (i_globals r) + 1) * (8 * Z.of_nat COUNTERS_SIZE))) = true ->
    exists rc c, main argv = POk (rc, c))).
Proof.
  unfold main, parsed_cmdline. destruct registered_options as [options l0]. cbn [fst snd].
  destruct (parse_general_arguments fopen general_args argv options) as [[[options1 argv1] cl] rc0]. cbn [fst snd].
  split.
  - intros rc c H. destruct (negb (rc0 =? 0)); [discriminate|].
    destruct (negb (sb_get_value_flag options1 "help" =? 0)); [injection H as _ <-; by left|].
    destruct (negb (sb_get_value_flag options1 "version" =? 0)); [injection H as _ <-; by right; left|].
    right; right. next_step H r Er. next_step H l1 El. next_step H u Eu. next_step H u2 Eu2.
    destruct (choose_test tests cl) as [rc1|[test lua]] eqn:Ec; [discriminate|].
    destruct (parse_test_arguments fopen (t_args test) argv1 (i_options r)) as [[options2 argv2] rc2].
    destruct (negb (rc2 =? 0)); [discriminate|]. destruct (cmdname cl) as [cmd|]; [|discriminate].
    injection H as H. by apply dispatch_named in H.
  - intros r l' Er El Ha. destruct (negb (rc0 =? 0)); [by eexists _, _|].
    destruct (negb (sb_get_value_flag options1 "help" =? 0)); [by eexists _, _|].
    destruct (negb (sb_get_value_flag options1 "version" =? 0)); [by eexists _, _|].
    rewrite Er. cbn [pbind]. rewrite El. cbn [pbind]. unfold sb_alloc_per_thread_array. rewrite Ha. cbn [pbind not_null].
    destruct (choose_test tests cl) as [rc1|[test lua]] eqn:Ec; [by eexists _, _|].
    destruct (choose_test_command _ _ _ Ec) as [cmd Ecmd].
    destruct (parse_test_arguments fopen (t_args test) argv1 (i_options r)) as [[options2 argv2] rc2].
    destruct (negb (rc2 =? 0)); [by eexists _, _|]. rewrite Ecmd. destruct (dispatch lua test cmd) as [rc c]. by exists rc, c.
Qed.
End main.

Definition no_test (_ : option string) : option sb_test_t := None.
Definition example_main : list (option string) -> parsed (Z * option called) :=
  main no_test (fun _ => None) (fun _ => 0) (fun _ => true) true (fun _ => None) (fun _ => NaN) (fun _ => NaN)
    (fun _ => NaN) (fun _ => NaN) (fun _ => NaN) (fun _ => 7) [] (DbModule (d := unit) [] false false (DbGlobals DB_PS_MODE_AUTO None 0) false [] [] zero_timer)
    (Logger [] [] [] false (LogState 3 "" 0 95 0 example_histogram [])) zero_globals.

Lemma main_calls_named_witness :
  example_main [Some "--version"%string] = POk (0, Some PrintVersion)
  /\ (PrintVersion = PrintUsage \/ PrintVersion = PrintVersion \/ command_of PrintVersion = None).
Proof.
  assert (E : example_main [Some "--version"%string] = POk (0, Some PrintVersion)) by (vm_compute; reflexivity).
  split; [exact E|].
  destruct (main_calls_named no_test (fun _ => None) (fun _ => 0) (fun _ => true) true (fun _ => None) (fun _ => NaN) (fun _ => NaN)
    (fun _ => NaN) (fun _ => NaN) (fun _ => NaN) (fun _ => 7) [] (DbModule (d := unit) [] false false (DbGlobals DB_PS_MODE_AUTO None 0) false [] [] zero_timer)
    (Logger [] [] [] false (LogState 3 "" 0 95 0 example_histogram [])) zero_globals [Some "--version"%string]) as [H _].
  destruct (H 0 PrintVersion E) as [H1|[H1|H1]]; [left; exact H1|right; left; exact H1|right; left; reflexivity].
Defined.
