(* ===== verification/Tests.v ===== *)
(** * The compiled-in tests

    The [sb_test_t] of the five tests (the static tables of [tests/*/sb_*.c] and
    [register_tests]) as [main] sees them: which commands they have and that their
    options work as they are registered; and the cpu test from its options to its
    final report. *)

From S2P Require Import Prelude Double Options Xoroshiro Rand Counter Timer Histogram Reports EventLoop.
From S2P Require Import Fileio FileioArgs MemoryTest CpuTest ThreadTests Db Logger SbInit.
From S2P Require Import Benchmark.
From S2P Require Barrier Startup SbRun Main.

(** ** The tables *)

(** A test with its long name. *)
Record static_test := StaticTest { lname : string; def : Main.sb_test_t }.

(** [prepare] and [cleanup]: what the two commands of the fileio test return. *)
Definition fileio_test (prepare cleanup : Z) : static_test :=
  StaticTest "File I/O test"
    (Main.Test "fileio" (Some fileio_args) (Main.Cmds None (Some prepare) (Some cleanup) None)).

Definition no_cmds : Main.sb_builtin_cmds_t := Main.Cmds None None None None.
Definition cpu_test : static_test := StaticTest "CPU performance test" (Main.Test "cpu" (Some cpu_args) no_cmds).
Definition memory_test : static_test :=
  StaticTest "Memory functions speed test" (Main.Test "memory" (Some memory_args) no_cmds).
Definition threads_test : static_test :=
  StaticTest "Threads subsystem performance test" (Main.Test "threads" (Some Threads.threads_args) no_cmds).
Definition mutex_test : static_test :=
  StaticTest "Mutex performance test" (Main.Test "mutex" (Some Mutex.mutex_args) no_cmds).

Definition register_test_fileio (prepare cleanup : Z) (tests : list static_test) : list static_test :=
  tests ++ [fileio_test prepare cleanup].
Definition register_test_cpu (tests : list static_test) : list static_test := tests ++ [cpu_test].
Definition register_test_memory (tests : list static_test) : list static_test := tests ++ [memory_test].
Definition register_test_threads (tests : list static_test) : list static_test := tests ++ [threads_test].
Definition register_test_mutex (tests : list static_test) : list static_test := tests ++ [mutex_test].

(** The tests; [db_register] and [sb_rand_register] follow in [Main]. *)
Definition register_tests (prepare cleanup : Z) : list static_test :=
  register_test_mutex (register_test_threads (register_test_memory (register_test_cpu
    (register_test_fileio prepare cleanup [])))).

(** The list [main] searches and the names [print_help] prints. *)
Definition main_tests (prepare cleanup : Z) : list Main.sb_test_t := map def (register_tests prepare cleanup).
Definition help_names (prepare cleanup : Z) : list (string * string) :=
  map (fun t => (Main.t_sname (def t), lname t)) (register_tests prepare cleanup).

(** ** What they offer *)

(** Every compiled-in test is found under its own name and no other. *)
Lemma find_test_builtin prepare cleanup name t :
  Main.find_test (main_tests prepare cleanup) name = Some t <->
  In t (main_tests prepare cleanup) /\ Main.t_sname t = name.
Proof.
  unfold Main.find_test. cbn -[String.eqb]. split.
  - intros H. repeat match type of H with
    | context [String.eqb ?a name] => destruct (String.eqb_spec a name) as [<-|?]; [injection H as <-; split; [tauto|done]|]
    end. discriminate H.
  - intros [[<-|[<-|[<-|[<-|[<-|[]]]]]] <-]; reflexivity.
Qed.

(** The commands of a compiled-in test: help and run for all, prepare and cleanup
    for fileio alone, no query generator, and no other. *)
Theorem builtin_commands custom run prepare cleanup t cmd :
  In t (main_tests prepare cleanup) ->
  Main.dispatch custom run false t cmd =
    if String.eqb cmd "help" then (Main.EXIT_SUCCESS, Some Main.PrintTestOptions)
    else if String.eqb cmd "run" then
      ((if run t =? 0 then Main.EXIT_SUCCESS else Main.EXIT_FAILURE), Some Main.CallRun)
    else if String.eqb (Main.t_sname t) "fileio" && String.eqb cmd "prepare" then (prepare, Some Main.CallPrepare)
    else if String.eqb (Main.t_sname t) "fileio" && String.eqb cmd "cleanup" then (cleanup, Some Main.CallCleanup)
    else (Main.EXIT_FAILURE, None).
Proof.
  cbn. intros Ht. unfold Main.dispatch, Main.builtin.
  destruct (String.eqb_spec cmd "help") as [->|?];
    [by destruct Ht as [<-|[<-|[<-|[<-|[<-|[]]]]]]|].
  destruct (String.eqb_spec cmd "prepare") as [->|?];
    [by destruct Ht as [<-|[<-|[<-|[<-|[<-|[]]]]]]|].
  destruct (String.eqb_spec cmd "cleanup") as [->|?];
    [by destruct Ht as [<-|[<-|[<-|[<-|[<-|[]]]]]]|].
  destruct (String.eqb cmd "run"); [done|].
  destruct (String.eqb cmd "qgen"); by destruct Ht as [<-|[<-|[<-|[<-|[<-|[]]]]]].
Qed.

(** ** Their options by default *)

(** The options of a test after [parse_test_arguments] for these arguments, and
    its result. *)
Definition options_of (args : list sb_arg_t) (argv : list (option string)) : list option_t * Z :=
  let '(options, _, rc) := parse_test_arguments (fun _ => None) (Some args) argv [] in (options, rc).

Definition initialized {A} (p : parsed A) : bool := match p with POk _ => true | _ => false end.

(** With their default options cpu, memory, threads and mutex initialize, with the
    values their help texts state; fileio does so for prepare and cleanup, and for
    run once --file-test-mode is given. *)
Lemma builtin_defaults :
  cpu_init (fst (options_of cpu_args [])) = POk 10000 /\
  Threads.threads_init (fst (options_of Threads.threads_args [])) = POk (Threads.ThreadsConf 1000 8, 0) /\
  (exists ls, Mutex.mutex_init true (fst (options_of Mutex.mutex_args [])) = POk (Mutex.MutexConf 4096 10000 50000, ls)
    /\ length ls = 4096%nat) /\
  initialized (memory_init (fun _ _ size => Some (replicate (Z.to_nat (size / 8)) 7)) (fun _ _ => false)
    (fun _ _ => None) 4096 true (fst (options_of memory_args [])) two_threads) = true /\
  let fileio cmd argv := initialized (parse_arguments (fun _ => d_of_Z 1) (fun _ => true) (fun _ => (0, 0))
    (fst (options_of fileio_args argv)) cmd 2 0 MODE_READ) in
  fileio "prepare"%string [] = true /\ fileio "cleanup"%string [] = true /\ fileio "run"%string [] = false /\
  fileio "run"%string [Some "--file-test-mode=rndrw"%string] = true.
Proof.
  split; [vm_compute; reflexivity|]. split; [vm_compute; reflexivity|].
  split; [eexists; split; vm_compute; reflexivity|]. split; [vm_compute; reflexivity|].
  cbv zeta. split_and!; vm_compute; reflexivity.
Qed.

(** ** The cpu test from its options to its report *)

Section cpu.
Context (options : list option_t).

(** The static variable [max_prime]: 0 before [cpu_init] has stored it. *)
Definition max_prime : Z := match cpu_init options with POk m => m | _ => 0 end.

(** The state is what the code does not keep, the number of primes that each
    event so far has counted.  [cpu_next_event] never stops; the loops of an event
    make fewer than [max_prime] rounds. *)
Definition cpu_next_event (_ : nat) (s : list Z) : option unit * list Z := (Some tt, s).
Definition cpu_event (_ : unit) (_ : nat) (s : list Z) : Z * list Z :=
  match cpu_execute_event (Z.to_nat max_prime) max_prime with
  | Some (rc, n) => (rc, s ++ [n])
  | None => (1, s)
  end.

Definition cpu_operations : test_operations (list Z) unit unit :=
  TestOperations _ _ _ None cpu_next_event cpu_event None (fun _ st => (inr 0, st)) None.

Definition cpu_rops : SbRun.sb_operations_t (list Z) :=
  SbRun.Operations _ (Some (fun s => (b2z (negb (initialized (cpu_init options))), s))) None (Some (fun s => s)) None
    (Some (fun s => s)).

Context (m : Z) (Hm : cpu_init options = POk m).

Lemma max_prime_value : max_prime = m /\ 0 < m < 2 ^ 31.
Proof using Hm.
  unfold max_prime. rewrite Hm. split; [done|]. unfold cpu_init in Hm. parse_inv. injection Hm as <-.
  pose proof (opt_to_int_range _ _ _ E) as Hr. unfold is_s32 in Hr. rewrite u32_small by (unfold is_u32; lia). lia.
Qed.

Lemma cpu_event_counts e i s : cpu_event e i s = (0, s ++ [primes_from 3 (m - 3)]).
Proof using Hm.
  unfold cpu_event, cpu_execute_event. destruct max_prime_value as [-> Hr]. by rewrite count_primes_spec by lia.
Qed.

Lemma cpu_steady : steady_test cpu_operations.
Proof using Hm.
  split; [done|by eexists _, _|]. intros e i s. cbn [cpu_operations t_execute_event]. by rewrite cpu_event_counts.
Qed.

Lemma cpu_cooperative : cooperative cpu_rops cpu_operations.
Proof using Hm. split; [|done..]. intros s. cbn. by rewrite Hm. Qed.

(** After [k] events. *)
Definition counted (s : list Z) (k : Z) : Prop := 0 <= k /\ s = replicate (Z.to_nat k) (primes_from 3 (m - 3)).

Lemma cpu_tracks : tracks cpu_operations counted.
Proof using Hm.
  split; [done| |done]. intros e i s k [Hk ->]. cbn [cpu_operations t_execute_event]. rewrite cpu_event_counts.
  split; [lia|]. cbn [snd]. rewrite Z2Nat.inj_add, replicate_add by lia. done.
Qed.

Context (log exp : dbl -> dbl) (n size rows : nat) (order : list nat) (start : timespec)
  (draws : nat -> Z * Z * Z * Z) (clock : nat -> timespec).

Lemma cpu_first w :
  ready log n size rows w ->
  test (first_bench cpu_rops cpu_operations order start draws [] w) = [] /\
  summed executed (workers (first_bench cpu_rops cpu_operations order start draws [] w)) = 0.
Proof using Hm.
  intros Hw. unfold first_bench.
  destruct (start_ready log cpu_rops cpu_operations n size rows order start [] w cpu_cooperative Hw) as (s' & t & E).
  rewrite E. cbn [snd test workers]. split.
  - apply (f_equal (fun r => fst (snd r))) in E. cbn [fst snd] in E. rewrite <- E. unfold start_workers.
    assert (F : forall st, foldl (init_worker cpu_operations) st order = st)
      by (intros st; clear; induction order as [|i l IH]; [done|apply IH]). rewrite F. unfold before_barrier. cbn [fst snd].
    by destruct (Startup.threads_started_callback _ _).
  - unfold summed. rewrite map_map. apply sumZ_map_zero. intros i. unfold new_worker.
    by destruct (draws i) as [[[? ?] ?] ?].
Qed.

(** C3: The cpu test from its options to its report.  When [cpu_init] accepts the
    options, a benchmark with --events=N and without --report-checkpoints can be run
    to its end, and however the steps of the workers and the intermediate reports
    interleave, at its end [run_test] returns 0, the final report counts N events, and each of the N events has counted exactly the
    primes from 3 up to the limit of the options, not included. *)
Theorem cpu_benchmark w :
  ready log n size rows w -> no_checkpoints w ->
  (exists sched b ended, run_workers log exp cpu_operations sched
     (first_bench cpu_rops cpu_operations order start draws [] w) = Some (b, ended) /\ all_exited b = true) /\
  (forall sched b ended,
     run_workers log exp cpu_operations sched (first_bench cpu_rops cpu_operations order start draws [] w) = Some (b, ended) ->
     all_exited b = true ->
     exists stat w',
       SbRun.run_test exp cpu_rops (bench_surroundings log exp cpu_operations order start draws sched clock) [] w
         = Reported (0, Some stat, replicate (Z.to_nat (max_events (globals w))) (primes_from 3 (m - 3))) w' /\
       st_events stat = max_events (globals w)).
Proof using Hm.
  intros Hw Hck. split; [eapply steady_completes; [exact cpu_steady|exact cpu_cooperative|exact Hw|exact Hck]|].
  intros sched b ended Hrun Hall.
  destruct (steady_report log exp cpu_rops cpu_operations n size rows order start draws clock [] w sched b ended
    cpu_steady cpu_cooperative Hw Hck Hrun Hall) as (Hend & stat & w' & E & Hst).
  exists stat, w'. split; [|done]. rewrite E. do 2 f_equal.
  destruct (cpu_first w Hw) as [H1 H2].
  pose proof (first_steady log cpu_rops cpu_operations n size rows order start draws [] w cpu_cooperative eq_refl Hw) as H0.
  assert (Hd : default_loop (first_bench cpu_rops cpu_operations order start draws [] w)) by by eapply steady_default.
  pose proof (run_tracks log exp cpu_operations counted cpu_tracks sched _ _ _ 0 Hd Hrun) as Ht. rewrite H1, H2, (executed_exited b Hall) in Ht.
  destruct Ht as [_ Hs]; [done|]. cbn [after_report cpu_rops]. rewrite <- Hend.
  unfold after_report. cbn. rewrite Hs. f_equal. lia.
Qed.
End cpu.

(** Of 3 and 4 one is prime. *)
Definition options_5 : list option_t := fst (options_of cpu_args [Some "--cpu-max-prime=5"%string]).

Lemma options_5_limit : cpu_init options_5 = POk 5.
Proof. vm_compute. reflexivity. Qed.

Lemma primes_below_5 : primes_from 3 (5 - 3) = 1.
Proof.
  pose proof (cpu_event_counts options_5 5 options_5_limit tt 0%nat []) as E. vm_compute (cpu_event _ _ _ _) in E.
  injection E as E. by rewrite <- E.
Qed.

Lemma cpu_benchmark_witness :
  exists b, run_workers (fun x => x) (fun x => x) (cpu_operations options_5) example_schedule
      (first_bench (cpu_rops options_5) (cpu_operations options_5) [1; 0]%nat (Timespec 0 0) (fun _ => (1, 2, 3, 4)) []
         example_start) = Some (b, [0; 1; 0]%nat) /\
  exists stat w',
    SbRun.run_test (fun x => x) (cpu_rops options_5)
      (bench_surroundings (fun x => x) (fun x => x) (cpu_operations options_5) [1; 0]%nat (Timespec 0 0) (fun _ => (1, 2, 3, 4))
         example_schedule (fun _ => Timespec 1 0)) [] example_start = Reported (0, Some stat, [1; 1; 1]) w' /\
    st_events stat = 3.
Proof.
  eexists. split; [vm_compute; reflexivity|].
  pose proof (fun sched b ended => proj2 (cpu_benchmark options_5 5 options_5_limit (fun x => x) (fun x => x) 2 2 3
    [1; 0]%nat (Timespec 0 0) (fun _ => (1, 2, 3, 4)) (fun _ => Timespec 1 0) example_start example_ready
    eq_refl) sched b ended) as H.
  rewrite primes_below_5 in H. refine (H example_schedule _ [0; 1; 0]%nat _ _); vm_compute; reflexivity.
Defined.
